(* ===== verification/_CoqProject ===== *)
-Q . S2P
Prelude.v
GoLib.v
Json.v
Models.v
Http.v
Connectors.v
Cache.v
Director.v
Scripted.v
DirectorPlans.v
PlanTheorems.v
XrayTheorems.v
RunTheorems.v
Kube.v
Total.v
K8sPods.v
MayastorClient.v
GoTime.v
K8sLib.v
K8sApps.v
DirectorLib.v
ScriptedCluster.v
K8sTheorems.v
WorkloadList.v
WorkloadMonitor.v
WmTheorems.v
AgentClient.v
WmLib.v
TestCommon.v
ConductorTheorems.v
WaitTheorems.v
Scenarios.v
ScenarioTheorems.v
LogMonitor.v
LogTheorems.v
Shell.v
AgentServer.v
AgentTheorems.v
Session.v
ControlPlane.v
CpTheorems.v
E2ENodes.v
E2EPods.v
E2EUtil.v
E2EPvc.v
E2ECleanup.v
E2ETest.v
E2EDemo.v
E2ETheorems.v
E2EBuilders.v
BuilderTheorems.v
K8sInstall.v
InstallTheorems.v
Suites.v
NodeFailure.v
NodeShutdown.v
MsnShutdown.v
SuiteTheorems.v
NodeTheorems.v
SuiteDemo.v
SuiteLib.v
PrimitiveVolumes.v
ClaimSuites.v
PoolSuites.v
FaultSuites.v
LoadSuites.v
InjectSuites.v
SoakSuite.v
Movers.v
VolumeTheorems.v
FaultTheorems.v
VolumeDemo.v
Rest.v
RestClient.v
RestTheorems.v
Composition.v
WmRest.v
RestDemo.v
CsiSuites.v
CsiTheorems.v
