(* ===== verification/Prelude.v ===== *)
(** * The Mayastor extended test framework: a verification development

    ** The program

    The extended test framework (src/src/tools/extended-test-framework) drives long
    tests of a Mayastor storage cluster.  Its parts are separate processes.

    - The test director is a REST server.  It keeps test plans, test runs and events in
      three caches and mirrors them in Jira, Xray and Slack.
    - The workload monitor is a REST server and a poller.  The conductor registers pods
      with it; it looks at the cluster every ten seconds and sends the director a FAIL
      event when a pod restarts, ends or disappears.
    - The test conductor runs one scenario: it creates volumes and the pods that load
      them, perturbs the cluster (through the agents on the nodes, the control plane or
      gRPC), watches the health of volumes, nodes and pools, and reports a test run and
      its events to the director.  Its exit code is the verdict.
    - The common libraries talk to Kubernetes, to the Mayastor control plane, to the
      Mayastor daemons and to the agents on the nodes (src/src/common/mayastorclient and
      src/src/common/e2e-agent are shared with the other end-to-end tests).
    - The log monitor follows the logs of the fluentd pods and is to post an event to the
      director for the lines that report an error or a warning.

    Beside it the repository has the end-to-end tests proper: suites that run in one test
    process on the libraries under src/src/common.

    - e2e_config loads the configuration once and is asked for it everywhere; controlplane
      chooses an implementation of the control plane by the configured version and talks to
      it through the kubectl plugin and a REST server.
    - k8stest makes pods, volumes and deployments, waits for them, checks before and after
      every test that the cluster is as it was found, and cleans it up; k8sinstall installs
      and removes the product.
    - The agent (src/tools/e2e-agent) runs on every node and carries out commands that the
      tests send it over HTTP: packet filter rules, device states, reboots, commands.

    ** How it is modelled

    A Go function becomes a value of [prog S A] (this file): a sequence of atomic actions
    on the state [S] of its process that ends in a result, in a panic with its reason, or
    for want of fuel.  [run] executes one program; [pool_step] interleaves several, so
    that one definition of a handler serves the sequential theorems and those about
    goroutines.  A Go error is [error], an optional value; a nil pointer is [None] and
    reading it ([deref]) panics; an index out of range panics; integers are [Z] with
    [wrap64] where a count can wrap; the order in which Go ranges over a map is chosen by
    the environment ([MapRange]) and only known to be a permutation.

    Everything the sources only call is a parameter, a type class over the type [W] of
    the environment, which the state carries ([HasWorld]): the clock, HTTP, the clients of
    Kubernetes and gRPC, the generated REST clients, gjson, go-cache, swag and strfmt.
    Where a theorem needs to know something of them, that is a class of laws or a record of
    hypotheses beside it, which states documented behaviour; Scripted.v, ScriptedCluster.v and
    the Demo files give instances and carry the examples and the witnesses.

    What can fail is not assumed to succeed.
    - The network between a client and a server (RestClient.v) is a parameter: [Transport]
      says what becomes of a request, and its one law, [Connection], that the server serves it
      at most once and that a response is the one the server wrote.  Requests may be lost, and
      answers after the request was served; [holds] and [fails] name the two cases for one
      call, so that a theorem says which of them it needs.  The state after a call whose answer
      did not come is that in which the server has done with the request.  Setting the time-out
      of a request can fail as its other parts can ([ClientRequest]).
    - A machine of the cloud ([PowerLaws]): a request to switch it that is answered with an
      error may have had its effect or not; one answered without an error has had it.
    - The packet filter ([Firewall]): commands may fail, and then nothing is known of the
      rules after them; one that succeeds inserts or deletes the rule it names.
    - The cluster as the CSI tests see it ([creation]): what the API says that it made is
      there, until a request deletes it.

    ** Files

    Shared:
    - Prelude.v: programs, loops, their sequential and interleaved semantics, invariants
      ([keeps]), triples, and the tactics that go with them.
    - GoLib.v: errors, strings, integers, environment, clock.  Json.v: JSON values,
      encoding/json decoding rules, a parser.  Http.v: net/http.  Total.v: rules for
      routines that come back whatever the environment answers.

    Test director:
    - Models.v: models/*.go, the structs, their JSON and their validation.
    - Connectors.v: connectors/jira.go, xray/*.go, slack.go.
    - Cache.v: handlers/*_cache.go, the state [Director] and the three caches.
    - Director.v: handlers/*.go; [serve] is the routing of
      restapi/configure_test_framework.go, [director_main] and [server_main] the start.
    - DirectorPlans.v: the lemmas about plans; PlanTheorems.v, RunTheorems.v,
      XrayTheorems.v: the theorems.

    Common libraries:
    - Kube.v: the Kubernetes objects and their client.  K8sPods.v: k8sclient/lib_pod.go.
      K8sLib.v: custom_resources/util.go, mini_mcp_client, lib_nodes.go, storage classes.
      K8sApps.v: volumes, fio pods, pools, replicas.  MayastorClient.v:
      src/src/common/mayastorclient.  AgentClient.v: src/src/common/e2e-agent/client.go.
      GoTime.v: time.ParseDuration.  DirectorLib.v: test_director_lib.go.
    - K8sTheorems.v: the theorems.

    Workload monitor:
    - WorkloadList.v: list/workload_list.go, the two-level map; WorkloadMonitor.v: handlers/*.go,
      wm/*.go, [wm_serve]; WmTheorems.v: the theorems.

    Test conductor:
    - WmLib.v: tc/workload_monitor_lib.go and tc/config.go; TestCommon.v:
      tests/test_common.go; Scenarios.v: the five scenarios, RunTests, tc and main.
    - ConductorTheorems.v, WaitTheorems.v, ScenarioTheorems.v: the theorems.

    Log monitor:
    - LogMonitor.v: log_monitor, with the goroutines of main; LogTheorems.v: the theorems.

    End-to-end tests:
    - Shell.v: os/exec and files.  AgentServer.v: src/tools/e2e-agent, [agent_serve] being
      its routes; AgentTheorems.v composes it with the client.
    - Session.v: the variables of the test process ([Session]) and common/e2e_config.
      ControlPlane.v: common/controlplane, [ControlPlaneInterface] with its one
      implementation [CPv1_methods] and the choice of it; CpTheorems.v: the theorems.
    - Kube.v: the rest of the Kubernetes API.  common/k8stest: E2ENodes.v (nodes, msv.go,
      msn.go, msp.go), E2EPods.v (test pods), E2EUtil.v (util.go), E2EPvc.v (claims,
      volumes, replicas), E2ECleanup.v (util_cleanup.go), E2ETest.v (test.go, restarts);
      E2EDemo.v: a scripted cluster; E2ETheorems.v: the theorems.
    - E2EBuilders.v: the builders of containers, volumes, pod templates and deployments,
      with a store of the maps they share ([Maps]); BuilderTheorems.v: the theorems.
    - K8sInstall.v: common/k8sinstall and common/locations, with the goroutines of a removal
      on one shared error variable ([Gang]); InstallTheorems.v: the theorems.

    End-to-end suites (src/src/tests):
    - Suites.v: the state of a suite ([Suite]: the session, the maps it shares, the machines,
      its own variables), the assertions of gomega, and common/platform.  NodeFailure.v,
      NodeShutdown.v, MsnShutdown.v: the suites that switch machines off;
      SuiteTheorems.v, NodeTheorems.v: the theorems; SuiteDemo.v: their scripted cluster.
    - SuiteLib.v: the members of the configuration that one suite reads and what the
      suites about volumes share, the goroutines of k8stest.CreatePvc and DeletePvc
      among it ([VolumeSlots] holds the slots they fill).  PrimitiveVolumes.v
      (primitive_volumes, primitive_max_volumes_in_pool), ClaimSuites.v (MQ-2632, MQ-2644,
      primitive_fuzz_msv), PoolSuites.v (primitive_msp_stress, primitive_msp_state),
      FaultSuites.v (MQ-2307, MQ-1498, MQ-2219), LoadSuites.v (maximum_vols_io,
      basic_volume_io, msv_rebuild, ER1-203), InjectSuites.v (MQ-1783,
      primitive_fault_injection), SoakSuite.v (io_soak).  The tests themselves are the
      definitions whose names end in [_It].
    - CsiSuites.v (src/src/tests/csi: the driver, the test suites and the six tests, whose
      deferred clean-ups are a stack in the state); CsiTheorems.v: the theorems.
    - Movers.v: goroutines whose actions can be swapped, and the order that they can be put
      in.  VolumeTheorems.v, FaultTheorems.v: the theorems; VolumeDemo.v: their
      scripted cluster.

    REST (test_director/restapi, workload_monitor/swagger, common/td, common/wm):
    - Rest.v: the director's server between the wire and the handlers; RestClient.v: the
      generated client, with the connection of the two as a parameter; WmRest.v: the same of
      the monitor.
      RestTheorems.v: the theorems about the director; RestDemo.v: concrete instances.
    - Composition.v: the poller of the monitor and the reports of the conductor connected to
      the director through that client ([Delivers]: the sender's environment is the director).

    ** Theorems

    - Director, plans: one active plan at most after any sequence of requests; what PUT
      and DELETE do on each branch; two PUTs at once can leave two active plans; a wrong
      issue type panics.
    - Director, runs and events: the state machine of a run and when a move is accepted;
      what is stored survives the JSON encoding; an event adds its text and never the
      FAILED status; the plan a finished run completes; events about unknown runs panic.
    - Composition: a workload that the monitor drops has been reported to the director;
      what a reported status leads to, over connections that lose requests and answers; the
      failure of a run that has not started is lost.
    - Xray: rejections are swallowed, lost connections panic.
    - REST: a call of a client is the request served by the handler when it is valid and the
      connection holds, and an error that changes nothing when it is not valid; what an error
      means when the connection does not hold; an event is in the director when no error is
      reported, and sending one never brings the sender down; a pod that is registered is in
      the monitor's list, and may be when the registration failed with the connection; a run
      cannot be deleted.
    - Workload monitor: mutual exclusion of requests and polls, items filed under their
      own keys in every interleaving, refinement of the two-level map to a flat map,
      silence on healthy workloads, false reports when the cluster does not answer.
    - Libraries: pod waits come back and are right; retries with backoff; node lists;
      what pool creation and replica removal do not report.
    - Conductor: exit code, reports, durations, devices to restore, volume waits (one of
      them endless), faulted volumes reported once, the error channel that never blocks,
      comparison of pools, retries that cannot succeed, registration that panics.
    - Log monitor: which lines are sent, which pods are followed, and that no event is ever
      posted, because the runs are read in another shape than the director writes.
    - Agent: a block of traffic and its removal, when both succeed, leave the packet filter as
      it was, and what a failed block leaves; a request about a device is one command or none.
    - Control plane: a volume is read back member for member exactly when its numbers are in
      range, the space of a pool, the recogniser of
      'not found' answers against its regular expression, the node list of a volume, the
      choice of the implementation for good, panics on volumes that are being created.
    - End-to-end helpers: what a clean check has seen, the set-up, a wait that ends, errors
      that are not reported.
    - Builders: the maps of a template are its own, those of a deployment are not; a refused
      part refuses the whole; a container is built exactly from calls that were in order.
    - Installation: what success means, step by step from the first state to the last, the
      order of the files, errors of the goroutines that are real and one that is lost.
    - Suites: machines that are switched off are on again in the end, as far as the requests
      to switch them on succeed; a passing shutdown test
      has seen the volume follow its application; volumes made by goroutines at once are made
      as if one after the other; removals that fail and are not noticed; the monitor of the
      soak test comes back, and without an error only when every load was seen to succeed;
      capacities that are not checked; a faulty device that is never removed, through the
      agent that is sent the request; a CSI test that passes has deleted what it made, one of
      any kind whose first set-up fails deletes nothing, and the option to put pods on one node has no effect.

    ** Fuel

    Loops that count have the rounds of the source as fuel, and the theorems show that
    these are enough ([DeletePod], [WaitForPodReady], [waitForVolumeNotOnline]).  Loops
    that end when the clock says so, or never (the poller, MonitorCRs, the rounds of the
    perturbation and elimination tests, waitForVolumeStatus, WaitPodNotRunning,
    WaitTestDirector), take their fuel as an argument; safety theorems hold for every
    fuel, and those that promise a result say how much is enough.  [WaitPodComplete] needs
    the timeout divided by the sleep, and two rounds more; the other waits of the end-to-end
    helpers count their rounds.  The monitor of io_soak takes its fuel as an argument and two
    rounds more than it takes for all loads to end are enough; the jobs of io_soak are queued
    in as many rounds as there are jobs, and one more.  The waits of the CSI tests poll with
    fuel as an argument.  Goroutines that are joined
    ([testVolumes], [run_gang], [go_all]) run under a schedule that is an argument: a schedule that does not bring all of them to
    their end leaves the caller blocked, as the join would.

    ** Not modelled

    Logging; texts of errors where the source prints a struct; the director's
    configuration files and logger; signal handlers and HTTP servers; what go-swagger
    generates besides the operations (servers, embedded specifications, builders of URLs);
    protobuf and clientset code; the construction of Kubernetes clients (lib_deploy.go,
    k8s_client.go, SetupTestEnvBasic); the scripts that generate yaml files; the suites under
    src/src/tests whose code is in their _test.go files alone.  Helpers that are there twice
    (util_pod.go and util_testpods.go of k8stest, common/custom_resources and that of the
    framework, the models that servers and clients have each, the helpers that suites copy
    from one another) are modelled once.  A body on the wire is the JSON value it denotes;
    the router and the error responder of go-openapi are parameters ([OpenApi]), of which
    it is assumed that an id of letters, digits and dashes comes through a path as it is and
    that a request that is refused is not answered with 200.  A handler that is still at work
    while the client that gave up on it goes on is not modelled: the call ends when the handler
    has.  The connection between the tests and an agent delivers, in the one theorem that is
    about both (AgentTheorems.v).  Reads and writes of a shared
    variable are single steps: the races of k8sinstall are modelled as interleavings of them.

    ** Next

    Termination of MonitorCRs and of the scenarios under a clock that advances; soundness of
    MkPVC; the reading of converted durations in general; the other suites under
    src/src/tests. *)

From stdpp Require Import base gmap strings list pretty numbers.

Declare Scope go_scope.
Delimit Scope go_scope with go.

(** ** Programs

    A Go function body becomes a value of [prog S A]: a sequence of atomic
    actions on a shared state [S], ending in a result of type [A].  An action
    that answers [None] is blocked (a mutex that is held).  Because the actions
    are explicit, one definition of a handler serves both the sequential
    semantics ([run]) and the interleaving of several goroutines ([pool_step]). *)

Inductive prog (S A : Type) : Type :=
| Done (a : A)
| Panic (why : string)
| NoFuel
| Act {X : Type} (f : S → option (X * S)) (k : X → prog S A).
Arguments Done {S A} a.
Arguments Panic {S A} why.
Arguments NoFuel {S A}.
Arguments Act {S A X} f k.

Fixpoint prog_bind {S A B} (p : prog S A) (k : A → prog S B) : prog S B :=
  match p with
  | Done a => k a
  | Panic why => Panic why
  | NoFuel => NoFuel
  | Act f k' => Act f (λ x, prog_bind (k' x) k)
  end.

#[export] Instance prog_mret S : MRet (prog S) := @Done S.
#[export] Instance prog_mbind S : MBind (prog S) := λ A B k p, prog_bind p k.

(** The outcome of a sequential execution. *)
Inductive outcome (A : Type) : Type :=
| Ret (a : A)
| Panicked (why : string)
| Exhausted
| Blocked.
Arguments Ret {A} a.
Arguments Panicked {A} why.
Arguments Exhausted {A}.
Arguments Blocked {A}.

Fixpoint run {S A} (p : prog S A) (s : S) : outcome A * S :=
  match p with
  | Done a => (Ret a, s)
  | Panic why => (Panicked why, s)
  | NoFuel => (Exhausted, s)
  | Act f k =>
      match f s with
      | Some (x, s') => run (k x) s'
      | None => (Blocked, s)
      end
  end.

(** Reading, updating and transforming the state in one atomic action. *)
Definition action {S A} (f : S → A * S) : prog S A := Act (λ s, Some (f s)) Done.
Definition reads {S A} (f : S → A) : prog S A := action (λ s, (f s, s)).
Definition updates {S} (f : S → S) : prog S unit := action (λ s, (tt, f s)).
Definition guarded {S A} (f : S → option (A * S)) : prog S A := Act f Done.

(** Dereferencing a Go pointer. *)
Definition nil_deref : string :=
  "invalid memory address or nil pointer dereference".
Definition deref {S A} (p : option A) : prog S A :=
  match p with Some a => Done a | None => Panic nil_deref end.

(** ** Loops *)

(** How the body of a loop ends: go round again or leave the loop, both with the
    new values of the loop's variables, or return from the function. *)
Inductive ctl (B R : Type) : Type :=
| Next (b : B)
| Break (b : B)
| Return (r : R).
Arguments Next {B R} b.
Arguments Break {B R} b.
Arguments Return {B R} r.

(** [for _, x := range l]; [inl] when the loop is left, [inr] when the function
    returned from inside it. *)
Fixpoint for_range {S A B R} (l : list A) (b : B)
    (body : A → B → prog S (ctl B R)) : prog S (B + R) :=
  match l with
  | [] => mret (inl b)
  | x :: l' =>
      c ← body x b;
      match c with
      | Next b' => for_range l' b' body
      | Break b' => mret (inl b')
      | Return r => mret (inr r)
      end
  end.

(** [for i := first; ; i++] with [fuel] rounds. *)
Fixpoint for_fuel {S B R} (fuel : nat) (i : Z) (b : B)
    (body : Z → B → prog S (ctl B R)) : prog S (B + R) :=
  match fuel with
  | O => NoFuel
  | S fuel' =>
      c ← body i b;
      match c with
      | Next b' => for_fuel fuel' (i + 1)%Z b' body
      | Break b' => mret (inl b')
      | Return r => mret (inr r)
      end
  end.

(** [for i := first; i < last; i++]. *)
Definition for_upto {S B R} (first last : Z) (b : B)
    (body : Z → B → prog S (ctl B R)) : prog S (B + R) :=
  for_range (seqZ first (last - first)) b body.

(** A loop with no [return] inside. *)
Definition no_return {S B} (r : B + Empty_set) : prog S B :=
  match r with inl b => mret b | inr v => match v with end end.

(** ** Execution lemmas *)

Definition seq_run {S A B} (r : outcome A * S) (k : A → prog S B) : outcome B * S :=
  match r with
  | (Ret a, s) => run (k a) s
  | (Panicked why, s) => (Panicked why, s)
  | (Exhausted, s) => (Exhausted, s)
  | (Blocked, s) => (Blocked, s)
  end.

Lemma run_bind {S A B} (p : prog S A) (k : A → prog S B) s :
  run (p ≫= k) s = seq_run (run p s) k.
Proof.
  unfold mbind, prog_mbind. revert s.
  induction p as [a|why| |X f k' IH]; intros s; simpl; try done.
  destruct (f s) as [[x s']|]; [apply IH | done].
Qed.

Lemma run_done {S A} (a : A) (s : S) : run (mret a) s = (Ret a, s).
Proof. done. Qed.
Lemma run_action {S A} (f : S → A * S) s : run (action f) s = (Ret (f s).1, (f s).2).
Proof. unfold action; simpl. by destruct (f s). Qed.
Lemma run_reads {S A} (f : S → A) s : run (reads f) s = (Ret (f s), s).
Proof. done. Qed.
Lemma run_updates {S} (f : S → S) s : run (updates f) s = (Ret tt, f s).
Proof. done. Qed.
Lemma run_deref_Some {S A} (a : A) (s : S) : run (deref (Some a)) s = (Ret a, s).
Proof. done. Qed.

Create HintDb go_run discriminated.
#[export] Hint Rewrite @run_bind @run_done @run_action @run_reads @run_updates
  @run_deref_Some : go_run.

(** Symbolic execution of a program: unfold the monad, keep the results of
    opaque calls as they are. *)
Ltac go_simpl := repeat (autorewrite with go_run; simpl).

(** Split on the innermost match, [if] or pair the execution is stuck on. *)
Ltac go_case :=
  match goal with
  | |- context [match ?x with _ => _ end] =>
      lazymatch x with
      | context [match _ with _ => _ end] => fail
      | _ => let E := fresh "E" in destruct x eqn:E
      end
  end.

(** A loop whose body always goes round again is a fold. *)
Lemma run_for_range_cons {S A B R} (x : A) l (b : B) (body : A → B → prog S (ctl B R)) s :
  run (for_range (x :: l) b body) s =
  seq_run (run (body x b) s)
    (λ c, match c with
          | Next b' => for_range l b' body
          | Break b' => mret (inl b')
          | Return r => mret (inr r)
          end).
Proof. simpl. by rewrite run_bind. Qed.

Lemma run_for_range_next {S A B R} (l : list A) (b : B)
    (body : A → B → prog S (ctl B R)) (f : B * S → A → B * S) s :
  (∀ x b s, x ∈ l → run (body x b) s = (Ret (Next (f (b, s) x).1), (f (b, s) x).2)) →
  run (for_range l b body) s =
  (Ret (inl (foldl f (b, s) l).1), (foldl f (b, s) l).2).
Proof.
  revert b s. induction l as [|x l IH]; intros b s Hbody; [done|].
  rewrite run_for_range_cons, Hbody by set_solver. simpl.
  rewrite IH by set_solver. by destruct (f (b, s) x).
Qed.

(** ** Invariants of single actions and of interleavings *)

(** [keeps I p]: every atomic action of [p] keeps [I], whatever ran before it. *)
Fixpoint keeps {S A} (I : S → Prop) (p : prog S A) : Prop :=
  match p with
  | Act f k => (∀ s x s', I s → f s = Some (x, s') → I s') ∧ ∀ x, keeps I (k x)
  | _ => True
  end.

Create HintDb keeps discriminated.

Lemma keeps_bind {S A B} (I : S → Prop) (p : prog S A) (k : A → prog S B) :
  keeps I p → (∀ a, keeps I (k a)) → keeps I (p ≫= k).
Proof.
  unfold mbind, prog_mbind. intros Hp Hk.
  induction p; simpl in *; naive_solver.
Qed.

Lemma keeps_mret {S A} (I : S → Prop) (a : A) : keeps I (mret (M:=prog S) a).
Proof. done. Qed.
Lemma keeps_action {S A} (I : S → Prop) (f : S → A * S) :
  (∀ s, I s → I (f s).2) → keeps I (action f).
Proof. intros Hf. split; [|done]. intros s x s' Hs [= Heq].
  specialize (Hf s Hs). by rewrite Heq in Hf. Qed.
Lemma keeps_reads {S A} (I : S → Prop) (f : S → A) : keeps I (reads f).
Proof. by apply keeps_action. Qed.
Lemma keeps_updates {S} (I : S → Prop) (f : S → S) :
  (∀ s, I s → I (f s)) → keeps I (updates f).
Proof. intros. by apply keeps_action. Qed.
Lemma keeps_guarded {S A} (I : S → Prop) (f : S → option (A * S)) :
  (∀ s x s', I s → f s = Some (x, s') → I s') → keeps I (guarded f).
Proof. done. Qed.
Lemma keeps_deref {S A} (I : S → Prop) (p : option A) : keeps I (deref p).
Proof. by destruct p. Qed.
#[export] Hint Resolve keeps_mret keeps_reads keeps_deref : keeps.

Lemma keeps_for_range {S A B R} (I : S → Prop) (l : list A) (b : B)
    (body : A → B → prog S (ctl B R)) :
  (∀ x b, x ∈ l → keeps I (body x b)) → keeps I (for_range l b body).
Proof.
  revert b. induction l as [|x l IH]; intros b Hbody; simpl; [done|].
  apply keeps_bind; [apply Hbody; set_solver|].
  intros [b'|b'|r]; [|done..].
  apply IH. intros; apply Hbody; set_solver.
Qed.

Lemma keeps_for_fuel {S B R} (I : S → Prop) fuel i (b : B)
    (body : Z → B → prog S (ctl B R)) :
  (∀ i b, keeps I (body i b)) → keeps I (for_fuel fuel i b body).
Proof.
  intros Hbody. revert i b.
  induction fuel as [|fuel IH]; intros i b; simpl; [done|].
  apply keeps_bind; [done|]. intros [b'|b'|r]; [apply IH|done..].
Qed.

Lemma keeps_run {S A} (I : S → Prop) (p : prog S A) s :
  keeps I p → I s → I (run p s).2.
Proof.
  revert s. induction p as [| | |X f k IH]; intros s Hp Hs; simpl in *; try done.
  destruct Hp as [Hf Hk]. destruct (f s) as [[x s']|] eqn:E; [|done].
  by eapply IH, Hf.
Qed.

(** Goroutines that share a state: any thread whose next action is not blocked
    may take it. *)
Inductive pool_step {S A} : list (prog S A) * S → list (prog S A) * S → Prop :=
| pool_step_act ts s i X (f : S → option (X * S)) k x s' :
    ts !! i = Some (Act f k) → f s = Some (x, s') →
    pool_step (ts, s) (<[i := k x]> ts, s').

Lemma pool_keeps {S A} (I : S → Prop) (ts ts' : list (prog S A)) s s' :
  rtc pool_step (ts, s) (ts', s') → Forall (keeps I) ts → I s → I s'.
Proof.
  intros Hsteps. remember (ts, s) as c eqn:Ec. remember (ts', s') as c' eqn:Ec'.
  revert ts s Ec. induction Hsteps as [c|c d e Hstep Hsteps IH];
    intros ts s -> Hts Hs; [by simplify_eq|].
  inversion Hstep as [ts1 s1 i X f k x s1' Hi Hf]; simplify_eq.
  assert (Hk : keeps I (Act f k)) by (eapply Forall_lookup_1; eauto).
  destruct Hk as [Hf' Hk].
  eapply IH; [done|done|by apply Forall_insert|by eapply Hf'].
Qed.

(** An executable scheduler: each number names the thread that moves next. *)
Fixpoint pool_run {S A} (sched : list nat) (ts : list (prog S A)) (s : S)
    : option (list (prog S A) * S) :=
  match sched with
  | [] => Some (ts, s)
  | i :: sched' =>
      match ts !! i with
      | Some (Act f k) =>
          match f s with
          | Some (x, s') => pool_run sched' (<[i := k x]> ts) s'
          | None => None
          end
      | _ => None
      end
  end.

Lemma pool_run_sound {S A} sched (ts ts' : list (prog S A)) s s' :
  pool_run sched ts s = Some (ts', s') → rtc pool_step (ts, s) (ts', s').
Proof.
  revert ts s. induction sched as [|i sched IH]; intros ts s Hrun; simpl in Hrun.
  - simplify_eq. apply rtc_refl.
  - destruct (ts !! i) as [[| | |X f k]|] eqn:Ei; try done.
    destruct (f s) as [[x s1]|] eqn:Ef; [|done].
    eapply rtc_l; [by econstructor|by apply IH].
Qed.

(** ** Hoare triples for sequential runs

    [total P p Q]: from a state in [P] the program returns (it neither panics nor
    blocks nor runs out of fuel), and [Q] holds of the result and the final state. *)
Definition total {S A} (P : S → Prop) (p : prog S A) (Q : A → S → Prop) : Prop :=
  ∀ s, P s → ∃ a s', run p s = (Ret a, s') ∧ Q a s'.

(** [triple P p Q E]: from a state in [P] a run that returns ends in [Q], and one
    that panics, blocks or runs out of fuel ends in [E]. *)
Definition triple {S A} (P : S → Prop) (p : prog S A) (Q : A → S → Prop)
    (E : S → Prop) : Prop :=
  ∀ s, P s → match run p s with (Ret a, s') => Q a s' | (_, s') => E s' end.

(** [stable I p]: a sequential run of [p] ends in [I], also when it panics. *)
Definition stable {S A} (I : S → Prop) (p : prog S A) : Prop :=
  triple I p (λ _, I) I.

Lemma triple_bind {S A B} P (p : prog S A) (k : A → prog S B) Q R E :
  triple P p Q E → (∀ a, triple (Q a) (k a) R E) → triple P (p ≫= k) R E.
Proof.
  intros Hp Hk s Hs. specialize (Hp s Hs). rewrite run_bind.
  destruct (run p s) as [[a| | |] s1]; try done. by apply Hk.
Qed.

Lemma triple_weaken {S A} (P P' : S → Prop) (p : prog S A) Q Q' E E' :
  triple P p Q E → (∀ s, P' s → P s) → (∀ a s, Q a s → Q' a s) →
  (∀ s, E s → E' s) → triple P' p Q' E'.
Proof.
  intros Hp HP HQ HE s Hs. specialize (Hp s (HP s Hs)).
  destruct (run p s) as [[a| | |] s1]; auto.
Qed.

Lemma triple_ret {S A} (P : S → Prop) (a : A) (Q : A → S → Prop) E :
  (∀ s, P s → Q a s) → triple P (mret a) Q E.
Proof. intros HQ s Hs. by apply HQ. Qed.

Lemma triple_deref {S A} (P : S → Prop) (x : option A) (E : S → Prop) :
  (∀ s, P s → E s) → triple P (deref x) (λ a s, x = Some a ∧ P s) E.
Proof. intros HE s Hs. destruct x; simpl; auto. Qed.

Lemma triple_keeps {S A} (I : S → Prop) (p : prog S A) :
  keeps I p → triple I p (λ _, I) I.
Proof.
  intros Hp s Hs. pose proof (keeps_run I p s Hp Hs) as Hr.
  by destruct (run p s) as [[] ?].
Qed.

Lemma triple_keeps_weaken {S A} (I E : S → Prop) (p : prog S A) :
  keeps I p → (∀ s, I s → E s) → triple I p (λ _, I) E.
Proof. intros Hp HE. by eapply triple_weaken; [apply triple_keeps| | |]. Qed.

Lemma stable_run {S A} (I : S → Prop) (p : prog S A) s :
  stable I p → I s → I (run p s).2.
Proof.
  intros Hp Hs. specialize (Hp s Hs). by destruct (run p s) as [[] ?].
Qed.

(** Loops: [I] holds before every round, [J] after a [break] and after the last round. *)
Lemma triple_for_range {S A B R} (I J : B → S → Prop) (Q : R → S → Prop) (E : S → Prop)
    (l : list A) b (body : A → B → prog S (ctl B R)) :
  (∀ b s, I b s → J b s) →
  (∀ x b, x ∈ l → triple (I b) (body x b)
     (λ c s, match c with Next b' => I b' s | Break b' => J b' s | Return r => Q r s end) E) →
  triple (I b) (for_range l b body) (λ r s, match r with inl b' => J b' s | inr r => Q r s end) E.
Proof.
  intros HJ. revert b. induction l as [|x l IH]; intros b Hb; simpl.
  - apply triple_ret. auto.
  - eapply triple_bind; [apply Hb; set_solver|].
    intros [b'|b'|r]; [|by apply triple_ret..]. apply IH. intros; apply Hb; set_solver.
Qed.
Lemma triple_for_fuel {S B R} (I J : B → S → Prop) (Q : R → S → Prop) (E : S → Prop)
    fuel i b (body : Z → B → prog S (ctl B R)) :
  (∀ b s, I b s → E s) →
  (∀ i b, triple (I b) (body i b)
     (λ c s, match c with Next b' => I b' s | Break b' => J b' s | Return r => Q r s end) E) →
  triple (I b) (for_fuel fuel i b body)
    (λ r s, match r with inl b' => J b' s | inr r => Q r s end) E.
Proof.
  intros HE Hb. revert i b. induction fuel as [|fuel IH]; intros i b; simpl.
  { intros s Hs. by eapply HE. }
  eapply triple_bind; [apply Hb|]. intros [b'|b'|r]; [apply IH|by apply triple_ret..].
Qed.

(** Decide [keeps] along the structure of a program; calls are left to the hints. *)
Ltac solve_keeps :=
  repeat first
    [ progress intros
    | apply keeps_mret
    | apply keeps_reads
    | apply keeps_deref
    | solve [auto with keeps nocore]
    | apply keeps_bind
    | apply keeps_for_range
    | apply keeps_for_fuel
    | exact I
    | match goal with
      | |- keeps _ (match ?x with _ => _ end) => destruct x
      | |- keeps _ ((match ?x with _ => _ end) _) => destruct x
      | |- keeps _ (let _ := _ in _) => cbv zeta
      end ].

Lemma total_bind {S A B} (P : S → Prop) (p : prog S A) (k : A → prog S B)
    (Q : A → S → Prop) (R : B → S → Prop) :
  total P p Q → (∀ a, total (Q a) (k a) R) → total P (p ≫= k) R.
Proof.
  intros Hp Hk s Hs. destruct (Hp s Hs) as (a & s1 & E & HQ).
  rewrite run_bind, E. by apply Hk.
Qed.

(** [results P p]: whatever the actions of [p] answer, a result it comes back with has
    [P]. *)
Fixpoint results {S A} (P : A → Prop) (p : prog S A) : Prop :=
  match p with
  | Done a => P a
  | Act _ k => ∀ x, results P (k x)
  | _ => True
  end.

Create HintDb results discriminated.

Lemma results_mret {S A} (P : A → Prop) (a : A) : P a → results P (mret (M:=prog S) a).
Proof. done. Qed.
Lemma results_bind {S A B} (Q : A → Prop) (P : B → Prop) (p : prog S A) (k : A → prog S B) :
  results Q p → (∀ a, Q a → results P (k a)) → results P (p ≫= k).
Proof. unfold mbind, prog_mbind. intros Hp Hk. induction p; simpl in *; auto. Qed.
Lemma results_any {S A} (p : prog S A) : results (λ _, True) p.
Proof. induction p; simpl; auto. Qed.
Lemma results_then {S A B} (P : B → Prop) (p : prog S A) (k : A → prog S B) :
  (∀ a, results P (k a)) → results P (p ≫= k).
Proof. intros. apply (results_bind (λ _, True)); auto using results_any. Qed.
Lemma results_run {S A} (P : A → Prop) (p : prog S A) s a s' :
  results P p → run p s = (Ret a, s') → P a.
Proof.
  revert s. induction p as [| | |X f k IH]; intros s Hp E; simpl in *; simplify_eq; try done.
  destruct (f s) as [[x s1]|]; [|done]. by eapply IH.
Qed.
Lemma results_for_range {S A B R} (I J : B → Prop) (Q : R → Prop) (l : list A) (b : B)
    (body : A → B → prog S (ctl B R)) :
  (∀ b, I b → J b) →
  (∀ x b, I b → results (λ c, match c with Next b' => I b' | Break b' => J b'
                                     | Return r => Q r end) (body x b)) →
  I b → results (λ r, match r with inl b' => J b' | inr r => Q r end) (for_range l b body).
Proof.
  intros HJ Hb. revert b. induction l as [|x l IH]; intros b Hi; simpl; [auto|].
  eapply results_bind; [by apply Hb|]. intros [b'|b'|r]; simpl; auto.
Qed.

(** Decide [results] along the structure of a program: what calls answer is any value. *)
Ltac solve_results :=
  repeat first
    [ progress intros
    | apply results_mret; solve [exact I | auto]
    | solve [auto with results nocore]
    | apply results_then
    | match goal with
      | |- results _ (match ?x with _ => _ end) => destruct x
      | |- results _ ((match ?x with _ => _ end) _) => destruct x
      | |- results _ (let _ := _ in _) => cbv zeta
      end ].

(** ** Errors

    A Go [error] is [nil] or a value with a text.  All the code asks of one besides is
    whether the Kubernetes API says that an object is not found or was changed meanwhile,
    and whether a gRPC call ran out of time. *)
Inductive err_kind := Plain | NotFound | DeadlineExceeded | Conflict.
#[export] Instance err_kind_eq_dec : EqDecision err_kind.
Proof. solve_decision. Defined.
Record goerror := GoError { err_text : string; err_is : err_kind }.
#[export] Instance goerror_eq_dec : EqDecision goerror.
Proof. solve_decision. Defined.

Notation error := (option goerror).

Definition errorf (text : string) : error := Some (GoError text Plain).
Definition not_found_error (text : string) : error := Some (GoError text NotFound).

(** [err.Error()]: a nil interface has no method to call. *)
Definition Error {S} (err : error) : prog S string :=
  e ← deref err; mret (err_text e).
(** [%v] and [%s] of an error. *)
Definition fmt_error (err : error) : string :=
  match err with Some e => err_text e | None => "<nil>" end.

(** ** Machine integers *)
Definition wrap32 (z : Z) : Z := ((z + 2 ^ 31) mod 2 ^ 32 - 2 ^ 31)%Z.
Definition wrap64 (z : Z) : Z := ((z + 2 ^ 63) mod 2 ^ 64 - 2 ^ 63)%Z.
Definition uwrap64 (z : Z) : Z := (z mod 2 ^ 64)%Z.

Lemma wrap32_range z : (- 2 ^ 31 ≤ wrap32 z < 2 ^ 31)%Z.
Proof. unfold wrap32. pose proof (Z.mod_pos_bound (z + 2 ^ 31) (2 ^ 32)). lia. Qed.
Lemma wrap32_id z : (- 2 ^ 31 ≤ z < 2 ^ 31)%Z → wrap32 z = z.
Proof. intros. unfold wrap32. rewrite Z.mod_small; lia. Qed.
Lemma wrap64_range z : (- 2 ^ 63 ≤ wrap64 z < 2 ^ 63)%Z.
Proof. unfold wrap64. pose proof (Z.mod_pos_bound (z + 2 ^ 63) (2 ^ 64)). lia. Qed.
Lemma wrap64_id z : (- 2 ^ 63 ≤ z < 2 ^ 63)%Z → wrap64 z = z.
Proof. intros. unfold wrap64. rewrite Z.mod_small; lia. Qed.
Lemma wrap64_add a b : wrap64 (wrap64 a + b) = wrap64 (a + b).
Proof.
  unfold wrap64. f_equal.
  replace ((a + 2 ^ 63) mod 2 ^ 64 - 2 ^ 63 + b + 2 ^ 63)%Z
    with ((a + 2 ^ 63) mod 2 ^ 64 + b)%Z by lia.
  rewrite Z.add_mod_idemp_l by lia. f_equal; lia.
Qed.
Lemma uwrap64_range z : (0 ≤ uwrap64 z < 2 ^ 64)%Z.
Proof. unfold uwrap64. apply Z.mod_pos_bound. lia. Qed.
