(* ===== verification/GoLib.v ===== *)
(** * The Go standard library and the environment

    The parts of [strings], [strconv], [fmt], [net/http] and [time] the sources
    use, and the interfaces to what lies outside the program: the network, the
    clock, and the order in which Go ranges over a map. *)

From stdpp Require Import base gmap strings list pretty numbers.
From Stdlib Require Import Ascii.
From S2P Require Import Prelude.

Open Scope string_scope.
Open Scope stdpp_scope.

(** ** [strings] *)

Definition lower_char (c : ascii) : ascii :=
  let n := N_of_ascii c in
  if ((65 <=? n) && (n <=? 90))%N then ascii_of_N (n + 32) else c.

(** [strings.ToLower] on ASCII text. *)
Fixpoint ToLower (s : string) : string :=
  match s with
  | EmptyString => EmptyString
  | String c s' => String (lower_char c) (ToLower s')
  end.

Definition HasPrefix (s prefix : string) : bool := String.prefix prefix s.

Fixpoint Contains (s sub : string) : bool :=
  String.prefix sub s ||
  match s with EmptyString => false | String _ s' => Contains s' sub end.

(** [strings.ReplaceAll] of a one-character pattern. *)
Fixpoint ReplaceAll (s : string) (c : ascii) (by_ : string) : string :=
  match s with
  | EmptyString => EmptyString
  | String d s' =>
      if decide (d = c) then by_ +:+ ReplaceAll s' c by_
      else String d (ReplaceAll s' c by_)
  end.

(** [strings.Split] at a one-character separator: never empty. *)
Fixpoint Split (s : string) (sep : ascii) : list string :=
  match s with
  | EmptyString => [EmptyString]
  | String c s' =>
      if decide (c = sep) then EmptyString :: Split s' sep
      else match Split s' sep with
           | [] => [String c EmptyString]
           | w :: ws => String c w :: ws
           end
  end.

Fixpoint Join (l : list string) (sep : string) : string :=
  match l with
  | [] => ""
  | [x] => x
  | x :: l' => x +:+ sep +:+ Join l' sep
  end.

(** [strings.TrimRight] of a one-character cutset. *)
Fixpoint TrimRight (s : string) (c : ascii) : string :=
  match s with
  | EmptyString => EmptyString
  | String d s' =>
      match TrimRight s' c with
      | EmptyString => if decide (d = c) then EmptyString else String d EmptyString
      | t => String d t
      end
  end.

Definition strlen (s : string) : Z := Z.of_nat (String.length s).

(** [s[lo:hi]], out of range when the bounds do not satisfy
    [0 <= lo <= hi <= len(s)]. *)
Definition slice_string {S} (s : string) (lo hi : Z) : prog S string :=
  if bool_decide (0 ≤ lo ≤ hi ∧ hi ≤ strlen s)%Z
  then mret (String.substring (Z.to_nat lo) (Z.to_nat (hi - lo)) s)
  else Panic "slice bounds out of range".

(** [l[i]]. *)
Definition index {S A} (l : list A) (i : Z) : prog S A :=
  if bool_decide (0 ≤ i)%Z then
    match l !! Z.to_nat i with
    | Some x => mret x
    | None => Panic "index out of range"
    end
  else Panic "index out of range".

Lemma keeps_slice_string {S} (I : S → Prop) s lo hi : keeps I (slice_string s lo hi).
Proof. unfold slice_string. solve_keeps. Qed.
Lemma keeps_index {S A} (I : S → Prop) (l : list A) i : keeps I (index l i).
Proof. unfold index. solve_keeps. Qed.
#[export] Hint Resolve keeps_slice_string keeps_index : keeps.

(** [strconv.Itoa] and [%d]. *)
Definition Itoa (z : Z) : string := pretty z.

Lemma string_app_assoc (a b c : string) : (a +:+ b) +:+ c = a +:+ (b +:+ c).
Proof.
  induction a as [|x a IH]; [done|].
  change (String x ((a +:+ b) +:+ c) = String x (a +:+ (b +:+ c))). by rewrite IH.
Qed.

(** No character of a string. *)
Fixpoint lacks (c : ascii) (s : string) : Prop :=
  match s with EmptyString => True | String d s' => d ≠ c ∧ lacks c s' end.

Lemma lacks_app c s t : lacks c (s +:+ t) ↔ lacks c s ∧ lacks c t.
Proof.
  unfold String.app. induction s as [|d s IH]; simpl; [tauto|]. rewrite IH. tauto.
Qed.

Lemma lacks_ReplaceAll c s r : lacks c r → lacks c (ReplaceAll s c r).
Proof.
  intros Hr. induction s as [|d s IH]; simpl; [done|].
  case_decide; [by apply lacks_app | done].
Qed.

Lemma lacks_ReplaceAll_other c d s r :
  lacks c s → lacks c r → lacks c (ReplaceAll s d r).
Proof.
  intros Hs Hr. induction s as [|e s IH]; simpl in *; [done|].
  destruct Hs as [? Hs]. case_decide; [apply lacks_app|]; simpl; auto.
Qed.

Lemma ReplaceAll_lacks c s r : lacks c s → ReplaceAll s c r = s.
Proof.
  induction s as [|d s IH]; simpl; [done|]. intros [Hd Hs].
  rewrite decide_False by done. by rewrite IH.
Qed.

Lemma Split_nonempty s sep : Split s sep ≠ [].
Proof. destruct s; simpl; [done|]. case_decide; [done|]. by destruct (Split _ _). Qed.

(** ** The environment

    [W] is the state of everything outside the process: the network and the
    services behind it, the cluster, the clock, the scheduler's choices. *)
Class HasWorld (S W : Type) := {
  world : S → W;
  set_world : W → S → S;
  world_set w s : world (set_world w s) = w;
  set_world_world s : set_world (world s) s = s;
  set_world_set w w' s : set_world w (set_world w' s) = set_world w s;
}.

Definition outside {S W A} `{HasWorld S W} (f : W → A * W) : prog S A :=
  action (λ s, ((f (world s)).1, set_world (f (world s)).2 s)).

Lemma run_outside {S W A} `{HasWorld S W} (f : W → A * W) s :
  run (outside f) s = (Ret (f (world s)).1, set_world (f (world s)).2 s).
Proof. unfold outside. by rewrite run_action. Qed.
#[export] Hint Rewrite @run_outside : go_run.

(** A property that does not look at the environment. *)
Class WorldFree {S W} `{HasWorld S W} (I : S → Prop) : Prop :=
  world_free : ∀ s w, I s → I (set_world w s).

Lemma keeps_outside {S W A} `{HasWorld S W} (I : S → Prop) (f : W → A * W) :
  WorldFree I → keeps I (outside f).
Proof. intros HI. apply keeps_action. simpl. auto. Qed.
#[export] Hint Resolve keeps_outside : keeps.
#[export] Hint Extern 1 (WorldFree _) => typeclasses eauto : keeps.

(** What touches nothing but the environment leaves the rest of the state alone. *)
Definition same_but_world {S W} `{HasWorld S W} (s0 s : S) : Prop :=
  ∃ w, s = set_world w s0.
#[export] Instance same_but_world_free {S W} `{HasWorld S W} (s0 : S) :
  WorldFree (same_but_world s0).
Proof. intros s w [w' ->]. exists w. apply set_world_set. Qed.

Lemma outside_only {S W A} `{HasWorld S W} (s : S) (p : prog S A) :
  keeps (same_but_world s) p → ∃ w, (run p s).2 = set_world w s.
Proof.
  intros Hp. apply (keeps_run _ _ _ Hp). exists (world s). by rewrite set_world_world.
Qed.

(** A program on a part of the state: its actions are actions on that part. *)
Fixpoint lift {T S A} `{HasWorld T S} (p : prog S A) : prog T A :=
  match p with
  | Done a => Done a
  | Panic why => Panic why
  | NoFuel => NoFuel
  | Act f k =>
      Act (λ t, match f (world t) with
                | Some (x, s) => Some (x, set_world s t)
                | None => None
                end) (λ x, lift (k x))
  end.

Lemma run_lift {T S A} `{HasWorld T S} (p : prog S A) (t : T) :
  run (lift p) t = ((run p (world t)).1, set_world (run p (world t)).2 t).
Proof.
  revert t. induction p as [a|why| |X f k IH]; intros t; simpl;
    rewrite ?set_world_world; try done.
  destruct (f (world t)) as [[x s]|] eqn:E; simpl; [|by rewrite set_world_world].
  by rewrite IH, world_set, set_world_set.
Qed.

Lemma keeps_lift {T S A} `{HasWorld T S} (I : T → Prop) (p : prog S A) :
  WorldFree I → keeps I (lift p).
Proof.
  intros HI. induction p as [a|why| |X f k IH]; simpl; try done. split; [|done].
  intros t x t' Ht E. destruct (f (world t)) as [[y s]|]; [|done]. simplify_eq. by apply HI.
Qed.
#[export] Hint Resolve keeps_lift : keeps.

(** The order in which [range] visits a map is not specified and differs from
    one loop to the next. *)
Class MapRange (W : Type) := {
  map_order {A : Type} : gmap string A → W → list (string * A) * W;
  map_order_perm {A : Type} (m : gmap string A) w : (map_order m w).1 ≡ₚ map_to_list m;
}.

Definition range_map {S W A} `{HasWorld S W} `{MapRange W} (m : gmap string A)
    : prog S (list (string * A)) :=
  outside (map_order m).

(** [time.Now] in nanoseconds and [time.Sleep]. *)
Class Clock (W : Type) := {
  clock_now : W → Z * W;
  clock_sleep : Z → W → W;
}.

Definition Millisecond : Z := 1000000.
Definition Second : Z := 1000000000.
Definition Minute : Z := 60 * Second.
Definition Hour : Z := 60 * Minute.

Definition time_Now {S W} `{HasWorld S W} `{Clock W} : prog S Z := outside clock_now.
Definition time_Sleep {S W} `{HasWorld S W} `{Clock W} (d : Z) : prog S unit :=
  outside (λ w, (tt, clock_sleep d w)).

Lemma keeps_range_map {S W A} `{HasWorld S W} `{MapRange W} (I : S → Prop)
    (m : gmap string A) : WorldFree I → keeps I (range_map m).
Proof. apply keeps_outside. Qed.
Lemma keeps_Now {S W} `{HasWorld S W} `{Clock W} (I : S → Prop) :
  WorldFree I → keeps I time_Now.
Proof. apply keeps_outside. Qed.
Lemma keeps_Sleep {S W} `{HasWorld S W} `{Clock W} (I : S → Prop) d :
  WorldFree I → keeps I (time_Sleep d).
Proof. apply keeps_outside. Qed.
#[export] Hint Resolve keeps_range_map keeps_Now keeps_Sleep : keeps.
