(* ===== verification/Json.v ===== *)
(** * JSON values and [encoding/json]

    The value a JSON text denotes, a parser from text to values, and the rules by
    which [encoding/json] fills the fields of a Go struct. *)

From stdpp Require Import base gmap strings list.
From Stdlib Require Import Ascii.
From S2P Require Import Prelude GoLib.

(** Numbers are kept as the literal that was written. *)
Inductive json : Type :=
| JNull
| JBool (b : bool)
| JNum (lit : string)
| JStr (s : string)
| JArr (l : list json)
| JObj (fs : list (string * json)).

(** ** From text to values *)

Definition is_ws (c : ascii) : bool :=
  let n := N_of_ascii c in
  ((n =? 32) || (n =? 9) || (n =? 10) || (n =? 13))%N.

Fixpoint skip_ws (s : string) : string :=
  match s with
  | String c s' => if is_ws c then skip_ws s' else s
  | EmptyString => s
  end.

Definition is_digit (c : ascii) : bool :=
  let n := N_of_ascii c in ((48 <=? n) && (n <=? 57))%N.

Definition is_num_char (c : ascii) : bool :=
  is_digit c || bool_decide (c ∈ ["-"; "+"; "."; "e"; "E"]%char).

Fixpoint span_num (s : string) : string * string :=
  match s with
  | String c s' =>
      if is_num_char c then let '(n, r) := span_num s' in (String c n, r)
      else (EmptyString, s)
  | EmptyString => (EmptyString, s)
  end.

(** The grammar of number literals. *)
Fixpoint drop_digits (s : string) : string :=
  match s with
  | String c s' => if is_digit c then drop_digits s' else s
  | EmptyString => s
  end.
Definition digits1 (s : string) : option string :=
  match s with
  | String c s' => if is_digit c then Some (drop_digits s') else None
  | EmptyString => None
  end.
Definition valid_num (s : string) : bool :=
  let s := match s with String "-"%char s' => s' | _ => s end in
  let int := match s with String "0"%char s' => Some s' | _ => digits1 s end in
  let frac := s ← int; match s with String "."%char s' => digits1 s' | _ => Some s end in
  let exp := s ← frac;
    match s with
    | String ("e"%char | "E"%char) (String ("+"%char | "-"%char) s') => digits1 s'
    | String ("e"%char | "E"%char) s' => digits1 s'
    | _ => Some s
    end in
  bool_decide (exp = Some EmptyString).

Definition hex_digit (c : ascii) : option N :=
  let n := N_of_ascii c in
  if ((48 <=? n) && (n <=? 57))%N then Some (n - 48)%N
  else if ((97 <=? n) && (n <=? 102))%N then Some (n - 87)%N
  else if ((65 <=? n) && (n <=? 70))%N then Some (n - 55)%N
  else None.

Definition hex4 (a b c d : ascii) : option N :=
  w ← hex_digit a; x ← hex_digit b; y ← hex_digit c; z ← hex_digit d;
  Some (((w * 16 + x) * 16 + y) * 16 + z)%N.

(** The UTF-8 bytes of a code point. *)
Definition utf8 (n : N) (rest : string) : string :=
  (if n <? 128 then String (ascii_of_N n) rest
   else if n <? 2048 then
     String (ascii_of_N (192 + n / 64)) (String (ascii_of_N (128 + n mod 64)) rest)
   else if n <? 65536 then
     String (ascii_of_N (224 + n / 4096))
       (String (ascii_of_N (128 + (n / 64) mod 64))
          (String (ascii_of_N (128 + n mod 64)) rest))
   else
     String (ascii_of_N (240 + n / 262144))
       (String (ascii_of_N (128 + (n / 4096) mod 64))
          (String (ascii_of_N (128 + (n / 64) mod 64))
             (String (ascii_of_N (128 + n mod 64)) rest))))%N.

Definition is_high (n : N) : bool := ((55296 <=? n) && (n <? 56320))%N.
Definition is_low (n : N) : bool := ((56320 <=? n) && (n <? 57344))%N.

Definition simple_escape (e : ascii) : option ascii :=
  if decide (e = "n"%char) then Some "010"%char
  else if decide (e = "t"%char) then Some "009"%char
  else if decide (e = "r"%char) then Some "013"%char
  else if decide (e = "b"%char) then Some "008"%char
  else if decide (e = "f"%char) then Some "012"%char
  else if decide (e ∈ ["034"; "\"; "/"]%char) then Some e
  else None.

(** The body of a string literal after its opening quote: its value and what
    follows the closing quote.  A surrogate without its partner becomes U+FFFD. *)
Fixpoint parse_str (s : string) : option (string * string) :=
  match s with
  | EmptyString => None
  | String c s' =>
      if decide (c = "034"%char) then Some (EmptyString, s')
      else if (N_of_ascii c <? 32)%N then None
      else if decide (c = "\"%char) then
        match s' with
        | String "u"%char (String h1 (String h2 (String h3 (String h4 r)))) =>
            n ← hex4 h1 h2 h3 h4;
            if is_high n then
              match r with
              | String "\"%char (String "u"%char
                  (String l1 (String l2 (String l3 (String l4 r'))))) =>
                  m ← hex4 l1 l2 l3 l4;
                  if is_low m then
                    '(t, z) ← parse_str r';
                    Some (utf8 (65536 + (n - 55296) * 1024 + (m - 56320))%N t, z)
                  else '(t, z) ← parse_str r; Some (utf8 65533 t, z)
              | _ => '(t, z) ← parse_str r; Some (utf8 65533 t, z)
              end
            else
              '(t, z) ← parse_str r;
              Some (utf8 (if is_low n then 65533 else n)%N t, z)
        | String e s'' =>
            d ← simple_escape e; '(t, z) ← parse_str s''; Some (String d t, z)
        | EmptyString => None
        end
      else '(t, z) ← parse_str s'; Some (String c t, z)
  end.

Definition quoted (s : string) : string :=
  String "034"%char (s +:+ String "034"%char EmptyString).

Definition expect (c : ascii) (s : string) : option string :=
  match skip_ws s with
  | String d s' => if decide (d = c) then Some s' else None
  | EmptyString => None
  end.

Definition literal (word : string) (s : string) : option string :=
  if String.prefix word s
  then Some (String.substring (String.length word) (String.length s) s)
  else None.

(** [fuel] bounds the nesting and the length of arrays and objects. *)
Fixpoint parse_value (fuel : nat) (s : string) : option (json * string) :=
  match fuel with
  | O => None
  | S fuel =>
      match skip_ws s with
      | EmptyString => None
      | String c s' as t =>
          if decide (c = "034"%char) then
            '(x, r) ← parse_str s'; Some (JStr x, r)
          else if decide (c = "["%char) then
            match expect "]"%char s' with
            | Some r => Some (JArr [], r)
            | None => '(l, r) ← parse_items fuel s'; Some (JArr l, r)
            end
          else if decide (c = "{"%char) then
            match expect "}"%char s' with
            | Some r => Some (JObj [], r)
            | None => '(l, r) ← parse_members fuel s'; Some (JObj l, r)
            end
          else if is_num_char c then
            let '(n, r) := span_num t in
            if valid_num n then Some (JNum n, r) else None
          else match literal "true" t, literal "false" t, literal "null" t with
               | Some r, _, _ => Some (JBool true, r)
               | _, Some r, _ => Some (JBool false, r)
               | _, _, Some r => Some (JNull, r)
               | _, _, _ => None
               end
      end
  end
with parse_items (fuel : nat) (s : string) : option (list json * string) :=
  match fuel with
  | O => None
  | S fuel =>
      '(x, r) ← parse_value fuel s;
      match expect ","%char r with
      | Some r' => '(l, r'') ← parse_items fuel r'; Some (x :: l, r'')
      | None => r' ← expect "]"%char r; Some ([x], r')
      end
  end
with parse_members (fuel : nat) (s : string) : option (list (string * json) * string) :=
  match fuel with
  | O => None
  | S fuel =>
      q ← expect "034"%char s;
      '(k, r) ← parse_str q;
      r1 ← expect ":"%char r;
      '(x, r2) ← parse_value fuel r1;
      match expect ","%char r2 with
      | Some r' => '(l, r'') ← parse_members fuel r'; Some ((k, x) :: l, r'')
      | None => r' ← expect "}"%char r2; Some ([(k, x)], r')
      end
  end.

(** The whole text is one value; two units of fuel per character are enough. *)
Definition json_parse (s : string) : option json :=
  match parse_value (2 + 2 * String.length s) s with
  | Some (v, r) => if decide (skip_ws r = EmptyString) then Some v else None
  | None => None
  end.

Example json_parse_example :
  json_parse (" {" +:+ quoted "a" +:+ " : [1, true, null , {}], " +:+ quoted "b\u0041\n" +:+ ":-2}")
  = Some (JObj [("a", JArr [JNum "1"; JBool true; JNull; JObj []]);
                ("bA" +:+ String "010" "", JNum "-2")]).
Proof. vm_compute. reflexivity. Qed.

(** ** Filling struct fields

    A key of the object fills the field whose name it equals, upper and lower case
    alike; a later key overwrites an earlier one; a key no field has is skipped. *)
Definition key_matches (name key : string) : bool :=
  bool_decide (ToLower key = ToLower name).

(** [dec v cur] is the field's new value, [None] for a JSON value of the wrong type. *)
Definition decode_field {A} (name : string) (dec : json → A → option A)
    (fs : list (string * json)) (zero : A) : option A :=
  foldl (λ acc kv, cur ← acc;
           if key_matches name kv.1 then dec kv.2 cur else Some cur) (Some zero) fs.

Definition dec_string (v : json) (cur : string) : option string :=
  match v with JNull => Some cur | JStr s => Some s | _ => None end.
Definition dec_bool (v : json) (cur : bool) : option bool :=
  match v with JNull => Some cur | JBool b => Some b | _ => None end.
(** A pointer field: [null] makes it nil. *)
Definition dec_ptr {A} (zero : A) (dec : json → A → option A)
    (v : json) (_ : option A) : option (option A) :=
  match v with JNull => Some None | _ => Some <$> dec v zero end.
(** A slice field; nil and the empty slice are different values. *)
Definition dec_slice {A} (dec : json → option A)
    (v : json) (_ : option (list A)) : option (option (list A)) :=
  match v with
  | JNull => Some None
  | JArr l => Some <$> mapM dec l
  | _ => None
  end.

(** The fields of the object a struct is decoded from; [null] sets none. *)
Definition object_fields (v : json) : option (list (string * json)) :=
  match v with JObj fs => Some fs | JNull => Some [] | _ => None end.

(** [omitempty] of a string. *)
Definition omit_string (name s : string) : list (string * json) :=
  if decide (s = "") then [] else [(name, JStr s)].
Definition ptr_json {A} (enc : A → json) (p : option A) : json :=
  match p with Some a => enc a | None => JNull end.
Definition omit_ptr {A} (name : string) (enc : A → json) (p : option A)
    : list (string * json) :=
  match p with Some a => [(name, enc a)] | None => [] end.
Definition slice_json {A} (enc : A → json) (s : option (list A)) : json :=
  match s with Some l => JArr (map enc l) | None => JNull end.

Lemma decode_field_app {A} name (dec : json → A → option A) fs gs zero :
  decode_field name dec (fs ++ gs) zero =
  (x ← decode_field name dec fs zero; decode_field name dec gs x).
Proof.
  unfold decode_field. rewrite foldl_app.
  destruct (foldl _ (Some zero) fs) as [x|]; [done|].
  simpl. by induction gs.
Qed.

Lemma decode_field_skip {A} name (dec : json → A → option A) fs zero :
  Forall (λ kv, key_matches name kv.1 = false) fs →
  decode_field name dec fs zero = Some zero.
Proof.
  unfold decode_field.
  induction 1 as [|[k v] fs Hk _ IH]; cbn -[key_matches] in *; [done|]. by rewrite Hk.
Qed.

Lemma key_matches_refl name : key_matches name name = true.
Proof. by apply bool_decide_true. Qed.

(** A field whose own key is the only one of the object that matches it. *)
Lemma decode_field_hit {A} name (dec : json → A → option A) v zero :
  decode_field name dec [(name, v)] zero = dec v zero.
Proof. unfold decode_field. cbn -[key_matches]. by rewrite key_matches_refl. Qed.

Lemma decode_field_cons {A} name (dec : json → A → option A) v fs zero :
  decode_field name dec ((name, v) :: fs) zero =
  (x ← dec v zero; decode_field name dec fs x).
Proof.
  change ((name, v) :: fs) with ([(name, v)] ++ fs)%list.
  by rewrite decode_field_app, decode_field_hit.
Qed.

Lemma omit_string_skip name key s :
  key_matches name key = false →
  Forall (λ kv, key_matches name kv.1 = false) (omit_string key s).
Proof. intros. unfold omit_string. case_decide; by repeat constructor. Qed.

Lemma omit_string_hit name s fs :
  Forall (λ kv, key_matches name kv.1 = false) fs →
  decode_field name dec_string (omit_string name s ++ fs) "" = Some s.
Proof.
  intros Hfs. rewrite decode_field_app.
  unfold omit_string. case_decide as Hs; simpl.
  - subst. by apply decode_field_skip.
  - rewrite decode_field_hit by done. by apply decode_field_skip.
Qed.
