(* ===== verification/Models.v ===== *)
(** * The test director's data (test_director/models)

    Test plans, test runs and events as the REST interface exchanges them and as
    the caches keep them: the structs, their JSON encoding and decoding, and that
    a value survives the round trip. *)

From stdpp Require Import base gmap strings list.
From Stdlib Require Import Ascii.
From S2P Require Import Prelude GoLib Json.

(** ** Third-party helpers *)

(** [swag.ConcatJSON] joins the members of JSON objects. *)
Class Swag := {
  ConcatJSON : list json → json;
  ConcatJSON_objects a b : ConcatJSON [JObj a; JObj b] = JObj (a ++ b);
}.

(** [strfmt.DateTime] is written with a limited precision: reading a written
    time back gives the time [dt_norm] keeps. *)
Class Strfmt := {
  dt_json : Z → json;
  dt_of_json : json → option Z;
  dt_norm : Z → Z;
  dt_not_null t : dt_json t ≠ JNull;
  dt_roundtrip t : dt_of_json (dt_json t) = Some (dt_norm t);
  dt_norm_idem t : dt_norm (dt_norm t) = dt_norm t;
}.

Definition dec_dt `{Strfmt} (v : json) (cur : Z) : option Z :=
  match v with JNull => Some cur | _ => dt_of_json v end.

Lemma dec_dt_json `{Strfmt} t cur : dec_dt (dt_json t) cur = Some (dt_norm t).
Proof.
  pose proof (dt_not_null t). pose proof (dt_roundtrip t).
  unfold dec_dt. by destruct (dt_json t).
Qed.

(** The zero value of [time.Time], 1 January of the year 1. *)
Definition zero_time : Z := -62135596800000000000.

(** ** Status values *)

Definition TestPlanStatusEnumNOTSTARTED : string := "NOT_STARTED".
Definition TestPlanStatusEnumRUNNING : string := "RUNNING".
Definition TestPlanStatusEnumCOMPLETEPASS : string := "COMPLETE_PASS".
Definition TestPlanStatusEnumCOMPLETEFAIL : string := "COMPLETE_FAIL".

Definition TestRunStatusEnumTODO : string := "TO DO".
Definition TestRunStatusEnumEXECUTING : string := "EXECUTING".
Definition TestRunStatusEnumPASSED : string := "PASSED".
Definition TestRunStatusEnumFAILED : string := "FAILED".

Definition EventClassEnumINFO : string := "INFO".
Definition EventClassEnumFAIL : string := "FAIL".
Definition EventClassEnumWARN : string := "WARN".

Definition EventSourceClassEnumLogDashMonitor : string := "log-monitor".
Definition EventSourceClassEnumWorkloadDashMonitor : string := "workload-monitor".
Definition EventSourceClassEnumTestDashConductor : string := "test-conductor".

Definition RequestOutcomeResultREFUSED : string := "REFUSED".
Definition RequestOutcomeResultOK : string := "OK".

(** ** Structs *)

Record Test := mkTest { Description : string; IssueID : option string }.

Record TestPlanSpec := mkTestPlanSpec {
  Assignee : string;
  JiraID : string;
  PlanName : string;
  PlanStatus : option string;
  Tests : option (list (option Test));
}.

Record TestPlan := mkTestPlan {
  PlanSpec : TestPlanSpec;
  IsActive : option bool;
  PlanKey : string;
}.

Record TestRunSpec := mkTestRunSpec {
  RunData : string;
  RunStatus : string;
  TestExecIssueID : string;
  TestID : string;
  TestKey : option string;
}.

Record TestRun := mkTestRun {
  EndDateTime : Z;
  RunID : string;
  StartDateTime : Z;
  RunSpec : TestRunSpec;
}.

Record EventSpec := mkEventSpec {
  EvClass : option string;
  EvData : option (list string);
  EvMessage : option string;
  EvResource : string;
  SourceClass : option string;
  SourceInstance : option string;
}.

Record Event := mkEvent {
  EvID : string;
  LoggedDateTime : Z;
  EvSpec : EventSpec;
}.

Record RequestOutcome := mkRequestOutcome {
  Details : string;
  ItemsAffected : option Z;
  Result : string;
}.

(** Assignments to single fields. *)
Definition set_PlanStatus (st : option string) (p : TestPlan) : TestPlan :=
  let sp := PlanSpec p in
  mkTestPlan (mkTestPlanSpec (Assignee sp) (JiraID sp) (PlanName sp) st (Tests sp))
    (IsActive p) (PlanKey p).
Definition set_IsActive (b : option bool) (p : TestPlan) : TestPlan :=
  mkTestPlan (PlanSpec p) b (PlanKey p).
Definition set_RunStatus (st : string) (r : TestRun) : TestRun :=
  let sp := RunSpec r in
  mkTestRun (EndDateTime r) (RunID r) (StartDateTime r)
    (mkTestRunSpec (RunData sp) st (TestExecIssueID sp) (TestID sp) (TestKey sp)).
Definition set_RunData (d : string) (r : TestRun) : TestRun :=
  let sp := RunSpec r in
  mkTestRun (EndDateTime r) (RunID r) (StartDateTime r)
    (mkTestRunSpec d (RunStatus sp) (TestExecIssueID sp) (TestID sp) (TestKey sp)).
Definition set_StartDateTime (t : Z) (r : TestRun) : TestRun :=
  mkTestRun (EndDateTime r) (RunID r) t (RunSpec r).
Definition set_EndDateTime (t : Z) (r : TestRun) : TestRun :=
  mkTestRun t (RunID r) (StartDateTime r) (RunSpec r).

(** ** JSON *)

Definition Test_json (t : Test) : json :=
  JObj (omit_string "description" (Description t) ++
        [("issueId", ptr_json JStr (IssueID t))]).
Definition Test_of_json (v : json) (_ : Test) : option Test :=
  fs ← object_fields v;
  d ← decode_field "description" dec_string fs "";
  i ← decode_field "issueId" (dec_ptr "" dec_string) fs None;
  Some (mkTest d i).

Definition TestPlanSpec_json (s : TestPlanSpec) : json :=
  JObj (omit_string "assignee" (Assignee s) ++ omit_string "jiraId" (JiraID s) ++
        omit_string "name" (PlanName s) ++ [("status", ptr_json JStr (PlanStatus s))] ++
        [("tests", slice_json (ptr_json Test_json) (Tests s))]).
Definition TestPlanSpec_of_json (v : json) : option TestPlanSpec :=
  fs ← object_fields v;
  a ← decode_field "assignee" dec_string fs "";
  j ← decode_field "jiraId" dec_string fs "";
  n ← decode_field "name" dec_string fs "";
  st ← decode_field "status" (dec_ptr "" dec_string) fs None;
  ts ← decode_field "tests"
         (dec_slice (λ x, dec_ptr (mkTest "" None) Test_of_json x None)) fs None;
  Some (mkTestPlanSpec a j n st ts).

Section Codec.
Context `{Swag} `{Strfmt}.

Definition TestPlan_MarshalJSON (m : TestPlan) : json :=
  ConcatJSON [TestPlanSpec_json (PlanSpec m);
              JObj (omit_ptr "isActive" JBool (IsActive m) ++
                    omit_string "key" (PlanKey m))].

Definition TestPlan_UnmarshalJSON (raw : json) : option TestPlan :=
  aO0 ← TestPlanSpec_of_json raw;
  fs ← object_fields raw;
  act ← decode_field "isActive" (dec_ptr false dec_bool) fs None;
  key ← decode_field "key" dec_string fs "";
  Some (mkTestPlan aO0 act key).

Definition TestRunSpec_json (s : TestRunSpec) : json :=
  JObj (omit_string "data" (RunData s) ++ omit_string "status" (RunStatus s) ++
        omit_string "testExecIssueId" (TestExecIssueID s) ++
        omit_string "testId" (TestID s) ++
        [("testKey", ptr_json JStr (TestKey s))]).

Definition TestRunSpec_of_json (v : json) : option TestRunSpec :=
  fs ← object_fields v;
  d ← decode_field "data" dec_string fs "";
  st ← decode_field "status" dec_string fs "";
  te ← decode_field "testExecIssueId" dec_string fs "";
  ti ← decode_field "testId" dec_string fs "";
  tk ← decode_field "testKey" (dec_ptr "" dec_string) fs None;
  Some (mkTestRunSpec d st te ti tk).

(** [omitempty] has no effect on [strfmt.DateTime], which is a struct. *)
Definition TestRun_MarshalJSON (m : TestRun) : json :=
  ConcatJSON [JObj ([("endDateTime", dt_json (EndDateTime m))] ++
                    omit_string "id" (RunID m) ++
                    [("startDateTime", dt_json (StartDateTime m))]);
              TestRunSpec_json (RunSpec m)].

Definition TestRun_UnmarshalJSON (raw : json) : option TestRun :=
  fs ← object_fields raw;
  e ← decode_field "endDateTime" dec_dt fs zero_time;
  i ← decode_field "id" dec_string fs "";
  s ← decode_field "startDateTime" dec_dt fs zero_time;
  aO1 ← TestRunSpec_of_json raw;
  Some (mkTestRun e i s aO1).

Definition EventSpec_json (s : EventSpec) : json :=
  JObj ([("class", ptr_json JStr (EvClass s))] ++
        [("data", slice_json JStr (EvData s))] ++
        [("message", ptr_json JStr (EvMessage s))] ++
        omit_string "resource" (EvResource s) ++
        [("sourceClass", ptr_json JStr (SourceClass s))] ++
        [("sourceInstance", ptr_json JStr (SourceInstance s))]).

Definition EventSpec_of_json (v : json) : option EventSpec :=
  fs ← object_fields v;
  c ← decode_field "class" (dec_ptr "" dec_string) fs None;
  d ← decode_field "data" (dec_slice (λ x, dec_string x "")) fs None;
  m ← decode_field "message" (dec_ptr "" dec_string) fs None;
  r ← decode_field "resource" dec_string fs "";
  sc ← decode_field "sourceClass" (dec_ptr "" dec_string) fs None;
  si ← decode_field "sourceInstance" (dec_ptr "" dec_string) fs None;
  Some (mkEventSpec c d m r sc si).

Definition Event_MarshalJSON (m : Event) : json :=
  ConcatJSON [JObj (omit_string "id" (EvID m) ++
                    [("loggedDateTime", dt_json (LoggedDateTime m))]);
              EventSpec_json (EvSpec m)].

Definition Event_UnmarshalJSON (raw : json) : option Event :=
  fs ← object_fields raw;
  i ← decode_field "id" dec_string fs "";
  l ← decode_field "loggedDateTime" dec_dt fs zero_time;
  aO1 ← EventSpec_of_json raw;
  Some (mkEvent i l aO1).
End Codec.

(** ** Validation

    The request body is validated before a handler sees it.  Each function gives
    the names of the properties that fail: a required property that is missing, a
    value outside its enumeration or its pattern. *)

Definition required {A} (name : string) (p : option A) : list string :=
  match p with Some _ => [] | None => [name] end.
Definition enum_case (name : string) (vals : list string) (s : string) : list string :=
  if bool_decide (s ∈ vals) then [] else [name].
Definition required_enum (name : string) (vals : list string) (p : option string)
    : list string :=
  match p with Some s => enum_case name vals s | None => [name] end.

(** The pattern of a Jira key: two or three capitals, a dash, one to four digits. *)
Definition is_capital (c : Ascii.ascii) : bool :=
  let n := Ascii.N_of_ascii c in ((65 <=? n) && (n <=? 90))%N.
Definition JiraKey_Validate (s : string) : bool :=
  match Split s "-"%char with
  | [p; d] =>
      forallb is_capital (String.list_ascii_of_string p) &&
      forallb is_digit (String.list_ascii_of_string d) &&
      bool_decide (2 ≤ String.length p ≤ 3)%nat &&
      bool_decide (1 ≤ String.length d ≤ 4)%nat
  | _ => false
  end.

Definition testPlanStatusEnumEnum : list string :=
  [TestPlanStatusEnumNOTSTARTED; TestPlanStatusEnumRUNNING;
   TestPlanStatusEnumCOMPLETEPASS; TestPlanStatusEnumCOMPLETEFAIL].
Definition testRunStatusEnumEnum : list string :=
  [TestRunStatusEnumTODO; TestRunStatusEnumEXECUTING;
   TestRunStatusEnumPASSED; TestRunStatusEnumFAILED].
Definition eventClassEnumEnum : list string :=
  [EventClassEnumFAIL; EventClassEnumINFO; EventClassEnumWARN].
Definition eventSourceClassEnumEnum : list string :=
  [EventSourceClassEnumWorkloadDashMonitor; EventSourceClassEnumLogDashMonitor;
   "resouce-monitor"; EventSourceClassEnumTestDashConductor].

Definition EventSpec_Validate (m : EventSpec) : list string :=
  required_enum "class" eventClassEnumEnum (EvClass m) ++
  required "message" (EvMessage m) ++
  required_enum "sourceClass" eventSourceClassEnumEnum (SourceClass m) ++
  required "sourceInstance" (SourceInstance m).

Definition TestRunSpec_Validate (m : TestRunSpec) : list string :=
  (if bool_decide (RunStatus m = "") then []
   else enum_case "status" testRunStatusEnumEnum (RunStatus m)) ++
  match TestKey m with
  | Some k => if JiraKey_Validate k then [] else ["testKey"]
  | None => ["testKey"]
  end.

Definition Test_Validate (m : Test) : list string := required "issueId" (IssueID m).
(** The first test that is not valid ends the check of the tests. *)
Definition TestPlanSpec_Validate (m : TestPlanSpec) : list string :=
  required_enum "status" testPlanStatusEnumEnum (PlanStatus m) ++
  take 1 (concat (map (λ t, match t with Some t => Test_Validate t | None => [] end)
                      (default [] (Tests m)))).

(** ** Round trips *)

Lemma omit_ptr_skip {A} name key (enc : A → json) p :
  key_matches name key = false →
  Forall (λ kv, key_matches name kv.1 = false) (omit_ptr key enc p).
Proof. intros. destruct p; by repeat constructor. Qed.

(** Close [Forall (key_matches name _.1 = false)] over the parts of an encoded struct. *)
Ltac skip_keys :=
  repeat (apply Forall_app; split);
  first [ apply omit_string_skip; vm_compute; reflexivity
        | apply omit_ptr_skip; vm_compute; reflexivity
        | repeat (apply Forall_cons; split; [vm_compute; reflexivity|]);
          apply Forall_nil; exact I ].

Lemma decode_omit_string name s :
  decode_field name dec_string (omit_string name s) "" = Some s.
Proof. by rewrite <- (app_nil_r (omit_string name s)), omit_string_hit. Qed.

Lemma decode_omit_bool name (p : option bool) :
  decode_field name (dec_ptr false dec_bool) (omit_ptr name JBool p) None = Some p.
Proof. destruct p as [b|]; [|done]. simpl omit_ptr. by rewrite decode_field_hit. Qed.

Lemma dec_ptr_string (p cur : option string) :
  dec_ptr "" dec_string (ptr_json JStr p) cur = Some p.
Proof. by destruct p. Qed.

Create HintDb decode discriminated.
#[export] Hint Rewrite decode_omit_string decode_omit_bool @decode_field_hit
  dec_ptr_string @dec_dt_json : decode.

Lemma bind_eq {A B} (x : option A) (k : A → option B) a r :
  x = Some a → k a = r → x ≫= k = r.
Proof. by intros -> <-. Qed.

Ltac decode_one :=
  repeat (first [ rewrite decode_field_skip by skip_keys
                | rewrite decode_field_app
                | progress autorewrite with decode ]; cbn [mbind option_bind]); reflexivity.
Ltac decode_struct :=
  repeat (eapply bind_eq; [decode_one|]; cbv beta).

Lemma Test_roundtrip t cur : Test_of_json (Test_json t) cur = Some t.
Proof.
  unfold Test_of_json, Test_json.
  decode_struct. by destruct t.
Qed.

Lemma mapM_encoded {A} (enc : A → json) (dec : json → option A) (l : list A) :
  (∀ x, dec (enc x) = Some x) → mapM dec (map enc l) = Some l.
Proof.
  intros Hdec. induction l as [|x l IH]; [done|]. simpl. by rewrite Hdec, IH.
Qed.

Lemma tests_roundtrip (ts cur : option (list (option Test))) :
  dec_slice (λ x, dec_ptr (mkTest "" None) Test_of_json x None)
    (slice_json (ptr_json Test_json) ts) cur = Some ts.
Proof.
  destruct ts as [l|]; [|done]. cbn [dec_slice slice_json].
  rewrite (mapM_encoded _ _ l); [done|].
  intros [t|]; simpl; [|done]. by rewrite Test_roundtrip.
Qed.
#[export] Hint Rewrite tests_roundtrip : decode.

Lemma strings_roundtrip (l cur : option (list string)) :
  dec_slice (λ x, dec_string x "") (slice_json JStr l) cur = Some l.
Proof.
  destruct l as [l|]; [|done]. cbn [dec_slice slice_json].
  by rewrite (mapM_encoded _ _ l).
Qed.
#[export] Hint Rewrite strings_roundtrip : decode.

(** The precision a stored run or event keeps of its times. *)
Definition norm_run `{Strfmt} (r : TestRun) : TestRun :=
  mkTestRun (dt_norm (EndDateTime r)) (RunID r) (dt_norm (StartDateTime r)) (RunSpec r).
Definition norm_event `{Strfmt} (e : Event) : Event :=
  mkEvent (EvID e) (dt_norm (LoggedDateTime e)) (EvSpec e).

Section RoundTrips.
Context `{Swag} `{Strfmt}.

Lemma TestPlan_roundtrip p :
  TestPlan_UnmarshalJSON (TestPlan_MarshalJSON p) = Some p.
Proof.
  unfold TestPlan_UnmarshalJSON, TestPlan_MarshalJSON, TestPlanSpec_json,
    TestPlanSpec_of_json.
  rewrite ConcatJSON_objects. eapply bind_eq; [decode_struct; reflexivity|].
  decode_struct. by destruct p as [[] ? ?].
Qed.

Lemma TestRun_roundtrip r :
  TestRun_UnmarshalJSON (TestRun_MarshalJSON r) = Some (norm_run r).
Proof.
  unfold TestRun_UnmarshalJSON, TestRun_MarshalJSON, TestRunSpec_json,
    TestRunSpec_of_json.
  rewrite ConcatJSON_objects. decode_struct.
  eapply bind_eq; [decode_struct; reflexivity|]. by destruct r as [? ? ? []].
Qed.

Lemma Event_roundtrip e :
  Event_UnmarshalJSON (Event_MarshalJSON e) = Some (norm_event e).
Proof.
  unfold Event_UnmarshalJSON, Event_MarshalJSON, EventSpec_json, EventSpec_of_json.
  rewrite ConcatJSON_objects. decode_struct.
  eapply bind_eq; [decode_struct; reflexivity|]. by destruct e as [? ? []].
Qed.
End RoundTrips.
