(* ===== verification/Http.v ===== *)
(** * HTTP client

    [net/http] as the sources use it: a request is built, sent, and answered with
    a status code and a body, or with an error and no response. *)

From stdpp Require Import base gmap strings list.
From S2P Require Import Prelude GoLib Json.

Record request := mkRequest {
  rq_method : string;
  rq_url : string;
  rq_headers : list (string * string);
  rq_body : option json;
}.

(** Reading the body may fail after the status line arrived: the error and what was read
    before it. *)
Record response := mkResponse { StatusCode : Z; rs_body : (goerror * string) + string }.

Class Http (W : Type) := {
  (** Why a method or URL is rejected, if it is. *)
  http_NewRequest : string → string → error;
  http_Do : request → W → (goerror + response) * W;
}.

(** [os.Getenv]. *)
Class Getenv := { getenv : string → string }.

Section Client.
Context {S W : Type} `{HasWorld S W} `{Http W}.

Definition client_Do (r : request) : prog S (option response * error) :=
  x ← outside (http_Do r);
  match x with
  | inl e => mret (None, Some e)
  | inr resp => mret (Some resp, None)
  end.

(** [ioutil.ReadAll(resp.Body)]. *)
Definition ReadAll (r : response) : prog S (string * error) :=
  match rs_body r with
  | inl (e, b) => mret (b, Some e)
  | inr b => mret (b, None)
  end.
End Client.

Section ClientFacts.
Context {S W : Type} `{HasWorld S W} `{Http W} (I : S → Prop) `{!WorldFree I}.
Lemma keeps_client_Do r : keeps I (client_Do r).
Proof. unfold client_Do. solve_keeps. Qed.
Lemma keeps_ReadAll r : keeps I (ReadAll r).
Proof. unfold ReadAll. solve_keeps. Qed.
End ClientFacts.
#[export] Hint Resolve keeps_client_Do keeps_ReadAll : keeps.
