(* ===== verification/Connectors.v ===== *)
(** * Connectors of the test director (test_director/connectors)

    Jira task lookup, the Xray GraphQL client with its retry loop, and Slack
    notifications. *)

From stdpp Require Import base gmap strings list pretty.
From Stdlib Require Import Ascii.
From S2P Require Import Prelude GoLib Json Http Models.

(** ** jira.go *)

Record JiraAssignee := mkAssignee { AssigneeEmail : string; AssigneeName : string }.
Record JiraStatus := mkJiraStatus { StatusDescription : string; StatusName : string }.
Record IssueType := mkIssueType { IssueTypeName : string }.
Record JiraFields := mkFields {
  FieldsAssignee : JiraAssignee;
  FieldsStatus : JiraStatus;
  FieldsName : option string;
  FieldsIssueType : option IssueType;
}.
Record JiraTask := mkJiraTask {
  JiraTaskKey : string;
  JiraTaskId : option string;
  Fields : JiraFields;
}.

Definition dec_struct {A} (dec : list (string * json) → A → option A)
    (v : json) (cur : A) : option A :=
  match v with JNull => Some cur | JObj fs => dec fs cur | _ => None end.

Definition Assignee_of_json := dec_struct (λ fs cur,
  e ← decode_field "emailAddress" dec_string fs (AssigneeEmail cur);
  n ← decode_field "displayName" dec_string fs (AssigneeName cur);
  Some (mkAssignee e n)).
Definition JiraStatus_of_json := dec_struct (λ fs cur,
  d ← decode_field "description" dec_string fs (StatusDescription cur);
  n ← decode_field "name" dec_string fs (StatusName cur);
  Some (mkJiraStatus d n)).
Definition IssueType_of_json := dec_struct (λ fs cur,
  n ← decode_field "name" dec_string fs (IssueTypeName cur);
  Some (mkIssueType n)).
Definition Fields_of_json := dec_struct (λ fs cur,
  a ← decode_field "assignee" Assignee_of_json fs (FieldsAssignee cur);
  s ← decode_field "status" JiraStatus_of_json fs (FieldsStatus cur);
  n ← decode_field "summary" (dec_ptr "" dec_string) fs (FieldsName cur);
  i ← decode_field "issuetype" (dec_ptr (mkIssueType "") IssueType_of_json) fs (FieldsIssueType cur);
  Some (mkFields a s n i)).
Definition zero_Fields : JiraFields :=
  mkFields (mkAssignee "" "") (mkJiraStatus "" "") None None.
Definition JiraTask_of_json (v : json) : option JiraTask :=
  dec_struct (λ fs cur,
    k ← decode_field "key" dec_string fs (JiraTaskKey cur);
    i ← decode_field "id" (dec_ptr "" dec_string) fs (JiraTaskId cur);
    f ← decode_field "fields" Fields_of_json fs (Fields cur);
    Some (mkJiraTask k i f)) v (mkJiraTask "" None zero_Fields).

Definition issueURL : string := "https://mayadata.atlassian.net/rest/api/3/issue/".

(** What [json.Unmarshal] reports for a text it cannot decode. *)
Definition unmarshal_error : error := errorf "json: cannot unmarshal".

Section Connectors.
Context {S W : Type} `{HasWorld S W} `{Http W} `{Clock W} `{Getenv}.

Definition GetJiraTaskDetails (key : string) : prog S (option JiraTask * error) :=
  match http_NewRequest "GET" (issueURL +:+ key) with
  | Some e => mret (None, Some e)
  | None =>
      '(resp, err) ← client_Do (mkRequest "GET" (issueURL +:+ key)
          [("Accept", "application/json"); ("Content-Type", "application/json");
           ("Authorization", "Basic " +:+ getenv "JIRA_API_TOKEN")] None);
      match err with
      | Some e => mret (None, Some e)
      | None =>
          resp ← deref resp;
          '(bodyBytes, err) ← ReadAll resp;
          match err with
          | Some e => mret (None, Some e)
          | None =>
              if bool_decide (StatusCode resp ≠ 200%Z)
              then mret (None, errorf bodyBytes)
              else
                match json_parse bodyBytes ≫= JiraTask_of_json with
                | None => mret (None, unmarshal_error)
                | Some jt => mret (Some jt, None)
                end
          end
      end
  end.

(** ** xray.go *)

Definition authUrl : string := "https://xray.cloud.getxray.app/api/v2/authenticate".
Definition graphqlUrl : string := "https://xray.cloud.getxray.app/api/v2/graphql".

(** The bearer token, or nil. The response is a quoted string; its quotes are cut off. *)
Definition authorize : prog S (option string) :=
  let b := JObj [("client_id", JStr (getenv "XRAY_CLIENT_ID"));
                 ("client_secret", JStr (getenv "XRAY_CLIENT_SECRET"))] in
  match http_NewRequest "POST" authUrl with
  | Some _ => mret None
  | None =>
      '(resp, err) ← client_Do (mkRequest "POST" authUrl
          [("Content-Type", "application/json")] (Some b));
      match err with
      | Some _ => mret None
      | None =>
          resp ← deref resp;
          '(s, err) ← ReadAll resp;
          match err with
          | Some _ => mret None
          | None =>
              if bool_decide (StatusCode resp ≠ 200%Z) then mret None
              else s ← slice_string s 1 (strlen s - 1); mret (Some s)
          end
      end
  end.

Definition xray_sendRequest (s : string) : prog S (string * error) :=
  let jsonValue := JObj [("query", JStr s)] in
  match http_NewRequest "POST" graphqlUrl with
  | Some e => mret ("", Some e)
  | None =>
      auth_ptr ← authorize;
      match auth_ptr with
      | None => mret ("", errorf "authorization failed")
      | Some _ =>
          auth ← authorize;
          token ← deref auth;
          '(resp, err) ← client_Do (mkRequest "POST" graphqlUrl
              [("Authorization", "Bearer " +:+ token);
               ("Content-Type", "application/json")] (Some jsonValue));
          (* [defer response.Body.Close()] reads [response] before [err] is tested *)
          response ← deref resp;
          match err with
          | Some e => mret ("", Some e)
          | None =>
              '(data, err) ← ReadAll response;
              match err with
              | Some e => mret ("", Some e)
              | None =>
                  if bool_decide (300 ≤ StatusCode response)%Z then mret ("", err)
                  else mret (data, err)
              end
          end
      end
  end.

(** Up to five attempts, for as long as the answer is empty. *)
Definition sendXrayQuery (query : string) : prog S (string * error) :=
  for_range [5; 4; 3; 2; 1]%Z ("", None : error)
    (λ r '(response, err),
       if decide (response = "") then
         '(response, err) ← xray_sendRequest query;
         time_Sleep (Z.quot 5 r * Second) ;;
         mret (Next (response, err))
       else mret (Break (response, err))) ≫= no_return.
End Connectors.

(** [gjson.Get(json, path)]: the string found, and the strings of the array found. *)
Class Gjson := {
  gjson_Str : string → string → string;
  gjson_Array : string → string → list string;
}.

Definition q (s : string) : string := quoted s.

Section Xray.
Context {S W : Type} `{HasWorld S W} `{Http W} `{Clock W} `{Getenv} `{Gjson}.

(** ** xray/test_plan.go *)
Definition GetTestPlan (testPlanId : string)
    : prog S (option (list (option Test)) * error) :=
  '(json, err) ← sendXrayQuery
     ("{getTestPlan(issueId: " +:+ q testPlanId +:+
      ") {tests(limit: 50) {results {issueId}}}}");
  match err with
  | Some e => mret (None, Some e)
  | None =>
      if decide (json = "") then mret (None, errorf "unable to fetch xray data")
      else
        let res := gjson_Array json "data.getTestPlan.tests.results.#.issueId" in
        mret (Some (map (λ id, Some (mkTest "" (Some id))) res), None)
  end.

(** ** xray/test_execution.go *)
Definition addTestExecutionToTestPlan (testPlanId testExecutionId : string)
    : prog S error :=
  '(_, err) ← sendXrayQuery
     ("mutation{addTestExecutionsToTestPlan(issueId: " +:+ q testPlanId +:+
      ", testExecIssueIds: [" +:+ q testExecutionId +:+
      "]) {addedTestExecutions warning}}");
  mret err.

Definition CreateTestExecution (testPlanId testId testJiraKey : string)
    : prog S (string * error) :=
  project ← index (Split testJiraKey "-"%char) 0;
  '(json, err) ← sendXrayQuery
     ("mutation{createTestExecution(testIssueIds:[" +:+ q testId +:+
      "] jira: {fields: {summary: " +:+ q ("Test Execution for " +:+ testJiraKey) +:+
      ", project: {key: " +:+ q project +:+ "}}}) {testExecution {issueId jira(fields: [" +:+
      q "key" +:+ "])} warnings createdTestEnvironments}}");
  match err with
  | Some e => mret ("", Some e)
  | None =>
      let testExecId :=
        gjson_Str json "data.createTestExecution.testExecution.issueId" in
      err ← addTestExecutionToTestPlan testPlanId testExecId;
      mret (testExecId, err)
  end.

Definition DeleteTestExecution (run : TestRun) : prog S error :=
  '(_, err) ← sendXrayQuery
     ("mutation{deleteTestExecution(issueId: " +:+
      q (TestExecIssueID (RunSpec run)) +:+ ")}");
  mret err.
End Xray.

(** Texts of times: [strfmt.DateTime.String], and [time.Parse] and [Format] with
    the RFC 3339 layout. *)
Class TimeText := {
  dt_String : Z → string;
  parse_RFC3339 : string → option Z;
  format_RFC3339 : Z → string;
}.

(** A time that does not parse is logged and treated as the zero time. *)
Definition getRFC3339Format `{TimeText} (t : Z) : string :=
  let s := default zero_time (parse_RFC3339 (dt_String t)) in
  if decide (s = zero_time) then "" else format_RFC3339 s.

Section XrayRun.
Context {S W : Type} `{HasWorld S W} `{Http W} `{Clock W} `{Getenv} `{Gjson}
        `{TimeText}.

(** ** xray/test_run.go *)
Definition getTestRun (testId testExecutionId : string) : prog S (string * error) :=
  '(json, err) ← sendXrayQuery
     ("{getTestRun( testIssueId: " +:+ q testId +:+ ", testExecIssueId: " +:+
      q testExecutionId +:+ ") {id status {name color description}}}");
  match err with
  | Some e => mret ("", Some e)
  | None => mret (gjson_Str json "data.getTestRun.id", None)
  end.

Definition xray_UpdateTestRun (testRun : TestRun) : prog S error :=
  let sp := RunSpec testRun in
  '(testRunId, err) ← getTestRun (TestID sp) (TestExecIssueID sp);
  match err with
  | Some e => mret (Some e)
  | None =>
      '(_, err) ← sendXrayQuery
         ("mutation{updateTestRunStatus( id: " +:+ q testRunId +:+
          ", status: " +:+ q (RunStatus sp) +:+ ")}");
      match err with
      | Some e => mret (Some e)
      | None =>
          '(_, err) ← sendXrayQuery
             ("mutation{updateTestRun( id: " +:+ q testRunId +:+
              ", comment: " +:+ q (RunData sp) +:+
              ", startedOn: " +:+ q (getRFC3339Format (StartDateTime testRun)) +:+
              ", finishedOn: " +:+ q (getRFC3339Format (EndDateTime testRun)) +:+
              ") {warnings}}");
          mret err
      end
  end.
End XrayRun.

(** ** slack.go *)

Record SlackClient := mkSlackClient {
  WebHookUrl : string; UserName : string; Channel : string; TimeOut : Z }.
Record SimpleSlackRequest := mkSimpleSlackRequest { SlackText : string; SlackIcon : string }.
Record SlackJobNotification := mkSlackJob {
  JobColor : string; JobIconEmoji : string; JobDetails : string; JobText : string }.
(** The fields of an attachment the sources set; the others stay empty and are omitted. *)
Record Attachment := mkAttachment { AttColor : string; AttText : string; AttTs : string }.
Record SlackMessage := mkSlackMessage {
  Username : string; IconEmoji : string; MsgChannel : string; MsgText : string;
  Attachments : list Attachment }.

Definition Attachment_json (a : Attachment) : json :=
  JObj (omit_string "color" (AttColor a) ++ omit_string "text" (AttText a) ++
        if decide (AttTs a = "") then [] else [("ts", JNum (AttTs a))]).
Definition SlackMessage_json (m : SlackMessage) : json :=
  JObj (omit_string "username" (Username m) ++ omit_string "icon_emoji" (IconEmoji m) ++
        omit_string "channel" (MsgChannel m) ++ omit_string "text" (MsgText m) ++
        match Attachments m with
        | [] => []
        | l => [("attachments", JArr (map Attachment_json l))]
        end).

Section Slack.
Context {S W : Type} `{HasWorld S W} `{Http W} `{Clock W}.

Definition sendHttpRequest (sc : SlackClient) (slackRequest : SlackMessage)
    : prog S error :=
  match http_NewRequest "POST" (WebHookUrl sc) with
  | Some e => mret (Some e)
  | None =>
      '(resp, err) ← client_Do (mkRequest "POST" (WebHookUrl sc)
          [("Content-Type", "application/json")] (Some (SlackMessage_json slackRequest)));
      match err with
      | Some e => mret (Some e)
      | None =>
          resp ← deref resp;
          '(buf, err) ← ReadAll resp;
          match err with
          | Some e => mret (Some e)
          | None =>
              if decide (buf = "ok") then mret None
              else mret (errorf "Non-ok response returned from Slack")
          end
      end
  end.

Definition SendSlackNotification (sc : SlackClient) (sr : SimpleSlackRequest)
    : prog S error :=
  sendHttpRequest sc
    (mkSlackMessage (UserName sc) (SlackIcon sr) (Channel sc) (SlackText sr) []).

Definition SendJobNotification (sc : SlackClient) (job : SlackJobNotification)
    : prog S error :=
  now ← time_Now;
  let attachment :=
    mkAttachment (JobColor job) (JobDetails job) (Itoa (now / Second)) in
  sendHttpRequest sc
    (mkSlackMessage (UserName sc) (JobIconEmoji job) (Channel sc) (JobText job)
       [attachment]).

Definition slack_funcName (sc : SlackClient) (color message : string)
    (options : list string) : prog S error :=
  let emoji := match options with o :: _ => o | [] => ":hammer_and_wrench" end in
  SendJobNotification sc (mkSlackJob color emoji message "").

Definition SendError (sc : SlackClient) (message : string) (options : list string) :=
  slack_funcName sc "danger" message options.
Definition SendInfo (sc : SlackClient) (message : string) (options : list string) :=
  slack_funcName sc "good" message options.
Definition SendWarning (sc : SlackClient) (message : string) (options : list string) :=
  slack_funcName sc "warning" message options.
End Slack.

(** ** The connectors touch nothing but the environment *)

Section ConnectorFrames.
Context {S W : Type} `{HasWorld S W} `{Http W} `{Clock W} `{Getenv} `{Gjson}
        `{TimeText} (I : S → Prop) `{!WorldFree I}.

Lemma keeps_GetJiraTaskDetails key : keeps I (GetJiraTaskDetails key).
Proof. unfold GetJiraTaskDetails. solve_keeps. Qed.
Lemma keeps_authorize : keeps I authorize.
Proof. unfold authorize. solve_keeps. Qed.
Hint Resolve keeps_authorize : keeps.
Lemma keeps_xray_sendRequest s : keeps I (xray_sendRequest s).
Proof. unfold xray_sendRequest. solve_keeps. Qed.
Hint Resolve keeps_xray_sendRequest : keeps.
Lemma keeps_sendXrayQuery s : keeps I (sendXrayQuery s).
Proof. unfold sendXrayQuery, no_return. solve_keeps. Qed.
Hint Resolve keeps_sendXrayQuery : keeps.
Lemma keeps_GetTestPlan i : keeps I (GetTestPlan i).
Proof. unfold GetTestPlan. solve_keeps. Qed.
Lemma keeps_addTestExecution p e : keeps I (addTestExecutionToTestPlan p e).
Proof. unfold addTestExecutionToTestPlan. solve_keeps. Qed.
Hint Resolve keeps_addTestExecution : keeps.
Lemma keeps_CreateTestExecution p t k : keeps I (CreateTestExecution p t k).
Proof. unfold CreateTestExecution. solve_keeps. Qed.
Lemma keeps_getTestRun t e : keeps I (getTestRun t e).
Proof. unfold getTestRun. solve_keeps. Qed.
Hint Resolve keeps_getTestRun : keeps.
Lemma keeps_xray_UpdateTestRun r : keeps I (xray_UpdateTestRun r).
Proof. unfold xray_UpdateTestRun. solve_keeps. Qed.
Lemma keeps_sendHttpRequest sc m : keeps I (sendHttpRequest sc m).
Proof. unfold sendHttpRequest. solve_keeps. Qed.
Hint Resolve keeps_sendHttpRequest : keeps.
Lemma keeps_SendJobNotification sc j : keeps I (SendJobNotification sc j).
Proof. unfold SendJobNotification. solve_keeps. Qed.
End ConnectorFrames.
#[export] Hint Resolve keeps_GetJiraTaskDetails
  keeps_authorize keeps_xray_sendRequest keeps_sendXrayQuery keeps_GetTestPlan
  keeps_CreateTestExecution keeps_xray_UpdateTestRun keeps_SendJobNotification : keeps.
