(* ===== verification/Cache.v ===== *)
(** * The director's caches (test_director/handlers/*_cache.go)

    The in-memory store of go-cache as an interface, and the plan, run and event
    caches built on it. *)

From stdpp Require Import base gmap strings list.
From S2P Require Import Prelude GoLib Json Http Models.

(** ** go-cache

    A thread-safe map from strings to values; every operation is atomic.  The
    director never lets an item expire. *)
Class GoCache (C : Type) := {
  cache_New : C;
  cache_Set : string → json → C → C;
  cache_Get : string → C → option json;
  cache_Delete : string → C → C;
  cache_Items : C → gmap string json;
}.

Class GoCacheLaws (C : Type) `{GoCache C} := {
  Items_New : cache_Items cache_New = ∅;
  Items_Set k v c : cache_Items (cache_Set k v c) = <[k := v]> (cache_Items c);
  Items_Delete k c : cache_Items (cache_Delete k c) = delete k (cache_Items c);
  Get_Items k c : cache_Get k c = cache_Items c !! k;
}.

#[export] Instance gmap_cache : GoCache (gmap string json) := {
  cache_New := ∅;
  cache_Set := insert;
  cache_Get := lookup;
  cache_Delete := delete;
  cache_Items m := m;
}.
#[export] Instance gmap_cache_laws : GoCacheLaws (gmap string json).
Proof. by split. Qed.

(** ** The director's state *)

Record ServerConfig := mkServerConfig {
  DefaultTestPlan : string;
  SlackNotification : bool;
}.

Record Director (C W : Type) := mkDirector {
  planClient : C;
  runClient : C;
  eventClient : C;
  td_cfg : ServerConfig;
  td_world : W;
}.
Arguments mkDirector {C W} _ _ _ _ _.
Arguments planClient {C W} _.
Arguments runClient {C W} _.
Arguments eventClient {C W} _.
Arguments td_cfg {C W} _.
Arguments td_world {C W} _.

Section State.
Context {C W : Type}.
Implicit Types s : Director C W.

Definition set_planClient (f : C → C) s : Director C W :=
  mkDirector (f (planClient s)) (runClient s) (eventClient s) (td_cfg s) (td_world s).
Definition set_runClient (f : C → C) s : Director C W :=
  mkDirector (planClient s) (f (runClient s)) (eventClient s) (td_cfg s) (td_world s).
Definition set_eventClient (f : C → C) s : Director C W :=
  mkDirector (planClient s) (runClient s) (f (eventClient s)) (td_cfg s) (td_world s).

#[export] Program Instance director_world : HasWorld (Director C W) W := {
  world := td_world;
  set_world w s :=
    mkDirector (planClient s) (runClient s) (eventClient s) (td_cfg s) w;
}.
Next Obligation. done. Qed.
Next Obligation. by intros []. Qed.
Next Obligation. done. Qed.
End State.

Section Caches.
Context {C W : Type} `{GoCache C} `{MapRange W} `{Swag} `{Strfmt}.
Notation M := (prog (Director C W)).

(** Decode every item in the order [range] gives; the first failure gives nil. *)
Definition decode_items {A} (dec : json → option A) (items : gmap string json)
    : M (option (list A)) :=
  if decide (size items = 0) then mret None
  else l ← range_map items; mret (mapM (λ kv, dec kv.2) l).

(** ** TestPlanCache *)
Definition TestPlanCache_Get (key : string) : M (option TestPlan) :=
  tp ← reads (λ s, cache_Get key (planClient s));
  mret (tp ≫= TestPlan_UnmarshalJSON).

Definition TestPlanCache_Set (key : string) (plan : TestPlan) : M error :=
  updates (set_planClient (cache_Set key (TestPlan_MarshalJSON plan))) ;; mret None.

Definition TestPlanCache_Delete (key : string) : M error :=
  tp ← TestPlanCache_Get key;
  match tp with
  | Some _ => updates (set_planClient (cache_Delete key)) ;; mret None
  | None => mret (errorf ("test palan key: " +:+ key +:+ " not found"))
  end.

Definition TestPlanCache_GetAll : M (option (list TestPlan)) :=
  items ← reads (λ s, cache_Items (planClient s));
  decode_items TestPlan_UnmarshalJSON items.

(** The first active plan in range order; an undecodable item ends the search. *)
Definition TestPlanCache_GetActive : M (option TestPlan) :=
  items ← reads (λ s, cache_Items (planClient s));
  if decide (size items = 0) then mret None
  else
    l ← range_map items;
    r ← for_range l tt (λ kv _,
          match TestPlan_UnmarshalJSON kv.2 with
          | None => mret (Return None)
          | Some result =>
              act ← deref (IsActive result);
              if act : bool then mret (Return (Some result)) else mret (Next tt)
          end);
    match r with inl _ => mret None | inr res => mret res end.

Definition TestPlanCache_DeleteAll : M RequestOutcome :=
  items ← TestPlanCache_GetAll;
  r ← for_range (default [] items) 0%Z (λ item counter,
        act ← deref (IsActive item);
        if act : bool then mret (Next counter)
        else TestPlanCache_Delete (PlanKey item) ;;
             mret (Next (wrap64 (counter + 1))));
  counter ← no_return r;
  mret (mkRequestOutcome "Deleted all test plans instead of active one"
          (Some counter) RequestOutcomeResultOK).

(** ** TestRunCache *)
Definition TestRunCache_Get (key : string) : M (option TestRun) :=
  tp ← reads (λ s, cache_Get key (runClient s));
  mret (tp ≫= TestRun_UnmarshalJSON).

Definition TestRunCache_Set (key : string) (data : TestRun) : M error :=
  updates (set_runClient (cache_Set key (TestRun_MarshalJSON data))) ;; mret None.

Definition TestRunCache_Delete (key : string) : M error :=
  tp ← TestRunCache_Get key;
  match tp with
  | Some _ => updates (set_runClient (cache_Delete key)) ;; mret None
  | None => mret (errorf "not found")
  end.

Definition TestRunCache_GetAll : M (option (list TestRun)) :=
  items ← reads (λ s, cache_Items (runClient s));
  decode_items TestRun_UnmarshalJSON items.

Definition InitTestRunCache : M unit := updates (set_runClient (λ _, cache_New)).

(** ** EventCache *)
Definition EventCache_GetAll : M (option (list Event)) :=
  items ← reads (λ s, cache_Items (eventClient s));
  decode_items Event_UnmarshalJSON items.

Definition InitEventCache (cfg : ServerConfig) : M unit :=
  updates (λ s, mkDirector (planClient s) (runClient s) cache_New cfg (td_world s)).
End Caches.
