(* ===== verification/Director.v ===== *)
(** * The test director's handlers (test_director/handlers)

    The REST handlers for test plans, test runs and events, the event cache's
    [Set], which also updates runs and plans, and the start of the server. *)

From stdpp Require Import base gmap strings list.
From S2P Require Import Prelude GoLib Json Http Models Connectors Cache.

(** [uuid.New]. *)
Class Uuid (W : Type) := { uuid_New : W → string * W }.

(** What a handler answers. *)
Inductive Responder : Type :=
| GetTestPlansNotFound
| GetTestPlansOK (plans : list TestPlan)
| GetTestPlanByIDNotFound
| GetTestPlanByIDOK (plan : TestPlan)
| DeleteTestPlanByIDNotFound
| DeleteTestPlanByIDOK
| DeleteTestPlansOK (outcome : RequestOutcome)
| PutTestPlanByIDOK (plan : TestPlan)
| PutTestPlanByIDBadRequest (outcome : RequestOutcome)
| GetTestRunsNotFound
| GetTestRunsOK (runs : list TestRun)
| GetTestRunByIDNotFound
| GetTestRunByIDOK (run : TestRun)
| DeleteTestRunByIDNotFound
| DeleteTestRunByIDOK
| PutTestRunByIDOK (run : TestRun)
| PutTestRunByIDBadRequest (outcome : RequestOutcome)
| GetEventsNotFound
| GetEventsOK (events : list Event)
| AddEventOK (event : Event).

Section Handlers.
Context {C W : Type} `{GoCache C} `{MapRange W} `{Http W} `{Clock W} `{Uuid W}
        `{Getenv} `{Gjson} `{TimeText} `{Swag} `{Strfmt}.
Notation M := (prog (Director C W)).

Definition refused (details : string) : RequestOutcome :=
  mkRequestOutcome details (Some 1%Z) RequestOutcomeResultREFUSED.

(** ** test_plans.go *)

Definition testPlanBadRequest (err : error) : M Responder :=
  details ← Error err; mret (PutTestPlanByIDBadRequest (refused details)).

Definition getTestPlans_Handle : M Responder :=
  plans ← TestPlanCache_GetAll;
  match plans with
  | None => mret GetTestPlansNotFound
  | Some l => mret (GetTestPlansOK l)
  end.

Definition getTestPlan_Handle (id : string) : M Responder :=
  plan ← TestPlanCache_Get id;
  match plan with
  | None => mret GetTestPlanByIDNotFound
  | Some p => mret (GetTestPlanByIDOK p)
  end.

Definition deleteTestPlan_Handle (id : string) : M Responder :=
  err ← TestPlanCache_Delete id;
  match err with
  | Some _ => mret DeleteTestPlanByIDNotFound
  | None => mret DeleteTestPlanByIDOK
  end.

Definition deleteTestPlans_Handle : M Responder :=
  ro ← TestPlanCache_DeleteAll; mret (DeleteTestPlansOK ro).

(** The existing plan moves along NOT_STARTED, RUNNING, COMPLETE; any other
    status is ignored. *)
Definition put_existing_plan (plan : TestPlan) (tps : option TestPlanSpec)
    : M TestPlan :=
  cur ← deref (PlanStatus (PlanSpec plan));
  next ← (if decide (cur = TestPlanStatusEnumNOTSTARTED) then
            sp ← deref tps; st ← deref (PlanStatus sp); mret (Some st)
          else mret None);
  if decide (next = Some TestPlanStatusEnumRUNNING) then
    sp ← deref tps;
    mret (set_IsActive (Some true) (set_PlanStatus (PlanStatus sp) plan))
  else if decide (cur = TestPlanStatusEnumRUNNING) then
    sp ← deref tps; st ← deref (PlanStatus sp);
    if decide (st = TestPlanStatusEnumCOMPLETEFAIL ∨ st = TestPlanStatusEnumCOMPLETEPASS)
    then mret (set_IsActive (Some true) (set_PlanStatus (PlanStatus sp) plan))
    else mret plan
  else mret plan.

(** The loop that makes every cached plan inactive. *)
Definition deactivate_all : M unit :=
  items ← TestPlanCache_GetAll;
  r ← for_range (default [] items) tt (λ item _,
        TestPlanCache_Set (PlanKey item) (set_IsActive (Some false) item) ;;
        mret (Next tt));
  no_return r.

Definition put_plan_tail (id : string) (plan : TestPlan) : M Responder :=
  act ← deref (IsActive plan);
  (if act : bool then deactivate_all else mret tt) ;;
  err ← TestPlanCache_Set id plan;
  match err with
  | Some e => testPlanBadRequest (Some e)
  | None => mret (PutTestPlanByIDOK plan)
  end.

Definition putTestPlan_Handle (id : string) (tps : option TestPlanSpec)
    : M Responder :=
  plan ← TestPlanCache_Get id;
  match plan with
  | Some plan => plan' ← put_existing_plan plan tps; put_plan_tail id plan'
  | None =>
      '(jt, err) ← GetJiraTaskDetails id;
      match err with
      | Some e => testPlanBadRequest (Some e)
      | None =>
          jt ← deref jt;
          it ← deref (FieldsIssueType (Fields jt));
          if decide (IssueTypeName it ≠ "Test Plan") then testPlanBadRequest err
          else
            jid ← deref (JiraTaskId jt);
            name ← deref (FieldsName (Fields jt));
            sp ← deref tps;
            put_plan_tail id
              (mkTestPlan
                 (mkTestPlanSpec (AssigneeName (FieldsAssignee (Fields jt))) jid name
                    (PlanStatus sp) None)
                 (Some true) id)
      end
  end.

(** ** test_runs.go *)

Definition badRequestResponse (err : error) : M Responder :=
  details ← Error err; mret (PutTestRunByIDBadRequest (refused details)).

Definition contains (tests : option (list (option Test))) (testId : option string)
    : M bool :=
  r ← for_range (default [] tests) tt (λ test _,
        t ← deref test; i ← deref (IssueID t); id ← deref testId;
        if decide (i = id) then mret (Return true) else mret (Next tt));
  match r with inl _ => mret false | inr b => mret b end.

Definition UpdateTestRun (testRun : TestRun) : M error :=
  err ← xray_UpdateTestRun testRun;
  match err with
  | Some e => mret (Some e)
  | None =>
      key ← deref (TestKey (RunSpec testRun));
      tp ← TestPlanCache_Get key;
      match tp with
      | None => mret None
      | Some tp =>
          pass ← (if decide (RunStatus (RunSpec testRun) = TestRunStatusEnumPASSED) then
                    st ← deref (PlanStatus (PlanSpec tp));
                    mret (bool_decide (st ≠ TestPlanStatusEnumCOMPLETEFAIL))
                  else mret false);
          deref (PlanStatus (PlanSpec tp)) ;;
          let st := if pass : bool then TestPlanStatusEnumCOMPLETEPASS
                    else TestPlanStatusEnumCOMPLETEFAIL in
          TestPlanCache_Set (PlanKey tp) (set_PlanStatus (Some st) tp) ;;
          mret None
      end
  end.

Definition getTestRuns_Handle : M Responder :=
  runs ← TestRunCache_GetAll;
  match runs with
  | None => mret GetTestRunsNotFound
  | Some l => mret (GetTestRunsOK l)
  end.

Definition getTestRun_Handle (id : string) : M Responder :=
  run ← TestRunCache_Get id;
  match run with
  | None => mret GetTestRunByIDNotFound
  | Some r => mret (GetTestRunByIDOK r)
  end.

Definition deleteTestRun_Handle (id : string) : M Responder :=
  err ← TestRunCache_Delete id;
  match err with
  | Some _ => mret DeleteTestRunByIDNotFound
  | None => mret DeleteTestRunByIDOK
  end.

Definition put_run_tail (id : string) (testRun : TestRun) : M Responder :=
  err ← TestRunCache_Set id testRun;
  match err with
  | Some e => badRequestResponse (Some e)
  | None => mret (PutTestRunByIDOK testRun)
  end.

(** TO DO to EXECUTING: Xray first, then the active plan starts running. *)
Definition put_run_executing (id : string) (testRun : TestRun) (spec : TestRunSpec)
    : M Responder :=
  now ← time_Now;
  let testRun := set_RunStatus (RunStatus spec)
                   (set_RunData (RunData spec) (set_StartDateTime now testRun)) in
  err ← xray_UpdateTestRun testRun;
  match err with
  | Some e => badRequestResponse (Some e)
  | None =>
      let refuse :=
        badRequestResponse (errorf "there is no active test plan belongs to test run") in
      tp ← TestPlanCache_GetActive;
      match tp with
      | None => refuse
      | Some tp =>
          c ← contains (Tests (PlanSpec tp)) (Some (TestID (RunSpec testRun)));
          if c : bool then
            deref (PlanStatus (PlanSpec tp)) ;;
            TestPlanCache_Set (PlanKey tp)
              (set_PlanStatus (Some TestPlanStatusEnumRUNNING) tp) ;;
            put_run_tail id testRun
          else refuse
      end
  end.

(** A run that has started fails or passes. *)
Definition put_run_finished (id : string) (testRun : TestRun) (data status : string)
    : M Responder :=
  now ← time_Now;
  let testRun := set_RunStatus status (set_RunData data (set_EndDateTime now testRun)) in
  err ← UpdateTestRun testRun;
  match err with
  | Some e => badRequestResponse (Some e)
  | None => put_run_tail id testRun
  end.

Definition append_data (data more : string) : string :=
  (if decide (data ≠ "") then data +:+ ": " else data) +:+ more.

Definition put_existing_run (id : string) (testRun : TestRun) (spec : TestRunSpec)
    : M Responder :=
  let cur := RunStatus (RunSpec testRun) in
  let next := RunStatus spec in
  if decide (cur = TestRunStatusEnumTODO ∧ next = TestRunStatusEnumEXECUTING)
  then put_run_executing id testRun spec
  else if decide (cur ≠ TestRunStatusEnumTODO ∧ next = TestRunStatusEnumFAILED)
  then put_run_finished id testRun
         (append_data (RunData (RunSpec testRun)) (RunData spec)) next
  else if decide (cur ≠ TestRunStatusEnumTODO ∧ next = TestRunStatusEnumPASSED)
  then put_run_finished id testRun (RunData spec) next
  else put_run_tail id testRun.

(** A run the director does not know: it must be a test of the active plan. *)
Definition put_new_run (id : string) (spec : TestRunSpec) : M Responder :=
  key ← deref (TestKey spec);
  '(jt, err) ← GetJiraTaskDetails key;
  match err with
  | Some e => badRequestResponse (Some e)
  | None =>
      jt ← deref jt;
      it ← deref (FieldsIssueType (Fields jt));
      if decide (IssueTypeName it ≠ "Test")
      then badRequestResponse (errorf "test doesn't have issueType 'Test'")
      else
        tp ← TestPlanCache_GetActive;
        match tp with
        | None => badRequestResponse (errorf "there is no active test plan")
        | Some tp =>
            c ← contains (Tests (PlanSpec tp)) (JiraTaskId jt);
            if c : bool then
              jid ← deref (JiraTaskId jt);
              '(execId, err) ← CreateTestExecution (JiraID (PlanSpec tp)) jid
                                 (JiraTaskKey jt);
              match err with
              | Some e => badRequestResponse (Some e)
              | None =>
                  put_run_tail id
                    (mkTestRun zero_time execId zero_time
                       (mkTestRunSpec (RunData spec) TestRunStatusEnumTODO execId jid
                          (TestKey spec)))
              end
            else badRequestResponse (errorf "test doesn't belong to active test plan")
        end
  end.

Definition putTestRun_Handle (id : string) (body : option TestRunSpec)
    : M Responder :=
  testRun ← TestRunCache_Get id;
  spec ← deref body;
  match testRun with
  | Some testRun => put_existing_run id testRun spec
  | None => put_new_run id spec
  end.

(** ** events_cache.go and events.go *)

Definition SlackChannel : string := "#test_director".

Definition event_text (data : EventSpec) (message : string) : string :=
  message +:+ " " +:+ Join (default [] (EvData data)) ", ".

Definition sendSlackNotification (data : EventSpec) : M unit :=
  user ← deref (SourceClass data);
  message ← deref (EvMessage data);
  class ← deref (EvClass data);
  instance ← deref (SourceInstance data);
  let color := if decide (class = EventClassEnumFAIL) then "danger"
               else if decide (class = EventClassEnumWARN) then "warning" else "good" in
  SendJobNotification
    (mkSlackClient (getenv "SLACK_WEB_HOOK") user SlackChannel (10 * Second))
    (mkSlackJob color ":ghost:" (event_text data message)
       (class +:+ " - TestRun ID: " +:+ instance)) ;;
  mret tt.

(** The run an event that is not informational is about, with the event's text
    added to its data. *)
Definition record_event (data : EventSpec) : M TestRun :=
  instance ← deref (SourceInstance data);
  tr ← TestRunCache_Get instance;
  tr ← deref tr;
  message ← deref (EvMessage data);
  let tr := set_RunData
              (append_data (RunData (RunSpec tr)) (event_text data message)) tr in
  TestRunCache_Set instance tr ;;
  mret tr.

Definition EventCache_Set (key : string) (ev : Event) : M error :=
  let data := EvSpec ev in
  let b := Event_MarshalJSON ev in
  class ← deref (EvClass data);
  tr ← (if decide (class ≠ EventClassEnumINFO)
        then tr ← record_event data; mret (Some tr) else mret None);
  fails ← (if decide (class = EventClassEnumFAIL) then
             src ← deref (SourceClass data);
             mret (bool_decide (src ≠ EventSourceClassEnumLogDashMonitor))
           else mret false);
  err ← (if fails : bool then
           tr ← deref tr; UpdateTestRun (set_RunStatus TestRunStatusEnumFAILED tr)
         else mret None);
  match err with
  | Some e => mret (Some e)
  | None =>
      updates (set_eventClient (cache_Set key b)) ;;
      slack ← reads (λ s, SlackNotification (td_cfg s));
      (if slack : bool then sendSlackNotification data else mret tt) ;;
      mret None
  end.

Definition getEvents_Handle : M Responder :=
  events ← EventCache_GetAll;
  match events with
  | None => mret GetEventsNotFound
  | Some l => mret (GetEventsOK l)
  end.

Definition postEvent_Handle (body : option EventSpec) : M Responder :=
  id ← outside uuid_New;
  now ← time_Now;
  spec ← deref body;
  let event := mkEvent id now spec in
  err ← EventCache_Set id event;
  match err with
  | Some e => mret (PutTestPlanByIDBadRequest (refused (err_text e)))
  | None => mret (AddEventOK event)
  end.

(** ** Start-up *)

Definition InitTestPlanCache (dtp : ServerConfig) : M unit :=
  updates (set_planClient (λ _, cache_New)) ;;
  '(jt, err) ← GetJiraTaskDetails (DefaultTestPlan dtp);
  match err with
  | Some _ => mret tt
  | None =>
      jt ← deref jt;
      jid ← deref (JiraTaskId jt);
      '(tests, err) ← GetTestPlan jid;
      match err with
      | Some _ => mret tt
      | None =>
          name ← deref (FieldsName (Fields jt));
          TestPlanCache_Set (DefaultTestPlan dtp)
            (mkTestPlan
               (mkTestPlanSpec (AssigneeName (FieldsAssignee (Fields jt))) jid name
                  (Some TestPlanStatusEnumNOTSTARTED) tests)
               (Some true) (DefaultTestPlan dtp)) ;;
          mret tt
      end
  end.

(** The caches are set up before the server accepts requests. *)
Definition director_main (cfg : ServerConfig) : M unit :=
  InitEventCache cfg ;; InitTestPlanCache cfg ;; InitTestRunCache.

(** cmd/test-framework-server/main.go: notifications are sent unless the environment
    names [SLACK_NOTIFICATION]. *)
Definition server_main (cfg : ServerConfig) : M unit :=
  director_main (mkServerConfig (DefaultTestPlan cfg)
                   (bool_decide (getenv "SLACK_NOTIFICATION" = ""))).

(** ** Requests *)

Inductive dir_request : Type :=
| RqGetTestPlans
| RqGetTestPlan (id : string)
| RqDeleteTestPlan (id : string)
| RqDeleteTestPlans
| RqPutTestPlan (id : string) (body : option TestPlanSpec)
| RqGetTestRuns
| RqGetTestRun (id : string)
| RqDeleteTestRun (id : string)
| RqPutTestRun (id : string) (body : option TestRunSpec)
| RqGetEvents
| RqAddEvent (body : option EventSpec).

(** Which handler serves which operation. *)
Definition serve (r : dir_request) : M Responder :=
  match r with
  | RqGetTestPlans => getTestPlans_Handle
  | RqGetTestPlan id => getTestPlan_Handle id
  | RqDeleteTestPlan id => deleteTestPlan_Handle id
  | RqDeleteTestPlans => deleteTestPlans_Handle
  | RqPutTestPlan id body => putTestPlan_Handle id body
  | RqGetTestRuns => getTestRuns_Handle
  | RqGetTestRun id => getTestRun_Handle id
  | RqDeleteTestRun id => deleteTestRun_Handle id
  | RqPutTestRun id body => putTestRun_Handle id body
  | RqGetEvents => getEvents_Handle
  | RqAddEvent body => postEvent_Handle body
  end.
End Handlers.
