(* ===== verification/Scripted.v ===== *)
(** * A scripted environment

    A concrete instance of every interface to the outside: HTTP answers come from a
    list, requests are recorded, the clock advances when the program sleeps.  It shows
    that the laws the development assumes of the outside can hold, and it runs the
    definitions on examples. *)

From stdpp Require Import base gmap strings list pretty.
From S2P Require Import Prelude GoLib Json Http Models Connectors Cache Director.

Record Script := mkScript {
  answers : list (goerror + response);
  sent : list request;
  ticks : Z;
}.

#[export] Instance script_http : Http Script := {
  http_NewRequest _ _ := None;
  http_Do r w :=
    match answers w with
    | [] => (inl (GoError "connection refused" Plain),
             mkScript [] (sent w ++ [r]) (ticks w))
    | a :: l => (a, mkScript l (sent w ++ [r]) (ticks w))
    end;
}.

#[export] Instance script_clock : Clock Script := {
  clock_now w := (ticks w, w);
  clock_sleep d w := mkScript (answers w) (sent w) (ticks w + d);
}.

#[export] Program Instance script_range : MapRange Script := {
  map_order A m w := (map_to_list m, w);
}.
Next Obligation. done. Qed.

#[export] Instance script_uuid : Uuid Script := {
  uuid_New w := ("uuid-" +:+ pretty (ticks w),
                 mkScript (answers w) (sent w) (ticks w + 1));
}.

#[export] Instance script_getenv : Getenv := { getenv _ := "" }.

(** Enough of gjson to read the flat answers the examples use: the whole text. *)
#[export] Instance script_gjson : Gjson := {
  gjson_Str json _ := json;
  gjson_Array json _ := if decide (json = "") then [] else [json];
}.

#[export] Instance script_time : TimeText := {
  dt_String t := pretty t;
  parse_RFC3339 _ := None;
  format_RFC3339 t := pretty t;
}.

Definition members (v : json) : list (string * json) :=
  match v with JObj fs => fs | _ => [] end.

#[export] Program Instance script_swag : Swag := {
  ConcatJSON l := JObj (concat (map members l));
}.
Next Obligation. intros a b. simpl. by rewrite app_nil_r. Qed.

(** Times are written in whole milliseconds, sign and binary digits: reading one
    back rounds it down. *)
Fixpoint pos_bits (p : positive) : list json :=
  match p with
  | xH => []
  | xO p => JBool false :: pos_bits p
  | xI p => JBool true :: pos_bits p
  end.
Fixpoint bits_pos (l : list json) : option positive :=
  match l with
  | [] => Some xH
  | JBool b :: l => (if b : bool then xI else xO) <$> bits_pos l
  | _ => None
  end.
Definition Z_json (z : Z) : json :=
  match z with
  | Z0 => JArr []
  | Zpos p => JArr (JNum "1" :: pos_bits p)
  | Zneg p => JArr (JNum "-1" :: pos_bits p)
  end.
Definition json_Z (v : json) : option Z :=
  match v with
  | JArr [] => Some 0%Z
  | JArr (JNum "1" :: l) => Zpos <$> bits_pos l
  | JArr (JNum "-1" :: l) => Zneg <$> bits_pos l
  | _ => None
  end.

Lemma bits_pos_bits p : bits_pos (pos_bits p) = Some p.
Proof. induction p as [p IH|p IH|]; simpl; by rewrite ?IH. Qed.
Lemma json_Z_json z : json_Z (Z_json z) = Some z.
Proof. destruct z; simpl; by rewrite ?bits_pos_bits. Qed.

#[export] Program Instance script_strfmt : Strfmt := {
  dt_json t := Z_json (t / Millisecond);
  dt_of_json v := (λ z, z * Millisecond)%Z <$> json_Z v;
  dt_norm t := (t / Millisecond * Millisecond)%Z;
}.
Next Obligation. intros t. simpl. destruct (t / Millisecond)%Z; discriminate. Qed.
Next Obligation. intros t. simpl. by rewrite json_Z_json. Qed.
Next Obligation. intros t. simpl. unfold Millisecond. by rewrite Z.div_mul. Qed.

Definition quiet (l : list (goerror + response)) : Script := mkScript l [] 0.
Definition ok200 (body : string) : goerror + response := inr (mkResponse 200 (inr body)).
Definition code (c : Z) : goerror + response := inr (mkResponse c (inr "")).

(** A Jira task as the REST interface answers it. *)
Definition jira_answer (key id issuetype : string) : goerror + response :=
  ok200 ("{" +:+ quoted "key" +:+ ":" +:+ quoted key +:+ "," +:+
         quoted "id" +:+ ":" +:+ quoted id +:+ "," +:+
         quoted "fields" +:+ ":{" +:+ quoted "summary" +:+ ":" +:+ quoted "name" +:+ "," +:+
         quoted "issuetype" +:+ ":{" +:+ quoted "name" +:+ ":" +:+ quoted issuetype +:+ "}}}").

(** One Xray query that succeeds: two authorisations, then the answer. *)
Definition xray_answer (body : string) : list (goerror + response) :=
  [ok200 (quoted "token"); ok200 (quoted "token"); ok200 body].

Notation ScriptedDirector := (Director (gmap string json) Script).

Definition start_cfg : ServerConfig := mkServerConfig "MQ-1" false.
Definition booting (l : list (goerror + response)) : ScriptedDirector :=
  mkDirector ∅ ∅ ∅ start_cfg (quiet l).
