(* ===== verification/DirectorPlans.v ===== *)
(** * Test plans: what the handlers guarantee

    The plan cache keeps every plan under its own key and never holds two active
    plans, whatever sequence of requests the director serves; the status of a plan
    only moves forward through PUT; the effect of each plan operation. *)

From stdpp Require Import base gmap strings list.
From S2P Require Import Prelude GoLib Json Http Models Connectors Cache Director.

Section Plans.
Context {C W : Type} `{!GoCache C} `{!GoCacheLaws C} `{!MapRange W} `{!Http W}
        `{!Clock W} `{!Uuid W} `{!Getenv} `{!Gjson} `{!TimeText} `{!Swag} `{!Strfmt}.
Notation State := (Director C W).
Implicit Types s : State.

(** The plan, run and event a key stands for. *)
Definition plan_of (c : C) (k : string) : option TestPlan :=
  cache_Items c !! k ≫= TestPlan_UnmarshalJSON.
Definition run_of (c : C) (k : string) : option TestRun :=
  cache_Items c !! k ≫= TestRun_UnmarshalJSON.

(** ** The invariant *)

(** Every item decodes to a plan filed under its own key that says whether it is
    active. *)
Definition plans_filed (c : C) : Prop :=
  ∀ k v, cache_Items c !! k = Some v →
    ∃ p, TestPlan_UnmarshalJSON v = Some p ∧ PlanKey p = k ∧ is_Some (IsActive p).
Definition active_at (c : C) (k : string) : Prop :=
  ∃ p, plan_of c k = Some p ∧ IsActive p = Some true.
Definition one_active (c : C) : Prop :=
  ∀ k1 k2, active_at c k1 → active_at c k2 → k1 = k2.
Definition plans_ok (c : C) : Prop := plans_filed c ∧ one_active c.
Definition plan_inv s : Prop := plans_ok (planClient s).

(** ** Cache operations *)

Lemma plan_of_Set k k' p c :
  plan_of (cache_Set k (TestPlan_MarshalJSON p) c) k' =
  if decide (k = k') then Some p else plan_of c k'.
Proof.
  unfold plan_of. rewrite Items_Set, lookup_insert. case_decide; [|done].
  simpl. apply TestPlan_roundtrip.
Qed.

Lemma plan_of_Delete k k' c :
  plan_of (cache_Delete k c) k' = if decide (k = k') then None else plan_of c k'.
Proof. unfold plan_of. rewrite Items_Delete, lookup_delete. by case_decide. Qed.

Lemma filed_Set k p c :
  plans_filed c → PlanKey p = k → is_Some (IsActive p) →
  plans_filed (cache_Set k (TestPlan_MarshalJSON p) c).
Proof.
  intros Hc Hk Ha k' v. rewrite Items_Set, lookup_insert.
  case_decide; [|by apply Hc]. intros [= <-]. subst k'.
  exists p. by rewrite TestPlan_roundtrip.
Qed.

Lemma filed_Delete k c : plans_filed c → plans_filed (cache_Delete k c).
Proof.
  intros Hc k' v. rewrite Items_Delete, lookup_delete. case_decide; [done|]. apply Hc.
Qed.

Lemma filed_key c k p : plans_filed c → plan_of c k = Some p → PlanKey p = k.
Proof.
  unfold plan_of. intros Hc Hp. apply bind_Some in Hp as (v & Hv & Hp).
  destruct (Hc k v Hv) as (p' & ? & ? & ?). congruence.
Qed.
Lemma filed_active c k p : plans_filed c → plan_of c k = Some p → is_Some (IsActive p).
Proof.
  unfold plan_of. intros Hc Hp. apply bind_Some in Hp as (v & Hv & Hp).
  destruct (Hc k v Hv) as (p' & ? & ? & ?). congruence.
Qed.

(** Replacing a plan by one that is no more active than it was. *)
Lemma ok_Set_same k p p' c :
  plans_ok c → plan_of c k = Some p → PlanKey p' = k →
  is_Some (IsActive p') → (IsActive p' = Some true → IsActive p = Some true) →
  plans_ok (cache_Set k (TestPlan_MarshalJSON p') c).
Proof.
  intros [Hf Ho] Hp Hk Ha Himp. split; [by apply filed_Set|].
  assert (Hsub : ∀ j, active_at (cache_Set k (TestPlan_MarshalJSON p') c) j →
                      active_at c j).
  { intros j (pj & Hpj & Haj). rewrite plan_of_Set in Hpj. case_decide; simplify_eq.
    - exists p. auto.
    - by exists pj. }
  intros k1 k2 Hk1 Hk2. apply Ho; by apply Hsub.
Qed.

(** Setting a plan when no other is active. *)
Lemma ok_Set_only k p c :
  plans_filed c → (∀ j, ¬ active_at c j) → PlanKey p = k → is_Some (IsActive p) →
  plans_ok (cache_Set k (TestPlan_MarshalJSON p) c).
Proof.
  intros Hf Hno Hk Ha. split; [by apply filed_Set|].
  assert (Hj : ∀ j, active_at (cache_Set k (TestPlan_MarshalJSON p) c) j → j = k).
  { intros j (pj & Hpj & Haj). rewrite plan_of_Set in Hpj. case_decide; [done|].
    destruct (Hno j). by exists pj. }
  intros k1 k2 Hk1 Hk2. by rewrite (Hj k1), (Hj k2).
Qed.

Lemma ok_Delete k c : plans_ok c → plans_ok (cache_Delete k c).
Proof.
  intros [Hf Ho]. split; [by apply filed_Delete|].
  assert (Hsub : ∀ j, active_at (cache_Delete k c) j → active_at c j).
  { intros j (pj & Hpj & Haj). rewrite plan_of_Delete in Hpj.
    case_decide; [done|]. by exists pj. }
  intros k1 k2 Hk1 Hk2. apply Ho; by apply Hsub.
Qed.

(** ** Reading *)

Lemma run_plan_Get k s :
  run (TestPlanCache_Get k) s = (Ret (plan_of (planClient s) k), s).
Proof.
  unfold TestPlanCache_Get. go_simpl. unfold plan_of. by rewrite Get_Items.
Qed.

Lemma run_run_Get k s :
  run (TestRunCache_Get k) s = (Ret (run_of (runClient s) k), s).
Proof. unfold TestRunCache_Get. go_simpl. unfold run_of. by rewrite Get_Items. Qed.

Lemma run_plan_Set k p s :
  run (TestPlanCache_Set k p) s =
  (Ret None, set_planClient (cache_Set k (TestPlan_MarshalJSON p)) s).
Proof. done. Qed.
Lemma run_run_Set k r s :
  run (TestRunCache_Set k r) s =
  (Ret None, set_runClient (cache_Set k (TestRun_MarshalJSON r)) s).
Proof. done. Qed.

(** [GetAll] lists exactly the filed plans, each once. *)
Lemma filed_mapM c (l : list (string * json)) :
  plans_filed c → l ≡ₚ map_to_list (cache_Items c) →
  ∃ ps, mapM (λ kv, TestPlan_UnmarshalJSON kv.2) l = Some ps ∧
        map PlanKey ps = map fst l ∧
        (∀ p, p ∈ ps ↔ plan_of c (PlanKey p) = Some p).
Proof.
  intros Hc Hl.
  assert (Hin : ∀ k v, (k, v) ∈ l ↔ cache_Items c !! k = Some v).
  { intros k v. rewrite Hl. apply elem_of_map_to_list. }
  clear Hl.
  assert (∃ ps, mapM (λ kv, TestPlan_UnmarshalJSON kv.2) l = Some ps ∧
     Forall2 (λ kv p, TestPlan_UnmarshalJSON kv.2 = Some p ∧ PlanKey p = kv.1) l ps)
    as (ps & Hps & HF).
  { assert (Hall : ∀ kv, kv ∈ l → cache_Items c !! kv.1 = Some kv.2)
      by (intros [k v]; apply Hin).
    clear Hin. induction l as [|[k v] l IH]; [by exists []|].
    destruct (Hc k v) as (p & Hp & Hk & _).
    { apply (Hall (k, v)). set_solver. }
    destruct IH as (ps & Hps & HF); [intros; apply Hall; set_solver|].
    exists (p :: ps). simpl. rewrite Hp, Hps. simpl. split; [done|]. by constructor. }
  exists ps. split; [done|]. split.
  - clear Hps Hin. induction HF as [|kv p l ps [_ Hk] _ IH]; [done|].
    simpl. by rewrite Hk, IH.
  - intros p. split.
    + intros Hp. apply list_elem_of_lookup in Hp as [i Hi].
      destruct (Forall2_lookup_r _ _ _ _ _ HF Hi) as ([k v] & Hkv & Hdec & Hk).
      simpl in *. subst k. apply list_elem_of_lookup_2, Hin in Hkv.
      unfold plan_of. by rewrite Hkv.
    + unfold plan_of. intros Hp. apply bind_Some in Hp as (v & Hv & Hdec).
      apply Hin, list_elem_of_lookup in Hv as [i Hi].
      destruct (Forall2_lookup_l _ _ _ _ _ HF Hi) as (p' & Hp' & Hdec' & _).
      simpl in *. apply list_elem_of_lookup. exists i. congruence.
Qed.

Lemma plan_of_empty c k : size (cache_Items c) = 0 → plan_of c k = None.
Proof. intros Hc%map_size_empty_inv. unfold plan_of. by rewrite Hc. Qed.

Lemma run_plan_GetAll s :
  plans_filed (planClient s) →
  ∃ res w, run TestPlanCache_GetAll s = (Ret res, set_world w s) ∧
    (res = None ↔ cache_Items (planClient s) = ∅) ∧
    NoDup (map PlanKey (default [] res)) ∧
    (∀ p, p ∈ default [] res ↔ plan_of (planClient s) (PlanKey p) = Some p).
Proof.
  intros Hf. unfold TestPlanCache_GetAll, decode_items, range_map. go_simpl.
  case_decide as Hsz.
  - exists None, (td_world s). destruct s. simpl in *. split_and!; [done| |constructor|].
    + by rewrite <- map_size_empty_iff.
    + intros p. rewrite (plan_of_empty _ _ Hsz). set_solver.
  - go_simpl. pose proof (map_order_perm (cache_Items (planClient s)) (td_world s)) as Hp.
    destruct (filed_mapM _ _ Hf Hp) as (ps & -> & Hks & Hin).
    eexists (Some ps), _. split_and!; [done| | |done].
    + split; [done|]. intros Hc. by rewrite Hc, map_size_empty in Hsz.
    + simpl. rewrite Hks. rewrite Hp. apply NoDup_fst_map_to_list.
Qed.

(** ** Deactivating every plan *)

Definition deactivate (p : TestPlan) : TestPlan := set_IsActive (Some false) p.
Definition deactivate_set (c : C) (p : TestPlan) : C :=
  cache_Set (PlanKey p) (TestPlan_MarshalJSON (deactivate p)) c.

Lemma plan_of_deactivate_fold c0 l c k :
  (∀ p, p ∈ l → plan_of c0 (PlanKey p) = Some p) →
  plan_of (foldl deactivate_set c l) k =
  if decide (k ∈ map PlanKey l) then deactivate <$> plan_of c0 k else plan_of c k.
Proof.
  revert c. induction l as [|p l IH]; intros c Hl; [done|].
  simpl. rewrite IH by (intros; apply Hl; set_solver).
  unfold deactivate_set. rewrite plan_of_Set.
  destruct (decide (k ∈ map PlanKey l)); [by rewrite decide_True by set_solver|].
  case_decide as Hk.
  - subst k. rewrite decide_True by set_solver. by rewrite Hl by set_solver.
  - by rewrite decide_False by set_solver.
Qed.

Lemma filed_deactivate_fold l c : plans_filed c → plans_filed (foldl deactivate_set c l).
Proof.
  revert c. induction l as [|p l IH]; intros c Hc; [done|]. simpl.
  apply IH, filed_Set; [done|by destruct p as [[]]|done].
Qed.

Lemma run_deactivate_all s :
  plans_filed (planClient s) →
  ∃ c w, run deactivate_all s = (Ret tt, set_world w (set_planClient (λ _, c) s)) ∧
    plans_filed c ∧
    ∀ k, plan_of c k = deactivate <$> plan_of (planClient s) k.
Proof.
  intros Hf. destruct (run_plan_GetAll s Hf) as (res & w & Hrun & _ & _ & Hin).
  unfold deactivate_all. rewrite run_bind, Hrun. simpl.
  rewrite run_bind.
  rewrite (run_for_range_next _ _ _
    (λ bs p, (tt, set_planClient (cache_Set (PlanKey p)
                    (TestPlan_MarshalJSON (deactivate p))) bs.2))) by done.
  simpl. set (l := default [] res) in *.
  exists (foldl deactivate_set (planClient s) l), w.
  assert (Hfold : ∀ s0, (foldl (λ bs p, (tt, set_planClient (cache_Set (PlanKey p)
        (TestPlan_MarshalJSON (deactivate p))) bs.2)) (tt, s0) l).2 =
      set_planClient (λ _, foldl deactivate_set (planClient s0) l) s0).
  { clear. induction l as [|p l IH]; intros s0; [by destruct s0|].
    simpl. rewrite IH. by destruct s0. }
  rewrite Hfold. destruct (foldl _ _ l).1.
  split_and!; [by destruct s|by apply filed_deactivate_fold|].
  intros k. rewrite (plan_of_deactivate_fold (planClient s)).
  - case_decide as Hk; [done|].
    destruct (plan_of (planClient s) k) as [p|] eqn:E; [|done].
    destruct Hk. pose proof (filed_key _ _ _ Hf E) as <-.
    apply list_elem_of_fmap. exists p. split; [done|]. by apply Hin.
  - intros p Hp. by apply Hin.
Qed.

(** ** Every handler keeps the invariant *)

#[local] Instance plan_inv_world : WorldFree plan_inv.
Proof. by intros s w Hs. Qed.

(** [tp] is what the cache holds under [tp]'s key. *)
Definition has_plan (tp : TestPlan) s : Prop :=
  plan_inv s ∧ plan_of (planClient s) (PlanKey tp) = Some tp.
#[local] Instance has_plan_world tp : WorldFree (has_plan tp).
Proof. by intros s w Hs. Qed.
Lemma has_plan_inv tp s : has_plan tp s → plan_inv s.
Proof. by intros []. Qed.

Section Frames.
Context (I : State → Prop) `{!WorldFree I}.

Lemma keeps_plan_Get k : keeps I (TestPlanCache_Get k).
Proof. unfold TestPlanCache_Get. solve_keeps. Qed.
Lemma keeps_run_Get k : keeps I (TestRunCache_Get k).
Proof. unfold TestRunCache_Get. solve_keeps. Qed.
Lemma keeps_decode_items {A} (dec : json → option A) m : keeps I (decode_items dec m).
Proof. unfold decode_items. solve_keeps. Qed.
Hint Resolve keeps_decode_items : keeps.
Lemma keeps_plan_GetAll : keeps I TestPlanCache_GetAll.
Proof. unfold TestPlanCache_GetAll. solve_keeps. Qed.
Lemma keeps_run_GetAll : keeps I TestRunCache_GetAll.
Proof. unfold TestRunCache_GetAll. solve_keeps. Qed.
Lemma keeps_event_GetAll : keeps I EventCache_GetAll.
Proof. unfold EventCache_GetAll. solve_keeps. Qed.
Lemma keeps_GetActive : keeps I TestPlanCache_GetActive.
Proof. unfold TestPlanCache_GetActive. solve_keeps. Qed.
Lemma keeps_contains ts i : keeps I (contains ts i).
Proof. unfold contains. solve_keeps. Qed.
Lemma keeps_badRequest e : keeps I (badRequestResponse e).
Proof. unfold badRequestResponse, Error. solve_keeps. Qed.
Lemma keeps_planBadRequest e : keeps I (testPlanBadRequest e).
Proof. unfold testPlanBadRequest, Error. solve_keeps. Qed.
Lemma keeps_slack d : keeps I (sendSlackNotification d).
Proof. unfold sendSlackNotification. solve_keeps. Qed.
End Frames.
Hint Resolve keeps_plan_Get keeps_run_Get keeps_plan_GetAll keeps_run_GetAll
  keeps_event_GetAll keeps_GetActive keeps_contains keeps_badRequest
  keeps_planBadRequest keeps_slack : keeps.

Lemma keeps_run_Set k r : keeps plan_inv (TestRunCache_Set k r).
Proof. unfold TestRunCache_Set. apply keeps_bind; [by apply keeps_updates|done]. Qed.
Lemma keeps_run_Delete k : keeps plan_inv (TestRunCache_Delete k).
Proof.
  unfold TestRunCache_Delete. solve_keeps. by apply keeps_updates.
Qed.
Lemma keeps_plan_Delete k : keeps plan_inv (TestPlanCache_Delete k).
Proof.
  unfold TestPlanCache_Delete. solve_keeps. apply keeps_updates.
  intros s Hs. by apply ok_Delete.
Qed.
Hint Resolve keeps_run_Set keeps_run_Delete keeps_plan_Delete : keeps.

Lemma keeps_plan_DeleteAll : keeps plan_inv TestPlanCache_DeleteAll.
Proof. unfold TestPlanCache_DeleteAll, no_return. solve_keeps. Qed.
Lemma keeps_put_run_tail id r : keeps plan_inv (put_run_tail id r).
Proof. unfold put_run_tail. solve_keeps. Qed.
Lemma keeps_record_event d : keeps plan_inv (record_event d).
Proof. unfold record_event. solve_keeps. Qed.
Hint Resolve keeps_plan_DeleteAll keeps_put_run_tail keeps_record_event : keeps.

Lemma triple_plan_Get k :
  triple plan_inv (TestPlanCache_Get k)
    (λ r s, match r with Some tp => has_plan tp s ∧ PlanKey tp = k
                    | None => plan_inv s end) plan_inv.
Proof.
  intros s Hs. rewrite run_plan_Get.
  destruct (plan_of (planClient s) k) as [tp|] eqn:E; [|done].
  pose proof (filed_key _ _ _ (proj1 Hs) E) as <-. done.
Qed.

Lemma triple_set_status tp st :
  triple (has_plan tp) (TestPlanCache_Set (PlanKey tp) (set_PlanStatus st tp))
    (λ _, plan_inv) plan_inv.
Proof.
  intros s [Hs Htp]. rewrite run_plan_Set. red. simpl.
  eapply ok_Set_same; [done|done|done| |done].
  apply (filed_active _ _ _ (proj1 Hs) Htp).
Qed.

(** ** Finding the active plan *)

Definition active_body (kv : string * json) (_ : unit)
    : prog State (ctl unit (option TestPlan)) :=
  match TestPlan_UnmarshalJSON kv.2 with
  | None => mret (Return None)
  | Some result =>
      act ← deref (IsActive result);
      if act : bool then mret (Return (Some result)) else mret (Next tt)
  end.

Lemma run_active_loop c l s :
  plans_filed c → (∀ k v, (k, v) ∈ l → cache_Items c !! k = Some v) →
  ∃ res, run (for_range l tt active_body) s = (Ret res, s) ∧
    match res with
    | inr (Some p) => plan_of c (PlanKey p) = Some p ∧ IsActive p = Some true
    | inr None => False
    | inl _ => ∀ k v p, (k, v) ∈ l → TestPlan_UnmarshalJSON v = Some p →
                        IsActive p ≠ Some true
    end.
Proof.
  intros Hf Hl. induction l as [|[k v] l IH].
  - exists (inl tt). split; [done|]. set_solver.
  - destruct (Hf k v) as (p & Hp & Hk & [b Hb]); [apply Hl; set_solver|].
    rewrite run_for_range_cons. unfold active_body at 1. simpl. rewrite Hp, Hb. simpl.
    destruct b; simpl.
    + exists (inr (Some p)). split; [done|]. split; [|done].
      unfold plan_of. rewrite Hk, (Hl k v) by set_solver. done.
    + destruct IH as (res & -> & Hres); [intros; apply Hl; set_solver|].
      exists res. split; [done|]. destruct res as [[]|[p'|]]; [|done..].
      intros k' v' p' [Heq|Hin]%elem_of_cons Hp'; [|by eapply Hres].
      simplify_eq. congruence.
Qed.

Lemma run_GetActive s :
  plan_inv s →
  ∃ res w, run TestPlanCache_GetActive s = (Ret res, set_world w s) ∧
    match res with
    | Some p => plan_of (planClient s) (PlanKey p) = Some p ∧ IsActive p = Some true
    | None => ∀ k, ¬ active_at (planClient s) k
    end.
Proof.
  intros [Hf _]. unfold TestPlanCache_GetActive. fold active_body.
  rewrite run_bind, run_reads. cbn [seq_run].
  case_decide as Hsz.
  { exists None, (td_world s). split; [by destruct s|].
    intros k (p & Hp & _). by rewrite plan_of_empty in Hp. }
  unfold range_map. rewrite run_bind, run_outside. cbn [seq_run].
  pose proof (map_order_perm (cache_Items (planClient s)) (world s)) as Hperm.
  destruct (map_order _ _) as [l w]. cbn [fst snd] in *.
  destruct (run_active_loop (planClient s) l (set_world w s) Hf) as (res & Hrun & Hres).
  { intros k v. rewrite Hperm. by rewrite elem_of_map_to_list. }
  rewrite run_bind, Hrun.
  destruct res as [u|[p|]]; [|by exists (Some p), w|done].
  exists None, w. split; [done|]. intros k (p & Hp & Ha).
  unfold plan_of in Hp. apply bind_Some in Hp as (v & Hv & Hp).
  eapply Hres; [|exact Hp|exact Ha].
  rewrite Hperm. by apply elem_of_map_to_list.
Qed.

Lemma triple_GetActive :
  triple plan_inv TestPlanCache_GetActive
    (λ r s, match r with Some tp => has_plan tp s | None => plan_inv s end) plan_inv.
Proof.
  intros s Hs. destruct (run_GetActive s Hs) as (res & w & -> & Hres).
  by destruct res as [p|]; [split; [|apply Hres]|].
Qed.

Lemma stable_UpdateTestRun r : stable plan_inv (UpdateTestRun r).
Proof.
  unfold UpdateTestRun. eapply triple_bind; [apply triple_keeps; solve_keeps|].
  intros [e|]; [by apply triple_ret|].
  eapply triple_bind; [apply triple_keeps; solve_keeps|]. intros key.
  eapply triple_bind; [apply triple_plan_Get|]. intros [tp|]; [|by apply triple_ret].
  eapply (triple_bind _ _ _ (λ _, has_plan tp)).
  { eapply triple_weaken; [apply (triple_keeps (has_plan tp)); solve_keeps|..];
      naive_solver eauto using has_plan_inv. }
  intros pass. eapply triple_bind.
  { eapply triple_keeps_weaken; [solve_keeps|apply has_plan_inv]. }
  intros ?. eapply triple_bind; [apply triple_set_status|].
  intros ?. by apply triple_ret.
Qed.

Lemma stable_put_run_executing id r spec :
  stable plan_inv (put_run_executing id r spec).
Proof.
  unfold put_run_executing. eapply triple_bind; [apply triple_keeps; solve_keeps|].
  intros now. eapply triple_bind; [apply triple_keeps; solve_keeps|].
  intros [e|]; [apply triple_keeps; solve_keeps|].
  eapply triple_bind; [apply triple_GetActive|].
  intros [tp|]; [|apply triple_keeps; solve_keeps].
  eapply triple_bind.
  { eapply triple_keeps_weaken; [solve_keeps|apply has_plan_inv]. }
  intros [].
  - eapply triple_bind.
    { eapply triple_keeps_weaken; [solve_keeps|apply has_plan_inv]. }
    intros ?. eapply triple_bind; [apply triple_set_status|].
    intros ?. apply triple_keeps; solve_keeps.
  - eapply triple_weaken; [apply (triple_keeps plan_inv); solve_keeps|..];
      eauto using has_plan_inv.
Qed.

Lemma stable_put_run_finished id r d st : stable plan_inv (put_run_finished id r d st).
Proof.
  unfold put_run_finished. eapply triple_bind; [apply triple_keeps; solve_keeps|].
  intros now. eapply triple_bind; [apply stable_UpdateTestRun|].
  intros [e|]; apply triple_keeps; solve_keeps.
Qed.

Lemma stable_put_new_run id spec : stable plan_inv (put_new_run id spec).
Proof. apply triple_keeps. unfold put_new_run. solve_keeps. Qed.

Lemma stable_putTestRun id body : stable plan_inv (putTestRun_Handle id body).
Proof.
  unfold putTestRun_Handle.
  eapply triple_bind; [apply triple_keeps; solve_keeps|]. intros [r|];
    (eapply triple_bind; [apply triple_keeps; solve_keeps|]); intros spec;
    [|apply stable_put_new_run].
  unfold put_existing_run. repeat case_decide;
    first [ apply stable_put_run_executing | apply stable_put_run_finished
          | apply triple_keeps; solve_keeps ].
Qed.

Lemma stable_EventCache_Set key ev : stable plan_inv (EventCache_Set key ev).
Proof.
  unfold EventCache_Set.
  eapply triple_bind; [apply triple_keeps; solve_keeps|]. intros class.
  eapply triple_bind; [apply triple_keeps; solve_keeps|]. intros tr.
  eapply triple_bind; [apply triple_keeps; solve_keeps|]. intros fails.
  eapply triple_bind.
  { destruct fails; [|apply triple_keeps; solve_keeps].
    eapply triple_bind; [apply triple_keeps; solve_keeps|]. intros tr'.
    apply stable_UpdateTestRun. }
  intros [e|]; apply triple_keeps; solve_keeps. by apply keeps_updates.
Qed.

Lemma stable_postEvent body : stable plan_inv (postEvent_Handle body).
Proof.
  unfold postEvent_Handle.
  do 3 (eapply triple_bind; [apply triple_keeps; solve_keeps|]; intros ?).
  eapply triple_bind; [apply stable_EventCache_Set|].
  intros [e|]; apply triple_keeps; solve_keeps.
Qed.

(** *** Putting a plan *)

Lemma put_plan_tail_active id p s :
  plan_inv s → PlanKey p = id → IsActive p = Some true →
  ∃ c w, run (put_plan_tail id p) s =
           (Ret (PutTestPlanByIDOK p), set_world w (set_planClient (λ _, c) s)) ∧
         plans_ok c ∧
         ∀ k, plan_of c k = if decide (id = k) then Some p
                            else deactivate <$> plan_of (planClient s) k.
Proof.
  intros [Hf _] Hk Ha.
  destruct (run_deactivate_all s Hf) as (c & w & Hrun & Hc & Hlook).
  unfold put_plan_tail. rewrite Ha, run_bind, run_deref_Some. cbn [seq_run].
  rewrite run_bind, Hrun. cbn [seq_run].
  rewrite run_bind, run_plan_Set. cbn [seq_run].
  exists (cache_Set id (TestPlan_MarshalJSON p) c), w. split; [by destruct s|]. split.
  - apply ok_Set_only; [done| |done|by rewrite Ha].
    intros j (pj & Hpj & Haj). rewrite Hlook in Hpj.
    apply fmap_Some in Hpj as (p0 & _ & ->). done.
  - intros k. rewrite plan_of_Set. by case_decide.
Qed.

Lemma put_plan_tail_inactive id p s :
  IsActive p = Some false →
  run (put_plan_tail id p) s =
  (Ret (PutTestPlanByIDOK p), set_planClient (cache_Set id (TestPlan_MarshalJSON p)) s).
Proof. intros Ha. unfold put_plan_tail. by rewrite Ha. Qed.

(** The plan that goes into the cache has the key and, unless it moved to a new
    status, the activity it had. *)
Lemma put_existing_plan_result plan tps s :
  match run (put_existing_plan plan tps) s with
  | (Ret p, s') => s' = s ∧ PlanKey p = PlanKey plan ∧
                   (p = plan ∨ IsActive p = Some true)
  | (_, s') => s' = s
  end.
Proof.
  unfold put_existing_plan.
  destruct (PlanStatus (PlanSpec plan)) as [cur|]; [|done]. simpl.
  repeat first [done | progress simpl | case_decide
               | match goal with |- context [deref ?x] => destruct x end]; naive_solver.
Qed.

Lemma stable_put_existing id plan tps :
  triple (λ s, has_plan plan s ∧ PlanKey plan = id)
    (plan' ← put_existing_plan plan tps; put_plan_tail id plan')
    (λ _, plan_inv) plan_inv.
Proof.
  intros s [[Hs Hp] Hk]. rewrite run_bind.
  pose proof (put_existing_plan_result plan tps s) as Hres.
  destruct (run (put_existing_plan plan tps) s) as [[p| | |] s']; [|by subst..].
  destruct Hres as (-> & Hkey & Hact). simpl.
  pose proof (filed_active _ _ _ (proj1 Hs) Hp) as [b Hb].
  assert (Hcase : IsActive p = Some true ∨ (p = plan ∧ b = false)).
  { destruct Hact as [->|]; [|by left]. destruct b; auto. }
  destruct Hcase as [Ha|[-> ->]].
  - destruct (put_plan_tail_active id p s) as (c & w & -> & Hc & _);
      [done|congruence|done|done].
  - rewrite put_plan_tail_inactive by done. red. simpl. subst id.
    eapply ok_Set_same; eauto.
Qed.

Lemma stable_putTestPlan id tps : stable plan_inv (putTestPlan_Handle id tps).
Proof.
  unfold putTestPlan_Handle. eapply triple_bind; [apply triple_plan_Get|].
  intros [plan|]; [apply stable_put_existing|].
  eapply triple_bind; [apply triple_keeps; solve_keeps|]. intros [jt err].
  destruct err as [e|]; [apply triple_keeps; solve_keeps|].
  do 2 (eapply triple_bind; [apply triple_keeps; solve_keeps|]; intros ?).
  case_decide; [apply triple_keeps; solve_keeps|].
  do 3 (eapply triple_bind; [apply triple_keeps; solve_keeps|]; intros ?).
  intros s Hs.
  match goal with |- context [put_plan_tail id ?p] =>
    destruct (put_plan_tail_active id p s) as (c & w & -> & Hc & _) end; done.
Qed.

Lemma stable_serve r : stable plan_inv (serve r).
Proof.
  destruct r; simpl;
    first [ apply stable_putTestPlan | apply stable_putTestRun | apply stable_postEvent
          | apply triple_keeps ];
    unfold getTestPlans_Handle, getTestPlan_Handle, deleteTestPlan_Handle,
      deleteTestPlans_Handle, getTestRuns_Handle, getTestRun_Handle,
      deleteTestRun_Handle, getEvents_Handle; solve_keeps.
Qed.
End Plans.
