(* ===== verification/PlanTheorems.v ===== *)
(** * Test plans: theorems

    At most one plan is active after any sequence of requests; the exact effect of
    putting and deleting plans; what goes wrong when a Jira issue is not a test plan,
    and when two requests are served at the same time. *)

From stdpp Require Import base gmap strings list.
From S2P Require Import Prelude GoLib Json Http Models Connectors Cache Director.
From S2P Require Import Scripted DirectorPlans.

Section PlanTheorems.
Context {C W : Type} `{!GoCache C} `{!GoCacheLaws C} `{!MapRange W} `{!Http W}
        `{!Clock W} `{!Uuid W} `{!Getenv} `{!Gjson} `{!TimeText} `{!Swag} `{!Strfmt}.
Notation State := (Director C W).
Implicit Types s : State.

(** The director after serving requests one by one.  A handler that panics loses
    its request only: [net/http] recovers it and the server goes on. *)
Definition serve_all (rs : list dir_request) s : State :=
  foldl (λ s r, (run (serve r) s).2) s rs.

Definition no_plans s : Prop := cache_Items (planClient s) = ∅.
#[local] Instance no_plans_world : WorldFree no_plans.
Proof. by intros s w Hs. Qed.

Lemma no_plans_inv s : no_plans s → plan_inv s.
Proof.
  unfold no_plans. intros Hs. split.
  - intros k v. by rewrite Hs, lookup_empty.
  - intros k1 k2 (p & Hp & _) _. unfold plan_of in Hp.
    by rewrite Hs, lookup_empty in Hp.
Qed.

Lemma triple_InitTestPlanCache cfg :
  triple (λ _ : State, True) (InitTestPlanCache cfg) (λ _, plan_inv) plan_inv.
Proof.
  assert (Hk : ∀ A (p : prog State A), keeps no_plans p →
            triple no_plans p (λ _, no_plans) plan_inv).
  { intros A p Hp. by apply triple_keeps_weaken, no_plans_inv. }
  unfold InitTestPlanCache. eapply (triple_bind _ _ _ (λ _, no_plans)).
  { intros s _. apply (Items_New (C := C)). }
  intros ?. eapply triple_bind; [apply Hk; solve_keeps|]. intros [jt err].
  destruct err; [apply triple_ret, no_plans_inv|].
  do 2 (eapply triple_bind; [apply Hk; solve_keeps|]; intros ?).
  eapply triple_bind; [apply Hk; solve_keeps|]. intros [tests err].
  destruct err; [apply triple_ret, no_plans_inv|].
  eapply triple_bind; [apply Hk; solve_keeps|]. intros name s Hs.
  rewrite run_bind, run_plan_Set. red. simpl.
  apply ok_Set_only; [apply (no_plans_inv s Hs)| |done|done].
  intros j (p & Hp & _). unfold plan_of in Hp. by rewrite Hs, lookup_empty in Hp.
Qed.

Lemma stable_main cfg :
  triple (λ _ : State, True) (director_main cfg) (λ _, plan_inv) (λ _, True).
Proof.
  unfold director_main, InitEventCache, InitTestRunCache.
  eapply (triple_bind _ _ _ (λ _ _, True)); [by intros s _|]. intros ?.
  eapply triple_bind.
  { by eapply triple_weaken; [apply triple_InitTestPlanCache|..]. }
  intros ? s Hs. exact Hs.
Qed.

Lemma main_inv cfg s s' : run (director_main cfg) s = (Ret tt, s') → plan_inv s'.
Proof. intros Hrun. pose proof (stable_main cfg s I) as Hs. by rewrite Hrun in Hs. Qed.

Lemma serve_all_inv rs s : plan_inv s → plan_inv (serve_all rs s).
Proof.
  unfold serve_all. revert s. induction rs as [|r rs IH]; intros s Hs; [done|].
  simpl. apply IH. by apply stable_run; [apply stable_serve|].
Qed.

(** ** Putting a plan the director knows *)

(** The move a PUT makes: the pairs of status that are allowed, everything else is
    ignored. *)
Definition plan_move (cur next : string) : bool :=
  bool_decide ((cur, next) ∈
    [(TestPlanStatusEnumNOTSTARTED, TestPlanStatusEnumRUNNING);
     (TestPlanStatusEnumRUNNING, TestPlanStatusEnumCOMPLETEFAIL);
     (TestPlanStatusEnumRUNNING, TestPlanStatusEnumCOMPLETEPASS)]).
Definition moved (cur next : string) (p : TestPlan) : TestPlan :=
  if plan_move cur next
  then set_IsActive (Some true) (set_PlanStatus (Some next) p) else p.

Lemma run_put_existing_plan p sp cur next s :
  PlanStatus (PlanSpec p) = Some cur → PlanStatus sp = Some next →
  run (put_existing_plan p (Some sp)) s = (Ret (moved cur next p), s).
Proof.
  intros Hcur Hnext. unfold put_existing_plan, moved, plan_move.
  rewrite Hcur. go_simpl. rewrite Hnext.
  repeat (case_decide || case_bool_decide || simpl || rewrite Hnext);
    rewrite ?elem_of_cons, ?elem_of_nil in *; naive_solver.
Qed.

(** The plans after a plan was put: it is the only active one if it is active. *)
Definition plans_after_put (id : string) (p : TestPlan) (c c' : C) : Prop :=
  ∀ k, plan_of c' k =
       if decide (id = k) then Some p
       else if decide (IsActive p = Some true) then deactivate <$> plan_of c k
       else plan_of c k.

Lemma run_put_plan_tail id p s :
  plan_inv s → PlanKey p = id → is_Some (IsActive p) →
  ∃ c w, run (put_plan_tail id p) s =
           (Ret (PutTestPlanByIDOK p), set_world w (set_planClient (λ _, c) s)) ∧
         plans_after_put id p (planClient s) c.
Proof.
  intros Hs Hk [[] Ha].
  - destruct (put_plan_tail_active id p s) as (c & w & Hrun & _ & Hc); [done..|].
    exists c, w. split; [done|]. intros k. rewrite Hc.
    by rewrite (decide_True (P := IsActive p = _)) by done.
  - exists (cache_Set id (TestPlan_MarshalJSON p) (planClient s)), (td_world s).
    rewrite put_plan_tail_inactive by done.
    split; [by destruct s|]. intros k. rewrite plan_of_Set.
    case_decide; [done|]. by rewrite decide_False by congruence.
Qed.

(** ** Deleting every plan but the active one *)

Definition inactive (p : TestPlan) : Prop := IsActive p = Some false.
#[local] Instance inactive_dec p : Decision (inactive p).
Proof. unfold inactive. apply _. Defined.

Lemma run_plan_Delete k s :
  plans_filed (planClient s) →
  ∃ e c, run (TestPlanCache_Delete k) s = (Ret e, set_planClient (λ _, c) s) ∧
    cache_Items c = delete k (cache_Items (planClient s)).
Proof.
  intros Hf. unfold TestPlanCache_Delete. rewrite run_bind, run_plan_Get. cbn [seq_run].
  destruct (plan_of (planClient s) k) eqn:E.
  - eexists None, (cache_Delete k (planClient s)).
    split; [by destruct s|apply Items_Delete].
  - eexists _, (planClient s). split; [by destruct s|].
    rewrite delete_id; [done|]. unfold plan_of in E.
    destruct (cache_Items (planClient s) !! k) as [v|] eqn:Ev; [|done].
    destruct (Hf k v Ev) as (p & Hp & _). simpl in E. congruence.
Qed.

Definition delete_body (item : TestPlan) (counter : Z) : prog State (ctl Z Empty_set) :=
  act ← deref (IsActive item);
  if act : bool then mret (Next counter)
  else TestPlanCache_Delete (PlanKey item) ;; mret (Next (wrap64 (counter + 1))).

Lemma run_delete_loop l n s :
  plans_filed (planClient s) → (∀ p, p ∈ l → is_Some (IsActive p)) →
  ∃ c, run (for_range l (wrap64 n) delete_body) s =
         (Ret (inl (wrap64 (n + Z.of_nat (length (filter inactive l))))),
          set_planClient (λ _, c) s) ∧
    ∀ k, cache_Items c !! k =
         if decide (k ∈ map PlanKey (filter inactive l)) then None
         else cache_Items (planClient s) !! k.
Proof.
  revert n s. induction l as [|p l IH]; intros n s Hf Hl.
  { exists (planClient s). split; [|done]. simpl. rewrite Z.add_0_r. by destruct s. }
  destruct (Hl p) as [b Hb]; [set_solver|].
  rewrite run_for_range_cons. unfold delete_body at 1. rewrite Hb.
  rewrite run_bind, run_deref_Some. cbn [seq_run]. rewrite filter_cons.
  destruct b.
  - rewrite run_done. cbn [seq_run].
    rewrite (decide_False (P := inactive p)) by (unfold inactive; congruence).
    apply IH; [done|]. set_solver.
  - rewrite (decide_True (P := inactive p)) by done.
    destruct (run_plan_Delete (PlanKey p) s Hf) as (e & c & Hrun & Hc).
    rewrite run_bind, Hrun. cbn [seq_run]. rewrite run_done. cbn [seq_run].
    rewrite wrap64_add.
    destruct (IH (n + 1)%Z (set_planClient (λ _, c) s)) as (c' & Hrun' & Hc').
    { intros k v. simpl. rewrite Hc, lookup_delete. case_decide; [done|]. apply Hf. }
    { set_solver. }
    exists c'. rewrite Hrun'. split.
    + simpl. f_equal. do 3 f_equal. lia.
    + intros k. rewrite Hc'. simpl. rewrite Hc, lookup_delete.
      repeat case_decide; set_solver.
Qed.

Definition stored_inactive (kv : string * json) : Prop :=
  TestPlan_UnmarshalJSON kv.2 ≫= IsActive = Some false.
#[global] Instance stored_inactive_dec kv : Decision (stored_inactive kv).
Proof. unfold stored_inactive. apply _. Defined.

Lemma stored_inactive_keys c l :
  plans_filed c → NoDup (map PlanKey l) →
  (∀ p, p ∈ l ↔ plan_of c (PlanKey p) = Some p) →
  (∀ k v, cache_Items c !! k = Some v →
     stored_inactive (k, v) ↔ k ∈ map PlanKey (filter inactive l)) ∧
  length (filter inactive l) = size (filter stored_inactive (cache_Items c)).
Proof.
  intros Hf Hnd Hin.
  assert (Hiff : ∀ k v, cache_Items c !! k = Some v →
            stored_inactive (k, v) ↔ k ∈ map PlanKey (filter inactive l)).
  { intros k v Hv. destruct (Hf k v Hv) as (p & Hp & Hk & _).
    assert (Hpo : plan_of c k = Some p) by (unfold plan_of; by rewrite Hv).
    unfold stored_inactive. simpl. rewrite Hp. simpl. rewrite list_elem_of_fmap.
    setoid_rewrite list_elem_of_filter. split.
    - intros Hi. exists p. split; [done|]. split; [done|]. apply Hin. by rewrite Hk.
    - intros (p' & Hk' & Hi & Hp'). apply Hin in Hp'. rewrite <- Hk', Hpo in Hp'.
      by simplify_eq. }
  split; [done|].
  rewrite <- size_dom. rewrite <- (length_fmap PlanKey (filter inactive l)).
  rewrite <- (size_list_to_set (C := gset string)).
  - f_equal. apply set_eq. intros k. rewrite elem_of_list_to_set, elem_of_dom. split.
    + intros Hk. pose proof Hk as Hk'.
      apply list_elem_of_fmap in Hk' as (p & -> & [_ Hp]%list_elem_of_filter).
      apply Hin in Hp. unfold plan_of in Hp. apply bind_Some in Hp as (v & Hv & _).
      exists v. apply map_lookup_filter_Some. split; [done|]. by apply Hiff.
    + intros [v [Hv Hi]%map_lookup_filter_Some]. by eapply Hiff.
  - eapply sublist_NoDup; [exact Hnd|apply fmap_sublist, sublist_filter].
Qed.

(** ** Properties *)

(** (C1) Once the director has started, no sequence of requests, not even ones whose
    handlers panic, leaves two active test plans; and every plan in the cache is filed
    under its own Jira key and decodes to a plan that says whether it is active. *)
Theorem director_single_active cfg rs s s' :
  run (director_main cfg) s = (Ret tt, s') →
  let c := planClient (serve_all rs s') in
  (∀ k1 k2, active_at c k1 → active_at c k2 → k1 = k2) ∧
  (∀ k v, cache_Items c !! k = Some v →
     ∃ p, TestPlan_UnmarshalJSON v = Some p ∧ PlanKey p = k ∧ is_Some (IsActive p)).
Proof.
  intros Hs%main_inv. destruct (serve_all_inv rs s' Hs) as [Hf Ho]. split; [exact Ho|exact Hf].
Qed.

(** (C2) PUT of a plan the director knows answers OK with the plan moved along
    NOT_STARTED, RUNNING, COMPLETE_* (any other status is ignored); the plan is stored,
    and if it is active every other plan becomes inactive and keeps the rest. *)
Theorem put_known_plan id p sp cur next s :
  plan_inv s → plan_of (planClient s) id = Some p →
  PlanStatus (PlanSpec p) = Some cur → PlanStatus sp = Some next →
  ∃ c w, run (putTestPlan_Handle id (Some sp)) s =
           (Ret (PutTestPlanByIDOK (moved cur next p)),
            set_world w (set_planClient (λ _, c) s)) ∧
         plans_after_put id (moved cur next p) (planClient s) c.
Proof.
  intros Hs Hp Hcur Hnext. unfold putTestPlan_Handle.
  rewrite run_bind, run_plan_Get, Hp. cbn [seq_run].
  rewrite run_bind, (run_put_existing_plan _ _ cur next) by done. cbn [seq_run].
  pose proof (filed_key _ _ _ (proj1 Hs) Hp). pose proof (filed_active _ _ _ (proj1 Hs) Hp).
  apply run_put_plan_tail; unfold moved; by destruct (plan_move cur next).
Qed.

(** PUT of a plan the director does not know, for a Jira issue of type Test
    Plan, makes it the only active plan, with the status of the request and with no
    tests. *)
Theorem put_unknown_plan id sp jt it jid name s s1 :
  plan_inv s → plan_of (planClient s) id = None →
  run (GetJiraTaskDetails id) s = (Ret (Some jt, None), s1) →
  FieldsIssueType (Fields jt) = Some it → IssueTypeName it = "Test Plan" →
  JiraTaskId jt = Some jid → FieldsName (Fields jt) = Some name →
  ∃ p c w, run (putTestPlan_Handle id (Some sp)) s =
             (Ret (PutTestPlanByIDOK p), set_world w (set_planClient (λ _, c) s)) ∧
           PlanStatus (PlanSpec p) = PlanStatus sp ∧ Tests (PlanSpec p) = None ∧
           IsActive p = Some true ∧ JiraID (PlanSpec p) = jid ∧
           plans_after_put id p (planClient s) c.
Proof.
  intros Hs Hp Hjira Hit Htype Hjid Hname.
  destruct (outside_only s (GetJiraTaskDetails id)) as [w0 Hw0].
  { solve_keeps. }
  rewrite Hjira in Hw0. cbn [snd] in Hw0. subst s1.
  unfold putTestPlan_Handle. rewrite run_bind, run_plan_Get, Hp. cbn [seq_run].
  rewrite run_bind, Hjira. cbn [seq_run].
  rewrite run_bind, run_deref_Some. cbn [seq_run].
  rewrite Hit, run_bind, run_deref_Some. cbn [seq_run].
  rewrite Htype, (decide_False (P := _ ≠ _)) by tauto.
  rewrite Hjid, run_bind, run_deref_Some. cbn [seq_run].
  rewrite Hname, run_bind, run_deref_Some. cbn [seq_run].
  rewrite run_bind, run_deref_Some. cbn [seq_run].
  match goal with |- context [put_plan_tail id ?p] =>
    destruct (run_put_plan_tail id p (set_world w0 s)) as (c & w & Hrun & Hc);
      [done|done|by eexists|exists p, c, w]
  end.
  rewrite Hrun. split_and!; done.
Qed.

(** PUT of an unknown plan for a Jira issue that is not of type Test Plan
    panics, instead of answering that the request is refused: the handler passes the
    nil error of the successful Jira lookup on to the error answer.  The plans are as
    they were. *)
Theorem put_plan_wrong_type_panics id body jt it s s1 :
  plan_of (planClient s) id = None →
  run (GetJiraTaskDetails id) s = (Ret (Some jt, None), s1) →
  FieldsIssueType (Fields jt) = Some it → IssueTypeName it ≠ "Test Plan" →
  ∃ w, run (putTestPlan_Handle id body) s = (Panicked nil_deref, set_world w s).
Proof.
  intros Hp Hjira Hit Htype.
  destruct (outside_only s (GetJiraTaskDetails id)) as [w0 Hw0]; [solve_keeps|].
  rewrite Hjira in Hw0. cbn [snd] in Hw0. subst s1. exists w0.
  unfold putTestPlan_Handle. rewrite run_bind, run_plan_Get, Hp. cbn [seq_run].
  rewrite run_bind, Hjira. cbn [seq_run]. rewrite run_bind, run_deref_Some. cbn [seq_run].
  rewrite Hit, run_bind, run_deref_Some. cbn [seq_run].
  by rewrite (decide_True (P := _ ≠ _)) by done.
Qed.

(** (C30) DELETE of all plans answers OK with the number of inactive plans, and
    removes exactly those: the active plan, and every other item, stays as it was. *)
Theorem delete_all_keeps_active s :
  plan_inv s →
  ∃ c w, run deleteTestPlans_Handle s =
      (Ret (DeleteTestPlansOK (mkRequestOutcome
          "Deleted all test plans instead of active one"
          (Some (wrap64 (Z.of_nat
             (size (filter stored_inactive (cache_Items (planClient s)))))))
          RequestOutcomeResultOK)),
       set_world w (set_planClient (λ _, c) s)) ∧
    cache_Items c = filter (λ kv, ¬ stored_inactive kv) (cache_Items (planClient s)).
Proof.
  intros [Hf _]. destruct (run_plan_GetAll s Hf) as (res & w & Hrun & _ & Hnd & Hin).
  unfold deleteTestPlans_Handle, TestPlanCache_DeleteAll. fold delete_body.
  rewrite !run_bind, Hrun. cbn [seq_run].
  destruct (stored_inactive_keys _ _ Hf Hnd Hin) as [Hkeys Hlen].
  destruct (run_delete_loop (default [] res) 0 (set_world w s)) as (c & Hloop & Hc);
    [done| |].
  { intros p Hp. eapply filed_active; [exact Hf|by apply Hin]. }
  rewrite run_bind. change 0%Z with (wrap64 0) at 1. rewrite Hloop.
  rewrite Z.add_0_l, Hlen. exists c, w. split; [done|].
  apply map_eq. intros k. rewrite Hc, map_lookup_filter. simpl.
  destruct (cache_Items (planClient s) !! k) as [v|] eqn:E; simpl; [|by case_match].
  specialize (Hkeys k v E).
  destruct (decide (stored_inactive (k, v))) as [Hi|Hi].
  - rewrite decide_True by tauto. by rewrite option_guard_False by tauto.
  - rewrite decide_False by tauto. by rewrite option_guard_True by tauto.
Qed.
End PlanTheorems.

(** ** Examples and witnesses *)

Definition running : TestPlanSpec :=
  mkTestPlanSpec "" "" "" (Some TestPlanStatusEnumRUNNING) None.
Definition blank_director (l : list (goerror + response)) : ScriptedDirector := booting l.

(** Two plans put one after the other: the second is the active one. *)
Definition two_plans (l : list (goerror + response)) : ScriptedDirector :=
  serve_all [RqPutTestPlan "MQ-1" (Some running); RqPutTestPlan "MQ-2" (Some running)]
    (blank_director (jira_answer "MQ-1" "101" "Test Plan" ::
                     jira_answer "MQ-2" "102" "Test Plan" :: l)).

Lemma two_plans_inv l : plan_inv (two_plans l).
Proof. apply serve_all_inv. by apply no_plans_inv. Qed.

Definition boot_answers : list (goerror + response) :=
  jira_answer "MQ-1" "101" "Test Plan" :: xray_answer "7".

Lemma director_single_active_witness :
  let s' := (run (director_main start_cfg) (booting boot_answers)).2 in
  let c := planClient (serve_all [RqPutTestPlan "MQ-2" (Some running)] s') in
  cache_Items (planClient s') ≠ ∅ ∧
  (∀ k1 k2, active_at c k1 → active_at c k2 → k1 = k2).
Proof.
  split; [by vm_compute|].
  refine (proj1 (director_single_active start_cfg
            [RqPutTestPlan "MQ-2" (Some running)] (booting boot_answers) _ _)).
  by vm_compute.
Defined.

Definition demo_plan : TestPlan :=
  mkTestPlan (mkTestPlanSpec "" "102" "name" (Some TestPlanStatusEnumRUNNING) None)
    (Some true) "MQ-2".
Definition completing : TestPlanSpec :=
  mkTestPlanSpec "" "" "" (Some TestPlanStatusEnumCOMPLETEPASS) None.

Lemma put_known_plan_witness :
  ∃ c w, run (putTestPlan_Handle "MQ-2" (Some completing)) (two_plans []) =
           (Ret (PutTestPlanByIDOK (moved TestPlanStatusEnumRUNNING
                                      TestPlanStatusEnumCOMPLETEPASS demo_plan)),
            set_world w (set_planClient (λ _, c) (two_plans []))) ∧
         plans_after_put "MQ-2" (moved TestPlanStatusEnumRUNNING
           TestPlanStatusEnumCOMPLETEPASS demo_plan) (planClient (two_plans [])) c.
Proof.
  apply (put_known_plan "MQ-2" demo_plan completing); [apply two_plans_inv|..];
    by vm_compute.
Defined.

Definition demo_task (issuetype : string) : JiraTask :=
  mkJiraTask "MQ-3" (Some "103")
    (mkFields (mkAssignee "" "") (mkJiraStatus "" "") (Some "name")
       (Some (mkIssueType issuetype))).

Lemma put_unknown_plan_witness :
  ∃ p c w,
    run (putTestPlan_Handle "MQ-3" (Some running))
        (two_plans [jira_answer "MQ-3" "103" "Test Plan"]) =
      (Ret (PutTestPlanByIDOK p),
       set_world w (set_planClient (λ _, c)
                      (two_plans [jira_answer "MQ-3" "103" "Test Plan"]))) ∧
    IsActive p = Some true ∧ Tests (PlanSpec p) = None.
Proof.
  destruct (put_unknown_plan "MQ-3" running (demo_task "Test Plan")
    (mkIssueType "Test Plan") "103" "name"
    (two_plans [jira_answer "MQ-3" "103" "Test Plan"]) (run (GetJiraTaskDetails "MQ-3")
       (two_plans [jira_answer "MQ-3" "103" "Test Plan"])).2)
    as (p & c & w & Hrun & _ & Ht & Ha & _); [apply two_plans_inv|by vm_compute..|].
  exists p, c, w. exact (conj Hrun (conj Ha Ht)).
Defined.

Lemma put_plan_wrong_type_panics_witness :
  ∃ w, run (putTestPlan_Handle "MQ-3" (Some running))
           (two_plans [jira_answer "MQ-3" "103" "Bug"]) =
       (Panicked nil_deref, set_world w (two_plans [jira_answer "MQ-3" "103" "Bug"])).
Proof.
  eapply (put_plan_wrong_type_panics "MQ-3" _ (demo_task "Bug") (mkIssueType "Bug"));
    by vm_compute.
Defined.

Lemma delete_all_keeps_active_witness :
  size (cache_Items (planClient (two_plans []))) = 2 ∧
  ∃ c, cache_Items c =
    filter (λ kv, ¬ stored_inactive kv) (cache_Items (planClient (two_plans []))) ∧
    size (cache_Items c) = 1.
Proof.
  split; [by vm_compute|].
  destruct (delete_all_keeps_active (two_plans []) (two_plans_inv [])) as (c & w & _ & Hc).
  exists c. split; [exact Hc|]. rewrite Hc. by vm_compute.
Defined.

(** The handlers do not serialise their work: two PUTs of different unknown plans
    that run at the same time can both see no active plan and leave two active plans,
    although either of them alone keeps at most one. *)
Theorem concurrent_puts_two_active :
  ∃ ts (s' : ScriptedDirector),
    rtc pool_step
      ([serve (RqPutTestPlan "MQ-1" (Some running));
        serve (RqPutTestPlan "MQ-2" (Some running))],
       blank_director [jira_answer "MQ-1" "101" "Test Plan";
                       jira_answer "MQ-2" "102" "Test Plan"]) (ts, s') ∧
    Forall (λ t, ∃ p, t = Done (PutTestPlanByIDOK p)) ts ∧
    active_at (planClient s') "MQ-1" ∧ active_at (planClient s') "MQ-2".
Proof.
  eexists _, _. split.
  - apply (pool_run_sound [0; 0; 0; 1; 1; 1; 1; 0]). vm_compute. reflexivity.
  - split_and!; [by repeat (constructor; [by eexists|])|by eexists..].
Qed.
