(* ===== verification/XrayTheorems.v ===== *)
(** * The Xray client: theorems

    How the retry loop of [sendXrayQuery] reports what Xray answers: rejections are
    swallowed, a lost connection is a panic. *)

From stdpp Require Import base gmap strings list.
From Stdlib Require Import Ascii.
From S2P Require Import Prelude GoLib Json Http Models Connectors.

Section XrayQuery.
Context {S W : Type} `{HasWorld S W} `{Http W} `{Clock W} `{Getenv}.
Implicit Types s : S.

(** [authorize] with a service that accepts the credentials. *)
Definition accepts (w : W) : Prop :=
  ∀ r, rq_url r = authUrl →
    ∃ body w', http_Do r w = (inr (mkResponse 200 (inr body)), w') ∧
               (2 ≤ String.length body)%nat.

Lemma run_authorize s :
  http_NewRequest "POST" authUrl = None → accepts (world s) →
  ∃ t w, run authorize s = (Ret (Some t), set_world w s).
Proof.
  intros Hnew Hacc. unfold authorize. rewrite Hnew.
  edestruct (Hacc (mkRequest "POST" authUrl [("Content-Type", "application/json")]
    (Some (JObj [("client_id", JStr (getenv "XRAY_CLIENT_ID"));
                 ("client_secret", JStr (getenv "XRAY_CLIENT_SECRET"))]))))
    as (body & w' & Hdo & Hlen); [done|].
  unfold client_Do. rewrite run_bind, run_bind, run_outside, Hdo. simpl.
  unfold slice_string, strlen.
  rewrite bool_decide_true by lia. simpl. by eexists _, w'.
Qed.

(** ** A service that lets the client in and rejects every query *)

Definition rejects (w : W) : Prop :=
  ∀ r, rq_url r = graphqlUrl →
    ∃ c body w', http_Do r w = (inr (mkResponse c (inr body)), w') ∧ (300 ≤ c)%Z.

Section Rejected.
Hypothesis new_ok : ∀ url, http_NewRequest "POST" url = None.
Hypothesis accepted : ∀ w, accepts w.
Hypothesis rejected : ∀ w, rejects w.

Lemma run_sendRequest_rejected query s :
  ∃ w, run (xray_sendRequest query) s = (Ret ("", None), set_world w s).
Proof.
  unfold xray_sendRequest. rewrite new_ok.
  destruct (run_authorize s) as (t & w & Ha); [done|apply accepted|].
  rewrite run_bind, Ha. cbn [seq_run].
  destruct (run_authorize (set_world w s)) as (t' & w' & Hb); [done|apply accepted|].
  rewrite run_bind, Hb, set_world_set. cbn [seq_run].
  rewrite run_bind, run_deref_Some. cbn [seq_run].
  unfold client_Do. rewrite run_bind, run_bind, run_outside, world_set.
  match goal with |- context [http_Do ?r w'] =>
    destruct (rejected w' r) as (c & body & w2 & -> & Hc) end; [done|].
  cbn [seq_run fst snd]. rewrite run_done. cbn [seq_run].
  rewrite run_bind, run_deref_Some. cbn [seq_run].
  unfold ReadAll. cbn [rs_body]. rewrite run_bind, run_done. cbn [seq_run StatusCode].
  rewrite bool_decide_true by done. exists w2. by rewrite set_world_set.
Qed.

Lemma run_sendXrayQuery_rejected query s :
  ∃ w, run (sendXrayQuery query) s = (Ret ("", None), set_world w s).
Proof.
  unfold sendXrayQuery. generalize [5; 4; 3; 2; 1]%Z. intros l. revert s.
  induction l as [|r l IH]; intros s.
  { exists (world s). by rewrite set_world_world. }
  rewrite run_bind, run_for_range_cons. rewrite decide_True by done.
  destruct (run_sendRequest_rejected query s) as (w & Hw).
  rewrite run_bind, Hw. cbn [seq_run].
  unfold time_Sleep. rewrite run_bind, run_outside, world_set, set_world_set.
  cbn [seq_run snd]. rewrite run_done. cbn [seq_run].
  rewrite <- run_bind. destruct (IH (set_world (clock_sleep (Z.quot 5 r * Second) w) s))
    as (w' & Hw').
  exists w'. rewrite set_world_set in Hw'. exact Hw'.
Qed.

(** When Xray rejects every query with a status of 300 or more, creating a test
    execution nevertheless succeeds, after five attempts at each of its queries: the
    status is not an error to the client, and the id of the execution is whatever an
    empty text yields. *)
Theorem xray_rejection_swallowed `{Gjson} planId testId key s :
  ∃ w, run (CreateTestExecution planId testId key) s =
    (Ret (gjson_Str "" "data.createTestExecution.testExecution.issueId", None),
     set_world w s).
Proof.
  unfold CreateTestExecution, index. rewrite bool_decide_true by lia.
  destruct (Split key "-"%char) as [|project rest] eqn:E.
  { by destruct (Split_nonempty key "-"%char). }
  simpl (_ !! _). rewrite run_bind, run_done. cbn [seq_run].
  rewrite run_bind.
  match goal with |- context [sendXrayQuery ?q] =>
    destruct (run_sendXrayQuery_rejected q s) as [w ->] end.
  cbn [seq_run]. unfold addTestExecutionToTestPlan. rewrite !run_bind.
  match goal with |- context [sendXrayQuery ?q] =>
    destruct (run_sendXrayQuery_rejected q (set_world w s)) as [w' ->] end.
  exists w'. simpl. by rewrite set_world_set.
Qed.
End Rejected.

(** When the connection is lost after the client was let in, the query panics:
    the response is closed before the error is looked at. *)
Theorem xray_lost_connection_panics query t1 t2 s s1 s2 :
  http_NewRequest "POST" graphqlUrl = None →
  run authorize s = (Ret (Some t1), s1) → run authorize s1 = (Ret (Some t2), s2) →
  (∀ r, rq_url r = graphqlUrl → ∃ e w, http_Do r (world s2) = (inl e, w)) →
  ∃ s3, run (sendXrayQuery query) s = (Panicked nil_deref, s3).
Proof.
  intros Hnew Ha Hb Hlost. unfold sendXrayQuery.
  rewrite run_bind, run_for_range_cons, decide_True by done.
  unfold xray_sendRequest. rewrite Hnew, run_bind.
  rewrite run_bind, Ha. cbn [seq_run].
  rewrite run_bind, Hb. cbn [seq_run]. rewrite run_bind, run_deref_Some. cbn [seq_run].
  unfold client_Do. rewrite run_bind, run_bind, run_outside.
  match goal with |- context [http_Do ?r (world s2)] =>
    destruct (Hlost r) as (e & w & ->) end; [done|].
  by eexists.
Qed.
End XrayQuery.

(** ** Witnesses *)

(** A service that accepts credentials and rejects queries; its clock is its state. *)
Record Rejecting := mkRejecting { rej_clock : Z }.
#[export] Instance rejecting_http : Http Rejecting := {
  http_NewRequest _ _ := None;
  http_Do r w :=
    (inr (mkResponse (if decide (rq_url r = authUrl) then 200 else 500) (inr "token")), w);
}.
#[export] Instance rejecting_clock : Clock Rejecting := {
  clock_now w := (rej_clock w, w);
  clock_sleep d w := mkRejecting (rej_clock w + d);
}.
#[export] Program Instance rejecting_world : HasWorld Rejecting Rejecting := {
  world w := w;
  set_world w _ := w;
}.
Solve All Obligations with done.
#[local] Instance no_env : Getenv := { getenv _ := "" }.
#[local] Instance whole_gjson : Gjson := {
  gjson_Str json _ := json;
  gjson_Array json _ := [json];
}.

Lemma xray_rejection_swallowed_witness :
  ∃ w : Rejecting,
    run (CreateTestExecution "100" "200" "MQ-200") (mkRejecting 0) =
    (Ret (gjson_Str "" "data.createTestExecution.testExecution.issueId", None),
     set_world w (mkRejecting 0)).
Proof.
  apply xray_rejection_swallowed.
  - done.
  - intros w r Hr. eexists _, _. split; [simpl; by rewrite decide_True by done|simpl; lia].
  - intros w r Hr. eexists _, _, _. split; [done|]. simpl.
    rewrite decide_False; [lia|]. by rewrite Hr.
Defined.

(** A service that lets the client in and then drops the connection. *)
Record Dropping := mkDropping {}.
#[export] Instance dropping_http : Http Dropping := {
  http_NewRequest _ _ := None;
  http_Do r w :=
    (if decide (rq_url r = authUrl) then inr (mkResponse 200 (inr "token"))
     else inl (GoError "connection reset" Plain), w);
}.
#[export] Instance dropping_clock : Clock Dropping := {
  clock_now w := (0%Z, w);
  clock_sleep _ w := w;
}.
#[export] Program Instance dropping_world : HasWorld Dropping Dropping := {
  world w := w;
  set_world w _ := w;
}.
Solve All Obligations with done.

Lemma xray_lost_connection_panics_witness :
  ∃ s3, run (sendXrayQuery "{}") mkDropping = (Panicked nil_deref, s3).
Proof.
  apply (xray_lost_connection_panics "{}" "oke" "oke" mkDropping mkDropping mkDropping).
  - reflexivity.
  - reflexivity.
  - reflexivity.
  - intros r Hr. eexists _, _. simpl. by rewrite decide_False by (by rewrite Hr).
Defined.
