(* ===== verification/RunTheorems.v ===== *)
(** * Test runs and events: theorems

    What a PUT does to a run on every branch, what an event does to the run it is
    about, how a run that ends acts on the plans, and what becomes of the failures of
    Xray. *)

From stdpp Require Import base gmap strings list.
From S2P Require Import Prelude GoLib Json Http Models Connectors Cache Director.
From S2P Require Import Scripted DirectorPlans PlanTheorems.

Section Runs.
Context {C W : Type} `{!GoCache C} `{!GoCacheLaws C} `{!MapRange W} `{!Http W}
        `{!Clock W} `{!Uuid W} `{!Getenv} `{!Gjson} `{!TimeText} `{!Swag} `{!Strfmt}.
Notation State := (Director C W).
Implicit Types s : State.

Lemma run_of_Set k k' r c :
  run_of (cache_Set k (TestRun_MarshalJSON r) c) k' =
  if decide (k = k') then Some (norm_run r) else run_of c k'.
Proof.
  unfold run_of. rewrite Items_Set, lookup_insert. case_decide; [|done].
  simpl. apply TestRun_roundtrip.
Qed.

(** The caches keep values as JSON texts.  Reading a key after a write gives back the
    plan that was written, the run with its times at the precision of the encoding, and
    what was there before under any other key; an event survives its encoding too. *)
Theorem cached_values_survive k k' p r e s :
  (run (TestPlanCache_Set k p ;; TestPlanCache_Get k') s).1 =
    Ret (if decide (k = k') then Some p else plan_of (planClient s) k') ∧
  (run (TestRunCache_Set k r ;; TestRunCache_Get k') s).1 =
    Ret (if decide (k = k') then Some (norm_run r) else run_of (runClient s) k') ∧
  Event_UnmarshalJSON (Event_MarshalJSON e) = Some (norm_event e).
Proof.
  rewrite !run_bind, run_plan_Set, run_run_Set. cbn [seq_run].
  rewrite run_plan_Get, run_run_Get. simpl.
  by rewrite plan_of_Set, run_of_Set, Event_roundtrip.
Qed.

(** ** What leaves the runs alone *)

Definition runs_are (c : C) s : Prop := runClient s = c.
#[local] Instance runs_are_world c : WorldFree (runs_are c).
Proof. by intros s w Hs. Qed.

Lemma keeps_runs_plan_Set c k p : keeps (runs_are c) (TestPlanCache_Set k p).
Proof. unfold TestPlanCache_Set. solve_keeps. by apply keeps_updates. Qed.
Hint Resolve keeps_plan_Get keeps_run_Get keeps_GetActive keeps_contains
  keeps_badRequest keeps_slack keeps_runs_plan_Set : keeps.
Lemma keeps_runs_UpdateTestRun c r : keeps (runs_are c) (UpdateTestRun r).
Proof. unfold UpdateTestRun. solve_keeps. Qed.
Hint Resolve keeps_runs_UpdateTestRun : keeps.

(** ** Putting a run *)

(** The run a PUT makes of a run the director has: the moves it makes, in the order
    they are tried. *)
Definition run_move (old : TestRun) (spec : TestRunSpec) (now : Z) : TestRun :=
  let cur := RunStatus (RunSpec old) in
  match bool_decide (cur = TestRunStatusEnumTODO), RunStatus spec with
  | true, "EXECUTING" =>
      mkTestRun (EndDateTime old) (RunID old) now
        (mkTestRunSpec (RunData spec) "EXECUTING" (TestExecIssueID (RunSpec old))
           (TestID (RunSpec old)) (TestKey (RunSpec old)))
  | false, "FAILED" =>
      mkTestRun now (RunID old) (StartDateTime old)
        (mkTestRunSpec (append_data (RunData (RunSpec old)) (RunData spec)) "FAILED"
           (TestExecIssueID (RunSpec old)) (TestID (RunSpec old)) (TestKey (RunSpec old)))
  | false, "PASSED" =>
      mkTestRun now (RunID old) (StartDateTime old)
        (mkTestRunSpec (RunData spec) "PASSED"
           (TestExecIssueID (RunSpec old)) (TestID (RunSpec old)) (TestKey (RunSpec old)))
  | _, _ => old
  end.

Lemma run_move_stays old spec now :
  ¬ (RunStatus (RunSpec old) = TestRunStatusEnumTODO ∧
     RunStatus spec = TestRunStatusEnumEXECUTING) →
  ¬ (RunStatus (RunSpec old) ≠ TestRunStatusEnumTODO ∧
     RunStatus spec = TestRunStatusEnumFAILED) →
  ¬ (RunStatus (RunSpec old) ≠ TestRunStatusEnumTODO ∧
     RunStatus spec = TestRunStatusEnumPASSED) →
  run_move old spec now = old.
Proof.
  intros Hexec Hfail Hpass.
  unfold run_move. repeat case_match; try done;
    repeat case_bool_decide; naive_solver.
Qed.

(** A PUT either answers OK with [r] and stores it under the key of the request, or
    it leaves the runs alone. *)
Definition run_stored (c : C) (id : string) (r : TestRun) (a : Responder) s : Prop :=
  match a with
  | PutTestRunByIDOK r' =>
      r' = r ∧ runClient s = cache_Set id (TestRun_MarshalJSON r) c
  | PutTestRunByIDBadRequest ro =>
      Result ro = RequestOutcomeResultREFUSED ∧ runClient s = c
  | _ => False
  end.

Lemma triple_put_run_tail c id r :
  triple (runs_are c) (put_run_tail id r) (run_stored c id r) (runs_are c).
Proof. intros s Hs. split; [done|]. simpl. by rewrite Hs. Qed.
Lemma triple_refuse c id r e :
  triple (runs_are c) (badRequestResponse (Some e)) (run_stored c id r) (runs_are c).
Proof. by intros s Hs. Qed.

Lemma triple_put_run_finished c id r d st (now : Z) s :
  runs_are c s → (clock_now (td_world s)).1 = now →
  match run (put_run_finished id r d st) s with
  | (Ret a, s') => run_stored c id (set_RunStatus st (set_RunData d (set_EndDateTime now r))) a s'
  | (_, s') => runs_are c s'
  end.
Proof.
  intros Hs Hnow. unfold put_run_finished, time_Now.
  rewrite run_bind, run_outside. cbn [seq_run]. cbn zeta.
  change (world s) with (td_world s). rewrite Hnow.
  set (r' := set_RunStatus _ _).
  refine (triple_bind (runs_are c) _ _ _ _ (runs_are c) _ _ _ _);
    [apply triple_keeps; solve_keeps| |exact Hs].
  intros [e|]; [apply triple_refuse|apply triple_put_run_tail].
Qed.

Lemma triple_put_run_executing c id r spec (now : Z) s :
  runs_are c s → (clock_now (td_world s)).1 = now →
  match run (put_run_executing id r spec) s with
  | (Ret a, s') =>
      run_stored c id (set_RunStatus (RunStatus spec)
        (set_RunData (RunData spec) (set_StartDateTime now r))) a s'
  | (_, s') => runs_are c s'
  end.
Proof.
  intros Hs Hnow. unfold put_run_executing, time_Now.
  rewrite run_bind, run_outside. cbn [seq_run]. cbn zeta.
  change (world s) with (td_world s). rewrite Hnow.
  set (r' := set_RunStatus _ _).
  refine (triple_bind (runs_are c) _ _ _ _ (runs_are c) _ _ _ _);
    [apply triple_keeps; solve_keeps| |exact Hs].
  intros [e|]; [apply triple_refuse|].
  eapply triple_bind; [apply triple_keeps; solve_keeps|].
  intros [tp|]; [|apply triple_refuse].
  eapply triple_bind; [apply triple_keeps; solve_keeps|].
  intros []; [|apply triple_refuse].
  do 2 (eapply triple_bind; [apply triple_keeps; solve_keeps|]; intros ?).
  apply triple_put_run_tail.
Qed.

Lemma put_known_run_safe id old spec s :
  run_of (runClient s) id = Some old →
  match run (putTestRun_Handle id (Some spec)) s with
  | (Ret a, s') =>
      run_stored (runClient s) id (run_move old spec (clock_now (td_world s)).1) a s'
  | (_, s') => runClient s' = runClient s
  end.
Proof.
  intros Hold. unfold putTestRun_Handle.
  rewrite run_bind, run_run_Get, Hold. cbn [seq_run].
  rewrite run_bind, run_deref_Some. cbn [seq_run]. unfold put_existing_run.
  case_decide as Hexec.
  { destruct Hexec as [Hcur Hnext].
    replace (run_move _ _ _) with (set_RunStatus (RunStatus spec) (set_RunData
      (RunData spec) (set_StartDateTime (clock_now (td_world s)).1 old))).
    { by apply triple_put_run_executing. }
    unfold run_move. by rewrite bool_decide_true, Hnext. }
  case_decide as Hfail.
  { destruct Hfail as [Hcur Hnext].
    match goal with |- context [put_run_finished id old ?d ?st] =>
      replace (run_move _ _ _) with
        (set_RunStatus st (set_RunData d (set_EndDateTime (clock_now (td_world s)).1 old)))
    end; [by apply triple_put_run_finished|].
    unfold run_move. by rewrite bool_decide_false, Hnext. }
  case_decide as Hpass.
  { destruct Hpass as [Hcur Hnext].
    match goal with |- context [put_run_finished id old ?d ?st] =>
      replace (run_move _ _ _) with
        (set_RunStatus st (set_RunData d (set_EndDateTime (clock_now (td_world s)).1 old)))
    end; [by apply triple_put_run_finished|].
    unfold run_move. by rewrite bool_decide_false, Hnext. }
  rewrite run_move_stays by done. by apply triple_put_run_tail.
Qed.

(** The run a PUT creates: filed under the key of the request, but with the id of the
    Xray test execution. *)
Definition run_created (c : C) (id : string) (spec : TestRunSpec) (a : Responder) s
    : Prop :=
  match a with
  | PutTestRunByIDOK r =>
      RunStatus (RunSpec r) = TestRunStatusEnumTODO ∧
      RunID r = TestExecIssueID (RunSpec r) ∧
      RunData (RunSpec r) = RunData spec ∧ TestKey (RunSpec r) = TestKey spec ∧
      StartDateTime r = zero_time ∧ EndDateTime r = zero_time ∧
      runClient s = cache_Set id (TestRun_MarshalJSON r) c
  | PutTestRunByIDBadRequest ro =>
      Result ro = RequestOutcomeResultREFUSED ∧ runClient s = c
  | _ => False
  end.

Lemma triple_refuse_new c id spec e :
  triple (runs_are c) (badRequestResponse (Some e)) (run_created c id spec) (runs_are c).
Proof. by intros s Hs. Qed.

Lemma triple_put_new_run c id spec :
  triple (runs_are c) (put_new_run id spec) (run_created c id spec) (runs_are c).
Proof.
  unfold put_new_run. eapply triple_bind; [apply triple_keeps; solve_keeps|].
  intros key. eapply triple_bind; [apply triple_keeps; solve_keeps|].
  intros [jt err]. destruct err as [e|]; [apply triple_refuse_new|].
  do 2 (eapply triple_bind; [apply triple_keeps; solve_keeps|]; intros ?).
  case_decide; [apply triple_refuse_new|].
  eapply triple_bind; [apply triple_keeps; solve_keeps|].
  intros [tp|]; [|apply triple_refuse_new].
  eapply triple_bind; [apply triple_keeps; solve_keeps|].
  intros []; [|apply triple_refuse_new].
  eapply triple_bind; [apply triple_keeps; solve_keeps|]. intros jid.
  eapply triple_bind; [apply triple_keeps; solve_keeps|]. intros [execId err].
  destruct err as [e|]; [apply triple_refuse_new|].
  intros s Hs. split_and!; try done. simpl. by rewrite Hs.
Qed.

Lemma put_unknown_run_safe id spec s :
  run_of (runClient s) id = None →
  match run (putTestRun_Handle id (Some spec)) s with
  | (Ret a, s') => run_created (runClient s) id spec a s'
  | (_, s') => runClient s' = runClient s
  end.
Proof.
  intros Hnew. unfold putTestRun_Handle.
  rewrite run_bind, run_run_Get, Hnew. cbn [seq_run].
  rewrite run_bind, run_deref_Some. cbn [seq_run].
  by apply triple_put_new_run.
Qed.

(** ** When a run is accepted *)

(** The plan names the test, and the names before it can be read. *)
Definition names_test (tp : TestPlan) (i : string) : Prop :=
  ∃ pre t post, Tests (PlanSpec tp) = Some (pre ++ Some t :: post)%list ∧
    IssueID t = Some i ∧
    Forall (λ x, ∃ t' i', x = Some t' ∧ IssueID t' = Some i') pre.

Lemma run_contains tp i s :
  names_test tp i → run (contains (Tests (PlanSpec tp)) (Some i)) s = (Ret true, s).
Proof.
  intros (pre & t & post & -> & Ht & Hpre). unfold contains. simpl default.
  rewrite run_bind. induction Hpre as [|x pre (t' & i' & -> & Hi') _ IH].
  - simpl app. rewrite run_for_range_cons. simpl. rewrite Ht. simpl.
    by rewrite decide_True.
  - simpl app. rewrite run_for_range_cons. simpl. rewrite Hi'. simpl.
    case_decide; [done|]. exact IH.
Qed.

(** What Xray and the plans must answer for a PUT on a known run to be accepted. *)
Definition accepted (old : TestRun) (spec : TestRunSpec) s : Prop :=
  let s0 := set_world (clock_now (td_world s)).2 s in
  let r := run_move old spec (clock_now (td_world s)).1 in
  match bool_decide (RunStatus (RunSpec old) = TestRunStatusEnumTODO), RunStatus spec with
  | true, "EXECUTING" =>
      ∃ tp st s1 s2, run (xray_UpdateTestRun r) s0 = (Ret None, s1) ∧
        run TestPlanCache_GetActive s1 = (Ret (Some tp), s2) ∧
        names_test tp (TestID (RunSpec old)) ∧ PlanStatus (PlanSpec tp) = Some st
  | false, "FAILED" | false, "PASSED" =>
      ∃ s1, run (UpdateTestRun r) s0 = (Ret None, s1)
  | _, _ => True
  end.

Lemma put_run_executing_accepted id r spec tp st s s1 s2 :
  run (xray_UpdateTestRun (set_RunStatus (RunStatus spec) (set_RunData (RunData spec)
         (set_StartDateTime (clock_now (td_world s)).1 r))))
    (set_world (clock_now (td_world s)).2 s) = (Ret None, s1) →
  run TestPlanCache_GetActive s1 = (Ret (Some tp), s2) →
  names_test tp (TestID (RunSpec r)) → PlanStatus (PlanSpec tp) = Some st →
  ∃ s', run (put_run_executing id r spec) s =
    (Ret (PutTestRunByIDOK (set_RunStatus (RunStatus spec) (set_RunData (RunData spec)
       (set_StartDateTime (clock_now (td_world s)).1 r)))), s').
Proof.
  intros Hx Ha Hn Hst. unfold put_run_executing, time_Now.
  rewrite run_bind, run_outside. cbn [seq_run]. rewrite run_bind.
  change (world s) with (td_world s). rewrite Hx. cbn [seq_run].
  rewrite run_bind, Ha. cbn [seq_run]. rewrite run_bind, run_contains by exact Hn.
  cbn [seq_run]. rewrite Hst, run_bind, run_deref_Some. cbn [seq_run].
  rewrite run_bind, run_plan_Set. cbn [seq_run].
  unfold put_run_tail. rewrite run_bind, run_run_Set. by eexists.
Qed.

Lemma put_run_finished_accepted id r d st s s1 :
  run (UpdateTestRun (set_RunStatus st (set_RunData d
         (set_EndDateTime (clock_now (td_world s)).1 r))))
    (set_world (clock_now (td_world s)).2 s) = (Ret None, s1) →
  ∃ s', run (put_run_finished id r d st) s =
    (Ret (PutTestRunByIDOK (set_RunStatus st (set_RunData d
       (set_EndDateTime (clock_now (td_world s)).1 r)))), s').
Proof.
  intros Hx. unfold put_run_finished, time_Now.
  rewrite run_bind, run_outside. cbn [seq_run]. rewrite run_bind.
  change (world s) with (td_world s). rewrite Hx. cbn [seq_run].
  unfold put_run_tail. rewrite run_bind, run_run_Set. by eexists.
Qed.

Lemma put_known_run_accepted id old spec s :
  run_of (runClient s) id = Some old → accepted old spec s →
  ∃ s', run (putTestRun_Handle id (Some spec)) s =
    (Ret (PutTestRunByIDOK (run_move old spec (clock_now (td_world s)).1)), s').
Proof.
  intros Hold. unfold putTestRun_Handle, put_existing_run, accepted.
  rewrite run_bind, run_run_Get, Hold. cbn [seq_run].
  rewrite run_bind, run_deref_Some. cbn [seq_run].
  case_decide as Hexec.
  { destruct Hexec as [Hcur Hnext]. unfold run_move. rewrite bool_decide_true by done.
    rewrite Hnext. intros (tp & st & s1 & s2 & Hx & Ha & Hn & Hst).
    edestruct (put_run_executing_accepted id old spec tp st s s1 s2) as [s' Hs'];
      rewrite ?Hnext in *; eauto. }
  case_decide as Hfail.
  { destruct Hfail as [Hcur Hnext]. unfold run_move. rewrite bool_decide_false by done.
    rewrite Hnext. intros [s1 Hx]. by apply put_run_finished_accepted with s1. }
  case_decide as Hpass.
  { destruct Hpass as [Hcur Hnext]. unfold run_move. rewrite bool_decide_false by done.
    rewrite Hnext. intros [s1 Hx]. by apply put_run_finished_accepted with s1. }
  intros _. exists (set_runClient (cache_Set id (TestRun_MarshalJSON old)) s).
  replace (run_move _ _ _) with old.
  { unfold put_run_tail. by rewrite run_bind, run_run_Set. }
  symmetry. by apply run_move_stays.
Qed.

(** (C3) PUT of a run the director knows: a run TO DO can only start to execute, a
    run that has started can only fail or pass, and it can do so again; every other
    request changes nothing.  When the answer is OK it is the moved run and that run
    is stored under the key of the request; when the request is refused, and when the
    handler panics, the stored runs are as they were.  The answer is OK whenever Xray
    takes the result and, for a run that starts, the active plan names its test. *)
Theorem put_known_run id old spec s :
  run_of (runClient s) id = Some old →
  let r := run_move old spec (clock_now (td_world s)).1 in
  match run (putTestRun_Handle id (Some spec)) s with
  | (Ret a, s') => run_stored (runClient s) id r a s'
  | (_, s') => runClient s' = runClient s
  end ∧
  (accepted old spec s →
   ∃ s', run (putTestRun_Handle id (Some spec)) s = (Ret (PutTestRunByIDOK r), s')).
Proof. intros Hold. split; [by apply put_known_run_safe|by apply put_known_run_accepted]. Qed.

(** What Jira, the plans and Xray must answer for a new run to be accepted: its test
    is an issue [jid] of type Test that the active plan names, and Xray makes an
    execution [execId] for it. *)
Definition accepted_new (spec : TestRunSpec) (jid execId : string) s : Prop :=
  ∃ key jt it tp s1 s2 s3, TestKey spec = Some key ∧
    run (GetJiraTaskDetails key) s = (Ret (Some jt, None), s1) ∧
    FieldsIssueType (Fields jt) = Some it ∧ IssueTypeName it = "Test" ∧
    JiraTaskId jt = Some jid ∧
    run TestPlanCache_GetActive s1 = (Ret (Some tp), s2) ∧ names_test tp jid ∧
    run (CreateTestExecution (JiraID (PlanSpec tp)) jid (JiraTaskKey jt)) s2 =
      (Ret (execId, None), s3).

Lemma put_unknown_run_accepted id spec jid execId s :
  run_of (runClient s) id = None → accepted_new spec jid execId s →
  ∃ s', run (putTestRun_Handle id (Some spec)) s =
    (Ret (PutTestRunByIDOK (mkTestRun zero_time execId zero_time
       (mkTestRunSpec (RunData spec) TestRunStatusEnumTODO execId jid (TestKey spec)))), s').
Proof.
  intros Hnew (key & jt & it & tp & s1 & s2 & s3 & Hkey & Hj & Hit & Hty & Hid & Ha & Hn & Hc).
  unfold putTestRun_Handle. rewrite run_bind, run_run_Get, Hnew. cbn [seq_run].
  rewrite run_bind, run_deref_Some. cbn [seq_run]. unfold put_new_run.
  rewrite Hkey, run_bind, run_deref_Some. cbn [seq_run].
  rewrite run_bind, Hj. cbn [seq_run]. rewrite run_bind, run_deref_Some. cbn [seq_run].
  rewrite Hit, run_bind, run_deref_Some. cbn [seq_run]. rewrite decide_False by (by intros []).
  rewrite run_bind, Ha. cbn [seq_run]. rewrite Hid, run_bind, run_contains by exact Hn.
  cbn [seq_run]. rewrite run_bind, run_deref_Some. cbn [seq_run].
  rewrite run_bind, Hc. cbn [seq_run].
  unfold put_run_tail. rewrite run_bind, run_run_Set. by eexists.
Qed.

(** PUT of a run the director does not know: either it answers OK with a new run
    that is TO DO, has the data and test key of the request and the id of the Xray
    execution, and is stored under the key of the request; or no run is stored.  The
    run is made whenever the active plan names the test and Xray makes an execution. *)
Theorem put_unknown_run id spec s :
  run_of (runClient s) id = None →
  match run (putTestRun_Handle id (Some spec)) s with
  | (Ret a, s') => run_created (runClient s) id spec a s'
  | (_, s') => runClient s' = runClient s
  end ∧
  (∀ jid execId, accepted_new spec jid execId s →
   ∃ s', run (putTestRun_Handle id (Some spec)) s =
     (Ret (PutTestRunByIDOK (mkTestRun zero_time execId zero_time
        (mkTestRunSpec (RunData spec) TestRunStatusEnumTODO execId jid (TestKey spec)))), s')).
Proof.
  intros Hnew. split; [by apply put_unknown_run_safe|].
  intros jid execId. by apply put_unknown_run_accepted.
Qed.

(** While the active plan is one that was put, no run can be created: the plan
    has no tests, so the request is refused whatever test it names. *)
Theorem put_plan_refuses_runs id key spec jt it jid tp s s1 :
  run_of (runClient s) id = None → plan_inv s →
  TestKey spec = Some key →
  run (GetJiraTaskDetails key) s = (Ret (Some jt, None), s1) →
  FieldsIssueType (Fields jt) = Some it → JiraTaskId jt = Some jid →
  plan_of (planClient s) (PlanKey tp) = Some tp → IsActive tp = Some true →
  Tests (PlanSpec tp) = None →
  ∃ why w, run (putTestRun_Handle id (Some spec)) s =
    (Ret (PutTestRunByIDBadRequest (refused why)), set_world w s).
Proof.
  intros Hnew Hinv Hkey Hjira Hit Hjid Htp Hact Htests.
  destruct (outside_only s (GetJiraTaskDetails key)) as [w0 Hw0]; [solve_keeps|].
  rewrite Hjira in Hw0. cbn [snd] in Hw0. subst s1.
  unfold putTestRun_Handle. rewrite run_bind, run_run_Get, Hnew. cbn [seq_run].
  rewrite run_bind, run_deref_Some. cbn [seq_run]. unfold put_new_run.
  rewrite Hkey, run_bind, run_deref_Some. cbn [seq_run].
  rewrite run_bind, Hjira. cbn [seq_run]. rewrite run_bind, run_deref_Some. cbn [seq_run].
  rewrite Hit, run_bind, run_deref_Some. cbn [seq_run].
  case_decide; [by eexists _, w0|].
  assert (Hinv' : plan_inv (set_world w0 s)) by exact Hinv.
  destruct (run_GetActive _ Hinv') as (res & w & Hrun & Hres).
  rewrite run_bind, Hrun. cbn [seq_run].
  destruct res as [tp'|]; [|by eexists _, w].
  destruct Hres as [Htp' Hact'].
  assert (tp' = tp) as ->.
  { assert (PlanKey tp' = PlanKey tp) as Hk.
    { apply (proj2 Hinv); [by exists tp'|by exists tp]. }
    rewrite Hk in Htp'. cbn in Htp'. congruence. }
  rewrite Htests. by eexists _, w.
Qed.

(** ** Events *)

Definition recorded (data : EventSpec) (message : string) (tr : TestRun) : TestRun :=
  set_RunData (append_data (RunData (RunSpec tr)) (event_text data message)) tr.

Lemma run_record_event data i tr m s :
  SourceInstance data = Some i → EvMessage data = Some m →
  run_of (runClient s) i = Some tr →
  run (record_event data) s =
  (Ret (recorded data m tr),
   set_runClient (cache_Set i (TestRun_MarshalJSON (recorded data m tr))) s).
Proof.
  intros Hi Hm Htr. unfold record_event. rewrite Hi, Hm.
  rewrite run_bind, run_deref_Some. cbn [seq_run].
  rewrite run_bind, run_run_Get, Htr. cbn [seq_run].
  rewrite run_bind, run_deref_Some. cbn [seq_run].
  by rewrite run_bind, run_deref_Some.
Qed.

(** Everything the event cache does after it has recorded the event in its run. *)
Lemma stable_event_rest c (key : string) ev (class : string) (tr : option TestRun) :
  stable (runs_are c)
    (fails ← (if decide (class = EventClassEnumFAIL) then
               src ← deref (SourceClass (EvSpec ev));
               mret (bool_decide (src ≠ EventSourceClassEnumLogDashMonitor))
             else mret false);
     err ← (if fails : bool then
              tr ← deref tr; UpdateTestRun (set_RunStatus TestRunStatusEnumFAILED tr)
            else mret None);
     match err with
     | Some e => mret (Some e)
     | None =>
         updates (set_eventClient (cache_Set key (Event_MarshalJSON ev))) ;;
         slack ← reads (λ s, SlackNotification (td_cfg s));
         (if slack : bool then sendSlackNotification (EvSpec ev) else mret tt) ;;
         mret None
     end).
Proof. apply triple_keeps. solve_keeps. by apply keeps_updates. Qed.

Lemma triple_EventCache_Set c key ev class i m tr :
  EvClass (EvSpec ev) = Some class → class ≠ EventClassEnumINFO →
  SourceInstance (EvSpec ev) = Some i → EvMessage (EvSpec ev) = Some m →
  run_of c i = Some tr →
  triple (runs_are c) (EventCache_Set key ev)
    (λ _, runs_are (cache_Set i (TestRun_MarshalJSON (recorded (EvSpec ev) m tr)) c))
    (runs_are (cache_Set i (TestRun_MarshalJSON (recorded (EvSpec ev) m tr)) c)).
Proof.
  intros Hc Hinfo Hi Hm Htr s Hs. unfold EventCache_Set.
  rewrite Hc, run_bind, run_deref_Some. cbn [seq_run]. cbn zeta.
  rewrite (decide_True (P := _ ≠ _)) by done.
  rewrite run_bind, run_bind, (run_record_event _ i tr m) by (done || by rewrite Hs).
  cbn [seq_run]. rewrite run_done. cbn [seq_run].
  apply stable_event_rest. red. simpl. by rewrite Hs.
Qed.

(** An event that is not informational, about a run the director has, adds its
    text to the data of that run and changes nothing else of any run, whatever comes
    of the handler.  In particular the stored status of a run is not changed by a FAIL
    event: only Xray is told that the run failed. *)
Theorem event_keeps_run_status spec class i m tr s :
  EvClass spec = Some class → class ≠ EventClassEnumINFO →
  SourceInstance spec = Some i → EvMessage spec = Some m →
  run_of (runClient s) i = Some tr →
  let s' := (run (postEvent_Handle (Some spec)) s).2 in
  ∀ k, run_of (runClient s') k =
       if decide (i = k) then Some (norm_run (recorded spec m tr))
       else run_of (runClient s) k.
Proof.
  intros Hc Hinfo Hi Hm Htr s' k. rewrite <- run_of_Set.
  assert (Hs' : runs_are (cache_Set i (TestRun_MarshalJSON (recorded spec m tr))
                  (runClient s)) s'); [|by rewrite Hs'].
  subst s'. unfold postEvent_Handle, time_Now.
  rewrite run_bind, run_outside. cbn [seq_run].
  rewrite run_bind, run_outside. cbn [seq_run].
  rewrite run_bind, run_deref_Some. cbn [seq_run]. cbn zeta.
  match goal with |- context [EventCache_Set ?key ?ev] =>
    pose proof (triple_EventCache_Set (runClient s) key ev class i m tr
                  Hc Hinfo Hi Hm Htr) as Hset
  end.
  rewrite run_bind.
  match goal with |- context [run (EventCache_Set _ _) ?s0] => specialize (Hset s0 eq_refl) end.
  destruct (run _ _) as [[[e|]| | |] s1]; exact Hset.
Qed.

(** An event that is not informational and names a run the director does not
    have makes the handler panic; the event is not stored. *)
Theorem event_unknown_run_panics spec class i s :
  EvClass spec = Some class → class ≠ EventClassEnumINFO →
  SourceInstance spec = Some i → run_of (runClient s) i = None →
  ∃ w, run (postEvent_Handle (Some spec)) s = (Panicked nil_deref, set_world w s).
Proof.
  intros Hc Hinfo Hi Hno. unfold postEvent_Handle, time_Now.
  rewrite run_bind, run_outside. cbn [seq_run].
  rewrite run_bind, run_outside. cbn [seq_run].
  rewrite run_bind, run_deref_Some. cbn [seq_run]. cbn zeta.
  unfold EventCache_Set. cbn [EvSpec]. rewrite Hc. eexists.
  rewrite !run_bind, run_deref_Some. cbn [seq_run].
  rewrite (decide_True (P := _ ≠ _)) by done.
  rewrite !run_bind. unfold record_event. rewrite Hi.
  rewrite !run_bind, run_deref_Some. cbn [seq_run].
  rewrite !run_bind, run_run_Get. cbn [seq_run].
  match goal with |- context [run_of (runClient ?x) i] =>
    change (runClient x) with (runClient s) end.
  rewrite Hno. simpl. reflexivity.
Qed.

(** ** How a run that ends acts on the plans *)

Definition plan_result (status cur : string) : string :=
  if decide (status = TestRunStatusEnumPASSED ∧ cur ≠ TestPlanStatusEnumCOMPLETEFAIL)
  then TestPlanStatusEnumCOMPLETEPASS else TestPlanStatusEnumCOMPLETEFAIL.

(** When Xray accepts the result of a run, the plan that is filed under the test
    key of the run, not under the key of its plan, is completed: it fails for good
    when a run fails.  With no plan under the test key the plans stay as they are. *)
Theorem update_run_completes_plan r key s s1 :
  run (xray_UpdateTestRun r) s = (Ret None, s1) →
  TestKey (RunSpec r) = Some key → plan_inv s →
  (∀ tp, plan_of (planClient s) key = Some tp → is_Some (PlanStatus (PlanSpec tp))) →
  run (UpdateTestRun r) s =
  (Ret None,
   match plan_of (planClient s) key with
   | None => s1
   | Some tp =>
       set_planClient (cache_Set key (TestPlan_MarshalJSON
         (set_PlanStatus (Some (plan_result (RunStatus (RunSpec r))
            (default "" (PlanStatus (PlanSpec tp))))) tp))) s1
   end).
Proof.
  intros Hx Hkey Hinv Hst.
  destruct (outside_only s (xray_UpdateTestRun r)) as [w0 Hw0]; [solve_keeps|].
  rewrite Hx in Hw0. cbn [snd] in Hw0. subst s1.
  unfold UpdateTestRun. rewrite run_bind, Hx. cbn [seq_run].
  rewrite Hkey, run_bind, run_deref_Some. cbn [seq_run].
  rewrite run_bind, run_plan_Get. cbn [seq_run].
  change (planClient (set_world w0 s)) with (planClient s).
  destruct (plan_of (planClient s) key) as [tp|] eqn:Etp; [|done].
  destruct (Hst tp eq_refl) as [st Est]. rewrite Est.
  rewrite (filed_key _ _ _ (proj1 Hinv) Etp). unfold plan_result. simpl.
  destruct (decide (RunStatus (RunSpec r) = TestRunStatusEnumPASSED)) as [Hp|Hp].
  - simpl. case_bool_decide.
    + by rewrite decide_True by done.
    + by rewrite decide_False by tauto.
  - by rewrite decide_False by tauto.
Qed.
End Runs.

(** ** Witnesses and a scenario *)

(** A director whose default plan has the test [201], and a run of it that executes. *)
Definition demo_test : TestRunSpec :=
  mkTestRunSpec "" TestRunStatusEnumTODO "" "" (Some "MQ-201").
Definition in_status (st data : string) : TestRunSpec :=
  mkTestRunSpec data st "" "" (Some "MQ-201").
Definition update_answers : list (goerror + response) :=
  xray_answer "r" ++ xray_answer "r" ++ xray_answer "r".
Definition demo_answers (l : list (goerror + response)) : list (goerror + response) :=
  jira_answer "MQ-1" "101" "Test Plan" :: xray_answer "201" ++
  jira_answer "MQ-201" "201" "Test" :: xray_answer "900" ++ xray_answer "{}" ++
  update_answers ++ l.

Definition with_plan (l : list (goerror + response)) : ScriptedDirector :=
  (run (director_main start_cfg) (booting (demo_answers l))).2.
Definition executing (l : list (goerror + response)) : ScriptedDirector :=
  serve_all [RqPutTestRun "run-1" (Some demo_test);
             RqPutTestRun "run-1" (Some (in_status TestRunStatusEnumEXECUTING "go"))]
    (with_plan l).

Definition executing_run : TestRun :=
  mkTestRun zero_time "900" (3 * Second)
    (mkTestRunSpec "go" TestRunStatusEnumEXECUTING "900" "201" (Some "MQ-201")).

Lemma cached_values_survive_witness :
  (run (TestRunCache_Set "run-1" executing_run ;; TestRunCache_Get "run-1") (booting [])).1 =
    Ret (Some (norm_run executing_run)).
Proof.
  exact (proj1 (proj2 (cached_values_survive "run-1" "run-1"
    (mkTestPlan (mkTestPlanSpec "" "" "" (Some TestPlanStatusEnumRUNNING) None) None "MQ-1")
    executing_run (mkEvent "" 0 (mkEventSpec None None None "" None None))
    (booting [])))).
Defined.

(** A test as Jira describes it. *)
Definition test_task : JiraTask :=
  mkJiraTask "MQ-201" (Some "201")
    (mkFields (mkAssignee "" "") (mkJiraStatus "" "") (Some "name")
       (Some (mkIssueType "Test"))).

Lemma put_known_run_witness :
  ∃ s', run (putTestRun_Handle "run-1" (Some (in_status TestRunStatusEnumPASSED "fine")))
          (executing update_answers) =
    (Ret (PutTestRunByIDOK (run_move executing_run (in_status TestRunStatusEnumPASSED "fine")
       (clock_now (td_world (executing update_answers))).1)), s').
Proof.
  eapply (put_known_run "run-1" executing_run _ (executing update_answers)).
  - vm_compute. reflexivity.
  - unfold accepted. eexists. vm_compute. reflexivity.
Defined.

Lemma put_unknown_run_witness :
  ∃ r s', run (putTestRun_Handle "run-1" (Some demo_test)) (with_plan []) =
    (Ret (PutTestRunByIDOK r), s') ∧ RunID r = "900".
Proof.
  destruct (put_unknown_run "run-1" demo_test (with_plan [])) as [_ Hok].
  { vm_compute. reflexivity. }
  destruct (Hok "201" "900") as [s' Hs'].
  { eexists "MQ-201", test_task, (mkIssueType "Test"), _, _, _, _.
    split_and!; try (vm_compute; reflexivity).
    eexists [], _, []. split_and!; [vm_compute; reflexivity..|]. constructor. }
  eexists _, s'. split; [exact Hs'|reflexivity].
Defined.

(** A plan that was put is active, and a test asks for a run. *)
Lemma put_plan_refuses_runs_witness :
  ∃ why w,
    run (putTestRun_Handle "run-1" (Some demo_test))
      (two_plans [jira_answer "MQ-201" "201" "Test"]) =
    (Ret (PutTestRunByIDBadRequest (refused why)),
     set_world w (two_plans [jira_answer "MQ-201" "201" "Test"])).
Proof.
  refine (put_plan_refuses_runs "run-1" "MQ-201" demo_test test_task
    (mkIssueType "Test") "201" demo_plan _
    (run (GetJiraTaskDetails "MQ-201") (two_plans [jira_answer "MQ-201" "201" "Test"])).2
    _ (two_plans_inv _) _ _ _ _ _ _ _); vm_compute; reflexivity.
Defined.

Definition fail_event : EventSpec :=
  mkEventSpec (Some EventClassEnumFAIL) (Some ["pod"]) (Some "restarted") ""
    (Some EventSourceClassEnumWorkloadDashMonitor) (Some "run-1").

Lemma event_keeps_run_status_witness :
  let s' := (run (postEvent_Handle (Some fail_event)) (executing update_answers)).2 in
  run_of (runClient s') "run-1" =
    Some (norm_run (recorded fail_event "restarted" executing_run)) ∧
  RunStatus (RunSpec (norm_run (recorded fail_event "restarted" executing_run))) =
    TestRunStatusEnumEXECUTING.
Proof.
  split; [|vm_compute; reflexivity].
  refine (event_keeps_run_status fail_event EventClassEnumFAIL "run-1" "restarted"
            executing_run (executing update_answers) _ _ _ _ _ "run-1");
    first [done | vm_compute; reflexivity].
Defined.

Lemma event_unknown_run_panics_witness :
  ∃ w, run (postEvent_Handle (Some fail_event)) (booting []) =
       (Panicked nil_deref, set_world w (booting [])).
Proof.
  refine (event_unknown_run_panics fail_event EventClassEnumFAIL "run-1" (booting [])
            _ _ _ _); first [done | vm_compute; reflexivity].
Defined.

Definition passed_run : TestRun :=
  set_RunStatus TestRunStatusEnumPASSED executing_run.

Lemma update_run_completes_plan_witness :
  run (UpdateTestRun passed_run) (executing update_answers) =
  (Ret None,
   match plan_of (planClient (executing update_answers)) "MQ-201" with
   | None => (run (xray_UpdateTestRun passed_run) (executing update_answers)).2
   | Some tp =>
       set_planClient (cache_Set "MQ-201" (TestPlan_MarshalJSON
         (set_PlanStatus (Some (plan_result (RunStatus (RunSpec passed_run))
            (default "" (PlanStatus (PlanSpec tp))))) tp)))
         (run (xray_UpdateTestRun passed_run) (executing update_answers)).2
   end).
Proof.
  apply update_run_completes_plan.
  - vm_compute. reflexivity.
  - reflexivity.
  - apply serve_all_inv. 
    apply (main_inv start_cfg (booting (demo_answers update_answers))).
    vm_compute. reflexivity.
  - intros tp Htp. vm_compute in Htp. discriminate.
Defined.

(** A test whose run received a FAIL event, accepted by the director, can still
    end as PASSED: the next PUT moves the stored run from EXECUTING to PASSED. *)
Theorem failed_event_then_passed :
  let s0 := executing (update_answers ++ update_answers) in
  let '(a1, s1) := run (serve (RqAddEvent (Some fail_event))) s0 in
  let '(a2, s2) := run (serve (RqPutTestRun "run-1"
                      (Some (in_status TestRunStatusEnumPASSED "fine")))) s1 in
  (∃ ev, a1 = Ret (AddEventOK ev)) ∧ (∃ r, a2 = Ret (PutTestRunByIDOK r)) ∧
  option_map (λ r, RunStatus (RunSpec r)) (run_of (runClient s2) "run-1") =
    Some TestRunStatusEnumPASSED.
Proof. vm_compute. eauto. Qed.
