(* ===== verification/Kube.v ===== *)
(** * The Kubernetes API

    The objects of the API with the fields the sources read or write, and the API
    itself as an interface: every request goes to the environment, which answers with
    an object or an error. *)

From stdpp Require Import base gmap strings list.
From S2P Require Import Prelude GoLib.

(** ** Objects *)

Record ObjectMeta := mkMeta {
  Name : string;
  GenerateName : string;
  Namespace : string;
  UID : string;
  Labels : gmap string string;
  Annotations : gmap string string;
  Finalizers : option (list string);
  CreationTimestamp : Z;
  DeletionTimestamp : option Z;
}.
Definition zero_meta : ObjectMeta := mkMeta "" "" "" "" ∅ ∅ None 0 None.
Definition named (name namespace : string) : ObjectMeta :=
  mkMeta name "" namespace "" ∅ ∅ None 0 None.

Record Taint := mkTaint { TaintKey : string; TaintValue : string; TaintEffect : string }.
Record Toleration := mkToleration {
  TolKey : string; TolOperator : string; TolValue : string; TolEffect : string }.
Definition TolerationOpExists : string := "Exists".
Definition TolerationOpEqual : string := "Equal".

Record VolumeMount := mkVolumeMount { MountName : string; MountPath : string }.
Record VolumeDevice := mkVolumeDevice { DeviceName : string; DevicePath : string }.
Record SecurityContext := mkSecurityContext {
  Privileged : option bool; RunAsUser : option Z; AllowPrivilegeEscalation : option bool }.
Record Container := mkContainer {
  CtrName : string;
  Image : string;
  ImagePullPolicy : string;
  Args : list string;
  CtrSecurity : option SecurityContext;
  VolumeMounts : list VolumeMount;
  VolumeDevices : list VolumeDevice;
}.
Definition PullIfNotPresent : string := "IfNotPresent".
Definition PullAlways : string := "Always".
Definition RestartPolicyNever : string := "Never".

(** A volume backed by a persistent volume claim. *)
Record Volume := mkVolume { VolName : string; ClaimName : option string }.

Record PodSpec := mkPodSpec {
  Containers : list Container;
  Volumes : list Volume;
  Tolerations : list Toleration;
  NodeSelector : gmap string string;
  NodeName : string;
  RestartPolicy : string;
  ServiceAccountName : string;
  HostNetwork : bool;
}.
Definition zero_podspec : PodSpec := mkPodSpec [] [] [] ∅ "" "" "" false.

(** [Terminated]: the reason and the exit code of a container that ended. *)
Record ContainerStatus := mkContainerStatus {
  RestartCount : Z; CsName : string; CsReady : bool; Terminated : option (string * Z) }.
Record Condition := mkCondition { CondType : string; CondStatus : string; CondReason : string }.
Definition ConditionTrue : string := "True".
Definition ConditionUnknown : string := "Unknown".
Record PodStatus := mkPodStatus {
  Phase : string;
  PodIP : string;
  ContainerStatuses : list ContainerStatus;
  HostIP : string;
  PodConditions : list Condition;
}.
Definition zero_podstatus : PodStatus := mkPodStatus "" "" [] "" [].
Definition PodRunning : string := "Running".
Definition PodFailed : string := "Failed".
Definition PodSucceeded : string := "Succeeded".
Definition PodUnknown : string := "Unknown".

Record Pod := mkPod { pod_meta : ObjectMeta; pod_spec : PodSpec; pod_status : PodStatus }.
Definition zero_pod : Pod := mkPod zero_meta zero_podspec zero_podstatus.

Record NodeAddress := mkNodeAddress { AddressType : string; Address : string }.
Definition NodeInternalIP : string := "InternalIP".
Definition NodeHostName : string := "Hostname".
Record Node := mkNode {
  node_meta : ObjectMeta; Addresses : list NodeAddress; Taints : list Taint;
  NodeConditions : list Condition }.

Record PVC := mkPVC {
  pvc_meta : ObjectMeta;
  StorageClassName : option string;
  AccessModes : list string;
  StorageRequest : string;
  VolumeMode : option string;
  PvcVolumeName : string;
  PvcPhase : string;
}.
Definition zero_pvc : PVC := mkPVC zero_meta None [] "" None "" "".
Definition ClaimBound : string := "Bound".
Definition ReadWriteOnce : string := "ReadWriteOnce".
Definition PersistentVolumeFilesystem : string := "Filesystem".
Definition PersistentVolumeBlock : string := "Block".

Record PV := mkPV { pv_meta : ObjectMeta; PvPhase : string; PvStorageClass : string }.
Definition zero_pv : PV := mkPV zero_meta "" "".
Definition VolumeBound : string := "Bound".

Record StorageClass := mkSC {
  sc_meta : ObjectMeta;
  Provisioner : string;
  Parameters : option (gmap string string);
  VolumeBindingMode : option string;
}.
Definition zero_sc : StorageClass := mkSC zero_meta "" None None.
Definition VolumeBindingImmediate : string := "Immediate".
Definition VolumeBindingWaitForFirstConsumer : string := "WaitForFirstConsumer".

(** ** Custom resources (custom_resources/api/types/v1alpha1) *)

Record MayastorPoolSpec := mkMspSpec { Disks : list string; MspNode : string }.
Record MayastorPoolStatus := mkMspStatus {
  Avail : Z; Capacity : Z; MspDisks : list string; Reason : string;
  MspStatusSpec : MayastorPoolSpec; MspState : string; MspUsed : Z }.
Record MayastorPool := mkMsp {
  msp_meta : ObjectMeta; msp_spec : MayastorPoolSpec; msp_status : MayastorPoolStatus }.
Definition zero_msp : MayastorPool :=
  mkMsp zero_meta (mkMspSpec [] "") (mkMspStatus 0 0 [] "" (mkMspSpec [] "") "" 0).

Record MayastorNode := mkMsn { msn_meta : ObjectMeta; GrpcEndpoint : string; MsnStatus : string }.
Definition zero_msn : MayastorNode := mkMsn zero_meta "" "".

Record NexusChild := mkNexusChild { ChildState : string; ChildUri : string }.
Record Nexus := mkNexus {
  NexusChildren : list NexusChild; NexusDeviceUri : string; NexusNode : string;
  NexusState : string }.
Record Replica := mkReplica {
  ReplicaNode : string; Offline : bool; ReplicaPool : string; ReplicaUri : string }.
Record MayastorVolumeSpec := mkMsvSpec {
  LimitBytes : Z; Local : bool; PreferredNodes : list string; Protocol : string;
  ReplicaCount : Z; RequiredBytes : Z; RequiredNodes : list string }.
Record MayastorVolumeStatus := mkMsvStatus {
  MsvNexus : Nexus; MsvReason : string; Replicas : list Replica; MsvSize : Z;
  MsvState : string; TargetNodes : list string }.
Record MayastorVolume := mkMsv {
  msv_meta : ObjectMeta; msv_spec : MayastorVolumeSpec; msv_status : MayastorVolumeStatus }.
Definition zero_msv : MayastorVolume :=
  mkMsv zero_meta (mkMsvSpec 0 false [] "" 0 0 [])
    (mkMsvStatus (mkNexus [] "" "" "") "" [] 0 "" []).

(** ** The API *)

Notation answer W A := (W → (goerror + A) * W)%type (only parsing).

Class Kube (W : Type) := {
  pods_List : string → answer W (list Pod);
  pods_Get : string → string → answer W Pod;
  pods_Create : string → Pod → answer W Pod;
  pods_Delete : string → string → answer W unit;
  nodes_List : answer W (list Node);
  pvc_Create : string → PVC → answer W PVC;
  pvc_Get : string → string → answer W PVC;
  pvc_Delete : string → string → answer W unit;
  pvc_List : string → answer W (list PVC);
  pv_Get : string → answer W PV;
  sc_Create : StorageClass → answer W StorageClass;
  sc_Get : string → answer W StorageClass;
  sc_Delete : string → answer W unit;
  ns_Create : string → answer W unit;
  msp_Create : MayastorPool → answer W MayastorPool;
  msp_Get : string → answer W MayastorPool;
  msp_Update : MayastorPool → answer W MayastorPool;
  msp_Delete : string → answer W unit;
  msp_List : answer W (list MayastorPool);
  msn_Get : string → answer W MayastorNode;
  msn_Delete : string → answer W unit;
  msn_List : answer W (list MayastorNode);
  msv_Get : string → answer W MayastorVolume;
  msv_Update : MayastorVolume → answer W MayastorVolume;
  msv_Delete : string → answer W unit;
  msv_List : answer W (list MayastorVolume);
}.

Section Calls.
Context {S W : Type} `{HasWorld S W}.

(** A request that answers with an object; the typed clients answer with the zero
    object when there is an error. *)
Definition kube_call {A} (zero : A) (f : answer W A) : prog S (A * error) :=
  x ← outside f;
  match x with
  | inl e => mret (zero, Some e)
  | inr a => mret (a, None)
  end.

(** A request that answers with an error only. *)
Definition kube_do (f : answer W unit) : prog S error :=
  '(_, err) ← kube_call tt f; mret err.

Lemma run_kube_call {A} (zero : A) (f : answer W A) s :
  run (kube_call zero f) s =
  (Ret (match (f (world s)).1 with inl e => (zero, Some e) | inr a => (a, None) end),
   set_world (f (world s)).2 s).
Proof.
  unfold kube_call. rewrite run_bind, run_outside. cbn [seq_run].
  by destruct (f (world s)) as [[] ?].
Qed.
Lemma run_kube_do (f : answer W unit) s :
  run (kube_do f) s =
  (Ret (match (f (world s)).1 with inl e => Some e | inr _ => None end),
   set_world (f (world s)).2 s).
Proof.
  unfold kube_do. rewrite run_bind, run_kube_call. cbn [seq_run].
  by destruct (f (world s)) as [[] ?].
Qed.
End Calls.

Section CallFacts.
Context {S W : Type} `{HasWorld S W} (I : S → Prop) `{!WorldFree I}.
Lemma keeps_kube_call {A} (zero : A) (f : answer W A) : keeps I (kube_call zero f).
Proof. unfold kube_call. solve_keeps. Qed.
Hint Resolve keeps_kube_call : keeps.
Lemma keeps_kube_do (f : answer W unit) : keeps I (kube_do f).
Proof. unfold kube_do. solve_keeps. Qed.
End CallFacts.
#[export] Hint Resolve keeps_kube_call keeps_kube_do : keeps.
#[export] Hint Rewrite @run_kube_call @run_kube_do : go_run.

(** * Workloads, namespaces and attachments

    The objects and requests that the end-to-end tests use besides. *)

(** ** Objects *)

(** The selector of the pod template: nil and the empty map are different values. *)
Record Deployment := mkDeployment {
  dep_meta : ObjectMeta;
  dep_Replicas : option Z;
  dep_NodeSelector : option (gmap string string);
  dep_Containers : list Container;
  dep_Conditions : list Condition;
}.
Definition zero_deployment : Deployment := mkDeployment zero_meta None None [] [].
Definition DeploymentAvailable : string := "Available".

Record StatefulSet := mkStatefulSet {
  sts_meta : ObjectMeta;
  sts_Replicas : option Z;                 (* wanted *)
  StsReplicas : Z; StsReady : Z; StsCurrent : Z;  (* status *)
}.
Definition zero_statefulset : StatefulSet := mkStatefulSet zero_meta None 0 0 0.

Record DaemonSet := mkDaemonSet {
  ds_meta : ObjectMeta;
  DesiredNumberScheduled : Z; CurrentNumberScheduled : Z; NumberReady : Z; NumberAvailable : Z;
}.
Definition zero_daemonset : DaemonSet := mkDaemonSet zero_meta 0 0 0 0.

Record VolumeAttachment := mkVolumeAttachment { va_meta : ObjectMeta; va_NodeName : string }.

(** ** The API *)

(** Lists take the namespace and the label selector; deletions at once are those with a
    grace period of zero. *)
Class KubeApps (W : Type) := {
  dep_Get : string → string → answer W Deployment;
  dep_List : string → string → answer W (list Deployment);
  dep_Update : string → Deployment → answer W Deployment;
  dep_Delete : string → string → answer W unit;
  sts_Get : string → string → answer W StatefulSet;
  sts_List : string → string → answer W (list StatefulSet);
  sts_Update : string → StatefulSet → answer W StatefulSet;
  ds_Get : string → string → answer W DaemonSet;
  ds_List : string → answer W (list DaemonSet);
  pods_Select : string → string → answer W (list Pod);
  pods_DeleteNow : string → string → answer W unit;
  nodes_Get : string → answer W Node;
  ns_Get : string → answer W unit;
  ns_List : answer W (list string);
  ns_Delete : string → answer W unit;
  sc_List : answer W (list StorageClass);
  sc_DeleteNow : string → answer W unit;
  pvc_DeleteNow : string → string → answer W unit;
  pv_List : answer W (list PV);
  pv_Update : PV → answer W PV;
  pv_DeleteNow : string → answer W unit;
  va_List : answer W (list VolumeAttachment);
  va_Delete : string → answer W unit;
}.

(** [for ix := first; ix < last; ix += step], as the rounds it makes.  A step of zero or
    less is a loop of its own kind: see the callers. *)
Definition rounds (first last step : Z) : Z := (last - first + step - 1) / step.
