(* ===== verification/Total.v ===== *)
(** * Rules for total correctness

    Structural rules for [total] and [returns], so that a claim that a routine comes back
    with a result, whatever the environment answers, follows the shape of the routine. *)

From stdpp Require Import base gmap strings list.
From S2P Require Import Prelude GoLib Kube.

(** [p] comes back with a result from every state. *)
Definition returns {S A} (p : prog S A) : Prop := ∀ s, ∃ a s', run p s = (Ret a, s').

Create HintDb returns discriminated.

Section Rules.
Context {S : Type}.

Lemma total_ret {A} (P : S → Prop) (a : A) (Q : A → S → Prop) :
  (∀ s, P s → Q a s) → total P (mret a) Q.
Proof. intros HQ s Hs. exists a, s. auto. Qed.

Lemma total_weaken {A} (P P' : S → Prop) (p : prog S A) (Q Q' : A → S → Prop) :
  total P p Q → (∀ s, P' s → P s) → (∀ a s, Q a s → Q' a s) → total P' p Q'.
Proof.
  intros Hp HP HQ s Hs. destruct (Hp s (HP s Hs)) as (a & s' & E & Ha). eauto.
Qed.

Lemma total_returns {A} (P : S → Prop) (p : prog S A) :
  returns p → total P p (λ _ _, True).
Proof. intros Hp s _. destruct (Hp s) as (a & s' & E). eauto. Qed.

(** A program that comes back and keeps an invariant. *)
Lemma total_keeps {A} (I : S → Prop) (p : prog S A) :
  returns p → keeps I p → total I p (λ _, I).
Proof.
  intros Hp HI s Hs. destruct (Hp s) as (a & s' & E). exists a, s'. split; [done|].
  pose proof (keeps_run I p s HI Hs) as Hr. by rewrite E in Hr.
Qed.

Lemma returns_bind {A B} (p : prog S A) (k : A → prog S B) :
  returns p → (∀ a, returns (k a)) → returns (p ≫= k).
Proof.
  intros Hp Hk s. destruct (Hp s) as (a & s1 & E). rewrite run_bind, E. apply Hk.
Qed.
Lemma returns_mret {A} (a : A) : returns (mret (M:=prog S) a).
Proof. intros s. by exists a, s. Qed.
Lemma returns_action {A} (f : S → A * S) : returns (action f).
Proof. intros s. rewrite run_action. eauto. Qed.
Lemma returns_reads {A} (f : S → A) : returns (reads f).
Proof. apply returns_action. Qed.
Lemma returns_updates (f : S → S) : returns (updates f).
Proof. apply returns_action. Qed.
Lemma returns_deref {A} (x : A) : returns (deref (S:=S) (Some x)).
Proof. intros s. by exists x, s. Qed.
Lemma returns_no_return {B} (r : B + Empty_set) : returns (no_return (S:=S) r).
Proof. destruct r as [b|[]]. intros s. by exists b, s. Qed.

(** A loop over a list comes back when its body does. *)
Lemma returns_for_range {A B R} (l : list A) (b : B) (body : A → B → prog S (ctl B R)) :
  (∀ x b, x ∈ l → returns (body x b)) → returns (for_range l b body).
Proof.
  revert b. induction l as [|x l IH]; intros b Hb; [apply returns_mret|]. simpl.
  apply returns_bind; [apply Hb; set_solver|].
  intros [b'|b'|r]; [|apply returns_mret..]. apply IH. intros; apply Hb; set_solver.
Qed.
Lemma returns_for_upto {B R} i n (b : B) (body : Z → B → prog S (ctl B R)) :
  (∀ j b, returns (body j b)) → returns (for_upto i n b body).
Proof. intros. apply returns_for_range. auto. Qed.

(** A counting loop with [fuel] rounds comes back when its last round leaves it. *)
Lemma total_for_fuel {B R} (I : Z → B → S → Prop) (fuel : nat) (i : Z) (b : B)
    (body : Z → B → prog S (ctl B R)) (Q : B + R → S → Prop) :
  (0 < fuel)%nat →
  (∀ j b, (i ≤ j < i + Z.of_nat fuel)%Z →
     total (I j b) (body j b) (λ c s,
       match c with
       | Next b' => I (j + 1)%Z b' s ∧ (j + 1 < i + Z.of_nat fuel)%Z
       | Break b' => Q (inl b') s
       | Return r => Q (inr r) s
       end)) →
  total (I i b) (for_fuel fuel i b body) Q.
Proof.
  revert i b. induction fuel as [|fuel IH]; intros i b Hf Hbody s Hs; [lia|].
  destruct (Hbody i b ltac:(lia) s Hs) as (c & s1 & E & Hc).
  cbn [for_fuel]. rewrite run_bind, E. cbn [seq_run].
  destruct c as [b'|b'|r]; [|by exists (inl b'), s1|by exists (inr r), s1].
  destruct Hc as [Hc Hlt]. apply (IH (i + 1)%Z b'); [lia| |done].
  intros j b1 Hj. eapply total_weaken; [apply Hbody; lia|done|].
  intros [b2|b2|r] s2; [|done..]. intros [? ?]. split; [done|lia].
Qed.

Lemma returns_for_fuel {B R} (fuel : nat) (i : Z) (b : B)
    (body : Z → B → prog S (ctl B R)) :
  (0 < fuel)%nat →
  (∀ j b, (i ≤ j < i + Z.of_nat fuel)%Z →
     total (λ _, True) (body j b) (λ c _,
       match c with Next _ => (j + 1 < i + Z.of_nat fuel)%Z | _ => True end)) →
  returns (for_fuel fuel i b body).
Proof.
  intros Hf Hbody s.
  destruct (total_for_fuel (λ _ _ _, True) fuel i b body (λ _ _, True) Hf) with (s := s)
    as (a & s' & E & _); [|done|eauto].
  intros j b' Hj. eapply total_weaken; [by apply Hbody|done|].
  intros [?|?|?] ?; naive_solver.
Qed.

Lemma total_for_range {A B R} (I : list A → B → S → Prop) (l : list A) (b : B)
    (body : A → B → prog S (ctl B R)) (Q : B + R → S → Prop) :
  (∀ x l' b, total (I (x :: l') b) (body x b) (λ c s,
     match c with
     | Next b' => I l' b' s
     | Break b' => Q (inl b') s
     | Return r => Q (inr r) s
     end)) →
  (∀ b s, I [] b s → Q (inl b) s) →
  total (I l b) (for_range l b body) Q.
Proof.
  intros Hbody Hend. revert b. induction l as [|x l IH]; intros b.
  - apply total_ret. auto.
  - simpl. eapply total_bind; [apply Hbody|].
    intros [b'|b'|r]; [apply IH|apply total_ret; done..].
Qed.

(** A loop that goes round [n] times through the states [st] and then returns. *)
Lemma run_for_fuel_reach {B R} (body : Z → B → prog S (ctl B R)) (b : B) (r : R)
    (st : nat → S) (s' : S) (n : nat) :
  (∀ i, (i < n)%nat → run (body (Z.of_nat i) b) (st i) = (Ret (Next b), st (Datatypes.S i))) →
  run (body (Z.of_nat n) b) (st n) = (Ret (Return r), s') →
  ∀ fuel s, (n < fuel)%nat → st 0%nat = s →
    run (for_fuel fuel 0 b body) s = (Ret (inr r), s').
Proof.
  intros Hnext Hret.
  assert (Hgo : ∀ m k fuel, (k + m = n)%nat → (m < fuel)%nat →
    run (for_fuel fuel (Z.of_nat k) b body) (st k) = (Ret (inr r), s')).
  { induction m as [|m IH]; intros k [|fuel] Hk Hf; try lia; simpl; rewrite run_bind.
    - replace k with n by lia. by rewrite Hret.
    - rewrite Hnext by lia. cbn [seq_run].
      replace (Z.of_nat k + 1)%Z with (Z.of_nat (Datatypes.S k)) by lia. apply IH; lia. }
  intros fuel s Hf <-. by apply (Hgo n 0%nat).
Qed.
End Rules.
#[export] Hint Resolve returns_mret returns_reads returns_updates returns_deref
  returns_no_return : returns.

Section Outside.
Context {S W : Type} `{HasWorld S W}.

Lemma returns_outside {A} (f : W → A * W) : returns (outside f).
Proof. apply returns_action. Qed.
Lemma returns_kube_call {A} (zero : A) (f : answer W A) : returns (kube_call zero f).
Proof. intros s. rewrite run_kube_call. eauto. Qed.
Lemma returns_kube_do (f : answer W unit) : returns (kube_do f).
Proof. intros s. rewrite run_kube_do. eauto. Qed.
Lemma returns_Now `{Clock W} : returns time_Now.
Proof. apply returns_outside. Qed.
Lemma returns_Sleep `{Clock W} d : returns (time_Sleep d).
Proof. apply returns_outside. Qed.
Lemma returns_range_map `{MapRange W} {A} (m : gmap string A) : returns (range_map m).
Proof. apply returns_outside. Qed.

(** What a call answers, and the environment it leaves. *)
Lemma total_kube_call {A} (zero : A) (f : answer W A) (P : S → Prop) :
  total P (kube_call zero f) (λ r s', ∃ s, P s ∧ s' = set_world (f (world s)).2 s ∧
    match (f (world s)).1 with
    | inl e => r = (zero, Some e)
    | inr a => r = (a, None)
    end).
Proof.
  intros s Hs. rewrite run_kube_call. eexists _, _. split; [done|].
  exists s. repeat split; [done|]. by destruct (f (world s)) as [[] ?].
Qed.
End Outside.
#[export] Hint Resolve returns_outside returns_kube_call returns_kube_do returns_Now
  returns_Sleep returns_range_map : returns.

(** Decide [returns] along the structure of a program; calls are left to the hints. *)
Ltac solve_returns :=
  repeat first
    [ progress intros
    | solve [auto with returns nocore]
    | apply returns_bind
    | apply returns_for_range
    | apply returns_for_upto
    | match goal with
      | |- returns (match ?x with _ => _ end) => destruct x
      | |- returns (let _ := _ in _) => cbv zeta
      end ].
