(* ===== verification/K8sPods.v ===== *)
(** * Pods (common/k8sclient/lib_pod.go)

    The pod builder, the look-ups by name and UUID, and the waits. *)

From stdpp Require Import base gmap strings list pretty.
From S2P Require Import Prelude GoLib Kube.

(** ** common.go and lib_constants.go *)
Definition EtfwNamespace : string := "mayastor-e2e".
Definition NSMayastor : string := "mayastor".
Definition NSDefault : string := "default".
Definition FioFsMountPoint : string := "/volume".
Definition FioBlockFilename : string := "/dev/sdm".

(** ** lib_types.go *)
Inductive VolumeType := VolFileSystem | VolRawBlock | VolTypeNone.
#[export] Instance VolumeType_eq_dec : EqDecision VolumeType.
Proof. solve_decision. Defined.
Definition VolumeType_String (v : VolumeType) : string :=
  match v with VolFileSystem => "FileSystem" | VolRawBlock => "RawBlock" | _ => "Unknown" end.

(** ** The pod builder *)

Record PodBuilder := mkPodBuilder { pb_pod : Pod; pb_errs : list string }.

Definition K8sNodeLabelKeyHostname : string := "kubernetes.io/hostname".

Definition NewPodBuilder : PodBuilder := mkPodBuilder zero_pod [].

Definition pb_fail (why : string) (b : PodBuilder) : PodBuilder :=
  mkPodBuilder (pb_pod b) (pb_errs b ++ ["failed to build Pod object: missing " +:+ why]).
Definition pb_set (f : Pod → Pod) (b : PodBuilder) : PodBuilder :=
  mkPodBuilder (f (pb_pod b)) (pb_errs b).
Definition on_meta (f : ObjectMeta → ObjectMeta) (p : Pod) : Pod :=
  mkPod (f (pod_meta p)) (pod_spec p) (pod_status p).
Definition on_spec (f : PodSpec → PodSpec) (p : Pod) : Pod :=
  mkPod (pod_meta p) (f (pod_spec p)) (pod_status p).

Definition toleration_of (t : Taint) : Toleration :=
  if decide (strlen (TaintValue t) = 0%Z)
  then mkToleration (TaintKey t) TolerationOpExists "" (TaintEffect t)
  else mkToleration (TaintKey t) TolerationOpEqual (TaintValue t) (TaintEffect t).

Definition WithTolerationsForTaints (taints : list Taint) : PodBuilder → PodBuilder :=
  pb_set (on_spec (λ s, mkPodSpec (Containers s) (Volumes s)
    (Tolerations s ++ map toleration_of taints) (NodeSelector s) (NodeName s)
    (RestartPolicy s) (ServiceAccountName s) (HostNetwork s))).

Definition WithName (name : string) (b : PodBuilder) : PodBuilder :=
  if decide (strlen name = 0%Z) then pb_fail "Pod name" b
  else pb_set (on_meta (λ m, mkMeta name (GenerateName m) (Namespace m) (UID m) (Labels m)
         (Annotations m) (Finalizers m) (CreationTimestamp m) (DeletionTimestamp m))) b.

Definition WithNamespace (namespace : string) (b : PodBuilder) : PodBuilder :=
  if decide (strlen namespace = 0%Z) then pb_fail "namespace" b
  else pb_set (on_meta (λ m, mkMeta (Name m) (GenerateName m) namespace (UID m) (Labels m)
         (Annotations m) (Finalizers m) (CreationTimestamp m) (DeletionTimestamp m))) b.

Definition set_labels (labels : gmap string string) : PodBuilder → PodBuilder :=
  pb_set (on_meta (λ m, mkMeta (Name m) (GenerateName m) (Namespace m) (UID m) labels
    (Annotations m) (Finalizers m) (CreationTimestamp m) (DeletionTimestamp m))).

Definition WithLabels (labels : gmap string string) (b : PodBuilder) : PodBuilder :=
  if decide (size labels = 0) then pb_fail "labels" b else set_labels labels b.

Definition WithAppLabel (applabel : string) : PodBuilder → PodBuilder :=
  set_labels {[ "app" := applabel ]}.

Definition WithRestartPolicy (restartPolicy : string) : PodBuilder → PodBuilder :=
  pb_set (on_spec (λ s, mkPodSpec (Containers s) (Volumes s) (Tolerations s)
    (NodeSelector s) (NodeName s) restartPolicy (ServiceAccountName s) (HostNetwork s))).

Definition WithNodeName (nodeName : string) (b : PodBuilder) : PodBuilder :=
  if decide (strlen nodeName = 0%Z) then pb_fail "Pod node name" b
  else pb_set (on_spec (λ s, mkPodSpec (Containers s) (Volumes s) (Tolerations s)
         (NodeSelector s) nodeName (RestartPolicy s) (ServiceAccountName s) (HostNetwork s))) b.

Definition WithNodeSelectorHostnameNew (hostname : string) (b : PodBuilder) : PodBuilder :=
  if decide (strlen hostname = 0%Z) then pb_fail "Pod hostname" b
  else pb_set (on_spec (λ s, mkPodSpec (Containers s) (Volumes s) (Tolerations s)
         {[ K8sNodeLabelKeyHostname := hostname ]} (NodeName s) (RestartPolicy s)
         (ServiceAccountName s) (HostNetwork s))) b.

Definition set_containers (cs : list Container) : PodBuilder → PodBuilder :=
  pb_set (on_spec (λ s, mkPodSpec cs (Volumes s) (Tolerations s) (NodeSelector s)
    (NodeName s) (RestartPolicy s) (ServiceAccountName s) (HostNetwork s))).

Definition WithContainers (containers : list Container) (b : PodBuilder) : PodBuilder :=
  if decide (length containers = 0) then pb_fail "containers" b
  else set_containers containers b.
Definition WithContainer (container : Container) : PodBuilder → PodBuilder :=
  WithContainers [container].

Definition WithVolumes (volumes : list Volume) (b : PodBuilder) : PodBuilder :=
  if decide (length volumes = 0) then pb_fail "volumes" b
  else pb_set (on_spec (λ s, mkPodSpec (Containers s) volumes (Tolerations s)
         (NodeSelector s) (NodeName s) (RestartPolicy s) (ServiceAccountName s) (HostNetwork s))) b.
Definition WithVolume (volume : Volume) : PodBuilder → PodBuilder := WithVolumes [volume].

Definition WithServiceAccountName (name : string) (b : PodBuilder) : PodBuilder :=
  if decide (strlen name = 0%Z) then pb_fail "Pod service account name" b
  else pb_set (on_spec (λ s, mkPodSpec (Containers s) (Volumes s) (Tolerations s)
         (NodeSelector s) (NodeName s) (RestartPolicy s) name (HostNetwork s))) b.

(** The mounts and devices go into the first container: there must be one. *)
Definition on_first_container {S} (f : Container → Container) (b : PodBuilder)
    : prog S PodBuilder :=
  match Containers (pod_spec (pb_pod b)) with
  | [] => Panic "index out of range"
  | c :: cs => mret (set_containers (f c :: cs) b)
  end.

Definition WithVolumeMounts {S} (volMounts : list VolumeMount) (b : PodBuilder)
    : prog S PodBuilder :=
  if decide (length volMounts = 0) then mret (pb_fail "VolumeMount" b)
  else on_first_container (λ c, mkContainer (CtrName c) (Image c) (ImagePullPolicy c)
         (Args c) (CtrSecurity c) volMounts (VolumeDevices c)) b.
Definition WithVolumeMount {S} (volMount : VolumeMount) : PodBuilder → prog S PodBuilder :=
  WithVolumeMounts [volMount].
Definition WithVolumeDevices {S} (volDevices : list VolumeDevice) (b : PodBuilder)
    : prog S PodBuilder :=
  if decide (length volDevices = 0) then mret (pb_fail "VolumeDevices" b)
  else on_first_container (λ c, mkContainer (CtrName c) (Image c) (ImagePullPolicy c)
         (Args c) (CtrSecurity c) (VolumeMounts c) volDevices) b.
Definition WithVolumeDevice {S} (volDevice : VolumeDevice) : PodBuilder → prog S PodBuilder :=
  WithVolumeDevices [volDevice].

Definition WithVolumeDeviceOrMount {S} (volType : VolumeType) (b : PodBuilder)
    : prog S PodBuilder :=
  if decide (volType = VolRawBlock)
  then WithVolumeDevice (mkVolumeDevice "ms-volume" FioBlockFilename) b
  else WithVolumeMount (mkVolumeMount "ms-volume" FioFsMountPoint) b.

Definition fmt_errs (errs : list string) : string := "[" +:+ Join errs " " +:+ "]".

Definition PodBuilder_Build (b : PodBuilder) : option Pod * error :=
  match pb_errs b with
  | [] => (Some (pb_pod b), None)
  | errs => (None, errorf (fmt_errs errs))
  end.

(** ** Requests *)

Section Pods.
Context {S W : Type} `{HasWorld S W} `{Kube W} `{Clock W}.

Definition IsPodRunning (podName nameSpace : string) : prog S bool :=
  '(pod, err) ← kube_call zero_pod (pods_Get nameSpace podName);
  match err with
  | Some _ => mret false
  | None => mret (bool_decide (Phase (pod_status pod) = PodRunning))
  end.

Definition IsPodFailed (podName nameSpace : string) : prog S bool :=
  '(pod, err) ← kube_call zero_pod (pods_Get nameSpace podName);
  match err with
  | Some _ => mret false
  | None => mret (bool_decide (Phase (pod_status pod) = PodFailed))
  end.

Definition CreatePod (podDef : option Pod) (nameSpace : string)
    : prog S (option Pod * error) :=
  def ← deref podDef;
  '(pod, err) ← kube_call zero_pod (pods_Create nameSpace def);
  mret (Some pod, err).

Definition ListPod (ns : string) : prog S (option (list Pod) * error) :=
  '(pods, err) ← kube_call [] (pods_List ns);
  match err with
  | Some _ => mret (None, errorf "failed to list pods")
  | None => mret (Some pods, None)
  end.

(** The first pod that satisfies a test. *)
Definition find_pod (test : Pod → bool) (pods : list Pod) : option Pod :=
  head (filter (λ p, test p) pods).

Definition GetPod (podName namespace : string) : prog S (option Pod * error) :=
  '(pods, err) ← kube_call [] (pods_List namespace);
  match err with
  | Some e => mret (None, errorf ("pod list failed, error: " +:+ err_text e))
  | None =>
      match find_pod (λ p, bool_decide (Name (pod_meta p) = podName)) pods with
      | Some pod => mret (Some pod, None)
      | None => mret (None, errorf ("pod " +:+ podName +:+ " not found"))
      end
  end.

Definition GetPodIfPresent (podName namespace : string)
    : prog S (option Pod * bool * error) :=
  '(pods, err) ← kube_call [] (pods_List namespace);
  match err with
  | Some e => mret (None, false, errorf ("pod list failed, error: " +:+ err_text e))
  | None =>
      match find_pod (λ p, bool_decide (Name (pod_meta p) = podName)) pods with
      | Some pod => mret (Some pod, true, None)
      | None => mret (None, false, None)
      end
  end.

Definition GetPodByUuid (uuid : string) : prog S (option Pod * bool * error) :=
  '(pods, err) ← kube_call [] (pods_List "");
  match err with
  | Some e => mret (None, false, errorf ("list failed, error: " +:+ err_text e))
  | None =>
      match find_pod (λ p, bool_decide (uuid = UID (pod_meta p))) pods with
      | Some pod => mret (Some pod, true, None)
      | None => mret (None, false, None)
      end
  end.

Definition GetPodStatus (uuid : string) : prog S (string * bool * error) :=
  '(pod, present, err) ← GetPodByUuid uuid;
  match err with
  | Some e => mret (PodUnknown, present, errorf ("get pod failed, error: " +:+ err_text e))
  | None =>
      match present, pod with
      | true, Some pod => mret (Phase (pod_status pod), true, None)
      | _, _ => mret (PodUnknown, false, None)
      end
  end.

Definition GetPodExistsByUuid (uuid : string) : prog S (bool * error) :=
  '(_, present, err) ← GetPodByUuid uuid;
  match err with
  | Some e => mret (present, errorf ("get pod failed, error: " +:+ err_text e))
  | None => mret (present, None)
  end.

Definition GetPodExistsByName (name namespace : string) : prog S (bool * error) :=
  '(_, present, err) ← GetPodIfPresent name namespace;
  match err with
  | Some e => mret (present, errorf ("get pod failed, error: " +:+ err_text e))
  | None => mret (present, None)
  end.

Definition GetPodNameAndNamespaceFromUuid (uuid : string)
    : prog S (string * string * error) :=
  '(pod, present, err) ← GetPodByUuid uuid;
  match err with
  | Some e =>
      mret ("", "", errorf ("failed to get pod name from uuid, error: " +:+ err_text e))
  | None =>
      match present, pod with
      | true, Some pod => mret (Name (pod_meta pod), Namespace (pod_meta pod), None)
      | _, _ => mret ("", "", errorf ("failed to find pod with uuid " +:+ uuid))
      end
  end.

Definition GetPodsInNamespace (namespace : string)
    : prog S (option (list Pod) * error) :=
  '(pods, err) ← kube_call [] (pods_List namespace);
  match err with
  | Some e => mret (None, errorf ("pod list failed, error: " +:+ err_text e))
  | None => mret (Some pods, None)
  end.

(** ** Waiting *)

(** One look every ten seconds until the pod is gone; the rounds that fit in the
    timeout, and one more. *)
Definition delete_rounds (timeoutSecs : Z) : nat := Z.to_nat (timeoutSecs / 10) + 2.

Definition DeletePod (name nameSpace : string) (timeoutSecs : Z) : prog S error :=
  err ← kube_do (pods_Delete nameSpace name);
  match err with
  | Some e => mret (errorf ("Failed to delete pod, error: " +:+ err_text e))
  | None =>
      r ← for_fuel (delete_rounds timeoutSecs) 0 tt (λ ix _,
            '(exists_, err) ← GetPodExistsByName name nameSpace;
            match err with
            | Some e =>
                mret (Return (errorf ("Error determining if pod " +:+ name +:+
                                      " exists, error: " +:+ err_text e)))
            | None =>
                if negb exists_ then mret (Return None)
                else if bool_decide (timeoutSecs ≤ ix * 10)%Z
                then mret (Return (errorf ("Timed out waiting for pod " +:+ name +:+
                                           " to be deleted")))
                else time_Sleep (10 * Second) ;; mret (Next tt)
            end);
      match r with inl _ => mret None | inr err => mret err end
  end.

Definition CheckPodAndDelete (podName nameSpace : string) (timeoutSecs : Z)
    : prog S error :=
  '(pod, err) ← kube_call zero_pod (pods_Get nameSpace podName);
  match err with
  | Some e => mret (Some e)
  | None =>
      if decide (Phase (pod_status pod) ≠ PodSucceeded)
      then mret (errorf ("Pod failed, status " +:+ Phase (pod_status pod)))
      else DeletePod podName nameSpace timeoutSecs
  end.

Definition WaitForPodReady (podName namespace : string) : prog S (option Pod * error) :=
  r ← for_fuel 13 0 tt (λ ix _,
        if bool_decide (120 `quot` 10 ≤ ix)%Z
        then mret (Return (None, errorf ("timed out waiting for pod " +:+ podName +:+
                                         " to be running")))
        else
          time_Sleep (10 * Second) ;;
          '(pods, err) ← kube_call [] (pods_List namespace);
          match err with
          | Some e => mret (Return (None, errorf ("list failed, error: " +:+ err_text e)))
          | None =>
              match find_pod (λ p, bool_decide (podName = Name (pod_meta p)) &&
                                   bool_decide (Phase (pod_status p) = PodRunning)) pods with
              | Some pod => mret (Return (Some pod, None))
              | None => mret (Next tt)
              end
          end);
  match r with inl _ => mret (None, None) | inr res => mret res end.

(** ** Restarting the mayastor pods *)

(** The pods other than etcd; with a time, those created after it that are running. *)
Definition mayastor_pod (timestamp : option Z) (p : Pod) : bool :=
  negb (HasPrefix (Name (pod_meta p)) "mayastor-etcd") &&
  match timestamp with
  | None => true
  | Some t => bool_decide (Phase (pod_status p) = PodRunning) &&
              bool_decide (t < CreationTimestamp (pod_meta p))%Z
  end.

Definition listMayastorPods (timestamp : option Z) : prog S (list string * error) :=
  '(pods, err) ← kube_call [] (pods_List NSMayastor);
  match err with
  | Some e => mret ([], Some e)
  | None => mret (map (λ p, Name (pod_meta p)) (filter (λ p, mayastor_pod timestamp p) pods),
                  None)
  end.

Definition RestartMayastorPods (timeoutSecs : Z) : prog S error :=
  '(podNames, err) ← listMayastorPods None;
  match err with
  | Some e => mret (Some e)
  | None =>
      now ← time_Now;
      time_Sleep (1 * Second) ;;
      r ← for_range podNames (None : error) (λ podName err,
            delErr ← kube_do (pods_Delete NSMayastor podName);
            match delErr with
            | Some e => mret (Next (Some e))
            | None => mret (Next err)
            end);
      err ← no_return r;
      match err with
      | Some e => mret (Some e)
      | None =>
          r ← for_upto 1 ((timeoutSecs + 10 - 1) `quot` 10) (None : error) (λ _ _,
                time_Sleep (10 * Second) ;;
                '(newPodNames, err) ← listMayastorPods (Some now);
                match err with
                | None =>
                    if bool_decide (length podNames ≤ length newPodNames)%nat
                    then mret (Return tt) else mret (Next None)
                | Some e => mret (Next (Some e))
                end);
          match r with
          | inr _ => mret None
          | inl err =>
              mret (errorf ("restart failed incomplete error=" +:+ fmt_error err))
          end
      end
  end.
End Pods.

(** ** The requests touch nothing but the environment *)

Section PodFacts.
Context {S W : Type} `{HasWorld S W} `{Kube W} `{Clock W} (I : S → Prop) `{!WorldFree I}.

Lemma keeps_GetPodByUuid u : keeps I (GetPodByUuid u).
Proof. unfold GetPodByUuid. solve_keeps. Qed.
Lemma keeps_GetPod n ns : keeps I (GetPod n ns).
Proof. unfold GetPod. solve_keeps. Qed.
Lemma keeps_GetPodIfPresent n ns : keeps I (GetPodIfPresent n ns).
Proof. unfold GetPodIfPresent. solve_keeps. Qed.
Hint Resolve keeps_GetPodByUuid keeps_GetPodIfPresent : keeps.
Lemma keeps_GetPodStatus u : keeps I (GetPodStatus u).
Proof. unfold GetPodStatus. solve_keeps. Qed.
Lemma keeps_GetPodExistsByUuid u : keeps I (GetPodExistsByUuid u).
Proof. unfold GetPodExistsByUuid. solve_keeps. Qed.
Lemma keeps_GetPodExistsByName n ns : keeps I (GetPodExistsByName n ns).
Proof. unfold GetPodExistsByName. solve_keeps. Qed.
Lemma keeps_GetPodName u : keeps I (GetPodNameAndNamespaceFromUuid u).
Proof. unfold GetPodNameAndNamespaceFromUuid. solve_keeps. Qed.
Hint Resolve keeps_GetPodExistsByName : keeps.
Lemma keeps_DeletePod n ns t : keeps I (DeletePod n ns t).
Proof. unfold DeletePod. solve_keeps. Qed.
Lemma keeps_WaitForPodReady n ns : keeps I (WaitForPodReady n ns).
Proof. unfold WaitForPodReady. solve_keeps. Qed.
End PodFacts.
#[export] Hint Resolve keeps_GetPodByUuid keeps_GetPod keeps_GetPodIfPresent
  keeps_GetPodStatus keeps_GetPodExistsByUuid keeps_GetPodExistsByName keeps_GetPodName
  keeps_DeletePod keeps_WaitForPodReady : keeps.
