(* ===== verification/MayastorClient.v ===== *)
(** * The gRPC client of mayastor (src/common/mayastorclient)

    One request to each node, retried with a growing delay while it runs out of time;
    the requests to several nodes accumulate their results and their errors. *)

From stdpp Require Import base gmap strings list pretty.
From S2P Require Import Prelude GoLib Kube.

(** ** Data *)

(** Enumerations of the protocol are numbers; unknown ones are possible. *)
Record NexusChildInfo := mkNexusChildInfo { NcUri : string; NcState : Z }.
Record MayastorNexus := mkNexusInfo {
  NxName : string; NxUuid : string; NxSize : Z; NxState : Z;
  NxChildren : list NexusChildInfo; NxDeviceUri : string; NxRebuilds : Z }.
Record PoolInfo := mkPoolInfo {
  PiName : string; PiDisks : list string; PiState : Z; PiCapacity : Z; PiUsed : Z }.
Record MayastorReplica := mkReplicaInfo {
  RiUuid : string; RiPool : string; RiThin : bool; RiSize : Z; RiShare : Z; RiUri : string }.
Record NvmeController := mkNvmeController {
  NvName : string; NvState : Z; NvSize : Z; NvBlkSize : Z }.

(** [NexusState.String()]. *)
Definition NexusState_String (z : Z) : string :=
  match z with
  | 0 => "NEXUS_UNKNOWN"
  | 1 => "NEXUS_ONLINE"
  | 2 => "NEXUS_DEGRADED"
  | 3 => "NEXUS_FAULTED"
  | _ => Itoa z
  end%Z.

Definition REPLICA_NVMF : Z := 1.

(** ** The service *)

(** Each call names the address and the time at which it gives up.  A reply may be nil. *)
Class Grpc (W : Type) := {
  grpc_Dial : string → answer W unit;
  grpc_ListNexusV2 : string → Z → answer W (option (list MayastorNexus));
  grpc_FaultNexusChild : string → Z → string → string → answer W (option unit);
  grpc_ListPools : string → Z → answer W (option (list PoolInfo));
  grpc_DestroyPool : string → Z → string → answer W (option unit);
  grpc_ListReplicas : string → Z → answer W (option (list MayastorReplica));
  grpc_DestroyReplica : string → Z → string → answer W (option unit);
  grpc_CreateReplica : string → Z → MayastorReplica → answer W (option unit);
  grpc_ListNvmeControllers : string → Z → answer W (option (list NvmeController));
  grpc_GetMayastorInfo : string → Z → answer W (option unit);
}.

Definition mayastorPort : Z := 10124.
Definition ctxTimeout : Z := 30 * Second.
Definition addr_port (address : string) : string := address +:+ ":" +:+ Itoa mayastorPort.

(** ** util.go *)

Definition isDeadlineExceeded (err : error) : bool :=
  match err with Some e => bool_decide (err_is e = DeadlineExceeded) | None => false end.

Definition niceError (err : error) : error :=
  if isDeadlineExceeded err
  then Some (GoError "rpc error: code = DeadlineExceeded desc = context deadline exceeded"
               DeadlineExceeded)
  else err.

(** The error so far and the next one. *)
Definition acc_error (accErr err : error) : error :=
  match accErr with
  | Some a => errorf (err_text a +:+ ";" +:+ fmt_error err)
  | None => err
  end.

Section Client.
Context {S W : Type} `{HasWorld S W} `{Clock W} `{Grpc W}.

(** The last result of at most six calls; the delay starts at five seconds and
    doubles. *)
Definition retryBackoff {A} (f : prog S (A * error)) (init : A) : prog S (A * error) :=
  r ← for_upto 0 6 ((init, None : error), (5 * Second)%Z) (λ _ '(_, timeout),
        res ← f;
        if isDeadlineExceeded res.2 then
          time_Sleep timeout ;; mret (Next (res, (timeout * 2)%Z))
        else mret (Break (res, timeout)));
  '(res, _) ← no_return r;
  mret res.

(** A call on a connection of its own, under one deadline for all its attempts. *)
Definition with_conn {B} (address : string) (limit : Z) (zero : B)
    (k : string → Z → prog S (B * error)) : prog S (B * error) :=
  err ← kube_do (grpc_Dial (addr_port address));
  match err with
  | Some e => mret (zero, Some e)
  | None => now ← time_Now; k (addr_port address) (now + limit)%Z
  end.

(** What the list functions make of a reply. *)
Definition list_reply {A} (what address : string) (response : option (list A))
    (err : error) : list A * error :=
  match err with
  | None =>
      match response with
      | Some l => (l, None)
      | None => ([], errorf ("nil response for " +:+ what +:+ " on " +:+ address))
      end
  | Some _ => ([], niceError err)
  end.

Definition list_call {A} (what address : string)
    (call : string → Z → answer W (option (list A))) : prog S (list A * error) :=
  with_conn address ctxTimeout [] (λ conn deadline,
    '(response, err) ← retryBackoff (kube_call None (call conn deadline)) None;
    mret (list_reply what address response err)).

(** ** nexus.go *)

Definition listNexuses (address : string) : prog S (list MayastorNexus * error) :=
  list_call "ListNexus" address grpc_ListNexusV2.

(** The results of every node that answers, and the errors of the others. *)
Definition gather {A} (list1 : string → prog S (list A * error)) (addrs : list string)
    : prog S (list A * error) :=
  r ← for_range addrs ([], None : error) (λ address '(infos, accErr),
        '(info, err) ← list1 address;
        match err with
        | None => mret (Next ((infos ++ info)%list, accErr))
        | Some _ => mret (Next (infos, acc_error accErr err))
        end);
  no_return r.

Definition ListNexuses (addrs : list string) : prog S (list MayastorNexus * error) :=
  gather listNexuses addrs.

Definition FaultNexusChild (address uuid uri : string) : prog S error :=
  '(_, err) ← with_conn address ctxTimeout tt (λ conn deadline,
      '(response, err) ← retryBackoff
         (kube_call None (grpc_FaultNexusChild conn deadline uuid uri)) None;
      match err with
      | None =>
          match response with
          | None => mret (tt, errorf "nil response to FaultNexusChild")
          | Some _ => mret (tt, None)
          end
      | Some _ => mret (tt, niceError err)
      end);
  mret err.

Definition FindNexus (uuid : string) (addrs : list string)
    : prog S (option MayastorNexus * error) :=
  r ← for_range addrs (None : error) (λ address accErr,
        '(infos, err) ← listNexuses address;
        match err with
        | None =>
            match head (filter (λ ni, NxUuid ni = uuid) infos) with
            | Some ni => mret (Return (Some ni))
            | None => mret (Next accErr)
            end
        | Some _ =>
            mret (Next (match accErr with
                        | Some _ => acc_error accErr (niceError err)
                        | None => err
                        end))
        end);
  match r with
  | inr ni => mret (ni, None)
  | inl accErr => mret (None, accErr)
  end.

(** ** pool.go *)

Definition listPool (address : string) : prog S (list PoolInfo * error) :=
  list_call "ListPools" address grpc_ListPools.

Definition mc_GetPool (name addr : string) : prog S (option PoolInfo * error) :=
  '(poolInfo, err) ← listPool addr;
  match err with
  | Some e => mret (None, Some e)
  | None =>
      match head (filter (λ p, PiName p = name) poolInfo) with
      | Some p => mret (Some p, None)
      | None => mret (None, not_found_error " not found")
      end
  end.

Definition ListPools (addrs : list string) : prog S (list PoolInfo * error) :=
  gather listPool addrs.

(** No retry here, and a deadline of five seconds. *)
Definition DestroyPool (name addr : string) : prog S error :=
  '(_, err) ← with_conn addr (5 * Second) tt (λ conn deadline,
      '(_, err) ← kube_call None (grpc_DestroyPool conn deadline name);
      mret (tt, err));
  mret err.

Definition DestroyAllPools (addrs : list string) : prog S error :=
  r ← for_range addrs tt (λ addr _,
        '(poolInfo, err) ← listPool addr;
        match err with
        | Some e => mret (Return (Some e))
        | None =>
            r ← for_range poolInfo tt (λ pool _,
                  err ← DestroyPool (PiName pool) addr;
                  match err with
                  | Some e => mret (Return (Some e))
                  | None => mret (Next tt)
                  end);
            match r with
            | inl _ => mret (Next tt)
            | inr err => mret (Return err)
            end
        end);
  match r with inl _ => mret None | inr err => mret err end.

(** ** replica.go *)

Definition listReplica (address : string) : prog S (list MayastorReplica * error) :=
  list_call "ListReplicas" address grpc_ListReplicas.

Definition RmReplica (address uuid : string) : prog S error :=
  err ← kube_do (grpc_Dial (addr_port address));
  match err with
  | Some e => mret (Some e)
  | None =>
      now ← time_Now;
      '(_, err) ← retryBackoff (kube_call None
         (grpc_DestroyReplica (addr_port address) (now + 60 * Second) uuid)) None;
      mret (niceError err)
  end.

Definition CreateReplicaExt (address uuid : string) (size : Z) (pool : string)
    (thin : bool) (shareProto : Z) : prog S error :=
  err ← kube_do (grpc_Dial (addr_port address));
  match err with
  | Some e => mret (Some e)
  | None =>
      now ← time_Now;
      '(_, err) ← retryBackoff (kube_call None
         (grpc_CreateReplica (addr_port address) (now + 60 * Second)
            (mkReplicaInfo uuid pool thin size shareProto ""))) None;
      mret (niceError err)
  end.

Definition CreateReplica (address uuid : string) (size : Z) (pool : string) : prog S error :=
  CreateReplicaExt address uuid size pool false REPLICA_NVMF.

Definition ListReplicas (addrs : list string) : prog S (list MayastorReplica * error) :=
  gather listReplica addrs.

(** The removals on a node share one error variable. *)
Definition RmNodeReplicas (addrs : list string) : prog S error :=
  r ← for_range addrs (None : error) (λ address accErr,
        '(infos, err) ← listReplica address;
        err ← (match err with
               | Some e => mret (Some e)
               | None =>
                   r ← for_range infos (None : error) (λ info _,
                         err ← RmReplica address (RiUuid info); mret (Next err));
                   no_return r
               end);
        match err with
        | Some _ => mret (Next (acc_error accErr err))
        | None => mret (Next accErr)
        end);
  no_return r.

Definition FindReplicas (uuid : string) (addrs : list string)
    : prog S (list MayastorReplica * error) :=
  r ← for_range addrs ([], None : error) (λ address '(infos, accErr),
        '(info, err) ← listReplica address;
        match err with
        | None => mret (Next ((infos ++ filter (λ r, RiUuid r = uuid) info)%list, accErr))
        | Some _ => mret (Next (infos, acc_error accErr err))
        end);
  no_return r.

(** ** nvmecontrollers.go *)

(** The only list function that does not shorten the error. *)
Definition listNvmeController (address : string) : prog S (list NvmeController * error) :=
  with_conn address ctxTimeout [] (λ conn deadline,
    '(response, err) ← retryBackoff
       (kube_call None (grpc_ListNvmeControllers conn deadline)) None;
    match err with
    | None => mret (list_reply "ListReplicas" address response None)
    | Some _ => mret ([], err)
    end).

Definition ListNvmeControllers (addrs : list string)
    : prog S (list NvmeController * error) :=
  gather listNvmeController addrs.

(** ** The cached connectable state (util.go) *)

Definition mayastorInfo (address : string) : prog S (option unit * error) :=
  with_conn address (5 * Second) None (λ conn deadline,
    kube_call None (grpc_GetMayastorInfo conn deadline)).

(** The new value of [canConnect]: whether every node answers, and as it was when
    there are no nodes to ask. *)
Definition CheckAndSetConnect (canConnect : bool) (nodes : list string) : prog S bool :=
  if decide (length nodes = 0) then mret canConnect
  else
    r ← for_range nodes tt (λ node _,
          '(info, err) ← mayastorInfo node;
          match err, info with
          | None, Some _ => mret (Next tt)
          | _, _ => mret (Return false)
          end);
    match r with inl _ => mret true | inr b => mret b end.
End Client.
