(* ===== verification/GoTime.v ===== *)
(** * Durations

    [time.ParseDuration], and [int(d.Seconds())]. *)

From stdpp Require Import base gmap strings list pretty.
From Stdlib Require Import Ascii.
From S2P Require Import Prelude GoLib Json.

Definition digit_val (c : ascii) : Z := Z.of_N (N_of_ascii c) - 48.

(** The digits at the front of a string, and the rest. *)
Fixpoint span_digits (s : string) : string * string :=
  match s with
  | String c s' =>
      if is_digit c then let '(d, r) := span_digits s' in (String c d, r)
      else (EmptyString, s)
  | EmptyString => (EmptyString, EmptyString)
  end.

(** The number some digits denote. *)
Definition digits_val (s : string) : Z :=
  (fix go s acc := match s with
                   | EmptyString => acc
                   | String c s' => go s' (acc * 10 + digit_val c)%Z
                   end) s 0%Z.

(** [leadingInt]: it gives up when the number leaves the range of [int64]. *)
Definition leadingInt (s : string) : option (Z * string) :=
  let '(d, r) := span_digits s in
  if bool_decide (digits_val d < 2 ^ 63)%Z then Some (digits_val d, r) else None.

(** [leadingFraction]: digits beyond the range are dropped. *)
Definition leadingFraction (s : string) : Z * Z * string :=
  let '(d, r) := span_digits s in
  let '(x, scale) :=
    (fix go d x scale :=
       match d with
       | EmptyString => (x, scale)
       | String c d' =>
           let y := (x * 10 + digit_val c)%Z in
           if bool_decide (x ≤ (2 ^ 63 - 1) / 10 ∧ y < 2 ^ 63)%Z
           then go d' y (scale * 10)%Z else (x, scale)
       end) d 0%Z 1%Z in
  (x, scale, r).

Fixpoint span_unit (s : string) : string * string :=
  match s with
  | String c s' =>
      if is_digit c || bool_decide (c = "."%char) then (EmptyString, s)
      else let '(u, r) := span_unit s' in (String c u, r)
  | EmptyString => (EmptyString, EmptyString)
  end.

Definition unit_value (u : string) : option Z :=
  if decide (u = "ns") then Some 1%Z
  else if decide (u = "us" ∨ u = "µs" ∨ u = "μs") then Some 1000%Z
  else if decide (u = "ms") then Some Millisecond
  else if decide (u = "s") then Some Second
  else if decide (u = "m") then Some Minute
  else if decide (u = "h") then Some Hour
  else None.

Definition starts_number (s : string) : bool :=
  match s with
  | String c _ => is_digit c || bool_decide (c = "."%char)
  | EmptyString => false
  end.

(** One number with its unit: its value in nanoseconds, and the rest.  The part after
    the point is computed exactly. *)
Definition duration_part (s : string) : option (Z * string) :=
  if negb (starts_number s) then None
  else
    '(v, s1) ← leadingInt s;
    let pre := bool_decide (String.length s ≠ String.length s1) in
    let '(f, scale, s2, post) :=
      match s1 with
      | String "."%char s' =>
          let '(f, scale, s2) := leadingFraction s' in
          (f, scale, s2, bool_decide (String.length s' ≠ String.length s2))
      | _ => (0%Z, 1%Z, s1, false)
      end in
    if negb (pre || post) then None
    else
      let '(u, s3) := span_unit s2 in
      unit ← unit_value u;
      if bool_decide ((2 ^ 63 - 1) / unit < v)%Z then None
      else
        let v := (v * unit + f * unit / scale)%Z in
        if bool_decide (v < 2 ^ 63)%Z then Some (v, s3) else None.

(** Every part uses up at least one character. *)
Fixpoint duration_parts (fuel : nat) (s : string) (d : Z) : option Z :=
  match s with
  | EmptyString => Some d
  | _ =>
      match fuel with
      | O => None
      | S fuel' =>
          '(v, s') ← duration_part s;
          let d := (d + v)%Z in
          if bool_decide (d < 2 ^ 63)%Z then duration_parts fuel' s' d else None
      end
  end.

Definition ParseDuration (s : string) : option Z :=
  let '(neg, body) :=
    match s with
    | String "-"%char s' => (true, s')
    | String "+"%char s' => (false, s')
    | _ => (false, s)
    end in
  if decide (body = "0") then Some 0%Z
  else if decide (body = "") then None
  else
    d ← duration_parts (String.length body) body 0;
    Some (if neg : bool then (- d)%Z else d).

(** [int(d.Seconds())]. *)
Definition int_Seconds (d : Z) : Z := d `quot` Second.

Definition parse_error (s : string) : string := "time: invalid duration " +:+ quoted s.

Example parse_compound : ParseDuration "56h20m30s" = Some (56 * Hour + 20 * Minute + 30 * Second)%Z.
Proof. reflexivity. Qed.
Example parse_fraction : ParseDuration "1.5h" = Some (90 * Minute)%Z.
Proof. reflexivity. Qed.
Example parse_bare : ParseDuration "56" = None.
Proof. reflexivity. Qed.
