(* ===== verification/K8sLib.v ===== *)
(** * Custom resources, the control plane, nodes, storage classes, volumes, pools

    common/custom_resources/util.go, common/mini_mcp_client/mini_mcp_client.go and the
    rest of common/k8sclient. *)

From stdpp Require Import base gmap strings list pretty.
From Stdlib Require Import Ascii.
From S2P Require Import Prelude GoLib Json Http Kube MayastorClient GoTime K8sPods.

(** ** custom_resources/util.go *)

Section CustomResources.
Context {S W : Type} `{HasWorld S W} `{Kube W}.

Definition CreateMsPool (poolName node : string) (disks : list string)
    : prog S (MayastorPool * error) :=
  kube_call zero_msp (msp_Create
    (mkMsp (named poolName NSMayastor) (mkMspSpec disks node) (msp_status zero_msp))).
Definition GetMsPool (poolName : string) : prog S (MayastorPool * error) :=
  kube_call zero_msp (msp_Get poolName).
Definition UpdateMsPool (mspIn : MayastorPool) : prog S (MayastorPool * error) :=
  kube_call zero_msp (msp_Update mspIn).
Definition DeleteMsPool (poolName : string) : prog S error :=
  kube_do (msp_Delete poolName).
Definition ListMsPools : prog S (list MayastorPool * error) :=
  kube_call [] msp_List.

Definition pool_online (p : MayastorPool) : bool :=
  bool_decide (ToLower (MspState (msp_status p)) = "online").

Definition CheckAllMsPoolsAreOnline : prog S error :=
  '(pools, err) ← ListMsPools;
  if negb (forallb pool_online pools) then mret (errorf "all pools were not healthy")
  else mret err.

Definition MakeAccumulatedError (accErr err : error) : error :=
  match accErr with
  | None => err
  | Some a => errorf (err_text a +:+ "; " +:+ fmt_error err)
  end.

(** An error for every pool that has finalizers, whatever its use. *)
Definition CheckAllMsPoolFinalizers : prog S error :=
  '(pools, err) ← ListMsPools;
  match err with
  | Some e => mret (Some e)
  | None =>
      mret (foldl (λ accErr pool,
        match Finalizers (msp_meta pool) with
        | Some _ => MakeAccumulatedError accErr
                      (errorf ("finalizer set on pool: " +:+ Name (msp_meta pool)))
        | None => accErr
        end) None pools)
  end.

Definition GetMsNode (nodeName : string) : prog S (MayastorNode * error) :=
  kube_call zero_msn (msn_Get nodeName).
Definition ListMsNodes : prog S (list MayastorNode * error) := kube_call [] msn_List.
Definition DeleteMsNode (nodeName : string) : prog S error := kube_do (msn_Delete nodeName).
Definition CheckMsNodesAreOnline : prog S error :=
  '(msns, err) ← ListMsNodes;
  if negb (forallb (λ n, bool_decide (MsnStatus n = "online")) msns)
  then mret (errorf "mayastornodes were not online")
  else mret err.

Definition GetMsVol (volName : string) : prog S (MayastorVolume * error) :=
  kube_call zero_msv (msv_Get volName).
Definition updateMsVol (msvIn : MayastorVolume) : prog S (MayastorVolume * error) :=
  kube_call zero_msv (msv_Update msvIn).
Definition CRD_DeleteMsVol (volName : string) : prog S error := kube_do (msv_Delete volName).
Definition CRD_ListMsVols : prog S (list MayastorVolume * error) := kube_call [] msv_List.

Definition CRD_GetMsVolState (volName : string) : prog S (string * error) :=
  '(msv, err) ← GetMsVol volName;
  match err with
  | None => mret (MsvState (msv_status msv), None)
  | Some e => mret ("", Some e)
  end.
Definition CRD_GetMsVolReplicas (volName : string) : prog S (list Replica * error) :=
  '(msv, err) ← GetMsVol volName;
  match err with
  | Some e => mret ([], Some e)
  | None => mret (Replicas (msv_status msv), None)
  end.
Definition set_replica_count (n : Z) (m : MayastorVolume) : MayastorVolume :=
  let s := msv_spec m in
  mkMsv (msv_meta m) (mkMsvSpec (LimitBytes s) (Local s) (PreferredNodes s) (Protocol s)
    n (RequiredBytes s) (RequiredNodes s)) (msv_status m).
Definition CRD_UpdateMsVolReplicaCount (volName : string) (replicaCount : Z)
    : prog S error :=
  '(msv, err) ← GetMsVol volName;
  match err with
  | Some e => mret (Some e)
  | None => '(_, err) ← updateMsVol (set_replica_count replicaCount msv); mret err
  end.
Definition CRD_GetMsVolNexusChildren (volName : string) : prog S (list NexusChild * error) :=
  '(msv, err) ← GetMsVol volName;
  match err with
  | Some e => mret ([], Some e)
  | None => mret (NexusChildren (MsvNexus (msv_status msv)), None)
  end.
Definition CRD_GetMsVolNexusState (uuid : string) : prog S (string * error) :=
  '(msv, err) ← GetMsVol uuid;
  match err with
  | Some e => mret ("", Some e)
  | None => mret (NexusState (MsvNexus (msv_status msv)), None)
  end.
Definition CRD_IsMsVolPublished (uuid : string) : prog S bool :=
  '(msv, err) ← GetMsVol uuid;
  match err with
  | None => mret (bool_decide (length (TargetNodes (msv_status msv)) = 1))
  | Some _ => mret false
  end.
Definition CRD_IsMsVolDeleted (uuid : string) : prog S bool :=
  '(msv, err) ← GetMsVol uuid;
  if decide (MsvState (msv_status msv) = "destroyed") then mret false
  else match err with
       | Some e => mret (bool_decide (err_is e = NotFound))
       | None => mret false
       end.
Definition CRD_CheckForMsVols : prog S (bool * error) :=
  '(msvs, err) ← CRD_ListMsVols;
  mret (bool_decide (err = None ∧ length msvs ≠ 0), err).
Definition CRD_CheckAllMsVolsAreHealthy : prog S error :=
  '(msvs, err) ← CRD_ListMsVols;
  if negb (forallb (λ m, bool_decide (MsvState (msv_status m) = "healthy")) msvs)
  then mret (errorf "all MSVs were not healthy")
  else mret err.
End CustomResources.

(** ** mini_mcp_client.go *)

Record SparseVolume := mkSparseVolume {
  Num_replicas : Z;
  TargetChildren : list string;   (* the state of each child *)
  TargetUuid : string;
  VolUuid : string;
  VolStatus : string;
}.
Definition zero_volume : SparseVolume := mkSparseVolume 0 [] "" "" "".

(** A JSON integer of 64 bits. *)
Definition int_lit (s : string) : option Z :=
  let '(neg, d) := match s with String "-"%char r => (true, r) | _ => (false, s) end in
  let '(ds, r) := span_digits d in
  if bool_decide (ds ≠ "" ∧ r = "") then
    let v := if neg : bool then (- digits_val ds)%Z else digits_val ds in
    if bool_decide (- 2 ^ 63 ≤ v < 2 ^ 63)%Z then Some v else None
  else None.
Definition dec_int (v : json) (cur : Z) : option Z :=
  match v with JNull => Some cur | JNum l => int_lit l | _ => None end.

Definition dec_object {A} (dec : list (string * json) → A → option A)
    (v : json) (cur : A) : option A :=
  match v with JNull => Some cur | JObj fs => dec fs cur | _ => None end.

(** A slice decoded into a slice that is nil before: [null] and an array. *)
Definition dec_list {A} (dec : json → option A) (v : json) (cur : list A) : option (list A) :=
  match v with JNull => Some [] | JArr l => mapM dec l | _ => None end.

Definition child_state (v : json) : option string :=
  dec_object (λ fs cur, decode_field "state" dec_string fs cur) v "".
Definition dec_spec := dec_object (λ fs cur,
  decode_field "num_replicas" dec_int fs cur).
Definition dec_target := dec_object (λ fs (cur : list string * string),
  c ← decode_field "children" (dec_list child_state) fs cur.1;
  u ← decode_field "uuid" dec_string fs cur.2;
  Some (c, u)).
Definition dec_state := dec_object (λ fs (cur : (list string * string) * string * string),
  t ← decode_field "target" dec_target fs cur.1.1;
  u ← decode_field "uuid" dec_string fs cur.1.2;
  st ← decode_field "status" dec_string fs cur.2;
  Some (t, u, st)).
Definition SparseVolume_of_json (v : json) : option SparseVolume :=
  dec_object (λ fs cur,
    n ← decode_field "spec" dec_spec fs (Num_replicas cur);
    st ← decode_field "state" dec_state fs
           ((TargetChildren cur, TargetUuid cur), VolUuid cur, VolStatus cur);
    Some (mkSparseVolume n st.1.1.1 st.1.1.2 st.1.2 st.2)) v zero_volume.

Definition volumes_of_json (v : json) : option (list SparseVolume) :=
  dec_list SparseVolume_of_json v [].

Definition McpRestPort : string := "30011".
Definition mcp_url (serverAddr path : string) : string :=
  "http://" +:+ serverAddr +:+ ":" +:+ McpRestPort +:+ "/v0/volumes" +:+ path.

Section Mcp.
Context {S W : Type} `{HasWorld S W} `{Http W}.

Definition json_headers : list (string * string) :=
  [("Accept", "application/json"); ("Content-Type", "application/json")].

(** The text of the error does not show the whole response. *)
Definition mcp_sendRequest (reqType url : string) : prog S (string * error) :=
  match http_NewRequest reqType url with
  | Some e => mret ("", Some e)
  | None =>
      '(resp, err) ← client_Do (mkRequest reqType url json_headers (Some JNull));
      match err with
      | Some e => mret ("", Some e)
      | None =>
          resp ← deref resp;
          if bool_decide (StatusCode resp ≠ 200%Z)
          then mret ("", errorf ("error code " +:+ Itoa (StatusCode resp) +:+ ", resp"))
          else
            '(body, err) ← ReadAll resp;
            match err with
            | Some e => mret ("", Some e)
            | None => mret (body, None)
            end
      end
  end.

(** A GET whose answer is decoded; the zero value comes with an error. *)
Definition mcp_get {A} (zero : A) (dec : json → option A) (url : string)
    : prog S (A * error) :=
  '(resp, err) ← mcp_sendRequest "GET" url;
  match err with
  | Some e => mret (zero, Some e)
  | None =>
      match json_parse resp ≫= dec with
      | Some a => mret (a, None)
      | None => mret (zero, errorf "json: cannot unmarshal")
      end
  end.

Definition GetVolumes (serverAddr : string) : prog S (list SparseVolume * error) :=
  mcp_get [] volumes_of_json (mcp_url serverAddr "").

Definition GetOnlyVolume (serverAddr : string) : prog S (string * string * error) :=
  '(vollist, err) ← mcp_get [] volumes_of_json (mcp_url serverAddr "");
  match err with
  | Some e => mret ("", "", Some e)
  | None =>
      match vollist with
      | [vol] => mret (VolUuid vol, VolStatus vol, None)
      | _ => mret ("", "", errorf ("invalid number of volumes " +:+
                                   Itoa (Z.of_nat (length vollist))))
      end
  end.

Definition GetVolume (serverAddr uuid : string) : prog S (SparseVolume * error) :=
  mcp_get zero_volume SparseVolume_of_json (mcp_url serverAddr ("/" +:+ uuid)).

Definition GetVolumeStatus (serverAddr uuid : string) : prog S (string * error) :=
  '(vol, err) ← GetVolume serverAddr uuid;
  match err with
  | Some e => mret ("", Some e)
  | None => mret (VolStatus vol, None)
  end.

Definition SetVolumeReplicas (serverAddr volumeid : string) (replicas : Z)
    : prog S (string * error) :=
  mcp_sendRequest "PUT"
    (mcp_url serverAddr ("/" +:+ volumeid +:+ "/replica_count/" +:+ Itoa replicas)).

Definition GetVolumeReplicaCount (serverAddr uuid : string) : prog S (Z * error) :=
  '(vol, err) ← mcp_get zero_volume SparseVolume_of_json
                  (mcp_url serverAddr ("/" +:+ uuid));
  match err with
  | Some e => mret (0%Z, Some e)
  | None => mret (Z.of_nat (length (TargetChildren vol)), None)
  end.
End Mcp.

(** ** lib_nodes.go *)

Record NodeLocation := mkNodeLocation {
  LocName : string; IPAddress : string; MayastorNode_ : bool; MasterNode : bool }.

Section Nodes.
Context {S W : Type} `{HasWorld S W} `{Kube W} `{MapRange W}.

(** The labels are ranged over in any order; the last address of a type counts. *)
Definition node_flags (labels : list (string * string)) : bool * bool :=
  foldl (λ '(ms, master) '(label, value),
           (ms || (bool_decide (label = "openebs.io/engine") &&
                   bool_decide (value = "mayastor")),
            master || bool_decide (label = "node-role.kubernetes.io/master")))
        (false, false) labels.
Definition last_address (type : string) (addrs : list NodeAddress) : string :=
  foldl (λ cur a, if decide (AddressType a = type) then Address a else cur) "" addrs.

Definition add_node_loc (k8snode : Node) (locs : list NodeLocation)
    : prog S (ctl (list NodeLocation) error) :=
  labels ← range_map (Labels (node_meta k8snode));
  let '(ms, master) := node_flags labels in
  let addrstr := last_address NodeInternalIP (Addresses k8snode) in
  let namestr := last_address NodeHostName (Addresses k8snode) in
  if decide (namestr ≠ "" ∧ addrstr ≠ "")
  then mret (Next (locs ++ [mkNodeLocation namestr addrstr ms master])%list)
  else mret (Return (errorf "node lacks expected fields")).

Definition GetNodeLocs : prog S (list NodeLocation * error) :=
  '(nodeList, err) ← kube_call [] nodes_List;
  match err with
  | Some e => mret ([], errorf ("failed to list nodes, error: " +:+ err_text e))
  | None =>
      r ← for_range nodeList [] add_node_loc;
      match r with
      | inl locs => mret (locs, None)
      | inr err => mret ([], err)
      end
  end.

Definition GetMayastorNodeNames : prog S (list string * error) :=
  '(nodes, err) ← GetNodeLocs;
  match err with
  | Some e => mret ([], errorf ("failed to get node locations, error: " +:+ err_text e))
  | None => mret (map LocName (filter (λ n, MayastorNode_ n) nodes), None)
  end.

Definition GetMayastorNodeIPs : prog S (list string * error) :=
  '(nodes, err) ← GetNodeLocs;
  match err with
  | Some e => mret ([], errorf ("failed to get node locations, error: " +:+ err_text e))
  | None => mret (map IPAddress (filter (λ n, MayastorNode_ n) nodes), None)
  end.
End Nodes.

(** ** lib_storage_class.go *)

Record ScBuilder := mkScBuilder { sb_sc : StorageClass; sb_errs : list string }.

Definition ScProtocol : string := "protocol".
Definition ScFsType : string := "fsType".
Definition ScReplicas : string := "repl".
Definition ScLocal : string := "local".
Definition IOTimeout : string := "ioTimeout".
Definition CSIProvisioner : string := "io.openebs.csi-mayastor".
Definition ShareProtoNvmf : string := "nvmf".
Definition ShareProtoIscsi : string := "iscsi".

Definition sb_fail (why : string) (b : ScBuilder) : ScBuilder :=
  mkScBuilder (sb_sc b) (sb_errs b ++ ["failed to build storageclass: missing " +:+ why]).
Definition sb_meta (f : ObjectMeta → ObjectMeta) (b : ScBuilder) : ScBuilder :=
  let c := sb_sc b in
  mkScBuilder (mkSC (f (sc_meta c)) (Provisioner c) (Parameters c) (VolumeBindingMode c))
    (sb_errs b).
(** A parameter; the map is made when there is none. *)
Definition sb_param (k v : string) (b : ScBuilder) : ScBuilder :=
  let c := sb_sc b in
  mkScBuilder (mkSC (sc_meta c) (Provisioner c)
    (Some (<[k := v]> (default ∅ (Parameters c)))) (VolumeBindingMode c)) (sb_errs b).

Definition sc_WithName (name : string) (b : ScBuilder) : ScBuilder :=
  if decide (strlen name = 0%Z) then sb_fail "storageclass name" b
  else sb_meta (λ m, mkMeta name (GenerateName m) (Namespace m) (UID m) (Labels m)
         (Annotations m) (Finalizers m) (CreationTimestamp m) (DeletionTimestamp m)) b.
Definition sc_WithNamespace (ns : string) (b : ScBuilder) : ScBuilder :=
  if decide (strlen ns = 0%Z) then sb_fail "storageclass namespace" b
  else sb_meta (λ m, mkMeta (Name m) (GenerateName m) ns (UID m) (Labels m)
         (Annotations m) (Finalizers m) (CreationTimestamp m) (DeletionTimestamp m)) b.
Definition sc_WithGenerateName (name : string) : ScBuilder → ScBuilder :=
  sb_meta (λ m, mkMeta (Name m) (name +:+ "-") (Namespace m) (UID m) (Labels m)
    (Annotations m) (Finalizers m) (CreationTimestamp m) (DeletionTimestamp m)).
(** Empty annotations are an error, and are set all the same. *)
Definition sc_WithAnnotations (annotations : gmap string string) (b : ScBuilder) : ScBuilder :=
  let b := if decide (size annotations = 0) then sb_fail "annotations" b else b in
  sb_meta (λ m, mkMeta (Name m) (GenerateName m) (Namespace m) (UID m) (Labels m)
    annotations (Finalizers m) (CreationTimestamp m) (DeletionTimestamp m)) b.
Definition sc_WithReplicas (value : Z) (b : ScBuilder) : ScBuilder :=
  if decide (value = 0%Z) then sb_fail "storageclass replicas" b
  else sb_param ScReplicas (Itoa value) b.
Definition sc_WithFileSystemType (value : string) (b : ScBuilder) : ScBuilder :=
  if decide (value ≠ "") then sb_param ScFsType value b else b.
Definition sc_WithProtocol (value : string) : ScBuilder → ScBuilder := sb_param ScProtocol value.
Definition FormatBool (b : bool) : string := if b then "true" else "false".
Definition sc_WithLocal (value : bool) : ScBuilder → ScBuilder :=
  sb_param ScLocal (FormatBool value).
Definition sc_WithIOTimeout (value : Z) : ScBuilder → ScBuilder :=
  sb_param IOTimeout (Itoa value).
Definition sc_WithProvisioner (provisioner : string) (b : ScBuilder) : ScBuilder :=
  if decide (strlen provisioner = 0%Z) then sb_fail "provisioner name" b
  else let c := sb_sc b in
       mkScBuilder (mkSC (sc_meta c) provisioner (Parameters c) (VolumeBindingMode c))
         (sb_errs b).
Definition sc_WithVolumeBindingMode (bindingMode : string) (b : ScBuilder) : ScBuilder :=
  if decide (bindingMode ≠ "") then
    let c := sb_sc b in
    mkScBuilder (mkSC (sc_meta c) (Provisioner c) (Parameters c) (Some bindingMode)) (sb_errs b)
  else b.

Definition NewScBuilder : ScBuilder :=
  sc_WithReplicas 2 (sc_WithProvisioner CSIProvisioner (mkScBuilder zero_sc [])).

Definition sc_param (c : StorageClass) (k : string) : string :=
  default "" (default ∅ (Parameters c) !! k).

(** An NVMe-oF class gets an I/O timeout of 30 when it has none. *)
Definition ScBuilder_Build (b : ScBuilder) : option StorageClass * error :=
  match sb_errs b with
  | [] =>
      if decide (sc_param (sb_sc b) ScProtocol = ShareProtoNvmf ∧
                 sc_param (sb_sc b) IOTimeout = "")
      then (Some (sb_sc (sb_param IOTimeout "30" b)), None)
      else (Some (sb_sc b), None)
  | errs => (None, errorf (fmt_errs errs))
  end.

Section StorageClasses.
Context {S W : Type} `{HasWorld S W} `{Kube W}.

Definition CreateSc (obj : option StorageClass) : prog S error :=
  c ← deref obj;
  '(_, createErr) ← kube_call zero_sc (sc_Create c);
  mret createErr.
Definition DeleteSc (name : string) : prog S error := kube_do (sc_Delete name).
Definition BuildAndCreate (b : ScBuilder) : prog S error :=
  let '(scObj, err) := ScBuilder_Build b in
  match err with
  | None => CreateSc scObj
  | Some e => mret (Some e)
  end.

(** lib_namespace.go *)
Definition CreateNamespace (namespace : string) : prog S error :=
  err ← kube_do (ns_Create namespace);
  match err with
  | Some e => mret (errorf ("failed to create namespace, err: " +:+ err_text e))
  | None => mret None
  end.
End StorageClasses.
