(* ===== verification/K8sApps.v ===== *)
(** * Volumes, applications, pools and replicas

    common/k8sclient/lib_volume.go, lib_app.go, lib_pool.go, lib_replica.go and
    lib_vars.go. *)

From stdpp Require Import base gmap strings list pretty.
From S2P Require Import Prelude GoLib Json Http Kube MayastorClient GoTime K8sPods K8sLib.

(** ** lib_volume.go *)

Definition defTimeoutSecs : Z := 180.

Section Volumes.
Context {S W : Type} `{HasWorld S W} `{Kube W} `{Clock W}.

(** The texts of the errors do not show the status of the volume. *)
Definition GetMSV (uuid : string) : prog S (option MayastorVolume * error) :=
  '(msv, err) ← GetMsVol uuid;
  match err with
  | Some e => mret (None, errorf ("GetMSV: " +:+ err_text e))
  | None =>
      if decide (MsvState (msv_status msv) = "pending") then mret (None, None)
      else if decide (MsvState (msv_status msv) = "")
      then mret (None, errorf "GetMSV: state not defined, got msv.Status")
      else if decide (length (Replicas (msv_status msv)) < 1)%nat
      then mret (None, errorf "GetMSV: msv.Status.Replicas")
      else mret (Some msv, None)
  end.

Definition GetPvcStatusPhase (volname nameSpace : string) : prog S (string * error) :=
  '(pvc, err) ← kube_call zero_pvc (pvc_Get nameSpace volname);
  mret (PvcPhase pvc, err).
Definition GetPvStatusPhase (volname : string) : prog S (string * error) :=
  '(pv, err) ← kube_call zero_pv (pv_Get volname);
  mret (PvPhase pv, err).

(** [for i := 0; ; i++ { if i >= defTimeoutSecs { fail }; ...; sleep }]. *)
Definition poll_until (timed_out : string) (look : prog S (bool * error))
    : prog S error :=
  r ← for_fuel (Z.to_nat defTimeoutSecs + 1) 0 tt (λ i _,
        if bool_decide (defTimeoutSecs ≤ i)%Z then mret (Return (errorf timed_out))
        else
          '(done, err) ← look;
          match err with
          | Some e => mret (Return (Some e))
          | None =>
              if done : bool then mret (Break tt)
              else time_Sleep Second ;; mret (Next tt)
          end);
  match r with inl _ => mret None | inr err => mret err end.

(** The loops that look before they test the time. *)
Definition look_then_time (timed_out : string) (look : prog S bool) : prog S error :=
  r ← for_fuel (Z.to_nat defTimeoutSecs + 1) 0 tt (λ i _,
        done ← look;
        if done : bool then mret (Break tt)
        else if bool_decide (defTimeoutSecs ≤ i)%Z then mret (Return (errorf timed_out))
        else time_Sleep Second ;; mret (Next tt));
  match r with inl _ => mret None | inr err => mret err end.

Definition pvc_of (volSizeMb : Z) (volName scName : string) (volType : VolumeType)
    (nameSpace : string) : PVC :=
  mkPVC (named volName nameSpace) (Some scName) [ReadWriteOnce]
    (Itoa volSizeMb +:+ "Mi")
    (match volType with
     | VolFileSystem => Some PersistentVolumeFilesystem
     | VolRawBlock => Some PersistentVolumeBlock
     | VolTypeNone => None
     end) "" "".

(** Waiting for the claim, its volume and, with the old control plane, the mayastor
    volume. *)
Definition wait_bound (volName nameSpace : string) (moac : bool) : prog S (string * error) :=
  err ← poll_until "timed out waiting for PVC to be bound"
          ('(phase, err) ← GetPvcStatusPhase volName nameSpace;
           mret (bool_decide (phase = ClaimBound), err));
  match err with
  | Some e => mret ("", Some e)
  | None =>
      '(pvc, err) ← kube_call zero_pvc (pvc_Get nameSpace volName);
      match err with
      | Some e => mret ("", Some e)
      | None =>
          err ← look_then_time "timed out waiting for PV"
                  ('(_, err) ← kube_call zero_pv (pv_Get (PvcVolumeName pvc));
                   mret (bool_decide (err = None)));
          match err with
          | Some e => mret ("", Some e)
          | None =>
              err ← poll_until "timed out waiting for PV to be bound"
                      ('(phase, err) ← GetPvStatusPhase (PvcVolumeName pvc);
                       mret (bool_decide (phase = VolumeBound), err));
              match err with
              | Some e => mret ("", Some e)
              | None =>
                  err ← (if moac then
                           poll_until "timed out waiting for PVC to be bound"
                             ('(msv, _) ← GetMSV (UID (pvc_meta pvc));
                              mret (bool_decide (is_Some msv), None))
                         else mret None);
                  match err with
                  | Some e => mret ("", Some e)
                  | None => mret (UID (pvc_meta pvc), None)
                  end
              end
          end
      end
  end.

Definition MkPVC (volSizeMb : Z) (volName scName : string) (volType : VolumeType)
    (nameSpace : string) (moac : bool) : prog S (string * error) :=
  '(_, createErr) ← kube_call zero_pvc
      (pvc_Create nameSpace (pvc_of volSizeMb volName scName volType nameSpace));
  match createErr with
  | Some e => mret ("", Some e)
  | None =>
      '(pvc, err) ← kube_call zero_pvc (pvc_Get nameSpace volName);
      match err with
      | Some e => mret ("", Some e)
      | None =>
          '(sc, err) ← kube_call zero_sc (sc_Get scName);
          match err with
          | Some e => mret ("", Some e)
          | None =>
              mode ← deref (VolumeBindingMode sc);
              if decide (mode = VolumeBindingWaitForFirstConsumer)
              then mret (UID (pvc_meta pvc), None)
              else wait_bound volName nameSpace moac
          end
      end
  end.

Definition DeletePVC (volName nameSpace : string) : prog S error :=
  err ← kube_do (pvc_Delete nameSpace volName);
  match err with
  | Some _ => mret (errorf ("failed to delete PVC " +:+ volName))
  | None =>
      look_then_time ("timed out waiting for PVC " +:+ volName +:+ " to be deleted")
        ('(_, err) ← kube_call zero_pvc (pvc_Get nameSpace volName);
         mret (match err with Some e => bool_decide (err_is e = NotFound) | None => false end))
  end.

Definition ListPVCs (nameSpace : string) : prog S (option (list PVC) * error) :=
  '(pvcs, err) ← kube_call [] (pvc_List nameSpace);
  match err with
  | Some e => mret (None, errorf ("failed to list PVCs, error " +:+ err_text e))
  | None => mret (Some pvcs, None)
  end.
End Volumes.

(** ** lib_vars.go and lib_app.go *)

Definition fioParams : list string :=
  ["--direct=1"; "--rw=randrw"; "--ioengine=libaio"; "--bs=4k"; "--iodepth=16";
   "--verify=crc32"; "--verify_fatal=1"; "--verify_async=2"].
Definition fioArgs : list string := ["--name=benchtest"; "--numjobs=1"].
Definition GetFioArgs : list string := (fioArgs ++ fioParams)%list.
Definition GetDefaultFioArguments : list string := fioParams.
Definition fio_app_label : string := "fio".

Definition root_context : SecurityContext :=
  mkSecurityContext (Some true) (Some 0%Z) (Some true).
Definition default_args (args : list string) : list string :=
  match args with [] => ["sleep"; "1000000"] | _ => args end.
Definition MakeFioContainer (fioImage name : string) (args : list string) : Container :=
  mkContainer name fioImage PullIfNotPresent (default_args args) (Some root_context) [] [].
Definition MakePriviligedContainer (image name : string) (args : list string) : Container :=
  mkContainer name image PullAlways (default_args args) (Some root_context) [] [].

Section Apps.
Context {S W : Type} `{HasWorld S W} `{Kube W} `{Clock W}.

Definition vname : string := "ms-volume".
Definition claim_volume (pvcName : string) : Volume := mkVolume vname (Some pvcName).

Definition fio_volume_args (volumeType : VolumeType) (thinkTime thinkTimeBlocks : Z)
    : list string :=
  ((if bool_decide (0 < thinkTime)%Z then ["--thinktime=" +:+ Itoa thinkTime] else []) ++
   (if bool_decide (0 < thinkTimeBlocks)%Z
    then ["--thinktime_blocks=" +:+ Itoa thinkTimeBlocks] else []) ++
   (if decide (volumeType = VolFileSystem)
    then ["--name=" +:+ vname; "--filename=/volume-" +:+ vname +:+ ".test"]
    else ["--name=" +:+ vname; "--filename=/dev/sdm"]))%list.

(** The arguments for all jobs, then those of the volume. *)
Definition fio_pod_args (volumeType : VolumeType) (volSize fioLoops thinkTime
    thinkTimeBlocks : Z) : list string :=
  (["---"; "fio"] ++ GetDefaultFioArguments ++
   (if decide (volumeType = VolFileSystem)
    then ["--size=" +:+ Itoa (wrap64 (volSize * 75) `quot` 100) +:+ "m"] else []) ++
   (if decide (fioLoops ≠ 0%Z) then ["--loops=" +:+ Itoa fioLoops] else []) ++
   fio_volume_args volumeType thinkTime thinkTimeBlocks ++ ["&"])%list.

(** The pod of an application with one volume: mounted, or as a device. *)
Definition app_pod (container : Container) (podName pvcName : string)
    (volumeType : VolumeType) (applabel : string) : prog S (option Pod * error) :=
  let b := WithAppLabel applabel (WithVolumes [claim_volume pvcName]
             (WithContainer container (WithRestartPolicy RestartPolicyNever
               (WithNamespace NSDefault (WithName podName NewPodBuilder))))) in
  b ← (if decide (volumeType = VolFileSystem)
       then WithVolumeMounts [mkVolumeMount vname "/volume"] b
       else WithVolumeDevices [mkVolumeDevice vname "/dev/sdm"] b);
  mret (PodBuilder_Build b).

(** A look every ten seconds, a hundred and one of them. *)
Definition wait_running (podName : string) (stop_on_failure : bool) : prog S error :=
  r ← for_fuel 101 0 tt (λ ix _,
        running ← IsPodRunning podName NSDefault;
        if running : bool then mret (Break tt)
        else
          failed ← (if stop_on_failure then IsPodFailed podName NSDefault else mret false);
          if failed : bool then mret (Return (errorf "pod is in failed state"))
          else if bool_decide (1000 `quot` 10 ≤ ix)%Z
          then mret (Return (errorf "timed out waiting for pod to be running"))
          else time_Sleep (10 * Second) ;; mret (Next tt));
  match r with inl _ => mret None | inr err => mret err end.

Definition DeployFio (fioImage fioPodName pvcName : string) (volumeType : VolumeType)
    (volSize fioLoops thinkTime thinkTimeBlocks : Z) : prog S error :=
  let container := MakeFioContainer fioImage fioPodName
    (fio_pod_args volumeType volSize fioLoops thinkTime thinkTimeBlocks) in
  '(podObj, err) ← app_pod container fioPodName pvcName volumeType fio_app_label;
  match err with
  | Some e => mret (errorf ("failed to build fio test pod object, error: " +:+ err_text e))
  | None =>
      '(pod, err) ← CreatePod podObj NSDefault;
      match err with
      | Some e => mret (errorf ("failed to create fio pod, error: " +:+ err_text e))
      | None =>
          match pod with
          | None => mret (errorf "failed to create fio pod, pod nil")
          | Some _ => wait_running fioPodName false
          end
      end
  end.

Definition DeployStorageTester (image podName pvcName : string) (volumeType : VolumeType)
    (args : list string) : prog S error :=
  '(podObj, err) ← app_pod (MakePriviligedContainer image podName args) podName pvcName
                     volumeType "e2e-storage-tester";
  match err with
  | Some e => mret (errorf ("failed to build pod object, error: " +:+ err_text e))
  | None =>
      '(pod, err) ← CreatePod podObj NSDefault;
      match err with
      | Some e => mret (errorf ("failed to create pod, error: " +:+ err_text e))
      | None =>
          match pod with
          | None => mret (errorf "failed to create pod, pod nil")
          | Some _ => wait_running podName true
          end
      end
  end.
End Apps.

(** ** lib_pool.go and lib_replica.go *)

Section Pools.
Context {S W : Type} `{HasWorld S W} `{Kube W} `{Clock W} `{MapRange W} `{Grpc W}
        `{Http W}.

(** Twelve looks, five seconds apart. *)
Definition WaitForPoolCrd : prog S bool :=
  r ← for_upto 0 (60 `quot` 5) tt (λ _ _,
        '(_, err) ← ListMsPools;
        match err with
        | None => mret (Return true)
        | Some _ => time_Sleep (5 * Second) ;; mret (Next tt)
        end);
  match r with inl _ => mret false | inr b => mret b end.

(** A pool on every node; [inr] when [CreatePools] returns. *)
Definition create_each (poolDevice : string) (mayastorNodes : list string)
    : prog S (unit + error) :=
  for_range mayastorNodes tt (λ node _,
    '(_, err) ← CreateMsPool (node +:+ "-pool") node [poolDevice];
    match err with
    | Some e => mret (Return (errorf ("failed to create pool, err: " +:+ err_text e)))
    | None => mret (Next tt)
    end).

(** Twelve looks, ten seconds apart, for [count] pools that are online. *)
Definition await_pools (count : nat) : prog S (unit + error) :=
  for_upto 0 (120 `quot` 10) tt (λ _ _,
    time_Sleep (10 * Second) ;;
    '(pools, err) ← ListMsPools;
    match err with
    | Some e => mret (Return (errorf ("failed to list pools, err: " +:+ err_text e)))
    | None =>
        if bool_decide (length pools < count)%nat then mret (Next tt)
        else
          err ← CheckAllMsPoolsAreOnline;
          match err with
          | None => mret (Break tt)
          | Some _ => mret (Next tt)
          end
    end).

(** The [err] that is tested after the last loop is the one of [GetMayastorNodeNames]:
    the loops declare their own. *)
Definition CreatePools (poolDevice : string) : prog S error :=
  '(mayastorNodes, err) ← GetMayastorNodeNames;
  match err with
  | Some e => mret (errorf ("failed to get nodes, err: " +:+ err_text e))
  | None =>
      crd ← WaitForPoolCrd;
      if negb crd then mret (errorf "timed out waiting for pool CRD")
      else
        r ← create_each poolDevice mayastorNodes;
        match r with
        | inr err => mret err
        | inl _ =>
            r ← await_pools (length mayastorNodes);
            match r with
            | inr err => mret err
            | inl _ =>
                match err with
                | Some e =>
                    mret (errorf ("timed out waiting for pools to be online: " +:+ err_text e))
                | None => mret None
                end
            end
        end
  end.

Definition ListPoolsInCluster : prog S (list PoolInfo * error) :=
  '(nodeAddrs, err) ← GetMayastorNodeIPs;
  match err with
  | None => ListPools nodeAddrs
  | Some e => mret ([], Some e)
  end.

(** The sum wraps around at 64 bits. *)
Definition sum_used (pools : list PoolInfo) : Z :=
  foldl (λ acc p, uwrap64 (acc + PiUsed p)) 0%Z pools.

Definition GetPoolUsageInCluster : prog S (Z * error) :=
  '(pools, err) ← ListPoolsInCluster;
  match err with
  | None => mret (sum_used pools, None)
  | Some e => mret (0%Z, Some e)
  end.

Definition ListReplicasInCluster : prog S (list MayastorReplica * error) :=
  '(nodeAddrs, err) ← GetMayastorNodeIPs;
  match err with
  | None => ListReplicas nodeAddrs
  | Some e => mret ([], Some e)
  end.

Definition RmReplicasInCluster : prog S error :=
  '(nodeAddrs, err) ← GetMayastorNodeIPs;
  match err with
  | None => RmNodeReplicas nodeAddrs
  | Some e => mret (Some e)
  end.

Definition bad_timeout (timeout : string) : error :=
  errorf ("failed to parse timeout " +:+ timeout +:+ " string , error: " +:+
          parse_error timeout).

Definition WaitForMayastorSockets (addrs : list string) (timeout : string)
    : prog S error :=
  match ParseDuration timeout with
  | None => mret (bad_timeout timeout)
  | Some timeoutSec =>
      r ← for_upto 0 (int_Seconds timeoutSec `quot` 10) (None : error) (λ _ _,
            '(_, err) ← ListReplicas addrs;
            match err with
            | None => mret (Break None)
            | Some e => time_Sleep (10 * Second) ;; mret (Next (Some e))
            end);
      err ← no_return r;
      match err with
      | Some e => mret (errorf ("failed to start listener at the pod, address: [" +:+
                                Join addrs " " +:+ "], error: " +:+ err_text e))
      | None => mret None
      end
  end.

(** gather the set of MSV states using gRPC calls to the mayastor instances *)
Definition GetNexuses (nodeIPs : list string) : prog S (list MayastorNexus * error) :=
  '(nexuses, err) ← ListNexuses nodeIPs;
  match err with
  | Some e => mret (nexuses, errorf ("failed to list nexuses via gRPC, " +:+ err_text e))
  | None => mret (nexuses, None)
  end.

(** The first failure ends the wait. *)
Definition WaitForMCPPath (timeout : string) : prog S error :=
  match ParseDuration timeout with
  | None => mret (bad_timeout timeout)
  | Some timeoutSec =>
      '(ms_ips, err) ← GetMayastorNodeIPs;
      match err with
      | Some e => mret (errorf ("failed to get mayastor nodes IP, err: " +:+ err_text e))
      | None =>
          match ms_ips with
          | [] => mret (errorf "No mayastor nodes found")
          | ip :: _ =>
              r ← for_upto 0 (int_Seconds timeoutSec `quot` 10) tt (λ _ _,
                    '(_, err) ← GetVolumes ip;
                    match err with
                    | Some e =>
                        mret (Return (errorf ("failed to get volumes, error: " +:+ err_text e)))
                    | None => mret (Break tt)
                    end);
              match r with inl _ => mret None | inr err => mret err end
          end
      end
  end.
End Pools.
