(* ===== verification/DirectorLib.v ===== *)
(** * Talking to the test director (common/test_director_lib.go)

    The REST client of the director as an interface, and the messages the other
    components send through it. *)

From stdpp Require Import base gmap strings list pretty.
From Stdlib Require Import Ascii.
From S2P Require Import Prelude GoLib Json Http Models Kube.

(** The generated client (common/td/client): each operation answers with the payload of
    the OK response or with an error. *)
Class TdClient (W : Type) := {
  td_GetTestPlans : answer W (list TestPlan);
  td_PutTestRunByID : string → TestRunSpec → answer W TestRun;
  td_GetTestRunByID : string → answer W TestRun;
  td_AddEvent : EventSpec → answer W Event;
}.

(** [t.Format("2006-01-02 15:04:05")] in the local time zone. *)
Class LocalTime := { format_time : Z → string }.

Definition newline : ascii := "010"%char.
Definition dquote : ascii := "034"%char.

Definition removespecial (input : string) : string :=
  ReplaceAll (ReplaceAll input newline ": ") dquote " ".

(** The texts the director embeds in its GraphQL queries must not end the string they are
    embedded in. *)
Definition embeddable (s : string) : Prop := lacks newline s ∧ lacks dquote s.

Lemma removespecial_embeddable s : embeddable (removespecial s).
Proof.
  unfold removespecial. split.
  - apply lacks_ReplaceAll_other; [|by vm_compute].
    apply lacks_ReplaceAll. by vm_compute.
  - apply lacks_ReplaceAll. by vm_compute.
Qed.

Section Lib.
Context {S W : Type} `{HasWorld S W} `{Clock W} `{TdClient W} `{LocalTime}.

Definition getTime : prog S string := now ← time_Now; mret (format_time now).

(** A call of the client. *)
Definition td_call {A} (f : answer W A) : prog S (option A * error) :=
  x ← outside f;
  match x with
  | inl e => mret (None, Some e)
  | inr a => mret (Some a, None)
  end.

(** The texts of the errors show the nil payload. *)
Definition sendTestRunStatus (uuid message jira_key status : string) : prog S error :=
  t ← getTime;
  let spec := mkTestRunSpec (t +:+ ": " +:+ removespecial message) status "" ""
                (Some jira_key) in
  '(ok, err) ← td_call (td_PutTestRunByID uuid spec);
  match err with
  | Some e => mret (errorf ("failed to put event, error: " +:+ err_text e +:+ " <nil>"))
  | None => deref ok ;; mret None
  end.

Definition GetTestRunStatus (uuid : string) : prog S (string * error) :=
  '(ok, err) ← td_call (td_GetTestRunByID uuid);
  match err with
  | Some e => mret (TestRunStatusEnumFAILED,
                    errorf ("failed to get test run, error: " +:+ err_text e +:+ " <nil>"))
  | None => run ← deref ok; mret (RunStatus (RunSpec run), None)
  end.

Definition SendTestRunCompletedOk (uuid message jira_key : string) : prog S error :=
  sendTestRunStatus uuid message jira_key TestRunStatusEnumPASSED.
Definition SendTestRunCompletedFail (uuid message jira_key : string) : prog S error :=
  sendTestRunStatus uuid message jira_key TestRunStatusEnumFAILED.
Definition lib_SendTestRunStarted (uuid message jira_key : string) : prog S error :=
  sendTestRunStatus uuid message jira_key TestRunStatusEnumEXECUTING.
Definition lib_SendTestRunToDo (uuid message jira_key : string) : prog S error :=
  sendTestRunStatus uuid message jira_key TestRunStatusEnumTODO.

Definition lib_SendEvent (sourceInstance message eventClass sourceClass : string)
    : prog S error :=
  t ← getTime;
  let message := removespecial (t +:+ ": " +:+ message) in
  let spec := mkEventSpec (Some eventClass) (Some [""]) (Some message) ""
                (Some sourceClass) (Some sourceInstance) in
  '(ok, err) ← td_call (td_AddEvent spec);
  match err with
  | Some e => mret (errorf ("failed to put event, error: " +:+ err_text e +:+ " <nil>"))
  | None =>
      ev ← deref ok;
      (* the log line reads the first datum and the message *)
      index (default [] (EvData (EvSpec ev))) 0 ;;
      deref (EvMessage (EvSpec ev)) ;;
      mret None
  end.

Definition SendEventFail (source message sourceClass : string) : prog S error :=
  lib_SendEvent source message EventClassEnumFAIL sourceClass.
Definition SendEventInfo (source message sourceClass : string) : prog S error :=
  lib_SendEvent source message EventClassEnumINFO sourceClass.
Definition SendEventWarn (source message sourceClass : string) : prog S error :=
  lib_SendEvent source message EventClassEnumWARN sourceClass.

(** It waits for a plan for ever; [fuel] bounds the number of looks. *)
Definition WaitTestDirector (fuel : nat) : prog S unit :=
  r ← for_fuel fuel 0 tt (λ _ _,
        '(plans, err) ← td_call td_GetTestPlans;
        found ← (match err with
                 | Some _ => mret false
                 | None => l ← deref plans; mret (bool_decide (0 < length l)%nat)
                 end);
        if found : bool then mret (Break tt)
        else time_Sleep (5 * Second) ;; mret (Next tt));
  no_return r.
End Lib.

Section LibFacts.
Context {S W : Type} `{HasWorld S W} `{Clock W} `{TdClient W} `{LocalTime}
        (I : S → Prop) `{!WorldFree I}.
Lemma keeps_td_call {A} (f : answer W A) : keeps I (td_call f).
Proof. unfold td_call. solve_keeps. Qed.
Lemma keeps_getTime : keeps I getTime.
Proof. unfold getTime. solve_keeps. Qed.
Lemma keeps_list_index {A} (l : list A) i : keeps I (index l i).
Proof. unfold index. solve_keeps. Qed.
Hint Resolve keeps_td_call keeps_getTime keeps_list_index : keeps.
Lemma keeps_SendEvent i m c src : keeps I (lib_SendEvent i m c src).
Proof. unfold lib_SendEvent. solve_keeps. Qed.
Lemma keeps_sendTestRunStatus u m k st : keeps I (sendTestRunStatus u m k st).
Proof. unfold sendTestRunStatus. solve_keeps. Qed.
Lemma keeps_GetTestRunStatus u : keeps I (GetTestRunStatus u).
Proof. unfold GetTestRunStatus. solve_keeps. Qed.
End LibFacts.
#[export] Hint Resolve keeps_td_call keeps_getTime keeps_SendEvent
  keeps_sendTestRunStatus keeps_GetTestRunStatus : keeps.
