(* ===== verification/ScriptedCluster.v ===== *)
(** * A scripted cluster

    A concrete instance of the interfaces to the cluster: what it holds is fixed, the
    events it receives are recorded and the clock advances when a program sleeps. *)

From stdpp Require Import base gmap strings list pretty.
From Stdlib Require Import Ascii.
From S2P Require Import Prelude GoLib Json Http Models Kube MayastorClient K8sPods K8sLib.
From S2P Require Import DirectorLib.

Record Cluster := mkCluster {
  cl_pods : goerror + list Pod;
  cl_nodes : list Node;
  cl_msps : list MayastorPool;
  cl_replies : list (goerror + response);
  cl_replicas : list MayastorReplica;
  cl_director : bool;                  (* the director answers *)
  cl_events : list EventSpec;
  cl_status : string;                  (* the status the director gives of a run *)
  cl_clock : Z;
}.

Definition with_events (l : list EventSpec) (c : Cluster) : Cluster :=
  mkCluster (cl_pods c) (cl_nodes c) (cl_msps c) (cl_replies c) (cl_replicas c)
    (cl_director c) l (cl_status c) (cl_clock c).
Definition with_replies (l : list (goerror + response)) (c : Cluster) : Cluster :=
  mkCluster (cl_pods c) (cl_nodes c) (cl_msps c) l (cl_replicas c)
    (cl_director c) (cl_events c) (cl_status c) (cl_clock c).
Definition at_clock (t : Z) (c : Cluster) : Cluster :=
  mkCluster (cl_pods c) (cl_nodes c) (cl_msps c) (cl_replies c) (cl_replicas c)
    (cl_director c) (cl_events c) (cl_status c) t.

Definition empty_cluster : Cluster :=
  mkCluster (inr []) [] [] [] [] true [] TestRunStatusEnumPASSED 0.
Definition with_pods (l : goerror + list Pod) (c : Cluster) : Cluster :=
  mkCluster l (cl_nodes c) (cl_msps c) (cl_replies c) (cl_replicas c)
    (cl_director c) (cl_events c) (cl_status c) (cl_clock c).
Definition with_director (b : bool) (c : Cluster) : Cluster :=
  mkCluster (cl_pods c) (cl_nodes c) (cl_msps c) (cl_replies c) (cl_replicas c)
    b (cl_events c) (cl_status c) (cl_clock c).

Definition refusal : goerror := GoError "connection refused" Plain.
Definition missing : goerror := GoError "not found" NotFound.
Definition ok {A} (a : A) (c : Cluster) : (goerror + A) * Cluster := (inr a, c).
Definition no {A} (c : Cluster) : (goerror + A) * Cluster := (inl missing, c).

(** The one claim there is. *)
Definition demo_claim : PVC := mkPVC zero_meta None [] "" None "pvc-u1" ClaimBound.

(** A program on the cluster alone. *)
#[export] Program Instance cluster_world : HasWorld Cluster Cluster := {
  world c := c;
  set_world c _ := c;
}.
Solve All Obligations with done.

Definition with_nodes (l : list Node) (c : Cluster) : Cluster :=
  mkCluster (cl_pods c) l (cl_msps c) (cl_replies c) (cl_replicas c)
    (cl_director c) (cl_events c) (cl_status c) (cl_clock c).
Definition with_msps (l : list MayastorPool) (c : Cluster) : Cluster :=
  mkCluster (cl_pods c) (cl_nodes c) l (cl_replies c) (cl_replicas c)
    (cl_director c) (cl_events c) (cl_status c) (cl_clock c).
Definition with_replicas (l : list MayastorReplica) (c : Cluster) : Cluster :=
  mkCluster (cl_pods c) (cl_nodes c) (cl_msps c) (cl_replies c) l
    (cl_director c) (cl_events c) (cl_status c) (cl_clock c).

#[export] Instance cluster_kube : Kube Cluster := {
  pods_List _ c := (cl_pods c, c);
  pods_Get _ name c :=
    (match cl_pods c with
     | inl e => inl e
     | inr l => match find_pod (λ p, bool_decide (Name (pod_meta p) = name)) l with
                | Some p => inr p | None => inl missing end
     end, c);
  pods_Create _ p := ok p;
  pods_Delete _ _ := ok tt;
  nodes_List c := (inr (cl_nodes c), c);
  pvc_Create _ p := ok p;
  pvc_Get _ _ := no;
  pvc_Delete _ _ := ok tt;
  pvc_List _ := ok [demo_claim];
  pv_Get _ := no;
  sc_Create c := ok c;
  sc_Get _ := no;
  sc_Delete _ := ok tt;
  ns_Create _ := ok tt;
  msp_Create p := ok p;
  msp_Get _ := no;
  msp_Update p := ok p;
  msp_Delete _ := ok tt;
  msp_List c := (inr (cl_msps c), c);
  msn_Get _ := no;
  msn_Delete _ := ok tt;
  msn_List := ok [];
  msv_Get _ := no;
  msv_Update v := ok v;
  msv_Delete _ := ok tt;
  msv_List := ok [];
}.

#[export] Instance cluster_clock : Clock Cluster := {
  clock_now c := (cl_clock c, c);
  clock_sleep d c := at_clock (cl_clock c + d) c;
}.
#[export] Program Instance cluster_range : MapRange Cluster := {
  map_order A m c := (map_to_list m, c);
}.
Next Obligation. done. Qed.
#[export] Instance cluster_http : Http Cluster := {
  http_NewRequest _ _ := None;
  http_Do _ c :=
    match cl_replies c with
    | [] => (inl refusal, c)
    | a :: l => (a, with_replies l c)
    end;
}.
#[export] Instance cluster_td : TdClient Cluster := {
  td_GetTestPlans := ok [];
  td_PutTestRunByID id spec c :=
    if cl_director c then (inr (mkTestRun 0 id 0 spec), c) else (inl refusal, c);
  td_GetTestRunByID id c :=
    if cl_director c
    then (inr (mkTestRun 0 id 0 (mkTestRunSpec "" (cl_status c) "" "" None)), c)
    else (inl refusal, c);
  td_AddEvent ev c :=
    if cl_director c then (inr (mkEvent "" 0 ev), with_events (cl_events c ++ [ev]) c)
    else (inl refusal, c);
}.
#[export] Instance cluster_time : LocalTime := { format_time t := pretty t }.
#[export] Instance cluster_grpc : Grpc Cluster := {
  grpc_Dial _ := ok tt;
  grpc_ListNexusV2 _ _ := ok (Some []);
  grpc_FaultNexusChild _ _ _ _ := ok (Some tt);
  grpc_ListPools _ _ := ok (Some []);
  grpc_DestroyPool _ _ _ := ok (Some tt);
  grpc_ListReplicas _ _ c := (inr (Some (cl_replicas c)), c);
  grpc_DestroyReplica _ _ uuid c :=
    if HasPrefix uuid "stuck" then (inl refusal, c) else (inr (Some tt), c);
  grpc_CreateReplica _ _ _ := ok (Some tt);
  grpc_ListNvmeControllers _ _ := ok (Some []);
  grpc_GetMayastorInfo _ _ := ok (Some tt);
}.

(** A pod with a phase and restarts. *)
Definition demo_pod (name uid phase : string) (restarts : Z) : Pod :=
  mkPod (mkMeta name "" "default" uid ∅ ∅ None 0 None) zero_podspec
    (mkPodStatus phase "10.0.0.1" [mkContainerStatus restarts name true None] "" []).

Definition demo_node (name ip : string) : Node :=
  mkNode (mkMeta name "" "" "" {[ "openebs.io/engine" := "mayastor" ]} ∅ None 0 None)
    [mkNodeAddress NodeInternalIP ip; mkNodeAddress NodeHostName name] [] [].

(** A text with its single quotes turned into double ones. *)
Definition json_text (s : string) : string := ReplaceAll s "'"%char (String dquote EmptyString).
