(* ===== verification/K8sTheorems.v ===== *)
(** * What the cluster library promises

    Waits end and their answers are right, whatever the cluster does; labels are read
    independently of the order of a map; the retries of a request; and three places where a
    failure is not reported. *)

From stdpp Require Import base gmap strings list pretty.
From S2P Require Import Prelude GoLib Json Http Models Kube Total MayastorClient GoTime.
From S2P Require Import K8sPods K8sLib K8sApps DirectorLib ScriptedCluster.

(** ** Look-ups *)

Lemma find_pod_Some test l p : find_pod test l = Some p → test p = true ∧ p ∈ l.
Proof.
  unfold find_pod. intros E. apply head_Some_elem_of, list_elem_of_filter in E.
  destruct E as [Ht Hin]. by destruct (test p).
Qed.
Lemma find_pod_None test l : find_pod test l = None → ∀ p, p ∈ l → test p = false.
Proof.
  unfold find_pod. intros E p Hp. destruct (test p) eqn:Et; [|done]. exfalso.
  apply head_None in E.
  assert (Hin : p ∈ filter (λ p, test p) l)
    by (apply list_elem_of_filter; by rewrite Et).
  rewrite E in Hin. by apply not_elem_of_nil in Hin.
Qed.

Section Waits.
Context {S W : Type} `{HasWorld S W} `{Kube W} `{Clock W}.

(** The pods of the namespace as the last request of the run gave them. *)
Definition last_listed (ns : string) (l : list Pod) (s : S) : Prop :=
  ∃ w, pods_List ns w = (inr l, world s).

Lemma total_GetPodExistsByName name ns :
  total (λ _, True) (GetPodExistsByName name ns) (λ r s,
    match r with
    | (_, Some _) => True
    | (b, None) => ∃ l, last_listed ns l s ∧
                        (b = false → Forall (λ p, Name (pod_meta p) ≠ name) l)
    end).
Proof.
  intros s _. unfold GetPodExistsByName, GetPodIfPresent.
  autorewrite with go_run. cbn [seq_run].
  destruct (pods_List ns (world s)) as [[e|l] w] eqn:E; cbn [fst snd seq_run].
  - eexists _, _. split; [autorewrite with go_run; reflexivity|done].
  - assert (Hl : last_listed ns l (set_world w s))
      by (exists (world s); by rewrite E, world_set).
    destruct (find_pod _ l) as [p|] eqn:Ef; autorewrite with go_run; cbn [seq_run];
      eexists _, _; (split; [reflexivity|]); exists l; (split; [done|]); [done|].
    intros _. apply Forall_forall. intros p Hp.
    pose proof (find_pod_None _ _ Ef p Hp) as Hn. by apply bool_decide_eq_false_1 in Hn.
Qed.

(** The looks of [DeletePod] fit in its rounds. *)
Lemma delete_rounds_enough t ix :
  (0 ≤ ix)%Z → ¬ (t ≤ ix * 10)%Z → (ix + 1 < 0 + Z.of_nat (delete_rounds t))%Z.
Proof.
  intros. unfold delete_rounds. pose proof (Z.div_mod t 10). 
  pose proof (Z.mod_pos_bound t 10). lia.
Qed.

Lemma delete_pod_total (name ns : string) (timeoutSecs : Z) (s : S) :
  ∃ err s', run (DeletePod name ns timeoutSecs) s = (Ret err, s') ∧
    (err = None → ∃ l, last_listed ns l s' ∧ Forall (λ p, Name (pod_meta p) ≠ name) l).
Proof.
  unfold DeletePod.
  assert (Ht : total (λ _, True) (DeletePod name ns timeoutSecs) (λ err s',
            err = None → ∃ l, last_listed ns l s' ∧ Forall (λ p, Name (pod_meta p) ≠ name) l));
    [|destruct (Ht s I) as (err & s' & ? & ?); eauto].
  eapply total_bind; [apply total_returns; auto with returns|].
  intros [e|]; [by apply total_ret|].
  set (Q := λ (r : unit + error) s',
         r = inr None → ∃ l, last_listed ns l s' ∧ Forall (λ p, Name (pod_meta p) ≠ name) l).
  eapply (total_bind _ _ _ (λ r s', Q r s' ∧ r ≠ inl tt)).
  - eapply total_weaken;
      [apply (total_for_fuel (λ _ _ _, True)) with (Q := λ r s', Q r s' ∧ r ≠ inl tt)
      |done|done]; [unfold delete_rounds; lia|].
    intros j [] Hj. eapply total_bind; [apply total_GetPodExistsByName|].
    intros [b [e|]]; [by apply total_ret|].
    destruct b; cbn [negb].
    + case_bool_decide; [by apply total_ret|].
      eapply total_bind; [apply total_returns; auto with returns|].
      intros []. apply total_ret. intros _ _. split; [done|].
      by apply delete_rounds_enough; [lia|].
    + apply total_ret. intros s1 (l & Hl & Hn). split; [|done]. intros _. eauto.
  - intros [[]|err]; apply total_ret; intros s1 [HQ Hr]; [done|].
    intros ->. by apply HQ.
Qed.

(** The environment when [DeletePod] looks for the [n]-th time. *)
Definition delete_look (ns : string) (n : nat) (w : W) : W :=
  Nat.iter n (λ w, clock_sleep (10 * Second) (pods_List ns w).2) w.

Definition pod_named (name : string) (p : Pod) : bool := bool_decide (Name (pod_meta p) = name).

Lemma run_GetPodExistsByName name ns l s :
  (pods_List ns (world s)).1 = inr l →
  run (GetPodExistsByName name ns) s =
  (Ret (bool_decide (is_Some (find_pod (pod_named name) l)), None),
   set_world (pods_List ns (world s)).2 s).
Proof.
  intros Hl. unfold GetPodExistsByName, GetPodIfPresent, pod_named.
  autorewrite with go_run. cbn [seq_run].
  destruct (pods_List ns (world s)) as [[e|l'] w]; simplify_eq/=.
  destruct (find_pod _ l) as [p|]; by autorewrite with go_run.
Qed.

Lemma delete_pod_succeeds (name ns : string) (timeoutSecs : Z) (n : nat) (s : S) :
  let w := (pods_Delete ns name (world s)).2 in
  (pods_Delete ns name (world s)).1 = inr tt →
  (∀ i, (i < n)%nat → (Z.of_nat i * 10 < timeoutSecs)%Z ∧
     ∃ l, (pods_List ns (delete_look ns i w)).1 = inr l ∧ is_Some (find_pod (pod_named name) l)) →
  (∃ l, (pods_List ns (delete_look ns n w)).1 = inr l ∧ find_pod (pod_named name) l = None) →
  ∃ s', run (DeletePod name ns timeoutSecs) s = (Ret None, s').
Proof.
  intros w Hdel Hthere (l & Hl & Hgone). unfold DeletePod.
  rewrite run_bind, run_kube_do. fold w. rewrite Hdel. cbn [seq_run].
  set (st := λ i, set_world (delete_look ns i w) s).
  erewrite run_bind, (run_for_fuel_reach _ tt None st _ n);
    [by eexists| | | |done]; cbv beta.
  - intros i Hi. destruct (Hthere i Hi) as [Ht (li & Hli & Hp)]. rewrite run_bind.
    rewrite (run_GetPodExistsByName _ _ li) by (by unfold st; rewrite world_set).
    cbn [seq_run]. rewrite bool_decide_true by done. cbn [negb].
    rewrite bool_decide_false by lia. unfold st, time_Sleep.
    rewrite run_bind, run_outside. cbn [seq_run fst snd].
    by rewrite !world_set, !set_world_set.
  - rewrite run_bind, (run_GetPodExistsByName _ _ l) by (by unfold st; rewrite world_set).
    cbn [seq_run]. rewrite Hgone. rewrite bool_decide_false by (by intros []). reflexivity.
  - unfold delete_rounds. destruct n as [|n]; [lia|].
    destruct (Hthere n) as [Ht _]; [lia|].
    pose proof (Z.div_mod timeoutSecs 10). pose proof (Z.mod_pos_bound timeoutSecs 10). lia.
Qed.

(** (C32) [DeletePod] always comes back, whatever the cluster answers and however its
    clock runs; when it reports success, the last list of pods it was given holds no
    pod of that name; and it does report success when the cluster accepts the deletion
    and the pod is gone from a list it gives before the time is up. *)
Theorem delete_pod_gone (name ns : string) (timeoutSecs : Z) (s : S) :
  (∃ err s', run (DeletePod name ns timeoutSecs) s = (Ret err, s') ∧
    (err = None → ∃ l, last_listed ns l s' ∧ Forall (λ p, Name (pod_meta p) ≠ name) l)) ∧
  (∀ n, let w := (pods_Delete ns name (world s)).2 in
   (pods_Delete ns name (world s)).1 = inr tt →
   (∀ i, (i < n)%nat → (Z.of_nat i * 10 < timeoutSecs)%Z ∧
      ∃ l, (pods_List ns (delete_look ns i w)).1 = inr l ∧
           is_Some (find_pod (pod_named name) l)) →
   (∃ l, (pods_List ns (delete_look ns n w)).1 = inr l ∧ find_pod (pod_named name) l = None) →
   ∃ s', run (DeletePod name ns timeoutSecs) s = (Ret None, s')).
Proof. split; [apply delete_pod_total|]. intros n. apply delete_pod_succeeds. Qed.

Lemma wait_for_pod_total (name ns : string) (s : S) :
  ∃ r s', run (WaitForPodReady name ns) s = (Ret r, s') ∧
    match r with
    | (Some pod, None) => Name (pod_meta pod) = name ∧ Phase (pod_status pod) = PodRunning ∧
                          ∃ l, last_listed ns l s' ∧ pod ∈ l
    | (None, Some _) => True
    | _ => False
    end.
Proof.
  set (Q := λ (r : option Pod * error) (s' : S),
    match r with
    | (Some pod, None) => Name (pod_meta pod) = name ∧ Phase (pod_status pod) = PodRunning ∧
                          ∃ l, last_listed ns l s' ∧ pod ∈ l
    | (None, Some _) => True
    | _ => False
    end).
  assert (Ht : total (λ _, True) (WaitForPodReady name ns) Q);
    [|destruct (Ht s I) as (r & s' & ? & ?); by exists r, s'].
  unfold WaitForPodReady.
  eapply (total_bind _ _ _ (λ r s', match r with inl _ => False | inr r => Q r s' end)).
  - eapply total_weaken;
      [apply (total_for_fuel (λ _ _ _, True)) with
         (Q := λ r s', match r with inl _ => False | inr r => Q r s' end)|done|done]; [lia|].
    intros j [] Hj. case_bool_decide; [by apply total_ret|].
    eapply total_bind; [apply total_returns; auto with returns|]. intros [].
    eapply total_bind; [apply total_kube_call|]. intros [pods err]. cbv beta.
    intros s1 (s0 & _ & -> & Ha).
    destruct (pods_List ns (world s0)) as [[e|l] w] eqn:E; simplify_eq/=;
      [by eexists _, _|].
    destruct (find_pod _ l) as [pod|] eqn:Ef; simpl; eexists _, _; (split; [done|]); simpl.
    + destruct (find_pod_Some _ _ _ Ef) as [Hp Hin].
      apply andb_true_iff in Hp as [Hn Hr]. apply bool_decide_eq_true_1 in Hn, Hr.
      repeat split; [done..|]. exists l. split; [|done]. exists (world s0).
      by rewrite E, world_set.
    + split; [done|]. change (120 `quot` 10)%Z with 12%Z in *. lia.
  - intros [u|r] s1 Hr; [done|]. by exists r, s1.
Qed.

(** The environment when [WaitForPodReady] has looked [n] times. *)
Definition ready_looks (ns : string) (n : nat) (w : W) : W :=
  Nat.iter n (λ w, (pods_List ns (clock_sleep (10 * Second) w)).2) w.
(** What it looks for in the list it is given next. *)
Definition ready_seen (name ns : string) (n : nat) (w : W) (found : option Pod) : Prop :=
  ∃ l, (pods_List ns (clock_sleep (10 * Second) (ready_looks ns n w))).1 = inr l ∧
    find_pod (λ p, bool_decide (name = Name (pod_meta p)) &&
                   bool_decide (Phase (pod_status p) = PodRunning)) l = found.

Lemma wait_for_pod_succeeds (name ns : string) (n : nat) (pod : Pod) (s : S) :
  (n < 12)%nat → (∀ i, (i < n)%nat → ready_seen name ns i (world s) None) →
  ready_seen name ns n (world s) (Some pod) →
  ∃ s', run (WaitForPodReady name ns) s = (Ret (Some pod, None), s').
Proof.
  intros Hn Hnone Hsome. unfold WaitForPodReady.
  set (st := λ i, set_world (ready_looks ns i (world s)) s).
  erewrite run_bind, (run_for_fuel_reach _ tt (Some pod, None) st _ n);
    [by eexists| | |lia|apply set_world_world]; cbv beta; change (120 `quot` 10)%Z with 12%Z.
  - intros i Hi. destruct (Hnone i Hi) as (l & Hl & Hf).
    rewrite bool_decide_false by lia. unfold st, time_Sleep.
    rewrite run_bind, run_outside. cbn [seq_run fst snd].
    rewrite run_bind, run_kube_call, !world_set, Hl. cbn [seq_run].
    by rewrite Hf, !set_world_set.
  - destruct Hsome as (l & Hl & Hf). rewrite bool_decide_false by lia.
    unfold st, time_Sleep. rewrite run_bind, run_outside. cbn [seq_run fst snd].
    rewrite run_bind, run_kube_call, !world_set, Hl. cbn [seq_run]. by rewrite Hf.
Qed.

(** [WaitForPodReady] always comes back, with a running pod of that name from the
    list it was given last, or with an error and no pod: the caller that tests the error
    never reads a nil pod.  It gives the pod when one is running in one of the twelve
    lists it asks for, if it was given those before it. *)
Theorem wait_for_pod_ready (name ns : string) (s : S) :
  (∃ r s', run (WaitForPodReady name ns) s = (Ret r, s') ∧
    match r with
    | (Some pod, None) => Name (pod_meta pod) = name ∧ Phase (pod_status pod) = PodRunning ∧
                          ∃ l, last_listed ns l s' ∧ pod ∈ l
    | (None, Some _) => True
    | _ => False
    end) ∧
  (∀ n pod, (n < 12)%nat → (∀ i, (i < n)%nat → ready_seen name ns i (world s) None) →
     ready_seen name ns n (world s) (Some pod) →
     ∃ s', run (WaitForPodReady name ns) s = (Ret (Some pod, None), s')).
Proof.
  split; [apply wait_for_pod_total|]. intros n pod. apply wait_for_pod_succeeds.
Qed.
End Waits.

(** ** Nodes *)

Definition is_engine_label (kv : string * string) : bool :=
  bool_decide (kv.1 = "openebs.io/engine") && bool_decide (kv.2 = "mayastor").
Definition is_master_label (kv : string * string) : bool :=
  bool_decide (kv.1 = "node-role.kubernetes.io/master").

Lemma node_flags_existsb l :
  node_flags l = (existsb is_engine_label l, existsb is_master_label l).
Proof.
  unfold node_flags.
  assert (Hg : ∀ a b, foldl (λ '(ms, master) '(label, value),
             (ms || (bool_decide (label = "openebs.io/engine") &&
                     bool_decide (value = "mayastor")),
              master || bool_decide (label = "node-role.kubernetes.io/master")))
          (a, b) l = (a || existsb is_engine_label l, b || existsb is_master_label l)).
  { induction l as [|[k v] l IH]; intros a b; cbn [foldl existsb].
    - by rewrite !orb_false_r.
    - rewrite IH. unfold is_engine_label at 2, is_master_label at 2. cbn [fst snd].
      by rewrite !orb_assoc. }
  by rewrite Hg.
Qed.

(** A test on the entries of a map does not depend on the order in which they come. *)
Lemma existsb_map_order {A} (f : string * A → bool) (m : gmap string A) l :
  l ≡ₚ map_to_list m → existsb f l = true ↔ ∃ k v, m !! k = Some v ∧ f (k, v) = true.
Proof.
  intros Hl. rewrite existsb_exists. split.
  - intros ([k v] & Hin & Hf). apply list_elem_of_In in Hin. rewrite Hl in Hin.
    apply elem_of_map_to_list in Hin. eauto.
  - intros (k & v & Hm & Hf). exists (k, v). split; [|done].
    apply list_elem_of_In. rewrite Hl. by apply elem_of_map_to_list.
Qed.

(** A node as its labels and addresses describe it. *)
Definition node_loc (n : Node) : NodeLocation :=
  let labels := Labels (node_meta n) in
  mkNodeLocation (last_address NodeHostName (Addresses n))
    (last_address NodeInternalIP (Addresses n))
    (bool_decide (labels !! "openebs.io/engine" = Some "mayastor"))
    (bool_decide (is_Some (labels !! "node-role.kubernetes.io/master"))).
Definition addressed (n : Node) : bool :=
  negb (bool_decide (LocName (node_loc n) = "")) &&
  negb (bool_decide (IPAddress (node_loc n) = "")).

Lemma addressed_spec n :
  addressed n = bool_decide (last_address NodeHostName (Addresses n) ≠ "" ∧
                             last_address NodeInternalIP (Addresses n) ≠ "").
Proof.
  unfold addressed, node_loc. cbn [LocName IPAddress].
  repeat case_bool_decide; naive_solver.
Qed.

Lemma node_flags_labels (m : gmap string string) l :
  l ≡ₚ map_to_list m →
  node_flags l = (bool_decide (m !! "openebs.io/engine" = Some "mayastor"),
                  bool_decide (is_Some (m !! "node-role.kubernetes.io/master"))).
Proof.
  intros Hl. rewrite node_flags_existsb. f_equal; apply eq_bool_prop_intro;
    rewrite bool_decide_spec, Is_true_true, (existsb_map_order _ m l Hl);
    unfold is_engine_label, is_master_label; cbn [fst snd]; split.
  - intros (k & v & Hm & Hf). apply andb_true_iff in Hf as [Hk Hv].
    apply bool_decide_eq_true_1 in Hk, Hv. by subst.
  - intros Hm. eexists _, _. split; [done|]. done.
  - intros (k & v & Hm & Hk). apply bool_decide_eq_true_1 in Hk. subst. eauto.
  - intros [v Hm]. eexists _, _. split; [done|]. done.
Qed.

Section Nodes.
Context {S W : Type} `{HasWorld S W} `{Kube W} `{MapRange W}.

Lemma run_node_loop nodes locs s :
  ∃ w, run (for_range nodes locs add_node_loc) s =
       (Ret (if forallb addressed nodes then inl (locs ++ map node_loc nodes)%list
             else inr (errorf "node lacks expected fields")), set_world w s).
Proof.
  revert locs s. induction nodes as [|n nodes IH]; intros locs s.
  - exists (world s). rewrite set_world_world, app_nil_r. done.
  - rewrite run_for_range_cons. unfold add_node_loc at 1. rewrite run_bind.
    unfold range_map at 1. rewrite run_outside.
    cbn [seq_run].
    rewrite (node_flags_labels (Labels (node_meta n))) by apply map_order_perm.
    cbv zeta. cbn [forallb]. rewrite addressed_spec.
    case_decide as Hd; [rewrite (bool_decide_eq_true_2 _ Hd)|rewrite (bool_decide_eq_false_2 _ Hd)];
      cbn [andb]; rewrite run_done; cbn [seq_run]; [|eauto].
    destruct (IH (locs ++ [node_loc n])%list
                (set_world (map_order (Labels (node_meta n)) (world s)).2 s)) as [w Hw].
    rewrite set_world_set, <- app_assoc in Hw. by exists w.
Qed.

(** [GetNodeLocs] describes every node by its labels and addresses, in the order the
    cluster lists them, whatever the order in which Go ranges over the labels: a node is a
    mayastor node exactly when its engine label says so.  A node without a host name or an
    internal address is an error. *)
Theorem node_locs_by_label (s : S) (nodes : list Node) (w : W) :
  nodes_List (world s) = (inr nodes, w) →
  ∃ w', run GetNodeLocs s =
    (Ret (if forallb addressed nodes then (map node_loc nodes, None)
          else ([], errorf "node lacks expected fields")), set_world w' s).
Proof.
  intros Hl. unfold GetNodeLocs. rewrite run_bind, run_kube_call, Hl. cbn [seq_run fst snd].
  rewrite run_bind.
  destruct (run_node_loop nodes [] (set_world w s)) as [w' Hw]. rewrite Hw.
  cbn [seq_run]. exists w'. rewrite set_world_set.
  by destruct (forallb addressed nodes).
Qed.
End Nodes.

(** ** Retries *)

Section Retries.
Context {S W : Type} `{HasWorld S W} `{Clock W} {A : Type}.
Context (zero : A) (call : answer W A).

Definition answer_of (r : goerror + A) : A * error :=
  match r with inl e => (zero, Some e) | inr a => (a, None) end.
Definition exceeded (r : goerror + A) : bool := isDeadlineExceeded (answer_of r).2.

(** The environment before call number [k]: after each earlier call a wait, of five
    seconds first and twice as long each time. *)
Fixpoint before_call (k : nat) (w : W) : W :=
  match k with
  | O => w
  | Datatypes.S k' =>
      clock_sleep (5 * 2 ^ Z.of_nat k' * Second) (call (before_call k' w)).2
  end.
(** The answer to call number [k], and the environment after it. *)
Definition answer_at (k : nat) (w : W) : goerror + A := (call (before_call k w)).1.
Definition after_call (k : nat) (w : W) : W := (call (before_call k w)).2.

Definition backoff_body (_ : Z) (b : (A * error) * Z)
    : prog S (ctl ((A * error) * Z) Empty_set) :=
  let '(_, timeout) := b in
  res ← kube_call zero call;
  if isDeadlineExceeded res.2 then
    time_Sleep timeout ;; mret (Next (res, (timeout * 2)%Z))
  else mret (Break (res, timeout)).

Lemma run_backoff_body i cur k s w :
  world s = before_call k w →
  run (backoff_body i (cur, (5 * 2 ^ Z.of_nat k * Second)%Z)) s =
  if exceeded (answer_at k w)
  then (Ret (Next (answer_of (answer_at k w), (5 * 2 ^ Z.of_nat (Datatypes.S k) * Second)%Z)),
        set_world (before_call (Datatypes.S k) w) s)
  else (Ret (Break (answer_of (answer_at k w), (5 * 2 ^ Z.of_nat k * Second)%Z)),
        set_world (after_call k w) s).
Proof.
  intros Hw. unfold backoff_body, exceeded, answer_at, after_call. cbn [before_call].
  rewrite run_bind, run_kube_call, Hw. cbn [seq_run].
  destruct (call (before_call k w)) as [r w1] eqn:E. cbn [fst snd].
  fold (answer_of r). destruct (isDeadlineExceeded (answer_of r).2); [|done].
  rewrite run_bind. unfold time_Sleep. rewrite run_outside. cbn [seq_run fst snd].
  rewrite world_set, set_world_set, run_done. do 4 f_equal.
  rewrite Nat2Z.inj_succ, Z.pow_succ_r by lia. lia.
Qed.

(** The loop from call [k] on: it stops at the first answer in time, or after [m] calls. *)
Lemma run_backoff_loop m k cur s w :
  world s = before_call k w →
  (∀ n, (n < m)%nat → (∀ i, (i < n)%nat → exceeded (answer_at (k + i) w) = true) →
     exceeded (answer_at (k + n) w) = false →
     ∃ t, run (for_range (seqZ (Z.of_nat k) (Z.of_nat m))
                 (cur, (5 * 2 ^ Z.of_nat k * Second)%Z) backoff_body) s =
          (Ret (inl (answer_of (answer_at (k + n) w), t)), set_world (after_call (k + n) w) s)) ∧
  ((0 < m)%nat → (∀ i, (i < m)%nat → exceeded (answer_at (k + i) w) = true) →
     ∃ t, run (for_range (seqZ (Z.of_nat k) (Z.of_nat m))
                 (cur, (5 * 2 ^ Z.of_nat k * Second)%Z) backoff_body) s =
          (Ret (inl (answer_of (answer_at (k + m - 1) w), t)),
           set_world (before_call (k + m) w) s)).
Proof.
  revert k cur s. induction m as [|m IH]; intros k cur s Hw; [split; [lia|lia]|].
  rewrite seqZ_cons by lia.
  replace (Z.succ (Z.of_nat k)) with (Z.of_nat (Datatypes.S k)) by lia.
  replace (Z.pred (Z.of_nat (Datatypes.S m))) with (Z.of_nat m) by lia.
  rewrite run_for_range_cons, (run_backoff_body _ _ _ _ _ Hw).
  destruct (IH (Datatypes.S k) (answer_of (answer_at k w))
              (set_world (before_call (Datatypes.S k) w) s) (world_set _ _)) as [IH1 IH2].
  split.
  - intros [|n] Hn Hlt Hnot; [rewrite Nat.add_0_r in *; rewrite Hnot; cbn [seq_run]; eauto|].
    pose proof (Hlt 0 ltac:(lia)) as H0'. rewrite Nat.add_0_r in H0'. rewrite H0'.
    cbn [seq_run]. setoid_rewrite set_world_set in IH1.
    replace (k + Datatypes.S n) with (Datatypes.S k + n) in * by lia.
    apply IH1; [lia| |done]. intros i Hi.
    replace (Datatypes.S k + i) with (k + Datatypes.S i) by lia. apply Hlt. lia.
  - intros _ Hall. pose proof (Hall 0 ltac:(lia)) as H0'. rewrite Nat.add_0_r in H0'.
    rewrite H0'. cbn [seq_run]. setoid_rewrite set_world_set in IH2.
    destruct m as [|m].
    + exists (5 * 2 ^ Z.of_nat (Datatypes.S k) * Second)%Z.
      replace (k + 1 - 1) with k by lia. by replace (k + 1) with (Datatypes.S k) by lia.
    + replace (k + Datatypes.S (Datatypes.S m)) with (Datatypes.S k + Datatypes.S m) by lia.
      apply IH2; [lia|]. intros i Hi.
      replace (Datatypes.S k + i) with (k + Datatypes.S i) by lia. apply Hall. lia.
Qed.

(** [retryBackoff] makes a request again only while it runs out of time, waiting
    5, 10, 20, ... seconds in between, and at most six times: it gives the first answer
    in time, or the sixth answer after a last wait. *)
Theorem retry_backoff_spec (init : A) (s : S) :
  (∀ n, (n < 6)%nat → (∀ i, (i < n)%nat → exceeded (answer_at i (world s)) = true) →
     exceeded (answer_at n (world s)) = false →
     run (retryBackoff (kube_call zero call) init) s =
     (Ret (answer_of (answer_at n (world s))), set_world (after_call n (world s)) s)) ∧
  ((∀ i, (i < 6)%nat → exceeded (answer_at i (world s)) = true) →
     run (retryBackoff (kube_call zero call) init) s =
     (Ret (answer_of (answer_at 5 (world s))), set_world (before_call 6 (world s)) s)).
Proof.
  destruct (run_backoff_loop 6 0 (init, None) s (world s) eq_refl) as [H1' H2'].
  change (retryBackoff (kube_call zero call) init) with
    (for_range (seqZ (Z.of_nat 0) (Z.of_nat 6)) ((init, None : error), (5 * 2 ^ Z.of_nat 0 * Second)%Z)
       backoff_body ≫= λ r, '(res, _) ← no_return r; mret res).
  split.
  - intros n Hn Hlt Hnot. destruct (H1' n Hn Hlt Hnot) as [t E].
    rewrite run_bind, E. done.
  - intros Hall. destruct (H2' ltac:(lia) Hall) as [t E]. rewrite run_bind, E. done.
Qed.
End Retries.

(** ** Failures that are not reported *)

Section Unreported.
Context {S W : Type} `{HasWorld S W} `{Kube W} `{Clock W} `{MapRange W} `{Grpc W}.

Lemma returns_retryBackoff {A} (f : prog S (A * error)) init :
  returns f → returns (retryBackoff f init).
Proof. intros Hf. unfold retryBackoff. solve_returns. Qed.
Hint Resolve returns_retryBackoff : returns.
Lemma returns_RmReplica a u : returns (RmReplica a u).
Proof. unfold RmReplica. solve_returns. Qed.
Hint Resolve returns_RmReplica : returns.

(** The removals on a node share one error variable: when the last one succeeds,
    [RmNodeReplicas] reports success whatever happened to the others. *)
Theorem rm_replicas_forgets_errors (addr : string) (s s1 : S) (l : list MayastorReplica)
    (r : MayastorReplica) :
  run (listReplica addr) s = (Ret ((l ++ [r])%list, None), s1) →
  (∀ s, ∃ s', run (RmReplica addr (RiUuid r)) s = (Ret None, s')) →
  ∃ s', run (RmNodeReplicas [addr]) s = (Ret None, s').
Proof.
  intros Hl Hr. unfold RmNodeReplicas. rewrite run_bind, run_for_range_cons, run_bind, Hl.
  cbn [seq_run]. rewrite !run_bind.
  set (body := λ (info : MayastorReplica) (_ : error),
    err ← RmReplica addr (RiUuid info); mret (Next err : ctl error Empty_set)).
  assert (Hb : total (λ _, True) (for_range (l ++ [r])%list (None : error) body)
                 (λ c _, c = inl None)).
  { eapply total_weaken;
      [apply (total_for_range (λ l' e _, (∃ l0, l' = l0 ++ [r])%list ∨ l' = [] ∧ e = None)
             (l ++ [r])%list None body (λ c _, c = inl None))|intros; left; by exists l|done].
    - intros x l' b s0 [[l0 E]|[E _]]; [|done].
      destruct l0 as [|y l0]; cbn in E; injection E as -> ->.
      + destruct (Hr s0) as [s2 E2]. exists (Next None), s2. unfold body.
        rewrite run_bind, E2. split; [done|]. auto.
      + destruct (returns_RmReplica addr (RiUuid y) s0) as (e & s2 & E2).
        exists (Next e), s2. unfold body. rewrite run_bind, E2. split; [done|]. eauto.
    - intros b s0 [[l0 E]|[_ ->]]; [by destruct l0|done]. }
  destruct (Hb s1 I) as (c & s2 & E & ->). rewrite E. cbn [seq_run]. by exists s2.
Qed.

Lemma returns_ListMsPools : returns ListMsPools.
Proof. unfold ListMsPools. auto with returns. Qed.
Lemma returns_CheckAllMsPools : returns CheckAllMsPoolsAreOnline.
Proof. unfold CheckAllMsPoolsAreOnline, ListMsPools. solve_returns. Qed.
Hint Resolve returns_ListMsPools returns_CheckAllMsPools : returns.

Section PoolsListed.
Context (listed : ∀ w, ∃ l w', msp_List w = (inr l, w')).
Context (created : ∀ p w, ∃ p' w', msp_Create p w = (inr p', w')).

Lemma run_ListMsPools (s : S) : ∃ l w, run ListMsPools s = (Ret (l, None), set_world w s).
Proof.
  unfold ListMsPools. rewrite run_kube_call. destruct (listed (world s)) as (l & w & E).
  rewrite E. eauto.
Qed.
Lemma run_WaitForPoolCrd (s : S) : ∃ s', run WaitForPoolCrd s = (Ret true, s').
Proof.
  unfold WaitForPoolCrd, for_upto. change (seqZ 0 (60 `quot` 5 - 0)) with (0 :: seqZ 1 11)%Z.
  destruct (run_ListMsPools s) as (l & w & E).
  rewrite run_bind, run_for_range_cons, run_bind, E. eauto.
Qed.
Lemma run_create_each dev names (s : S) :
  ∃ s', run (create_each dev names) s = (Ret (inl tt), s').
Proof.
  assert (Hc : total (λ _ : S, True) (create_each dev names) (λ c _, c = inl tt));
    [|destruct (Hc s I) as (c & s' & E & ->); eauto].
  apply (total_for_range (λ _ _ _, True)); [|by intros []].
  intros x l' [] s0 _. unfold CreateMsPool. rewrite run_bind, run_kube_call.
  destruct (created (mkMsp (named (x +:+ "-pool") NSMayastor) (mkMspSpec [dev] x)
                       (msp_status zero_msp)) (world s0)) as (p' & w' & E').
  rewrite E'. cbn [seq_run fst snd]. by eexists _, _.
Qed.
Lemma run_await_pools n (s : S) : ∃ s', run (await_pools n) s = (Ret (inl tt), s').
Proof.
  assert (Hc : total (λ _ : S, True) (await_pools n) (λ c _, c = inl tt));
    [|destruct (Hc s I) as (c & s' & E & ->); eauto].
  apply (total_for_range (λ _ _ _, True)); [|by intros []].
  intros x l' []. eapply total_bind; [apply total_returns; auto with returns|].
  intros [] s0 _. destruct (run_ListMsPools s0) as (l0 & w0 & E0).
  rewrite run_bind, E0. cbn [seq_run].
  case_bool_decide; [by eexists _, _|]. rewrite run_bind.
  destruct (returns_CheckAllMsPools (set_world w0 s0)) as (e & s3 & E3). rewrite E3.
  cbn [seq_run]. destruct e; by eexists _, _.
Qed.
End PoolsListed.

(** [CreatePools] never reports that the pools did not come online: when the pools
    can be listed and created it reports success, whatever state the cluster then gives
    for them; the error that is tested after the wait belongs to another variable. *)
Theorem create_pools_ignores_state (poolDevice : string) (s s1 : S) (names : list string) :
  run GetMayastorNodeNames s = (Ret (names, None), s1) →
  (∀ w, ∃ l w', msp_List w = (inr l, w')) →
  (∀ p w, ∃ p' w', msp_Create p w = (inr p', w')) →
  ∃ s', run (CreatePools poolDevice) s = (Ret None, s').
Proof.
  intros Hn Hlist Hcreate. unfold CreatePools. rewrite run_bind, Hn. cbn [seq_run].
  destruct (run_WaitForPoolCrd Hlist s1) as [s2 E2]. rewrite run_bind, E2. cbn [seq_run negb].
  destruct (run_create_each Hcreate poolDevice names s2) as [s3 E3].
  rewrite run_bind, E3. cbn [seq_run].
  destruct (run_await_pools Hlist (length names) s3) as [s4 E4].
  rewrite run_bind, E4. by exists s4.
Qed.
End Unreported.

(** ** On a scripted cluster *)

Definition two_nodes : Cluster :=
  with_nodes [demo_node "n1" "10.0.0.1";
              mkNode (mkMeta "m1" "" "" "" {[ "node-role.kubernetes.io/master" := "" ]} ∅ None 0 None)
                [mkNodeAddress NodeInternalIP "10.0.0.9"; mkNodeAddress NodeHostName "m1"] [] []]
    empty_cluster.

Lemma node_locs_by_label_witness :
  ∃ w', run GetNodeLocs two_nodes =
    (Ret ([mkNodeLocation "n1" "10.0.0.1" true false;
           mkNodeLocation "m1" "10.0.0.9" false true], None), set_world w' two_nodes).
Proof. apply (node_locs_by_label two_nodes (cl_nodes two_nodes) two_nodes). reflexivity. Defined.

Definition replica_named (uuid : string) : MayastorReplica :=
  mkReplicaInfo uuid "pool" false 0 0 "".
Definition stuck_replica : Cluster :=
  with_replicas [replica_named "stuck-1"; replica_named "free-2"] empty_cluster.

Lemma rm_replicas_forgets_errors_witness :
  ∃ s', run (RmNodeReplicas ["10.0.0.1"]) stuck_replica = (Ret None, s').
Proof.
  eapply (rm_replicas_forgets_errors "10.0.0.1" stuck_replica _ [replica_named "stuck-1"]
            (replica_named "free-2")).
  - vm_compute. reflexivity.
  - intros s. exists s. destruct s. reflexivity.
Defined.

(** The only pool there is has no state. *)
Lemma create_pools_ignores_state_witness :
  ∃ s', run (CreatePools "/dev/sdb") (with_msps [zero_msp] two_nodes) = (Ret None, s').
Proof.
  eapply (create_pools_ignores_state "/dev/sdb" (with_msps [zero_msp] two_nodes) _ ["n1"]).
  - vm_compute. reflexivity.
  - intros w. by exists (cl_msps w), w.
  - intros p w. by exists p, w.
Defined.

(** The pod is deleted at the first look; a running one is found at the first look. *)
Lemma delete_pod_gone_witness :
  ∃ s', run (DeletePod "fio" "default" 30) two_nodes = (Ret None, s').
Proof.
  apply (proj2 (delete_pod_gone "fio" "default" 30 two_nodes) 0%nat); [done|lia|].
  by exists [].
Defined.

Definition with_fio : Cluster :=
  with_pods (inr [demo_pod "fio" "uid-1" PodRunning 0]) two_nodes.

Lemma wait_for_pod_ready_witness :
  ∃ s', run (WaitForPodReady "fio" "default") with_fio =
    (Ret (Some (demo_pod "fio" "uid-1" PodRunning 0), None), s').
Proof.
  apply (proj2 (wait_for_pod_ready "fio" "default" with_fio) 0%nat); [lia|lia|].
  exists [demo_pod "fio" "uid-1" PodRunning 0]. split; reflexivity.
Defined.

Lemma retry_backoff_spec_witness :
  ∃ s', run (retryBackoff (kube_call None (grpc_ListReplicas "10.0.0.1" 0)) None) stuck_replica =
  (Ret (Some (cl_replicas stuck_replica), None), s').
Proof.
  exists stuck_replica.
  refine (proj1 (retry_backoff_spec None (grpc_ListReplicas "10.0.0.1" 0) None stuck_replica)
    0%nat _ _ _); [lia|lia|reflexivity].
Defined.
