(* ===== verification/WorkloadList.v ===== *)
(** * The list of workloads (workload_monitor/list/workload_list.go)

    A map of registrants to maps of workloads, guarded by one mutex.  The two levels
    implement a flat map keyed by registrant and workload. *)

From stdpp Require Import base gmap strings list.
From S2P Require Import Prelude GoLib Kube.

Record Workload := mkWorkload {
  WlID : string;
  WlName : string;
  WlNamespace : string;
  Violations : list string;
}.
Record WorkloadListItem := mkItem { Restarts : Z; Wl : Workload; Rid : string }.
Notation WorkloadMap := (gmap string (gmap string WorkloadListItem)).

Record WmState (W : Type) := mkWm { wm_map : WorkloadMap; wm_locked : bool; wm_world : W }.
Arguments mkWm {W} _ _ _.
Arguments wm_map {W} _.
Arguments wm_locked {W} _.
Arguments wm_world {W} _.

#[export] Program Instance wm_has_world W : HasWorld (WmState W) W := {
  world := wm_world;
  set_world w s := mkWm (wm_map s) (wm_locked s) w;
}.
Next Obligation. done. Qed.
Next Obligation. by intros W []. Qed.
Next Obligation. done. Qed.

Definition set_map {W} (f : WorkloadMap → WorkloadMap) (s : WmState W) : WmState W :=
  mkWm (f (wm_map s)) (wm_locked s) (wm_world s).
Definition set_locked {W} (b : bool) (s : WmState W) : WmState W :=
  mkWm (wm_map s) b (wm_world s).

(** ** Operations *)

Definition AddToWorkloadList (pwl : Workload) (rid wid : string) (m : WorkloadMap)
    : WorkloadMap :=
  let m := match m !! rid with None => <[rid := ∅]> m | Some _ => m end in
  <[rid := <[wid := mkItem 0 pwl rid]> (default ∅ (m !! rid))]> m.

Definition SetWorkloadListItemRestarts (rid wid : string) (restarts : Z) (m : WorkloadMap)
    : bool * WorkloadMap :=
  match m !! rid with
  | Some wlmap =>
      match wlmap !! wid with
      | Some wli => (true, <[rid := <[wid := mkItem restarts (Wl wli) (Rid wli)]> wlmap]> m)
      | None => (false, m)
      end
  | None => (false, m)
  end.

Definition GetWorkload (rid wid : string) (m : WorkloadMap) : option Workload :=
  match m !! rid with
  | Some wlmap => Wl <$> wlmap !! wid
  | None => None
  end.

Definition DeleteWorkload (rid wid : string) (m : WorkloadMap) : WorkloadMap :=
  match m !! rid with
  | Some wlmap => <[rid := delete wid wlmap]> m
  | None => m
  end.

Definition DeleteWorkloads (rid : string) (m : WorkloadMap) : Z * WorkloadMap :=
  match m !! rid with
  | Some wlmap => (Z.of_nat (size wlmap), delete rid m)
  | None => (0%Z, m)
  end.

Section Ranges.
Context {W : Type} `{MapRange W}.
Notation M := (prog (WmState W)).

(** The values of a map in the order [range] gives. *)
Definition range_values {A} (m : gmap string A) : M (list A) :=
  l ← range_map m; mret (map snd l).

Definition GetWorkloadListByRegistrant (rid : string) : M (list Workload) :=
  m ← reads wm_map;
  match m !! rid with
  | Some wlmap => l ← range_values wlmap; mret (map Wl l)
  | None => mret []
  end.

(** The items of every registrant, one registrant after the other. *)
Definition GetWorkloadItemList : M (list WorkloadListItem) :=
  m ← reads wm_map;
  wlmaps ← range_values m;
  r ← for_range wlmaps [] (λ wlmap list_,
        l ← range_values wlmap; mret (Next (list_ ++ l)%list));
  no_return r.

Definition GetWorkloadList : M (list Workload) :=
  m ← reads wm_map;
  wlmaps ← range_values m;
  r ← for_range wlmaps [] (λ wlmap list_,
        l ← range_values wlmap; mret (Next (list_ ++ map Wl l)%list));
  no_return r.

(** Two nested loops over the maps; entries are deleted as they are visited. *)
Definition DeleteWorkloadById (ID : string) : M unit :=
  m ← reads wm_map;
  wlmaps ← range_map m;
  r ← for_range wlmaps tt (λ '(rid, wlmap) _,
        l ← range_map wlmap;
        r ← for_range l tt (λ '(wid, wli) _,
              if decide (WlID (Wl wli) = ID)
              then updates (set_map (DeleteWorkload rid wid)) ;; mret (Next tt)
              else mret (Next tt));
        no_return r ;; mret (Next tt));
  no_return r.

(** ** The mutex *)

Definition Lock : M unit :=
  guarded (λ s, if wm_locked s then None else Some (tt, set_locked true s)).
Definition Unlock : M unit := updates (set_locked false).
End Ranges.

(** ** The flat map the two levels implement *)

Definition flat (m : WorkloadMap) : gmap (string * string) WorkloadListItem :=
  map_uncurry (M1 := gmap string) (M2 := gmap string) (M12 := gmap (string * string)) m.

Lemma flat_lookup m rid wid : flat m !! (rid, wid) = m !! rid ≫= (.!! wid).
Proof. apply lookup_map_uncurry. Qed.

Lemma flat_Add pwl rid wid m :
  flat (AddToWorkloadList pwl rid wid m) = <[(rid, wid) := mkItem 0 pwl rid]> (flat m).
Proof.
  unfold AddToWorkloadList. apply map_eq. intros [r w].
  rewrite lookup_insert, !flat_lookup.
  destruct (m !! rid) as [wlmap|] eqn:E; rewrite ?lookup_insert;
    destruct (decide (rid = r)) as [->|]; simpl.
  - rewrite E. simpl. rewrite lookup_insert. repeat case_decide; naive_solver.
  - rewrite decide_False by naive_solver. done.
  - rewrite decide_True by done. simpl.
    rewrite lookup_insert. repeat case_decide; simplify_eq/=; try done.
    rewrite E. simpl. by rewrite lookup_empty.
  - rewrite decide_False by naive_solver. done.
Qed.

Lemma flat_SetRestarts rid wid restarts m :
  (SetWorkloadListItemRestarts rid wid restarts m).1 =
    bool_decide (is_Some (flat m !! (rid, wid))) ∧
  flat (SetWorkloadListItemRestarts rid wid restarts m).2 =
    alter (λ wli, mkItem restarts (Wl wli) (Rid wli)) (rid, wid) (flat m).
Proof.
  rewrite flat_lookup. unfold SetWorkloadListItemRestarts.
  destruct (m !! rid) as [wlmap|] eqn:E; simpl.
  - destruct (wlmap !! wid) as [wli|] eqn:Ew; simpl.
    + split; [done|].
      apply map_eq. intros [r w]. rewrite lookup_alter, !flat_lookup, lookup_insert.
      destruct (decide (rid = r)) as [<-|]; simpl.
      * rewrite E. simpl. rewrite lookup_insert. repeat case_decide; simplify_eq/=; try done.
        by rewrite Ew.
      * by rewrite decide_False by naive_solver.
    + split; [done|]. rewrite alter_id; [done|]. rewrite flat_lookup, E. simpl. congruence.
  - split; [done|]. rewrite alter_id; [done|]. rewrite flat_lookup, E. simpl. congruence.
Qed.

Lemma GetWorkload_flat rid wid m : GetWorkload rid wid m = Wl <$> flat m !! (rid, wid).
Proof. rewrite flat_lookup. unfold GetWorkload. by destruct (m !! rid). Qed.

Lemma flat_Delete rid wid m : flat (DeleteWorkload rid wid m) = delete (rid, wid) (flat m).
Proof.
  unfold DeleteWorkload. apply map_eq. intros [r w].
  rewrite lookup_delete, !flat_lookup.
  destruct (m !! rid) as [wlmap|] eqn:E; rewrite ?flat_lookup, ?lookup_insert.
  - destruct (decide (rid = r)) as [<-|]; simpl.
    + rewrite E. simpl. rewrite lookup_delete. repeat case_decide; naive_solver.
    + by rewrite decide_False by naive_solver.
  - case_decide; simplify_eq/=; [by rewrite E|done].
Qed.

Lemma flat_DeleteWorkloads rid m :
  flat (DeleteWorkloads rid m).2 = filter (λ kv, kv.1.1 ≠ rid) (flat m).
Proof.
  apply map_eq. intros [r w]. rewrite map_lookup_filter, !flat_lookup.
  unfold DeleteWorkloads.
  destruct (m !! rid) as [wlmap|] eqn:E; simpl; rewrite ?lookup_delete.
  - destruct (decide (rid = r)) as [<-|]; simpl.
    + rewrite E. simpl. destruct (wlmap !! w); simpl; [|done].
      by rewrite option_guard_False by naive_solver.
    + destruct (m !! r ≫= (.!! w)) eqn:Ew; rewrite ?Ew; simpl; [|done].
      by rewrite option_guard_True by naive_solver.
  - destruct (m !! r ≫= (.!! w)) eqn:Ew; simpl; [|done].
    rewrite option_guard_True; [done|]. simpl. intros ->. by rewrite E in Ew.
Qed.

Lemma flat_registrant rid m wlmap :
  m !! rid = Some wlmap → filter (λ kv, kv.1.1 = rid) (flat m) = kmap (pair rid) wlmap.
Proof.
  intros E. apply map_eq. intros [r w]. rewrite map_lookup_filter, flat_lookup.
  destruct (decide (r = rid)) as [->|Hr].
  - rewrite E. simpl. rewrite (lookup_kmap (pair rid)).
    destruct (wlmap !! w); simpl; [|done]. by rewrite option_guard_True by done.
  - rewrite (proj2 (lookup_kmap_None (pair rid) _ _)); [|naive_solver].
    destruct (m !! r ≫= (.!! w)); simpl; [|done].
    by rewrite option_guard_False by done.
Qed.

Lemma DeleteWorkloads_count rid m :
  (DeleteWorkloads rid m).1 = Z.of_nat (size (filter (λ kv, kv.1.1 = rid) (flat m))).
Proof.
  unfold DeleteWorkloads. destruct (m !! rid) as [wlmap|] eqn:E; simpl.
  - rewrite (flat_registrant _ _ _ E), <- !length_map_to_list.
    by rewrite (map_to_list_kmap (pair rid)), length_fmap.
  - rewrite (proj2 (map_size_empty_iff _)); [done|]. apply map_eq. intros [r w].
    rewrite map_lookup_filter, flat_lookup, lookup_empty.
    destruct (m !! r ≫= (.!! w)) eqn:Ew; simpl; [|done].
    rewrite option_guard_False; [done|]. simpl. intros ->. by rewrite E in Ew.
Qed.

(** ** Well-formed lists: every item is filed under its registrant and workload *)

Definition wl_ok (m : WorkloadMap) : Prop :=
  ∀ rid wid wli, flat m !! (rid, wid) = Some wli → Rid wli = rid ∧ WlID (Wl wli) = wid.

Lemma wl_ok_Add pwl rid wid m :
  wl_ok m → WlID pwl = wid → wl_ok (AddToWorkloadList pwl rid wid m).
Proof.
  intros Hm Hw r w wli. rewrite flat_Add, lookup_insert.
  case_decide; [|apply Hm]. intros. by simplify_eq/=.
Qed.
Lemma wl_ok_SetRestarts rid wid n m :
  wl_ok m → wl_ok (SetWorkloadListItemRestarts rid wid n m).2.
Proof.
  intros Hm r w wli. destruct (flat_SetRestarts rid wid n m) as [_ ->].
  rewrite lookup_alter. case_decide; [simplify_eq|apply Hm].
  intros Hw. apply fmap_Some in Hw as (wli' & Hw & ->). by apply (Hm r w wli').
Qed.
Lemma wl_ok_Delete rid wid m : wl_ok m → wl_ok (DeleteWorkload rid wid m).
Proof.
  intros Hm r w wli. rewrite flat_Delete, lookup_delete. case_decide; [done|apply Hm].
Qed.
Lemma wl_ok_DeleteWorkloads rid m : wl_ok m → wl_ok (DeleteWorkloads rid m).2.
Proof.
  intros Hm r w wli. rewrite flat_DeleteWorkloads.
  intros [? _]%map_lookup_filter_Some. by apply Hm.
Qed.

(** ** Programs on the list *)

Section Programs.
Context {W : Type} `{MapRange W}.
Implicit Types s : WmState W.

Lemma run_range_map {A} (m : gmap string A) s :
  run (range_map m) s = (Ret (map_order m (world s)).1, set_world (map_order m (world s)).2 s).
Proof. apply run_outside. Qed.

Lemma run_range_values {A} (m : gmap string A) s :
  ∃ l w, run (range_values m) s = (Ret l, set_world w s) ∧ l ≡ₚ (map_to_list m).*2.
Proof.
  unfold range_values, range_map. rewrite run_bind, run_outside. cbn [seq_run].
  eexists _, _. split; [done|]. by rewrite map_order_perm.
Qed.

Lemma run_item_loop {B} (f : list WorkloadListItem → list B) (ms : list (gmap string WorkloadListItem))
    (acc : list B) s :
  (∀ l1 l2, l1 ≡ₚ l2 → f l1 ≡ₚ f l2) →
  ∃ l w, run (for_range ms acc (λ wlmap list_,
             l ← range_values wlmap; mret (Next (R := Empty_set) (list_ ++ f l)%list))) s =
           (Ret (inl l), set_world w s) ∧
         l ≡ₚ (acc ++ concat (map (λ m, f (map_to_list m).*2) ms))%list.
Proof.
  intros Hf. revert acc s. induction ms as [|m ms IH]; intros acc s.
  - exists acc, (wm_world s). split; [by destruct s|]. simpl. by rewrite app_nil_r.
  - rewrite run_for_range_cons, run_bind.
    destruct (run_range_values m s) as (l & w & -> & Hl). cbn [seq_run].
    rewrite run_done. cbn [seq_run].
    destruct (IH (acc ++ f l)%list (set_world w s)) as (l' & w' & -> & Hl').
    exists l', w'. split; [done|]. rewrite Hl'. simpl.
    by rewrite (Hf _ _ Hl), (assoc_L (++)).
Qed.

(** Everything under some registrant and workload, each item once. *)
Lemma flat_items m :
  concat (map (λ wl, (map_to_list wl).*2) (map_to_list m).*2) ≡ₚ (map_to_list (flat m)).*2.
Proof.
  induction m as [|rid wlmap m Hrid IH] using map_ind; [done|].
  rewrite map_to_list_insert by done. simpl. rewrite IH. clear IH.
  induction wlmap as [|wid x wlmap Hwid IH] using map_ind.
  - rewrite map_to_list_empty. simpl. do 2 f_equiv. apply map_eq. intros [r w].
    rewrite !flat_lookup, lookup_insert. case_decide; [subst r|done].
    by rewrite Hrid.
  - assert (Hflat : flat (<[rid := <[wid := x]> wlmap]> m) =
                    <[(rid, wid) := x]> (flat (<[rid := wlmap]> m))).
    { apply map_eq. intros [r w]. rewrite lookup_insert, !flat_lookup, !lookup_insert.
      destruct (decide (rid = r)) as [<-|]; simpl; rewrite ?lookup_insert;
        repeat case_decide; naive_solver. }
    rewrite Hflat, !map_to_list_insert; [| |done].
    + simpl. by rewrite IH.
    + rewrite flat_lookup, lookup_insert, decide_True by done. done.
Qed.

Lemma run_GetWorkloadItemList s :
  ∃ l w, run GetWorkloadItemList s = (Ret l, set_world w s) ∧
         l ≡ₚ (map_to_list (flat (wm_map s))).*2.
Proof.
  unfold GetWorkloadItemList. rewrite run_bind, run_reads. cbn [seq_run].
  rewrite run_bind. destruct (run_range_values (wm_map s) s) as (ms & w & -> & Hms).
  cbn [seq_run]. rewrite run_bind.
  destruct (run_item_loop (λ l, l) ms [] (set_world w s)) as (l & w' & Hrun & Hl); [done|].
  rewrite Hrun. cbn [seq_run]. exists l, w'. split; [done|].
  rewrite Hl, <- flat_items. simpl. by rewrite Hms.
Qed.

Lemma run_GetWorkloadList s :
  ∃ l w, run GetWorkloadList s = (Ret l, set_world w s) ∧
         l ≡ₚ map Wl (map_to_list (flat (wm_map s))).*2.
Proof.
  unfold GetWorkloadList. rewrite run_bind, run_reads. cbn [seq_run].
  rewrite run_bind. destruct (run_range_values (wm_map s) s) as (ms & w & -> & Hms).
  cbn [seq_run]. rewrite run_bind.
  destruct (run_item_loop (map Wl) ms [] (set_world w s)) as (l & w' & Hrun & Hl).
  { intros l1 l2 Hp. by rewrite Hp. }
  rewrite Hrun. cbn [seq_run]. exists l, w'. split; [done|].
  rewrite Hl, <- flat_items. simpl. rewrite Hms.
  rewrite concat_map. by rewrite !map_map.
Qed.

(** ** Deleting by workload *)

Definition doomed (ID rid : string) (l : list (string * WorkloadListItem))
    : list (string * string) :=
  map (λ kv, (rid, kv.1)) (filter (λ kv, WlID (Wl kv.2) = ID) l).
Definition delete_keys (ks : list (string * string)) (m : WorkloadMap) : WorkloadMap :=
  foldl (λ m k, DeleteWorkload k.1 k.2 m) m ks.

Lemma flat_delete_keys ks m k :
  flat (delete_keys ks m) !! k = if decide (k ∈ ks) then None else flat m !! k.
Proof.
  unfold delete_keys. revert m. induction ks as [|[r w] ks IH]; intros m; [done|].
  simpl. rewrite IH, flat_Delete, lookup_delete.
  repeat case_decide; try done; set_solver.
Qed.

Lemma run_delete_inner ID rid l s :
  run (for_range l tt (λ '(wid, wli) _,
         if decide (WlID (Wl wli) = ID)
         then updates (set_map (DeleteWorkload rid wid)) ;; mret (Next (R := Empty_set) tt)
         else mret (Next tt))) s =
  (Ret (inl tt), set_map (delete_keys (doomed ID rid l)) s).
Proof.
  revert s. induction l as [|[wid wli] l IH]; intros s; [by destruct s|].
  rewrite run_for_range_cons. unfold doomed. rewrite filter_cons. simpl.
  case_decide; simpl; by rewrite IH.
Qed.

Lemma run_delete_outer ID (ms : list (string * gmap string WorkloadListItem)) s :
  ∃ ks w, run (for_range ms tt (λ '(rid, wlmap) _,
        l ← range_map wlmap;
        r ← for_range l tt (λ '(wid, wli) _,
              if decide (WlID (Wl wli) = ID)
              then updates (set_map (DeleteWorkload rid wid)) ;; mret (Next (R := Empty_set) tt)
              else mret (Next tt));
        no_return r ;; mret (Next (R := Empty_set) tt))) s =
    (Ret (inl tt), set_world w (set_map (delete_keys ks) s)) ∧
    ∀ rid wid, (rid, wid) ∈ ks ↔
      ∃ wlmap wli, (rid, wlmap) ∈ ms ∧ wlmap !! wid = Some wli ∧ WlID (Wl wli) = ID.
Proof.
  revert s. induction ms as [|[rid wlmap] ms IH]; intros s.
  { exists [], (wm_world s). split; [by destruct s|]. set_solver. }
  rewrite run_for_range_cons. rewrite !run_bind, run_range_map.
  cbn [seq_run]. pose proof (map_order_perm wlmap (world s)) as Hl.
  destruct (map_order wlmap (world s)) as [l w]. cbn [fst snd] in *.
  rewrite run_bind, run_delete_inner. cbn [seq_run no_return].
  rewrite run_bind, run_done. cbn [seq_run]. rewrite run_done. cbn [seq_run].
  destruct (IH (set_map (delete_keys (doomed ID rid l)) (set_world w s)))
    as (ks & w' & -> & Hks).
  exists (doomed ID rid l ++ ks)%list, w'. split.
  - unfold set_map, delete_keys. simpl. by rewrite foldl_app.
  - intros r wid. rewrite elem_of_app, Hks. unfold doomed. rewrite list_elem_of_fmap.
    setoid_rewrite list_elem_of_filter. setoid_rewrite Hl.
    setoid_rewrite elem_of_cons. split.
    + intros [([w0 wli] & Heq & HID & Hin)|(wm & wli & Hin & Hw & HID)].
      * simplify_eq/=. apply elem_of_map_to_list in Hin. eauto 6.
      * eauto 6.
    + intros (wm & wli & [Heq|Hin] & Hw & HID); [left|right; eauto].
      simplify_eq. exists (wid, wli). split_and!; [done|done|].
      by apply elem_of_map_to_list.
Qed.

(** The loops delete exactly the items of that workload, whatever order they run in. *)
Lemma run_DeleteWorkloadById ID s :
  ∃ m w, run (DeleteWorkloadById ID) s = (Ret tt, set_world w (set_map (λ _, m) s)) ∧
         flat m = filter (λ kv, WlID (Wl kv.2) ≠ ID) (flat (wm_map s)).
Proof.
  unfold DeleteWorkloadById. rewrite run_bind, run_reads. cbn [seq_run].
  rewrite run_bind, run_range_map. cbn [seq_run].
  pose proof (map_order_perm (wm_map s) (world s)) as Hms.
  destruct (map_order (wm_map s) (world s)) as [ms w]. cbn [fst snd] in *.
  rewrite run_bind.
  destruct (run_delete_outer ID ms (set_world w s)) as (ks & w' & -> & Hks).
  exists (delete_keys ks (wm_map s)), w'. split; [done|].
  apply map_eq. intros [rid wid]. rewrite flat_delete_keys, map_lookup_filter.
  specialize (Hks rid wid). setoid_rewrite Hms in Hks.
  setoid_rewrite elem_of_map_to_list in Hks.
  destruct (flat (wm_map s) !! (rid, wid)) as [wli|] eqn:E; simpl; [|by case_match].
  rewrite flat_lookup in E. apply bind_Some in E as (wlmap & Hrid & Hwid).
  destruct (decide (WlID (Wl wli) = ID)) as [HID|HID].
  - rewrite decide_True by (apply Hks; eauto). by rewrite option_guard_False by tauto.
  - rewrite decide_False; [by rewrite option_guard_True by tauto|].
    rewrite Hks. naive_solver.
Qed.
End Programs.
