(* ===== verification/WorkloadMonitor.v ===== *)
(** * The workload monitor (workload_monitor)

    The REST handlers (handlers/workload_handler.go) and the polling loop
    (wm/workload_monitor.go).  Both run as goroutines that share the list under its
    mutex. *)

From stdpp Require Import base gmap strings list pretty.
From S2P Require Import Prelude GoLib Json Http Models Kube K8sPods DirectorLib WorkloadList.

Definition WorkloadViolationEnumRESTARTED : string := "RESTARTED".
Definition WorkloadViolationEnumTERMINATED : string := "TERMINATED".
Definition WorkloadViolationEnumNOTPRESENT : string := "NOT_PRESENT".

Inductive WmResponder : Type :=
| PutWorkloadByRegistrantOK (wl : Workload)
| PutWorkloadByRegistrantBadRequest (outcome : RequestOutcome)
| GetWorkloadByRegistrantOK (wl : Workload)
| GetWorkloadByRegistrantNotFound
| GetWorkloadsByRegistrantOK (wll : list Workload)
| GetWorkloadsOK (wll : list Workload)
| DeleteWorkloadByRegistrantOK (wl : Workload)
| DeleteWorkloadByRegistrantNotFound
| DeleteWorkloadsByRegistrantOK (outcome : RequestOutcome)
| MonitorPassed.

Section Monitor.
Context {W : Type} `{MapRange W} `{Kube W} `{Clock W} `{TdClient W} `{LocalTime}.
Notation M := (prog (WmState W)).

(** ** workload_handler.go *)

Definition wm_refused (details : string) : RequestOutcome :=
  mkRequestOutcome details (Some 1%Z) RequestOutcomeResultREFUSED.

Definition putWorkloadByRegistrant (rid wid : string) (body : option (list string))
    : M WmResponder :=
  match body with
  | None => mret (PutWorkloadByRegistrantBadRequest (wm_refused "Body not provided"))
  | Some violations =>
      '(name, namespace, err) ← GetPodNameAndNamespaceFromUuid wid;
      match err with
      | Some e => mret (PutWorkloadByRegistrantBadRequest (wm_refused (err_text e)))
      | None =>
          let wl := mkWorkload wid name namespace violations in
          Lock ;;
          updates (set_map (AddToWorkloadList wl rid wid)) ;;
          Unlock ;;
          mret (PutWorkloadByRegistrantOK wl)
      end
  end.

Definition getWorkloadByRegistrant (rid wid : string) : M WmResponder :=
  Lock ;;
  pwl ← reads (λ s, GetWorkload rid wid (wm_map s));
  Unlock ;;
  match pwl with
  | Some wl => mret (GetWorkloadByRegistrantOK wl)
  | None => mret GetWorkloadByRegistrantNotFound
  end.

Definition getWorkloadsByRegistrant (rid : string) : M WmResponder :=
  Lock ;; wll ← GetWorkloadListByRegistrant rid; Unlock ;;
  mret (GetWorkloadsByRegistrantOK wll).

Definition getWorkloads : M WmResponder :=
  Lock ;; wll ← GetWorkloadList; Unlock ;; mret (GetWorkloadsOK wll).

Definition deleteWorkloadByRegistrant (rid wid : string) : M WmResponder :=
  Lock ;;
  pwl ← reads (λ s, GetWorkload rid wid (wm_map s));
  (match pwl with
   | Some _ => updates (set_map (DeleteWorkload rid wid))
   | None => mret tt
   end) ;;
  Unlock ;;
  match pwl with
  | Some wl => mret (DeleteWorkloadByRegistrantOK wl)
  | None => mret DeleteWorkloadByRegistrantNotFound
  end.

Definition deleteWorkloadsByRegistrant (rid : string) : M WmResponder :=
  Lock ;;
  items ← action (λ s, ((DeleteWorkloads rid (wm_map s)).1,
                        set_map (λ m, (DeleteWorkloads rid m).2) s));
  Unlock ;;
  mret (DeleteWorkloadsByRegistrantOK (mkRequestOutcome "" (Some items) "OK")).

(** ** workload_monitor.go *)

Definition notify (wli : WorkloadListItem) (message : string) : M error :=
  SendEventFail (Rid wli) message EventSourceClassEnumWorkloadDashMonitor.

Definition restart_count (pod : Pod) : Z :=
  foldl (λ n c, wrap32 (n + RestartCount c)) 0%Z (ContainerStatuses (pod_status pod)).

(** The count is recorded whether or not the event could be sent. *)
Definition check_restarted (wli : WorkloadListItem) : M WorkloadListItem :=
  '(pod, present, _) ← GetPodByUuid (WlID (Wl wli));
  if present : bool then
    pod ← deref pod;
    let n := restart_count pod in
    if decide (n ≠ Restarts wli) then
      notify wli ("pod " +:+ WlName (Wl wli) +:+ " restarted " +:+ Itoa n +:+ " time(s)") ;;
      updates (set_map (λ m, (SetWorkloadListItemRestarts (Rid wli) (WlID (Wl wli)) n m).2)) ;;
      mret (mkItem n (Wl wli) (Rid wli))
    else mret wli
  else mret wli.

(** An event that was sent ends the watch on the workload. *)
Definition notify_and_delete (wli : WorkloadListItem) (message : string) : M unit :=
  err ← notify wli message;
  match err with
  | Some _ => mret tt
  | None => DeleteWorkloadById (WlID (Wl wli))
  end.

Definition check_terminated (wli : WorkloadListItem) : M unit :=
  '(podstatus, present, _) ← GetPodStatus (WlID (Wl wli));
  if present : bool then
    if decide (podstatus = PodFailed)
    then notify_and_delete wli ("pod " +:+ WlName (Wl wli) +:+ " terminated")
    else mret tt
  else mret tt.

(** The error of the look-up is only printed. *)
Definition check_present (wli : WorkloadListItem) : M unit :=
  '(present, _) ← GetPodExistsByUuid (WlID (Wl wli));
  if present : bool then mret tt
  else notify_and_delete wli ("pod " +:+ WlName (Wl wli) +:+ " absent").

Definition check_violation (spec : string) (wli : WorkloadListItem) : M WorkloadListItem :=
  if decide (spec = WorkloadViolationEnumRESTARTED) then check_restarted wli
  else if decide (spec = WorkloadViolationEnumTERMINATED)
  then check_terminated wli ;; mret wli
  else if decide (spec = WorkloadViolationEnumNOTPRESENT)
  then check_present wli ;; mret wli
  else mret wli.

Definition check_item (wli : WorkloadListItem) : M unit :=
  r ← for_range (Violations (Wl wli)) wli (λ spec wli,
        wli ← check_violation spec wli; mret (Next wli));
  no_return r ;; mret tt.

(** One round of the loop of [StartMonitor], after the pause. *)
Definition monitor_pass : M unit :=
  Lock ;;
  list_ ← GetWorkloadItemList;
  r ← for_range list_ tt (λ wli _, check_item wli ;; mret (Next tt));
  no_return r ;;
  Unlock.

(** The loop never ends; [fuel] bounds its rounds. *)
Definition StartMonitor (fuel : nat) : M unit :=
  r ← for_fuel fuel 0 tt (λ _ _, time_Sleep (10 * Second) ;; monitor_pass ;; mret (Next tt));
  no_return r.

(** ** Start and end of the monitor *)

(** No part of the program sets it. *)
Definition current_registrant : option string := None.

Definition WaitSignal (exitCode : Z) : M unit :=
  if decide (exitCode ≠ 0%Z) then
    rid ← deref current_registrant;
    SendEventFail rid "workload monitor terminated"
      EventSourceClassEnumWorkloadDashMonitor ;;
    mret tt
  else mret tt.

Definition testDirectorPort : Z := 8080.

(** The address of the director; [config] is what the cluster gives the process. *)
Definition NewWorkloadMonitor (config : option unit * error) : M (option string * error) :=
  match config with
  | (_, Some _) => mret (None, errorf "failed to get cluster config")
  | (None, None) => mret (None, errorf "rest config is nil")
  | (Some _, None) =>
      '(pod, err) ← WaitForPodReady "test-director" EtfwNamespace;
      match err with
      | Some e => mret (None, errorf ("failed to get test-director, error: " +:+ err_text e))
      | None =>
          pod ← deref pod;
          mret (Some (PodIP (pod_status pod) +:+ ":" +:+ Itoa testDirectorPort), None)
      end
  end.

(** ** Requests *)

Inductive wm_request : Type :=
| RqPutWorkload (rid wid : string) (body : option (list string))
| RqGetWorkload (rid wid : string)
| RqGetWorkloadsByRegistrant (rid : string)
| RqGetWorkloads
| RqDeleteWorkload (rid wid : string)
| RqDeleteWorkloads (rid : string)
| PollOnce.

Definition wm_serve (r : wm_request) : M WmResponder :=
  match r with
  | RqPutWorkload rid wid body => putWorkloadByRegistrant rid wid body
  | RqGetWorkload rid wid => getWorkloadByRegistrant rid wid
  | RqGetWorkloadsByRegistrant rid => getWorkloadsByRegistrant rid
  | RqGetWorkloads => getWorkloads
  | RqDeleteWorkload rid wid => deleteWorkloadByRegistrant rid wid
  | RqDeleteWorkloads rid => deleteWorkloadsByRegistrant rid
  | PollOnce => monitor_pass ;; mret MonitorPassed
  end.
End Monitor.
