(* ===== verification/WmTheorems.v ===== *)
(** * The workload monitor: theorems

    The list under interleaved requests and polls: mutual exclusion and
    well-formedness.  What a poll reports: nothing for healthy workloads, and what it
    does when the cluster or the director cannot be reached. *)

From stdpp Require Import base gmap strings list pretty.
From S2P Require Import Prelude GoLib Json Http Models Kube K8sPods DirectorLib.
From S2P Require Import WorkloadList WorkloadMonitor MayastorClient ScriptedCluster.

(** ** Lock discipline *)

Section Discipline.
Context {W : Type}.
Notation State := (WmState W).

(** What an action may do, given whether its goroutine holds the lock before and
    after: without the lock it touches nothing but the environment. *)
Definition act_ok {X} (before after : bool) (f : State → option (X * State)) : Prop :=
  match before, after with
  | false, false =>
      ∃ g : W → X * W, ∀ s, f s = Some ((g (wm_world s)).1, set_world (g (wm_world s)).2 s)
  | false, true =>
      ∀ s x s', f s = Some (x, s') →
        wm_locked s = false ∧ wm_locked s' = true ∧ wm_map s' = wm_map s
  | true, false =>
      ∀ s x s', f s = Some (x, s') → wm_locked s' = false ∧ wm_map s' = wm_map s
  | true, true => ∀ s x s', f s = Some (x, s') → wm_locked s' = wm_locked s
  end.

(** A program that starts without or with the lock and ends without or with it. *)
Fixpoint disciplined {A} (held ends : bool) (p : prog State A) : Prop :=
  match p with
  | Done _ => held = ends
  | Panic _ | NoFuel => True
  | Act f k => ∃ held', act_ok held held' f ∧ ∀ x, disciplined held' ends (k x)
  end.

Lemma dis_bind {A B} h1 h2 h3 (p : prog State A) (k : A → prog State B) :
  disciplined h1 h2 p → (∀ a, disciplined h2 h3 (k a)) → disciplined h1 h3 (p ≫= k).
Proof.
  unfold mbind, prog_mbind. intros Hp Hk. revert h1 Hp.
  induction p as [a|why| |X f k' IH]; intros h1 Hp; simpl in *.
  - subst. apply Hk.
  - done.
  - done.
  - destruct Hp as (h & Hf & Hp). exists h. split; [done|]. intros x. by apply IH.
Qed.
Lemma dis_ret {A} h (a : A) : disciplined h h (mret (M := prog State) a).
Proof. done. Qed.
Lemma dis_deref {A} h (x : option A) : disciplined (A := A) h h (deref x).
Proof. by destruct x. Qed.
Lemma dis_outside {A} h (f : W → A * W) : disciplined (A := A) h h (outside f).
Proof.
  exists h. split; [|done]. destruct h; simpl.
  - intros s x s' [= _ <-]. done.
  - exists f. done.
Qed.
Lemma dis_reads {A} (f : State → A) : disciplined true true (reads f).
Proof. exists true. split; [|done]. simpl. by intros s x s' [= _ <-]. Qed.
Lemma dis_action {A} (f : State → A * State) :
  (∀ s, wm_locked (f s).2 = wm_locked s) → disciplined true true (action f).
Proof. intros Hf. exists true. split; [|done]. simpl. intros s x s' [= Heq].
  specialize (Hf s). by rewrite Heq in Hf. Qed.
Lemma dis_set_map f : disciplined true true (updates (set_map f)).
Proof. by apply dis_action. Qed.
Lemma dis_for_range {A B R} h (l : list A) (b : B) (body : A → B → prog State (ctl B R)) :
  (∀ x b, disciplined h h (body x b)) → disciplined h h (for_range l b body).
Proof.
  intros Hbody. revert b. induction l as [|x l IH]; intros b; simpl; [done|].
  eapply dis_bind; [apply Hbody|]. intros [b'|b'|r]; [apply IH|done..].
Qed.
End Discipline.

Ltac solve_dis :=
  repeat first
    [ progress intros
    | apply dis_ret
    | apply dis_deref
    | apply dis_outside
    | apply dis_reads
    | apply dis_set_map
    | apply dis_for_range
    | exact I
    | match goal with
      | |- disciplined _ _ (match ?x with _ => _ end) => destruct x
      | |- disciplined _ _ ((match ?x with _ => _ end) _) => destruct x
      | |- disciplined _ _ (let _ := _ in _) => cbv zeta
      end
    | solve [eauto with dis nocore]
    | eapply dis_bind ].

Create HintDb dis discriminated.

Section Mutex.
Context {W : Type} `{MapRange W} `{Kube W} `{Clock W} `{TdClient W} `{LocalTime}.
Notation State := (WmState W).

Lemma dis_Lock : disciplined false true (Lock (W := W)).
Proof.
  exists true. split; [|done]. simpl. intros s x s'.
  destruct (wm_locked s) eqn:E; [done|]. by intros [= _ <-].
Qed.
Lemma dis_Unlock : disciplined true false (Unlock (W := W)).
Proof. exists false. split; [|done]. simpl. by intros s x s' [= _ <-]. Qed.
Hint Resolve dis_Lock dis_Unlock : dis.

Section Calls.
Context (h : bool).
Lemma dis_kube_call {A} (zero : A) f : disciplined (W := W) h h (kube_call zero f).
Proof. unfold kube_call. solve_dis. Qed.
Hint Resolve dis_kube_call : dis.
Lemma dis_GetPodByUuid u : disciplined (W := W) h h (GetPodByUuid u).
Proof. unfold GetPodByUuid. solve_dis. Qed.
Hint Resolve dis_GetPodByUuid : dis.
Lemma dis_GetPodStatus u : disciplined (W := W) h h (GetPodStatus u).
Proof. unfold GetPodStatus. solve_dis. Qed.
Lemma dis_GetPodExists u : disciplined (W := W) h h (GetPodExistsByUuid u).
Proof. unfold GetPodExistsByUuid. solve_dis. Qed.
Lemma dis_GetPodName u : disciplined (W := W) h h (GetPodNameAndNamespaceFromUuid u).
Proof. unfold GetPodNameAndNamespaceFromUuid. solve_dis. Qed.
Lemma dis_notify wli m : disciplined (W := W) h h (notify wli m).
Proof.
  unfold notify, SendEventFail, lib_SendEvent, getTime, time_Now, td_call, index.
  solve_dis.
Qed.
Lemma dis_range_map {A} (m : gmap string A) : disciplined (W := W) h h (range_map m).
Proof. apply dis_outside. Qed.
End Calls.
Hint Resolve dis_GetPodByUuid dis_GetPodStatus dis_GetPodExists dis_GetPodName dis_notify
  dis_range_map : dis.

Lemma dis_range_values {A} h (m : gmap string A) : disciplined (W := W) h h (range_values m).
Proof. unfold range_values. solve_dis. Qed.
Hint Resolve dis_range_values : dis.
Lemma dis_items : disciplined true true (GetWorkloadItemList (W := W)).
Proof. unfold GetWorkloadItemList, no_return. solve_dis. Qed.
Lemma dis_list : disciplined true true (GetWorkloadList (W := W)).
Proof. unfold GetWorkloadList, no_return. solve_dis. Qed.
Lemma dis_by_registrant rid :
  disciplined true true (GetWorkloadListByRegistrant (W := W) rid).
Proof. unfold GetWorkloadListByRegistrant. solve_dis. Qed.
Lemma dis_delete_by_id i : disciplined true true (DeleteWorkloadById (W := W) i).
Proof. unfold DeleteWorkloadById, no_return. solve_dis. Qed.
Hint Resolve dis_items dis_list dis_by_registrant dis_delete_by_id : dis.
Lemma dis_check_item wli : disciplined true true (check_item (W := W) wli).
Proof.
  unfold check_item, check_violation, check_restarted, check_terminated, check_present,
    notify_and_delete, no_return. solve_dis.
Qed.
Hint Resolve dis_check_item : dis.

Lemma dis_pass : disciplined false false (monitor_pass (W := W)).
Proof.
  unfold monitor_pass, no_return.
  eapply dis_bind; [apply dis_Lock|]. intros ?.
  eapply dis_bind; [apply dis_items|]. intros l.
  eapply (dis_bind _ true); [solve_dis|]. intros r.
  eapply (dis_bind _ true); [solve_dis|]. intros ?. apply dis_Unlock.
Qed.

Lemma dis_serve r : disciplined false false (wm_serve (W := W) r).
Proof.
  destruct r; cbn [wm_serve]; unfold putWorkloadByRegistrant, getWorkloadByRegistrant,
    getWorkloadsByRegistrant, getWorkloads, deleteWorkloadByRegistrant,
    deleteWorkloadsByRegistrant.
  - destruct body; [|done].
    eapply (dis_bind _ false); [apply dis_GetPodName|]. intros [[name ns] err].
    destruct err; [done|].
    eapply dis_bind; [apply dis_Lock|]. intros ?.
    eapply (dis_bind _ true); [apply dis_set_map|]. intros ?.
    eapply dis_bind; [apply dis_Unlock|]. done.
  - eapply dis_bind; [apply dis_Lock|]. intros ?.
    eapply (dis_bind _ true); [apply dis_reads|]. intros pwl.
    eapply dis_bind; [apply dis_Unlock|]. intros ?. by destruct pwl.
  - eapply dis_bind; [apply dis_Lock|]. intros ?.
    eapply (dis_bind _ true); [solve_dis|]. intros ?.
    eapply dis_bind; [apply dis_Unlock|]. done.
  - eapply dis_bind; [apply dis_Lock|]. intros ?.
    eapply (dis_bind _ true); [solve_dis|]. intros ?.
    eapply dis_bind; [apply dis_Unlock|]. done.
  - eapply dis_bind; [apply dis_Lock|]. intros ?.
    eapply (dis_bind _ true); [apply dis_reads|]. intros pwl.
    eapply (dis_bind _ true); [destruct pwl; [apply dis_set_map|done]|]. intros ?.
    eapply dis_bind; [apply dis_Unlock|]. intros ?. by destruct pwl.
  - eapply dis_bind; [apply dis_Lock|]. intros ?.
    eapply (dis_bind _ true); [by apply dis_action|]. intros ?.
    eapply dis_bind; [apply dis_Unlock|]. done.
  - eapply (dis_bind _ false); [apply dis_pass|]. done.
Qed.

(** Which goroutines hold the lock: none when it is free, one when it is taken. *)
Definition holders_ok (hs : list bool) (locked : bool) : Prop :=
  (∀ i j, hs !! i = Some true → hs !! j = Some true → i = j) ∧
  ((∃ i, hs !! i = Some true) → locked = true).

Lemma mutex_step {A} (ts ts' : list (prog State A)) s s' hs :
  pool_step (ts, s) (ts', s') → Forall2 (λ h t, disciplined h false t) hs ts →
  holders_ok hs (wm_locked s) →
  ∃ hs', Forall2 (λ h t, disciplined h false t) hs' ts' ∧ holders_ok hs' (wm_locked s') ∧
    (wm_map s' ≠ wm_map s → ∃ i, hs !! i = Some true).
Proof.
  intros Hstep Hd [Huniq Hlock].
  inversion Hstep as [ts1 s1 i X f k x s1' Hi Hf]; simplify_eq.
  destruct (Forall2_lookup_r _ _ _ _ _ Hd Hi) as (h & Hh & h' & Hact & Hk).
  exists (<[i := h']> hs). split; [by apply Forall2_insert|].
  assert (Hlen : i < length hs) by (by apply lookup_lt_Some in Hh).
  destruct h, h'; simpl in Hact.
  - specialize (Hact _ _ _ Hf). rewrite list_insert_id by done.
    split; [split; [done|by rewrite Hact]|eauto].
  - specialize (Hact _ _ _ Hf) as [Hl Hm]. split; [|congruence]. split.
    + intros a b Ha Hb. exfalso. apply list_lookup_insert_Some in Ha as [?|[Hne Ha]];
        [naive_solver|]. apply Hne. by apply Huniq.
    + intros [a Ha]. exfalso. apply list_lookup_insert_Some in Ha as [?|[Hne Ha]];
        [naive_solver|]. apply Hne. by apply Huniq.
  - specialize (Hact _ _ _ Hf) as (Hfree & Hl & Hm). split; [|congruence].
    assert (Hnone : ∀ a, hs !! a ≠ Some true).
    { intros a Ha. rewrite Hlock in Hfree by eauto. done. }
    split; [|done]. intros a b Ha Hb.
    apply list_lookup_insert_Some in Ha as [?|[_ Ha]]; [|by apply Hnone in Ha].
    apply list_lookup_insert_Some in Hb as [?|[_ Hb]]; [|by apply Hnone in Hb].
    naive_solver.
  - destruct Hact as [g Hg]. rewrite Hg in Hf. simplify_eq. simpl.
    rewrite list_insert_id by done. done.
Qed.

(** (C4) The requests and the polls of the monitor, interleaved in any way: at any
    time at most one goroutine holds the lock, and the list changes only in a step
    that starts while one holds it.  So a poll that has read the list sees it as the
    requests that came before left it, until it is done. *)
Theorem workload_list_mutex (reqs : list wm_request) s0 ts s :
  wm_locked s0 = false →
  rtc pool_step (map wm_serve reqs, s0) (ts, s) →
  ∃ hs, Forall2 (λ h t, disciplined h false t) hs ts ∧
    (∀ i j, hs !! i = Some true → hs !! j = Some true → i = j) ∧
    (∀ ts' s', pool_step (ts, s) (ts', s') → wm_map s' ≠ wm_map s →
       ∃ i, hs !! i = Some true).
Proof.
  intros Hfree Hsteps.
  assert (Hinv : ∃ hs, Forall2 (λ h t, disciplined h false t) hs ts ∧
                       holders_ok hs (wm_locked s)).
  { remember (map wm_serve reqs, s0) as c eqn:Ec. remember (ts, s) as c' eqn:Ec'.
    assert (Hc : ∃ hs, Forall2 (λ h t, disciplined h false t) hs c.1 ∧
                       holders_ok hs (wm_locked c.2)).
    { subst c. exists (replicate (length reqs) false). simpl. split.
      - clear. induction reqs; constructor; [apply dis_serve|done].
      - split; [intros i j Hi|intros [i Hi]]; by apply lookup_replicate in Hi as [? ?]. }
    clear Ec. revert ts s Ec'. induction Hsteps as [c|c [ts1 s1] e Hstep _ IH];
      intros ts s ->; [done|].
    apply (IH); [|done]. destruct c as [ts0 s2]. destruct Hc as (hs & Hd & Hh).
    destruct (mutex_step _ _ _ _ _ Hstep Hd Hh) as (hs' & ? & ? & _). eauto. }
  destruct Hinv as (hs & Hd & Hh). exists hs. split; [done|].
  split; [apply Hh|]. intros ts' s' Hstep Hne.
  destruct (mutex_step _ _ _ _ _ Hstep Hd Hh) as (hs' & _ & _ & Hm). auto.
Qed.
End Mutex.

(** ** Well-formedness under interleaving *)

Section WellFormed.
Context {W : Type} `{MapRange W} `{Kube W} `{Clock W} `{TdClient W} `{LocalTime}.
Notation State := (WmState W).

Definition wl_inv (s : State) : Prop := wl_ok (wm_map s).
#[local] Instance wl_inv_world : WorldFree wl_inv.
Proof. by intros s w Hs. Qed.

Lemma keeps_Lock : keeps wl_inv Lock.
Proof.
  apply keeps_guarded. intros s x s' Hs.
  destruct (wm_locked s); [done|]. by intros [= _ <-].
Qed.
Lemma keeps_Unlock : keeps wl_inv Unlock.
Proof. by apply keeps_updates. Qed.
Lemma keeps_set_map f : (∀ m, wl_ok m → wl_ok (f m)) → keeps wl_inv (updates (set_map f)).
Proof. intros Hf. apply keeps_updates. intros s Hs. by apply Hf. Qed.
Hint Resolve keeps_Lock keeps_Unlock wl_ok_Delete wl_ok_SetRestarts
  wl_ok_DeleteWorkloads : keeps.
Hint Extern 1 (keeps wl_inv (updates (set_map _))) =>
  apply keeps_set_map; intros; auto with keeps nocore : keeps.

Lemma keeps_range_values {A} (m : gmap string A) : keeps wl_inv (range_values m).
Proof. unfold range_values. solve_keeps. Qed.
Hint Resolve keeps_range_values : keeps.
Lemma keeps_items : keeps wl_inv GetWorkloadItemList.
Proof. unfold GetWorkloadItemList, no_return. solve_keeps. Qed.
Lemma keeps_wl_list : keeps wl_inv GetWorkloadList.
Proof. unfold GetWorkloadList, no_return. solve_keeps. Qed.
Lemma keeps_by_registrant rid : keeps wl_inv (GetWorkloadListByRegistrant rid).
Proof. unfold GetWorkloadListByRegistrant. solve_keeps. Qed.
Lemma keeps_delete_by_id i : keeps wl_inv (DeleteWorkloadById i).
Proof. unfold DeleteWorkloadById, no_return. solve_keeps. Qed.
Lemma keeps_notify wli m : keeps wl_inv (notify wli m).
Proof. unfold notify, SendEventFail. solve_keeps. Qed.
Hint Resolve keeps_items keeps_wl_list keeps_by_registrant keeps_delete_by_id
  keeps_notify : keeps.
Lemma keeps_check_item wli : keeps wl_inv (check_item wli).
Proof.
  unfold check_item, check_violation, check_restarted, check_terminated, check_present,
    notify_and_delete, no_return. solve_keeps.
Qed.
Hint Resolve keeps_check_item : keeps.
Lemma keeps_pass : keeps wl_inv monitor_pass.
Proof. unfold monitor_pass, no_return. solve_keeps. Qed.
Hint Resolve keeps_pass : keeps.

Lemma keeps_wm_serve r : keeps wl_inv (wm_serve r).
Proof.
  destruct r; cbn [wm_serve]; unfold putWorkloadByRegistrant, getWorkloadByRegistrant,
    getWorkloadsByRegistrant, getWorkloads, deleteWorkloadByRegistrant,
    deleteWorkloadsByRegistrant; solve_keeps.
  - apply keeps_set_map. intros m Hm. by apply wl_ok_Add.
  - apply keeps_action. intros s Hs. by apply wl_ok_DeleteWorkloads.
Qed.
End WellFormed.

(** ** What a poll does *)

Section Poll.
Context {W : Type} `{MapRange W} `{Kube W} `{Clock W} `{TdClient W} `{LocalTime}.
Notation State := (WmState W).
Implicit Types s : State.

Definition by_uuid (u : string) (pods : list Pod) : option Pod :=
  find_pod (λ p, bool_decide (u = UID (pod_meta p))) pods.

Lemma run_GetPodByUuid u s :
  run (GetPodByUuid u) s =
  (Ret (match (pods_List "" (wm_world s)).1 with
        | inl e => (None, false, errorf ("list failed, error: " +:+ err_text e))
        | inr pods => (by_uuid u pods, bool_decide (is_Some (by_uuid u pods)), None)
        end), set_world (pods_List "" (wm_world s)).2 s).
Proof.
  unfold GetPodByUuid, by_uuid. rewrite run_bind, run_kube_call. cbn [seq_run].
  change (world s) with (wm_world s).
  destruct (pods_List "" (wm_world s)) as [[e|pods] w]; cbn [fst snd]; [done|].
  destruct (find_pod _ pods) eqn:E; [|done]. done.
Qed.

(** A workload that violates none of its rules in a cluster with these pods. *)
Definition healthy (pods : list Pod) (wli : WorkloadListItem) : Prop :=
  ∃ pod, by_uuid (WlID (Wl wli)) pods = Some pod ∧
         restart_count pod = Restarts wli ∧ Phase (pod_status pod) ≠ PodFailed.

Section Healthy.
Variable calm : W → Prop.
Variable pods : list Pod.
Hypothesis steady : ∀ w, calm w → ∃ w', pods_List "" w = (inr pods, w') ∧ calm w'.

Lemma run_healthy_violation v wli s :
  calm (wm_world s) → healthy pods wli →
  ∃ w, run (check_violation v wli) s = (Ret wli, set_world w s) ∧ calm w.
Proof.
  intros Hs (pod & Hpod & Hn & Hphase). destruct (steady _ Hs) as (w & Hw & Hc).
  assert (Hget : run (GetPodByUuid (WlID (Wl wli))) s =
                 (Ret (Some pod, true, None), set_world w s)).
  { rewrite run_GetPodByUuid, Hw. cbn [fst snd]. by rewrite Hpod. }
  unfold check_violation. case_decide; [|case_decide; [|case_decide]].
  - exists w. split; [|done]. unfold check_restarted. rewrite run_bind, Hget.
    cbn [seq_run]. rewrite run_bind, run_deref_Some. cbn [seq_run]. cbn zeta.
    by rewrite (decide_False (P := _ ≠ _)) by tauto.
  - exists w. split; [|done]. unfold check_terminated, GetPodStatus.
    rewrite !run_bind, Hget. cbn [seq_run]. rewrite run_done. cbn [seq_run].
    by rewrite decide_False by done.
  - exists w. split; [|done]. unfold check_present, GetPodExistsByUuid.
    rewrite !run_bind, Hget. cbn [seq_run]. rewrite run_done. done.
  - exists (wm_world s). split; [by destruct s|done].
Qed.

Lemma run_healthy_item wli s :
  calm (wm_world s) → healthy pods wli →
  ∃ w, run (check_item wli) s = (Ret tt, set_world w s) ∧ calm w.
Proof.
  intros Hs Hh. unfold check_item.
  assert (Hloop : ∃ w, run (for_range (Violations (Wl wli)) wli (λ spec wli,
             wli ← check_violation spec wli; mret (Next (R := Empty_set) wli))) s =
           (Ret (inl wli), set_world w s) ∧ calm w).
  { generalize (Violations (Wl wli)) as l. intros l. revert s Hs.
    induction l as [|v l IH]; intros s Hs.
    - exists (wm_world s). split; [by destruct s|done].
    - rewrite run_for_range_cons, run_bind.
      destruct (run_healthy_violation v wli s Hs Hh) as (w & -> & Hw).
      cbn [seq_run]. rewrite run_done. cbn [seq_run].
      destruct (IH (set_world w s)) as (w' & -> & Hw'); [done|].
      exists w'. done. }
  destruct Hloop as (w & Hrun & Hw). exists w. split; [|done].
  rewrite run_bind, Hrun. done.
Qed.

Lemma run_healthy_list l s :
  calm (wm_world s) → (∀ wli, wli ∈ l → healthy pods wli) →
  ∃ w, run (for_range l tt (λ wli _, check_item wli ;; mret (Next (R := Empty_set) tt))) s =
       (Ret (inl tt), set_world w s) ∧ calm w.
Proof.
  revert s. induction l as [|wli l IH]; intros s Hs Hl.
  - exists (wm_world s). split; [by destruct s|done].
  - rewrite run_for_range_cons, run_bind.
    destruct (run_healthy_item wli s Hs) as (w & -> & Hw); [apply Hl; set_solver|].
    cbn [seq_run]. rewrite run_done. cbn [seq_run].
    destruct (IH (set_world w s)) as (w' & -> & Hw'); [done|set_solver|].
    by exists w'.
Qed.
End Healthy.

Lemma calm_range_values {A} (calm : W → Prop) (m : gmap string A) s :
  (∀ (A : Type) (m : gmap string A) w, calm w → calm (map_order m w).2) →
  calm (wm_world s) → calm (wm_world (run (range_values m) s).2).
Proof. intros Hr Hs. unfold range_values, range_map. go_simpl. by apply Hr. Qed.

Lemma calm_items (calm : W → Prop) s :
  (∀ (A : Type) (m : gmap string A) w, calm w → calm (map_order m w).2) →
  calm (wm_world s) → calm (wm_world (run GetWorkloadItemList s).2).
Proof.
  intros Hr Hs.
  assert (Hk : keeps (λ s, calm (wm_world s)) GetWorkloadItemList).
  { unfold GetWorkloadItemList, no_return, range_values, range_map, outside. solve_keeps;
      apply keeps_action; intros; by apply Hr. }
  by apply (keeps_run _ _ _ Hk).
Qed.

(** A poll of a list whose workloads are all healthy leaves the list and the lock
    as they were and reports nothing: any property of the environment that listing the
    pods and ranging over a map preserve, such as that no event was sent, still holds
    after it. *)
Theorem healthy_poll_is_silent (calm : W → Prop) (pods : list Pod) s :
  (∀ w, calm w → ∃ w', pods_List "" w = (inr pods, w') ∧ calm w') →
  (∀ (A : Type) (m : gmap string A) w, calm w → calm (map_order m w).2) →
  calm (wm_world s) → wm_locked s = false →
  (∀ k wli, flat (wm_map s) !! k = Some wli → healthy pods wli) →
  ∃ w, run monitor_pass s = (Ret tt, set_world w s) ∧ calm w.
Proof.
  intros Hsteady Hrange Hs Hfree Hall. unfold monitor_pass.
  rewrite run_bind. unfold Lock at 1, guarded. cbn [run]. rewrite Hfree. cbn [seq_run].
  set (s1 := set_locked true s).
  pose proof (calm_items calm s1 Hrange Hs) as Hc.
  destruct (run_GetWorkloadItemList s1) as (l & w & Hrun & Hl).
  rewrite run_bind, Hrun in *. cbn [seq_run snd] in *.
  destruct (run_healthy_list calm pods Hsteady l (set_world w s1)) as (w' & Hloop & Hw').
  { exact Hc. }
  { intros wli Hin. rewrite Hl in Hin. apply list_elem_of_fmap in Hin as ([k x] & -> & Hin).
    apply elem_of_map_to_list in Hin. by eapply Hall. }
  rewrite run_bind, Hloop. exists w'. split; [|done].
  destruct s as [m b w0]. simpl in *. by rewrite Hfree.
Qed.

Lemma notify_frame wli m s : ∃ w, (run (notify wli m) s).2 = set_world w s.
Proof.
  apply outside_only. unfold notify, SendEventFail. solve_keeps.
Qed.

(** When the pods cannot be listed, a workload that must be present is reported
    as absent: if the event can be sent, the workload of every registrant is dropped
    from the list. *)
Theorem unreachable_cluster_reports_absent wli e s s1 :
  (pods_List "" (wm_world s)).1 = inl e →
  run (notify wli ("pod " +:+ WlName (Wl wli) +:+ " absent"))
    (set_world (pods_List "" (wm_world s)).2 s) = (Ret None, s1) →
  ∃ m w, run (check_present wli) s = (Ret tt, set_world w (set_map (λ _, m) s)) ∧
    flat m = filter (λ kv, WlID (Wl kv.2) ≠ WlID (Wl wli)) (flat (wm_map s)).
Proof.
  intros He Hn. unfold check_present, GetPodExistsByUuid.
  rewrite !run_bind, run_GetPodByUuid, He. cbn [seq_run errorf].
  rewrite run_done. cbn [seq_run]. unfold notify_and_delete. rewrite run_bind.
  destruct (notify_frame wli ("pod " +:+ WlName (Wl wli) +:+ " absent")
    (set_world (pods_List "" (wm_world s)).2 s)) as [w0 Hw0].
  rewrite Hn in *. cbn [seq_run snd] in *. subst s1.
  destruct (run_DeleteWorkloadById (WlID (Wl wli))
    (set_world w0 (set_world (pods_List "" (wm_world s)).2 s))) as (m & w & Hrun & Hm).
  exists m, w. rewrite Hrun. split; [done|exact Hm].
Qed.

(** A restart that could not be reported is not reported later: the new count is
    recorded in the list although the event was not sent. *)
Theorem unsent_restart_is_recorded wli pods pod e s s1 :
  (pods_List "" (wm_world s)).1 = inr pods → by_uuid (WlID (Wl wli)) pods = Some pod →
  restart_count pod ≠ Restarts wli →
  flat (wm_map s) !! (Rid wli, WlID (Wl wli)) = Some wli →
  run (notify wli ("pod " +:+ WlName (Wl wli) +:+ " restarted " +:+
                   Itoa (restart_count pod) +:+ " time(s)"))
    (set_world (pods_List "" (wm_world s)).2 s) = (Ret (Some e), s1) →
  ∃ s', run (check_restarted wli) s =
          (Ret (mkItem (restart_count pod) (Wl wli) (Rid wli)), s') ∧
    flat (wm_map s') !! (Rid wli, WlID (Wl wli)) =
      Some (mkItem (restart_count pod) (Wl wli) (Rid wli)).
Proof.
  intros Hpods Hpod Hne Hin Hn. unfold check_restarted.
  rewrite run_bind, run_GetPodByUuid, Hpods. cbn [seq_run]. rewrite Hpod.
  rewrite bool_decide_true by done. rewrite run_bind, run_deref_Some. cbn [seq_run].
  cbn zeta. rewrite (decide_True (P := _ ≠ _)) by done.
  match goal with |- context [notify wli ?m] =>
    destruct (notify_frame wli m (set_world (pods_List "" (wm_world s)).2 s)) as [w0 Hw0] end.
  rewrite run_bind, Hn in *. cbn [seq_run snd] in *. subst s1.
  rewrite run_bind, run_updates. cbn [seq_run].
  eexists. split; [reflexivity|]. simpl.
  destruct (flat_SetRestarts (Rid wli) (WlID (Wl wli)) (restart_count pod) (wm_map s))
    as [_ ->].
  by rewrite lookup_alter, decide_True, Hin by done.
Qed.

(** (C5) The two-level map implements a flat map keyed by registrant and workload:
    each operation of the list is the operation of the flat map it stands for. *)
Theorem workload_list_refines (m : WorkloadMap) pwl rid wid n :
  flat (AddToWorkloadList pwl rid wid m) = <[(rid, wid) := mkItem 0 pwl rid]> (flat m) ∧
  GetWorkload rid wid m = Wl <$> flat m !! (rid, wid) ∧
  flat (SetWorkloadListItemRestarts rid wid n m).2 =
    alter (λ wli, mkItem n (Wl wli) (Rid wli)) (rid, wid) (flat m) ∧
  (SetWorkloadListItemRestarts rid wid n m).1 = bool_decide (is_Some (flat m !! (rid, wid))) ∧
  flat (DeleteWorkload rid wid m) = delete (rid, wid) (flat m) ∧
  flat (DeleteWorkloads rid m).2 = filter (λ kv, kv.1.1 ≠ rid) (flat m) ∧
  (DeleteWorkloads rid m).1 = Z.of_nat (size (filter (λ kv, kv.1.1 = rid) (flat m))).
Proof.
  destruct (flat_SetRestarts rid wid n m).
  split_and!; auto using flat_Add, GetWorkload_flat, flat_Delete, flat_DeleteWorkloads,
    DeleteWorkloads_count.
Qed.

(** Deleting a workload by its id, which ranges over both maps while it deletes
    from them, removes exactly the items of that workload, for every registrant and
    in whatever order the maps are visited; and the item list is the values of the
    flat map, each once. *)
Theorem delete_by_id_and_items ID s :
  (∃ m w, run (DeleteWorkloadById ID) s = (Ret tt, set_world w (set_map (λ _, m) s)) ∧
          flat m = filter (λ kv, WlID (Wl kv.2) ≠ ID) (flat (wm_map s))) ∧
  (∃ l w, run GetWorkloadItemList s = (Ret l, set_world w s) ∧
          l ≡ₚ (map_to_list (flat (wm_map s))).*2).
Proof. split; [apply run_DeleteWorkloadById|apply run_GetWorkloadItemList]. Qed.

(** (C31) Whatever requests and polls are interleaved, every item of the list stays
    filed under its own registrant and workload. *)
Theorem workload_list_wellformed (reqs : list wm_request) s0 ts s :
  wl_ok (wm_map s0) → rtc pool_step (map wm_serve reqs, s0) (ts, s) →
  ∀ rid wid wli, flat (wm_map s) !! (rid, wid) = Some wli →
    Rid wli = rid ∧ WlID (Wl wli) = wid.
Proof.
  intros Hs0 Hsteps. refine (pool_keeps wl_inv _ _ _ _ Hsteps _ Hs0).
  apply Forall_forall. intros t Ht. apply list_elem_of_fmap in Ht as (r & -> & _).
  apply keeps_wm_serve.
Qed.
End Poll.

(** ** Witnesses *)

Definition demo_workload : Workload :=
  mkWorkload "pod-1" "fio" "default"
    [WorkloadViolationEnumRESTARTED; WorkloadViolationEnumTERMINATED;
     WorkloadViolationEnumNOTPRESENT].
Definition demo_item : WorkloadListItem := mkItem 0 demo_workload "run-1".
Definition demo_map : WorkloadMap := AddToWorkloadList demo_workload "run-1" "pod-1" ∅.
Definition watching (c : Cluster) : WmState Cluster := mkWm demo_map false c.
Definition running_pods (restarts : Z) : list Pod :=
  [demo_pod "fio" "pod-1" PodRunning restarts].

Definition demo_requests : list wm_request :=
  [RqPutWorkload "run-2" "pod-1" (Some [WorkloadViolationEnumRESTARTED]); PollOnce].
Definition demo_start : WmState Cluster :=
  watching (with_pods (inr (running_pods 1)) empty_cluster).

(** The put looks the pod up, then the poll takes the lock before the put does. *)
Definition demo_schedule : list nat := [0; 1; 1; 1].

Lemma demo_reachable :
  ∃ ts s, rtc pool_step (map wm_serve demo_requests, demo_start) (ts, s) ∧ wm_locked s = true.
Proof.
  assert (Hl : match pool_run demo_schedule (map wm_serve demo_requests) demo_start with
               | Some (_, s) => wm_locked s | None => false end = true)
    by (vm_compute; reflexivity).
  destruct (pool_run _ _ _) as [[ts s]|] eqn:E; [|discriminate].
  exists ts, s. split; [by apply (pool_run_sound demo_schedule)|exact Hl].
Qed.

Lemma workload_list_mutex_witness :
  ∃ ts s hs, rtc pool_step (map wm_serve demo_requests, demo_start) (ts, s) ∧
    wm_locked s = true ∧ Forall2 (λ h t, disciplined h false t) hs ts.
Proof.
  destruct demo_reachable as (ts & s & Hsteps & Hl).
  destruct (workload_list_mutex demo_requests demo_start ts s eq_refl Hsteps)
    as (hs & Hhs & _).
  exists ts, s, hs. exact (conj Hsteps (conj Hl Hhs)).
Defined.

Lemma delete_by_id_and_items_witness :
  ∃ m w, run (DeleteWorkloadById "pod-1") demo_start =
           (Ret tt, set_world w (set_map (λ _, m) demo_start)) ∧
         flat m = filter (λ kv, WlID (Wl kv.2) ≠ "pod-1") (flat demo_map).
Proof. exact (proj1 (delete_by_id_and_items "pod-1" demo_start)). Defined.

Lemma demo_map_ok : wl_ok demo_map.
Proof. apply wl_ok_Add; [|done]. intros rid wid wli. by rewrite flat_lookup, lookup_empty. Qed.

Lemma workload_list_wellformed_witness :
  ∃ ts s, rtc pool_step (map wm_serve demo_requests, demo_start) (ts, s) ∧
    ∀ rid wid wli, flat (wm_map s) !! (rid, wid) = Some wli →
      Rid wli = rid ∧ WlID (Wl wli) = wid.
Proof.
  destruct demo_reachable as (ts & s & Hsteps & _).
  exists ts, s. split; [exact Hsteps|].
  exact (workload_list_wellformed demo_requests demo_start ts s demo_map_ok Hsteps).
Defined.

Lemma healthy_poll_is_silent_witness :
  let s := watching (with_pods (inr (running_pods 0)) empty_cluster) in
  ∃ w, run monitor_pass s = (Ret tt, set_world w s) ∧ cl_events w = [].
Proof.
  intros s.
  destruct (healthy_poll_is_silent
    (λ c, cl_pods c = inr (running_pods 0) ∧ cl_events c = []) (running_pods 0) s)
    as (w & Hrun & _ & Hw).
  - intros w [Hp He]. exists w. simpl. by rewrite Hp.
  - done.
  - done.
  - done.
  - intros [rid wid] wli. simpl. unfold demo_map. rewrite flat_Add, lookup_insert.
    case_decide; [|by rewrite flat_lookup, lookup_empty].
    intros [= <-]. eexists. split; [by vm_compute|]. by vm_compute.
  - exists w. exact (conj Hrun Hw).
Defined.

Lemma unreachable_cluster_reports_absent_witness :
  let s := watching (with_pods (inl refusal) empty_cluster) in
  ∃ m w, run (check_present demo_item) s = (Ret tt, set_world w (set_map (λ _, m) s)) ∧
    flat m = filter (λ kv, WlID (Wl kv.2) ≠ "pod-1") (flat demo_map).
Proof.
  intros s.
  eapply (unreachable_cluster_reports_absent demo_item refusal s); reflexivity.
Defined.

Lemma unsent_restart_is_recorded_witness :
  let s := watching (with_director false
             (with_pods (inr (running_pods 3)) empty_cluster)) in
  ∃ s', run (check_restarted demo_item) s = (Ret (mkItem 3 demo_workload "run-1"), s') ∧
    flat (wm_map s') !! ("run-1", "pod-1") = Some (mkItem 3 demo_workload "run-1").
Proof.
  intros s.
  eapply (unsent_restart_is_recorded demo_item (running_pods 3)
            (demo_pod "fio" "pod-1" PodRunning 3) _ s);
    first [reflexivity | by vm_compute].
Defined.
