(* ===== verification/AgentClient.v ===== *)
(** * The client of the agent on each node (src/common/e2e-agent/client.go) *)

From stdpp Require Import base gmap strings list pretty.
From S2P Require Import Prelude GoLib Json Http.

Definition AgentRestPort : string := "10012".
Definition agent_url (serverAddr path : string) : string :=
  "http://" +:+ serverAddr +:+ ":" +:+ AgentRestPort +:+ path.

Section Agent.
Context {S W : Type} `{HasWorld S W} `{Http W}.

(** The error of a request that cannot be built is printed, and the nil request used. *)
Definition sendRequestGetResponse (reqType url : string) (data : json)
    : prog S (string * error) :=
  match http_NewRequest reqType url with
  | Some _ => Panic nil_deref
  | None =>
      '(resp, err) ← client_Do (mkRequest reqType url
          [("Accept", "application/json"); ("Content-Type", "application/json")]
          (Some data));
      match err with
      | Some e => mret ("", Some e)
      | None =>
          resp ← deref resp;
          if bool_decide (StatusCode resp ≠ 200%Z)
          then mret ("", errorf ("request returned code " +:+ Itoa (StatusCode resp)))
          else
            '(body, err) ← ReadAll resp;
            match err with
            | Some e => mret ("", Some e)
            | None => mret (body, None)
            end
      end
  end.

Definition agent_sendRequest (reqType url : string) (data : json) : prog S error :=
  '(_, err) ← sendRequestGetResponse reqType url data; mret err.

Definition NodeList_json (nodes : list string) : json :=
  JObj [("nodes", JArr (map JStr nodes))].
Definition CmdList_json (cmd : string) : json := JObj [("cmd", JStr cmd)].

Definition UngracefulReboot (addr : string) : prog S error :=
  agent_sendRequest "POST" (agent_url addr "/ungracefulReboot") JNull.
Definition IsAgentReachable (addr : string) : prog S error :=
  agent_sendRequest "GET" (agent_url addr "/") JNull.
Definition GracefulReboot (addr : string) : prog S error :=
  agent_sendRequest "POST" (agent_url addr "/gracefulReboot") JNull.
Definition DropConnectionsFromNodes (addr : string) (nodes : list string) : prog S error :=
  agent_sendRequest "POST" (agent_url addr "/dropConnectionsFromNodes") (NodeList_json nodes).
Definition AcceptConnectionsFromNodes (addr : string) (nodes : list string) : prog S error :=
  agent_sendRequest "POST" (agent_url addr "/acceptConnectionsFromNodes")
    (NodeList_json nodes).
Definition DiskPartition (addr cmd : string) : prog S error :=
  agent_sendRequest "POST" (agent_url addr "/exec") (CmdList_json cmd).
Definition CreateFaultyDevice (addr device table : string) : prog S error :=
  agent_sendRequest "POST" (agent_url addr "/createFaultyDevice")
    (JObj [("device", JStr device); ("table", JStr table)]).
Definition Exec (addr command : string) : prog S (string * error) :=
  sendRequestGetResponse "POST" (agent_url addr "/exec") (CmdList_json command).
Definition ControlDevice (addr device state : string) : prog S (string * error) :=
  sendRequestGetResponse "POST" (agent_url addr "/devicecontrol")
    (JObj [("device", JStr device); ("state", JStr state)]).
Definition KillMayastor (addr : string) : prog S (string * error) :=
  sendRequestGetResponse "POST" (agent_url addr "/killmayastor") JNull.
End Agent.

Section AgentFacts.
Context {S W : Type} `{HasWorld S W} `{Http W} (I : S → Prop) `{!WorldFree I}.
Lemma keeps_sendRequestGetResponse t u d : keeps I (sendRequestGetResponse t u d).
Proof. unfold sendRequestGetResponse. solve_keeps. Qed.
End AgentFacts.
#[export] Hint Resolve keeps_sendRequestGetResponse : keeps.
