(* ===== verification/WmLib.v ===== *)
(** * Registering workloads (test_conductor/tc/workload_monitor_lib.go) *)

From stdpp Require Import base gmap strings list pretty.
From S2P Require Import Prelude GoLib Json Http Models Kube K8sPods DirectorLib WorkloadList.

(** The generated client of the monitor (common/wm/client). *)
Class WmClient (W : Type) := {
  wm_PutWorkload : string → string → list string → answer W Workload;
  wm_DeleteWorkload : string → string → answer W Workload;
  wm_DeleteWorkloads : string → answer W RequestOutcome;
}.

Section WmLib.
Context {S W : Type} `{HasWorld S W} `{Kube W} `{Clock W} `{WmClient W}.

Definition line_end : string := String newline EmptyString.

Definition AddWorkload (name namespace : string) (violations : list string)
    : prog S error :=
  '(tcpod, err) ← GetPod "test-conductor" EtfwNamespace;
  match err with
  | Some e => mret (errorf ("failed to get test-conductor pod, error: " +:+ err_text e
                            +:+ line_end))
  | None =>
      '(pod, err) ← GetPod name namespace;
      match err with
      | Some e => mret (errorf ("failed to get pod " +:+ name +:+ ", error: " +:+ err_text e
                                +:+ line_end))
      | None =>
          tcpod ← deref tcpod;
          pod ← deref pod;
          r ← for_upto 0 5 (None : error) (λ _ _,
                '(put, err) ← td_call (wm_PutWorkload (UID (pod_meta tcpod))
                                (UID (pod_meta pod)) violations);
                match err with
                | Some _ => time_Sleep (10 * Second) ;; mret (Next err)
                | None => deref put ;; mret (Break None)
                end);
          no_return r
      end
  end.

(** A pod is left out when its label [app] is one of the exclusions. *)
Definition excluded (labels : list string) (pod : Pod) : bool :=
  existsb (λ label, bool_decide (Labels (pod_meta pod) !! "app" = Some label)) labels.

(** The payload of a put that failed is nil, and the log line reads it. *)
Definition AddNamespaceWorkloads (requester_uuid : string) (violations : list string)
    (namespace : string) (exclusion_labels : list string) : prog S error :=
  '(podlist, err) ← GetPodsInNamespace namespace;
  match err with
  | Some e => mret (errorf ("failed to get pods in namespace " +:+ namespace +:+ ", error: "
                            +:+ err_text e +:+ line_end))
  | None =>
      pods ← deref podlist;
      r ← for_range pods (None : error) (λ pod err,
            if excluded exclusion_labels pod then mret (Next err)
            else
              r ← for_upto 0 5 err (λ _ _,
                    '(put, err) ← td_call (wm_PutWorkload requester_uuid
                                    (UID (pod_meta pod)) violations);
                    match err with
                    | Some _ => deref put ;; time_Sleep (10 * Second) ;; mret (Next err)
                    | None => deref put ;; mret (Break None)
                    end);
              err ← no_return r;
              mret (Next err));
      no_return r
  end.

Definition AddCommonWorkloadsWithExclusions (violations exclusions : list string)
    : prog S error :=
  '(tcpod, err) ← GetPod "test-conductor" EtfwNamespace;
  match err with
  | Some e => mret (errorf ("failed to get test-conductor pod, error: " +:+ err_text e
                            +:+ line_end))
  | None =>
      err ← AddWorkload "test-conductor" EtfwNamespace violations;
      match err with
      | Some e => mret (errorf ("failed to inform workload monitor of test-conductor, error: "
                                +:+ err_text e))
      | None =>
          tcpod ← deref tcpod;
          err ← AddNamespaceWorkloads (UID (pod_meta tcpod)) violations "mayastor" exclusions;
          match err with
          | Some e => mret (errorf ("failed to add pods in namespace mayastor, error: " +:+
                                    err_text e +:+ line_end))
          | None => mret None
          end
      end
  end.

Definition AddCommonWorkloads (violations : list string) : prog S error :=
  AddCommonWorkloadsWithExclusions violations [].

(** The texts of the errors of the client show the nil payload. *)
Definition lib_DeleteWorkload (name namespace : string) : prog S error :=
  '(tcpod, err) ← GetPod "test-conductor" EtfwNamespace;
  match err with
  | Some e => mret (errorf ("failed to get tc pod " +:+ name +:+ ", error: " +:+ err_text e
                            +:+ line_end))
  | None =>
      '(pod, err) ← GetPod name namespace;
      match err with
      | Some e => mret (errorf ("failed to get pod " +:+ name +:+ ", error: " +:+ err_text e
                                +:+ line_end))
      | None =>
          tcpod ← deref tcpod;
          pod ← deref pod;
          '(del, err) ← td_call (wm_DeleteWorkload (UID (pod_meta tcpod)) (UID (pod_meta pod)));
          match err with
          | Some e => mret (errorf ("failed to delete workload " +:+ err_text e +:+ " <nil>"
                                    +:+ line_end))
          | None => deref del ;; mret None
          end
      end
  end.

Definition lib_DeleteWorkloads : prog S error :=
  '(tcpod, err) ← GetPod "test-conductor" EtfwNamespace;
  match err with
  | Some e => mret (errorf ("failed to get tc pod, error: " +:+ err_text e))
  | None =>
      tcpod ← deref tcpod;
      '(del, err) ← td_call (wm_DeleteWorkloads (UID (pod_meta tcpod)));
      match err with
      | Some e => mret (errorf ("failed to delete workloads " +:+ err_text e +:+ " <nil>"
                                +:+ line_end))
      | None => deref del ;; mret None
      end
  end.
End WmLib.
