(* ===== verification/TestCommon.v ===== *)
(** * The shared part of the tests (test_conductor/tests/test_common.go)

    Health checks of volumes, pools and nodes, durations with days, faults on devices
    and mayastor instances, waits, and the reports to the test director. *)

From stdpp Require Import base gmap strings list pretty.
From Stdlib Require Import Ascii.
From S2P Require Import Prelude GoLib Json Http Models Kube MayastorClient GoTime K8sPods.
From S2P Require Import K8sLib K8sApps DirectorLib AgentClient WmLib WorkloadMonitor.

(** ** tc/config.go and tc/test_conductor.go *)

Record SteadyStateCfg := mkSteadyStateCfg {
  ss_Replicas : Z; ss_ThinkTime : Z; ss_ThinkTimeBlocks : Z; ss_VolumeSizeMb : Z }.
Record NonSteadyStateCfg := mkNonSteadyStateCfg {
  ns_ConcurrentVols : Z; ns_Replicas : Z; ns_ThinkTime : Z; ns_ThinkTimeBlocks : Z;
  ns_Timeout : string; ns_VolumeSizeMb : Z }.
Record PrimitivePoolDeletionCfg := mkPrimitivePoolDeletionCfg {
  Iterations : Z; ReplicaSize : Z; DefTimeoutSecs : string; ReplicasTimeoutSecs : string;
  PoolUsageTimeoutSecs : string; PoolDeleteTimeoutSecs : string;
  PoolCreateTimeoutSecs : string; PoolListTimeoutSecs : string;
  MayastorRestartTimeout : Z }.
Record ReplicaEliminationCfg := mkReplicaEliminationCfg {
  re_FsVolume : Z; re_LocalVolume : Z; re_Replicas : Z; re_Timeout : string;
  re_VolumeSizeMb : Z; re_BlocksToWrite : Z; re_KillMayastor : Z; re_RandomSleep : Z }.
Record ReplicaPerturbationCfg := mkReplicaPerturbationCfg {
  rp_FsVolume : Z; rp_LocalVolume : Z; rp_OfflineDeviceTest : Z; rp_ReplicasTest : Z;
  rp_OfflineDevAndReplicasTest : Z; rp_Replicas : Z; rp_ThinkTime : Z;
  rp_ThinkTimeBlocks : Z; rp_VolumeSizeMb : Z; rp_RandomSleep : Z }.
Record ExtendedTestConfig := mkConfig {
  RunName : string; TestName : string; Duration : string; E2eFioImage : string;
  Msnodes : Z; PoolDevice : string; SendEvent_ : Z; SendXrayTest : Z; XrayTestID : string;
  SteadyState : SteadyStateCfg; NonSteadyState : NonSteadyStateCfg;
  PrimitivePoolDeletion : PrimitivePoolDeletionCfg;
  ReplicaElimination : ReplicaEliminationCfg;
  ReplicaPerturbation : ReplicaPerturbationCfg }.
Record TestConductor := mkConductor {
  Config : ExtendedTestConfig; TestRunId : string; tc_NodeName : string }.

(** The state of the process: the volumes already reported as faulted, and the contents
    of the channel the goroutines of a test send their errors on. *)
Record Conductor (W : Type) := mkCond {
  faultedPVCs : gset string; errchan : list goerror; cond_world : W }.
Arguments mkCond {W} _ _ _.
Arguments faultedPVCs {W} _.
Arguments errchan {W} _.
Arguments cond_world {W} _.
#[export] Program Instance cond_has_world W : HasWorld (Conductor W) W := {
  world := cond_world;
  set_world w s := mkCond (faultedPVCs s) (errchan s) w;
}.
Next Obligation. done. Qed.
Next Obligation. by intros W []. Qed.
Next Obligation. done. Qed.
Definition add_faulted {W} (u : string) (s : Conductor W) : Conductor W :=
  mkCond ({[u]} ∪ faultedPVCs s) (errchan s) (cond_world s).
Definition set_errchan {W} (l : list goerror) (s : Conductor W) : Conductor W :=
  mkCond (faultedPVCs s) l (cond_world s).

Definition violations : list string :=
  [WorkloadViolationEnumRESTARTED; WorkloadViolationEnumTERMINATED;
   WorkloadViolationEnumNOTPRESENT].

Definition MCP_NEXUS_ONLINE : string := "NEXUS_ONLINE".
Definition MCP_NEXUS_DEGRADED : string := "NEXUS_DEGRADED".
Definition MCP_NEXUS_FAULTED : string := "NEXUS_FAULTED".
Definition MCP_NEXUS_UNKNOWN : string := "NEXUS_UNKNOWN".
Definition MCP_MSV_DEGRADED : string := "Degraded".
Definition MCP_MSV_FAULTED : string := "Faulted".
Definition MCP_MSV_ONLINE : string := "Online".
Definition MCP_MSV_UNKNOWN : string := "Unknown".
Definition PV_PREFIX : string := "pvc-".

(** ** Durations with days *)

(** [^[0-9]{1,k}u]: at most [k] digits and the unit, at the front. *)
Definition leading_count (k : nat) (unit : ascii) (s : string) : option (string * string) :=
  let '(d, r) := span_digits s in
  match r with
  | String c r' =>
      if bool_decide (1 ≤ String.length d ≤ k)%nat && bool_decide (c = unit)
      then Some (d, r') else None
  | EmptyString => None
  end.

Definition ConvertTime (timestr : string) : string :=
  match leading_count 3 "d"%char timestr with
  | None => timestr
  | Some (daystr, rest) =>
      let days := digits_val daystr in
      let '(hours, rest) :=
        match leading_count 2 "h"%char rest with
        | None => (0%Z, rest)
        | Some (hourstr, rest) => (digits_val hourstr, rest)
        end in
      let hours := (hours + days * 24)%Z in
      (if decide (hours ≠ 0%Z) then Itoa hours +:+ "h" else "") +:+ rest
  end.

(** A text that does not parse gives the error. *)
Definition GetDuration (durationstr : string) : Z * error :=
  match ParseDuration (ConvertTime durationstr) with
  | Some d => (d, None)
  | None => (0%Z, errorf ("failed to parse duration " +:+ parse_error (ConvertTime durationstr)))
  end.

Definition CombineErrors {S} (first second : error) : prog S error :=
  match first with
  | None => mret second
  | Some f => t ← Error second; mret (errorf (err_text f +:+ ": " +:+ t))
  end.

(** ** EtfwRandom *)

(** FNV-1a of 32 bits. *)
Fixpoint fnv32a (h : Z) (s : string) : Z :=
  match s with
  | EmptyString => h
  | String c s' =>
      fnv32a ((Z.lxor h (Z.of_N (N_of_ascii c)) * 16777619) mod 2 ^ 32)%Z s'
  end.
Definition fnv_offset : Z := 2166136261.

Definition hex_char (n : Z) : ascii :=
  ascii_of_N (Z.to_N (if (n <? 10)%Z then n + 48 else n + 87)).
(** [%x] of a number that is not negative, digit by digit. *)
Fixpoint hex_digits (fuel : nat) (n : Z) (acc : string) : string :=
  match fuel with
  | O => acc
  | S fuel' =>
      let acc := String (hex_char (n mod 16)) acc in
      if (n / 16 =? 0)%Z then acc else hex_digits fuel' (n / 16) acc
  end.

Record deviceDescriptor := mkDevice { dev_node : string; dev_device : string }.

Section Common.
Context {W : Type} `{MapRange W} `{Kube W} `{Clock W} `{Grpc W} `{Http W} `{TdClient W}
        `{WmClient W} `{LocalTime}.
Notation M := (prog (Conductor W)).

(** ** Health of the volumes *)

Definition checkPVCexists (vol_id : string) : M (bool * error) :=
  '(pvcs, err) ← ListPVCs NSDefault;
  match err with
  | Some e => mret (false, Some e)
  | None =>
      l ← deref pvcs;
      mret (existsb (λ p, bool_decide (PvcVolumeName p = PV_PREFIX +:+ vol_id)) l, None)
  end.

Definition checkPVCexistsViaNexusUuid (ms_ip nexus_uuid : string)
    : M (bool * string * error) :=
  '(vols, err) ← GetVolumes ms_ip;
  match err with
  | Some e => mret (false, "", errorf ("failed to get volumes, error: " +:+ err_text e))
  | None =>
      match head (filter (λ v, TargetUuid v = nexus_uuid) vols) with
      | Some vol =>
          '(present, err) ← checkPVCexists (VolUuid vol);
          mret (present, VolUuid vol, err)
      | None => mret (false, "", None)
      end
  end.

(** A faulted volume is reported once, and only while its claim exists. *)
Definition CheckMSVwithCP (ms_ip : string) : M error :=
  '(vols, err) ← GetVolumes ms_ip;
  match err with
  | Some e => mret (errorf ("failed to get volumes, error: " +:+ err_text e))
  | None =>
      r ← for_range vols tt (λ vol _,
            if decide (VolStatus vol = MCP_MSV_FAULTED) then
              done ← reads (λ s, bool_decide (VolUuid vol ∈ faultedPVCs s));
              if done : bool then mret (Next tt)
              else
                '(present, err) ← checkPVCexists (VolUuid vol);
                match err with
                | Some e =>
                    mret (Return (errorf ("failed to check PVC exists, error: " +:+ err_text e)))
                | None =>
                    if present : bool then
                      updates (add_faulted (VolUuid vol)) ;;
                      mret (Return (errorf ("found faulted volume, uuid " +:+ VolUuid vol)))
                    else mret (Next tt)
                end
            else if decide (VolStatus vol ∈ [MCP_MSV_ONLINE; MCP_MSV_DEGRADED; MCP_MSV_UNKNOWN])
            then mret (Next tt)
            else mret (Return (errorf ("MSV unexpected state " +:+ VolStatus vol +:+
                                       " in volume " +:+ VolUuid vol))));
      match r with inl _ => mret None | inr err => mret err end
  end.

Definition CheckMSVwithGrpc (ms_ips : list string) : M error :=
  '(nexuses, err) ← GetNexuses ms_ips;
  match err with
  | Some e => mret (errorf ("Nexus grpc check failed, err: " +:+ err_text e))
  | None =>
      r ← for_range nexuses tt (λ nexus _,
            let state := NexusState_String (NxState nexus) in
            if decide (state = MCP_NEXUS_FAULTED) then
              ip ← index ms_ips 0;
              '(present, vol_uuid, err) ← checkPVCexistsViaNexusUuid ip (NxUuid nexus);
              match err with
              | Some e =>
                  mret (Return (errorf ("failed to check PVC exists for nexus " +:+
                                        NxUuid nexus +:+ ", error: " +:+ err_text e)))
              | None =>
                  done ← reads (λ s, bool_decide (vol_uuid ∈ faultedPVCs s));
                  if done : bool then mret (Next tt)
                  else if present : bool then
                    updates (add_faulted vol_uuid) ;;
                    mret (Return (errorf ("Nexus " +:+ NxUuid nexus +:+
                      " is not healthy, state is " +:+ state +:+ ", vol uuid is " +:+ vol_uuid)))
                  else mret (Next tt)
              end
            else if decide (state ∈ [MCP_NEXUS_UNKNOWN; MCP_NEXUS_DEGRADED; MCP_NEXUS_ONLINE])
            then mret (Next tt)
            else mret (Return (errorf ("Nexus unexpected state " +:+ state))));
      match r with inl _ => mret None | inr err => mret err end
  end.

Definition CheckPools (poolcount : Z) : M error :=
  err ← CheckAllMsPoolsAreOnline;
  match err with
  | Some e => mret (errorf ("Not all pools are healthy, error: " +:+ err_text e))
  | None =>
      '(pools, err) ← ListMsPools;
      match err with
      | Some e => mret (errorf ("failed to list pools, err: " +:+ err_text e))
      | None =>
          if decide (Z.of_nat (length pools) ≠ poolcount)
          then mret (errorf ("Wrong number of pools, expected " +:+ Itoa poolcount +:+
                             ", have " +:+ Itoa (Z.of_nat (length pools))))
          else mret None
      end
  end.

Definition CheckNodes (nodecount : Z) : M error :=
  '(nodes, err) ← ListMsNodes;
  match err with
  | Some e => mret (errorf ("Failed to list MS Nodes, error: " +:+ err_text e))
  | None =>
      if decide (Z.of_nat (length nodes) ≠ nodecount)
      then mret (errorf ("Wrong number of nodes, expected " +:+ Itoa nodecount +:+
                         ", have " +:+ Itoa (Z.of_nat (length nodes))))
      else
        match head (filter (λ n, MsnStatus n ≠ "online") nodes) with
        | Some n => mret (errorf ("Found offline node " +:+ Name (msn_meta n)))
        | None => mret None
        end
  end.

(** ** Reports *)

Definition testDescription (t : TestConductor) : string :=
  XrayTestID (Config t) +:+ ", " +:+ TestName (Config t) +:+ ", " +:+ RunName (Config t).

Definition SendEvent (t : TestConductor) (eventClass message : string) : M error :=
  if decide (SendEvent_ (Config t) = 1%Z) then
    err ← lib_SendEvent (TestRunId t) (testDescription t +:+ " " +:+ message) eventClass
            EventSourceClassEnumTestDashConductor;
    match err with
    | Some e => mret (errorf ("failed to inform test director of event, error: " +:+ err_text e))
    | None => mret None
    end
  else mret None.

Definition SendEventTestPreparing (t : TestConductor) : M error :=
  SendEvent t EventClassEnumINFO ("Event: test preparing on node: " +:+ tc_NodeName t).
Definition SendEventTestStarted (t : TestConductor) : M error :=
  SendEvent t EventClassEnumINFO "Event: test started".
Definition SendEventTestCompletedOk (t : TestConductor) : M error :=
  SendEvent t EventClassEnumINFO "Event: test completed".
Definition SendEventTestFail (t : TestConductor) (text : string) : M error :=
  SendEvent t EventClassEnumFAIL ("Event: test failure: " +:+ text).

(** The two reports at the start of a test: the run, then the event. *)
Definition report_run (t : TestConductor) (what : string → string → string → M error)
    (text why : string) (event : M error) (why_event : string) : M error :=
  err ← (if decide (SendXrayTest (Config t) = 1%Z)
         then what (TestRunId t) (testDescription t +:+ text) (XrayTestID (Config t))
         else mret None);
  match err with
  | Some e => mret (errorf (why +:+ err_text e))
  | None =>
      err ← event;
      match err with
      | Some e => mret (errorf (why_event +:+ err_text e))
      | None => mret None
      end
  end.

Definition SendTestRunToDo (t : TestConductor) : M error :=
  report_run t lib_SendTestRunToDo " Test run: preparing"
    "failed to create test run, error: " (SendEventTestPreparing t)
    "failed to inform test director of preparation event, error: ".

Definition SendTestRunStarted (t : TestConductor) : M error :=
  report_run t lib_SendTestRunStarted " Test run: started"
    "failed to set test run to executing, error: " (SendEventTestStarted t)
    "failed to inform test director of start event, error: ".

(** The exit code of the process. *)
Definition GetTestOutcome (t : TestConductor) (test_err : error) : M Z :=
  failed ← (if decide (SendXrayTest (Config t) = 1%Z) then
              '(status, err) ← GetTestRunStatus (TestRunId t);
              match err with
              | Some _ => mret true
              | None => mret (bool_decide (status ≠ TestRunStatusEnumPASSED))
              end
            else mret false);
  if failed : bool then mret 1%Z
  else match test_err with Some _ => mret 1%Z | None => mret 0%Z end.

Definition SendTestRunFinished (t : TestConductor) (test_err : error) : M Z :=
  test_err ← (if decide (SendXrayTest (Config t) = 1%Z) then
                match test_err with
                | None =>
                    err ← SendTestRunCompletedOk (TestRunId t)
                            (testDescription t +:+ " Test run: finished")
                            (XrayTestID (Config t));
                    match err with
                    | Some e => mret (errorf ("failed to set test run to completed, error: "
                                              +:+ err_text e))
                    | None => mret None
                    end
                | Some te =>
                    err ← SendTestRunCompletedFail (TestRunId t) (err_text te)
                            (XrayTestID (Config t));
                    match err with
                    | Some e => mret (errorf ("failed to set test run to failed, error: " +:+
                                        err_text e +:+ "test outcome: " +:+ err_text te))
                    | None => mret (Some te)
                    end
                end
              else mret test_err);
  test_err ← (match test_err with
              | None =>
                  err ← SendEventTestCompletedOk t;
                  match err with
                  | Some e => mret (errorf (
                      "failed to inform test director of successful completion event, error: "
                      +:+ err_text e))
                  | None => mret None
                  end
              | Some te =>
                  err ← SendEventTestFail t (err_text te);
                  match err with
                  | Some e => mret (errorf (
                      "failed to inform test director of failed completion event, error: "
                      +:+ err_text e +:+ ", test outcome: " +:+ err_text te))
                  | None => mret (Some te)
                  end
              end);
  GetTestOutcome t test_err.

(** ** Monitoring *)

Definition report_failure (t : TestConductor) (err : error) : M unit :=
  match err with
  | Some e => SendEventTestFail t (err_text e) ;; mret tt
  | None => mret tt
  end.

(** A look every five seconds until the end of the duration, or until the pod is not
    running any more; [fuel] bounds the looks. *)
Definition MonitorCRs (fuel : nat) (t : TestConductor) (duration : Z) (pod_to_check : string)
    : M error :=
  start ← time_Now;
  let endTime := (start + duration)%Z in
  r ← for_fuel fuel 0 tt (λ _ _,
        '(ms_ips, err) ← GetMayastorNodeIPs;
        match err with
        | Some e =>
            mret (Return (errorf ("MSV grpc check failed to get nodes, err: " +:+ err_text e)))
        | None =>
            match ms_ips with
            | [] => mret (Return (errorf "No MS nodes found"))
            | ip :: _ =>
                err ← CheckMSVwithGrpc ms_ips;
                report_failure t err ;;
                err ← CheckMSVwithCP ip;
                report_failure t err ;;
                err ← CheckPools (Msnodes (Config t));
                match err with
                | Some e => mret (Return (errorf ("MSP check failed, err: " +:+ err_text e)))
                | None =>
                    stop ← (if decide (pod_to_check ≠ "") then
                              '(pod, err) ← GetPod pod_to_check NSDefault;
                              match err with
                              | Some e =>
                                  mret (Some (errorf ("Failed to get application pod " +:+
                                    pod_to_check +:+ ", err: " +:+ err_text e)))
                              | None =>
                                  pod ← deref pod;
                                  if decide (Phase (pod_status pod) ≠ PodRunning)
                                  then mret (Some None) else mret None
                              end
                            else mret None);
                    match stop with
                    | Some res => mret (Return res)
                    | None =>
                        now ← time_Now;
                        if bool_decide (endTime < now)%Z then
                          if decide (pod_to_check = "") then mret (Break tt)
                          else mret (Return (errorf "Pod is still running, timeout triggered"))
                        else time_Sleep (5 * Second) ;; mret (Next tt)
                    end
                end
            end
        end);
  match r with inl _ => mret None | inr err => mret err end.

Definition EtfwRandom (valrange : Z) : M (Z * error) :=
  now ← time_Now;
  let tmstr := hex_digits 17 now "" in
  if decide (valrange = 0%Z) then Panic "integer divide by zero"
  else mret ((fnv32a fnv_offset tmstr `mod` valrange)%Z, None).

Definition randomSleep : M error :=
  '(idx, err) ← EtfwRandom 4;
  match err with
  | Some e => mret (Some e)
  | None =>
      sleepMins ← index [2; 5; 10; 30]%Z idx;
      time_Sleep (sleepMins * Minute) ;; mret None
  end.

(** ** Faults *)

Definition getOnlyVolume (ms_ip : string) : M (string * string * error) :=
  GetOnlyVolume ms_ip.
Definition getVolumeStatus (ms_ip uuid : string) : M (string * error) :=
  GetVolumeStatus ms_ip uuid.

Definition wrong_count (nodecount found : Z) : error :=
  errorf ("Expected " +:+ Itoa nodecount +:+ " ips, found " +:+ Itoa found).

Definition killMayastor (idx nodecount : Z) : M error :=
  '(pools, err) ← ListMsPools;
  match err with
  | Some e => mret (errorf ("failed to list pools, err: " +:+ err_text e))
  | None =>
      if bool_decide (Z.of_nat (length pools) < nodecount)%Z
      then mret (wrong_count nodecount (Z.of_nat (length pools)))
      else
        '(locs, err) ← GetNodeLocs;
        match err with
        | Some e => mret (errorf ("MSV grpc check failed to get nodes, err: " +:+ err_text e))
        | None =>
            if bool_decide (Z.of_nat (length locs) < nodecount)%Z
            then mret (wrong_count nodecount (Z.of_nat (length locs)))
            else
              pool ← index pools idx;
              match head (filter (λ n, LocName n = MspNode (msp_spec pool)) locs) with
              | Some node => '(_, err) ← KillMayastor (IPAddress node); mret err
              | None => mret (errorf "Failed to find mayastor node")
              end
        end
  end.

(** replica_perturbation.go: what the agent reads back must be the state. *)
Definition checkDeviceState (nodeIp poolDevice state : string) : M error :=
  '(res, _) ← Exec nodeIp ("cat /sys/block/" +:+ poolDevice +:+ "/device/state");
  let res := TrimRight res newline in
  if decide (res ≠ state)
  then mret (errorf ("unexpected state: expected " +:+ state +:+ ", got " +:+ res))
  else mret None.

(** The device of the node of a pool, without its directory; or why there is none. *)
Definition pool_device (pool : MayastorPool) (node : NodeLocation)
    : (string * string) + error :=
  match Disks (msp_spec pool) with
  | [disk] =>
      if negb (HasPrefix disk "/dev/") then inr (errorf ("Unexpected device path " +:+ disk))
      else inl (IPAddress node, String.substring 5 (String.length disk - 5) disk)
  | l => inr (errorf ("Unexpected number of disks, expected 1 found " +:+
                      Itoa (Z.of_nat (length l))))
  end.

(** The device counts as offline only after it was seen to be offline. *)
Definition offlineDevice (idx nodecount : Z) (devs : list deviceDescriptor)
    : M (list deviceDescriptor * error) :=
  '(pools, err) ← ListMsPools;
  match err with
  | Some e => mret (devs, errorf ("failed to list pools, err: " +:+ err_text e))
  | None =>
      if bool_decide (Z.of_nat (length pools) < nodecount)%Z
      then mret (devs, wrong_count nodecount (Z.of_nat (length pools)))
      else
        (* the log line reads the first disk of every pool *)
        r ← for_range pools tt (λ pool _, index (Disks (msp_spec pool)) 0 ;; mret (Next tt));
        no_return r ;;
        '(locs, err) ← GetNodeLocs;
        match err with
        | Some e =>
            mret (devs, errorf ("MSV grpc check failed to get nodes, err: " +:+ err_text e))
        | None =>
            if bool_decide (Z.of_nat (length locs) < nodecount)%Z
            then mret (devs, wrong_count nodecount (Z.of_nat (length locs)))
            else
              pool ← index pools idx;
              let no_node := errorf ("Could not find node for pool " +:+ Name (msp_meta pool)) in
              match head (filter (λ n, LocName n = MspNode (msp_spec pool)) locs) with
              | None => mret (devs, no_node)
              | Some node =>
                  match pool_device pool node with
                  | inr err => mret (devs, err)
                  | inl (nodeIp, poolDevice) =>
                      if decide (nodeIp = "") then mret (devs, no_node)
                      else
                        '(_, err) ← ControlDevice nodeIp poolDevice "offline";
                        match err with
                        | Some e => mret (devs, Some e)
                        | None =>
                            err ← checkDeviceState nodeIp poolDevice "offline";
                            match err with
                            | Some e => mret (devs, Some e)
                            | None =>
                                mret ((devs ++ [mkDevice nodeIp poolDevice])%list, None)
                            end
                        end
                  end
              end
        end
  end.

Definition onlineDevice (nodeIp poolDevice : string) : M error :=
  '(_, err) ← ControlDevice nodeIp poolDevice "running";
  match err with
  | Some e => mret (Some e)
  | None => checkDeviceState nodeIp poolDevice "running"
  end.

(** The devices that are still to be restored, and why the first of them was not. *)
Definition restoreDevices (devs : list deviceDescriptor)
    : M (list deviceDescriptor * error) :=
  r ← for_range devs devs (λ dev devs,
        err ← onlineDevice (dev_node dev) (dev_device dev);
        match err with
        | Some e => mret (Return (devs, Some e))
        | None => mret (Next (tail devs))
        end);
  match r with inl devs => mret (devs, None) | inr res => mret res end.

(** ** Waiting for volumes and pods *)

(** The test for the hundredth look is reached only when there are replicas; [fuel]
    bounds the looks. *)
Definition waitForVolumeStatus (fuel : nat) (ms_ip uuid wantedState : string) : M error :=
  r ← for_fuel fuel 0 tt (λ i _,
        '(reps, err) ← GetVolumeReplicaCount ms_ip uuid;
        match err with
        | Some e =>
            mret (Return (errorf ("failed to get volume replicas, error: " +:+ err_text e)))
        | None =>
            if bool_decide (0 < reps)%Z then
              '(state, err) ← getVolumeStatus ms_ip uuid;
              match err with
              | Some e =>
                  mret (Return (errorf ("failed to get volume state, error: " +:+ err_text e)))
              | None =>
                  if decide (state = wantedState) then mret (Break tt)
                  else if decide (i = 100%Z)
                  then mret (Return (errorf ("timed out waiting for nexus to be " +:+
                                             wantedState)))
                  else time_Sleep (10 * Second) ;; mret (Next tt)
              end
            else time_Sleep (10 * Second) ;; mret (Next tt)
        end);
  match r with inl _ => mret None | inr err => mret err end.

Definition waitForVolumeNotOnline (ms_ip uuid : string) : M error :=
  r ← for_fuel 101 0 tt (λ i _,
        '(state, err) ← getVolumeStatus ms_ip uuid;
        match err with
        | Some e => mret (Return (errorf ("failed to get nexus state, error: " +:+ err_text e)))
        | None =>
            if decide (state ≠ MCP_MSV_ONLINE) then mret (Break tt)
            else if decide (i = 100%Z)
            then mret (Return (errorf "timed out waiting for nexus to be not online"))
            else time_Sleep (10 * Second) ;; mret (Next tt)
        end);
  match r with inl _ => mret None | inr err => mret err end.

Definition WaitPodNotRunning (fuel : nat) (pod_to_check : string) (timeout : Z) : M error :=
  start ← time_Now;
  r ← for_fuel fuel 0 tt (λ _ _,
        '(pod, err) ← GetPod pod_to_check NSDefault;
        match err with
        | Some e => mret (Return (errorf ("Failed to get application pod " +:+ pod_to_check
                                          +:+ ", err: " +:+ err_text e)))
        | None =>
            pod ← deref pod;
            if decide (Phase (pod_status pod) ≠ PodRunning) then mret (Break tt)
            else
              now ← time_Now;
              if bool_decide (start + timeout < now)%Z
              then mret (Return (errorf ("Pod " +:+ pod_to_check +:+
                                         " is still running, timeout triggered")))
              else time_Sleep (5 * Second) ;; mret (Next tt)
        end);
  match r with inl _ => mret None | inr err => mret err end.
End Common.
