(* ===== verification/ConductorTheorems.v ===== *)
(** * What the conductor promises

    The exit code, the text of the reports, the devices a test puts offline, and the waits
    for volumes. *)

From stdpp Require Import base gmap strings list pretty.
From Stdlib Require Import Ascii.
From S2P Require Import Prelude GoLib Json Http Models Kube Total MayastorClient GoTime.
From S2P Require Import K8sPods K8sLib K8sApps DirectorLib ScriptedCluster AgentClient WmLib.
From S2P Require Import WorkloadList TestCommon.

(** ** Calls *)

Section Calls.
Context {S W : Type} `{HasWorld S W}.

Lemma run_td_call {A} (f : answer W A) (s : S) :
  run (td_call f) s =
  (Ret (match (f (world s)).1 with inl e => (None, Some e) | inr a => (Some a, None) end),
   set_world (f (world s)).2 s).
Proof.
  unfold td_call. rewrite run_bind, run_outside. cbn [seq_run].
  by destruct (f (world s)) as [[] ?].
Qed.
Lemma returns_td_call {A} (f : answer W A) : returns (td_call (S:=S) f).
Proof. intros s. rewrite run_td_call. eauto. Qed.
End Calls.
#[export] Hint Resolve returns_td_call : returns.

(** ** The exit code and the reports *)

Section Reports.
Context {W : Type} `{Clock W} `{TdClient W} `{LocalTime}.

(** (C34) The exit code is 0 exactly when the conductor found no error and, if it reports
    to Xray, the director could be asked and says that the run passed; otherwise it is 1. *)
Theorem exit_code_zero_iff (t : TestConductor) (test_err : error) (s : Conductor W) :
  ∃ c s', run (GetTestOutcome t test_err) s = (Ret c, s') ∧ (c = 0 ∨ c = 1)%Z ∧
    (c = 0%Z ↔ test_err = None ∧
       (SendXrayTest (Config t) = 1%Z →
        ∃ r, (td_GetTestRunByID (TestRunId t) (world s)).1 = inr r ∧
             RunStatus (RunSpec r) = TestRunStatusEnumPASSED)).
Proof.
  unfold GetTestOutcome. rewrite run_bind. case_decide as Hx.
  - unfold GetTestRunStatus. rewrite !run_bind, run_td_call. cbn [seq_run].
    destruct (td_GetTestRunByID (TestRunId t) (world s)) as [[e|r] w]; cbn [fst snd].
    + eexists 1%Z, _. split; [reflexivity|]. split; [by right|]. split; [done|].
      intros [_ Hr]. by destruct (Hr Hx) as (r & ? & _).
    + rewrite run_bind, run_deref_Some. cbn [seq_run]. rewrite run_done. cbn [seq_run].
      rewrite run_done. cbn [seq_run]. case_bool_decide as Hs.
      * eexists 1%Z, _. split; [reflexivity|]. split; [by right|]. split; [done|].
        intros [_ Hr]. destruct (Hr Hx) as (r' & Hr' & ?). by simplify_eq.
      * destruct test_err; eexists _, _; (split; [reflexivity|]); naive_solver.
  - rewrite run_done. cbn [seq_run].
    destruct test_err; eexists _, _; (split; [reflexivity|]); naive_solver.
Qed.

Lemma returns_GetTestRunStatus u : returns (S:=Conductor W) (GetTestRunStatus u).
Proof.
  intros s. unfold GetTestRunStatus. rewrite run_bind, run_td_call. cbn [seq_run].
  destruct (td_GetTestRunByID u (world s)) as [[e|r] w]; eexists _, _; reflexivity.
Qed.
Lemma returns_sendTestRunStatus u m k st :
  returns (S:=Conductor W) (sendTestRunStatus u m k st).
Proof.
  unfold sendTestRunStatus, getTime. apply returns_bind; [solve_returns|]. intros tm s.
  rewrite run_bind, run_td_call. cbn [seq_run].
  destruct (td_PutTestRunByID u _ (world s)) as [[e|r] w]; eexists _, _; reflexivity.
Qed.
Hint Resolve returns_GetTestRunStatus returns_sendTestRunStatus : returns.

(** The director answers a posted event with what was posted (the handler of
    test_director/handlers/events.go does). *)
Definition echoes_events : Prop :=
  ∀ spec w ev w', td_AddEvent spec w = (inr ev, w') → EvSpec ev = spec.

Section Echo.
Context (Hecho : echoes_events).

Lemma returns_SendEvent i m c src : returns (S:=Conductor W) (lib_SendEvent i m c src).
Proof.
  unfold lib_SendEvent, getTime. apply returns_bind; [solve_returns|]. intros tm s.
  rewrite run_bind, run_td_call. cbn [seq_run].
  destruct (td_AddEvent _ (world s)) as [[e|ev] w] eqn:E; [by eexists _, _|].
  apply Hecho in E. cbn [fst snd]. rewrite run_bind, run_deref_Some. cbn [seq_run].
  rewrite E.
  by eexists _, _.
Qed.
Hint Resolve returns_SendEvent : returns.
Lemma returns_tc_SendEvent t c m : returns (SendEvent (W:=W) t c m).
Proof. unfold SendEvent. solve_returns. Qed.
End Echo.
Hint Resolve returns_tc_SendEvent : returns.

(** A program that ends in a value of [P] whenever it returns. *)
Lemma total_bind_any {A B} (p : prog (Conductor W) A) (k : A → prog (Conductor W) B) Q :
  returns p → (∀ a, total (λ _, True) (k a) Q) → total (λ _, True) (p ≫= k) Q.
Proof. intros Hp Hk. eapply total_bind; [by apply total_returns|done]. Qed.

Lemma total_outcome_failed t e :
  total (λ _, True) (GetTestOutcome (W:=W) t (Some e)) (λ c _, c = 1%Z).
Proof.
  unfold GetTestOutcome. apply total_bind_any; [solve_returns|].
  intros []; by apply total_ret.
Qed.

(** A test that ended with an error makes the process exit with 1, whether or not
    the director can be told: the reports never turn a failure into a success. *)
Theorem failed_test_exit_code (t : TestConductor) (e : goerror) (s : Conductor W) :
  echoes_events →
  ∃ s', run (SendTestRunFinished t (Some e)) s = (Ret 1%Z, s').
Proof.
  intros Hecho.
  assert (Ht : total (λ _, True) (SendTestRunFinished (W:=W) t (Some e)) (λ c _, c = 1%Z));
    [|destruct (Ht s I) as (c & s' & ? & ->); eauto].
  unfold SendTestRunFinished.
  eapply (total_bind _ _ _ (λ err _, is_Some err)).
  - case_decide; [|by apply total_ret].
    apply total_bind_any; [apply returns_sendTestRunStatus|].
    intros [e'|]; by apply total_ret.
  - intros err s1 [e1 ->].
    eapply (total_bind (λ _, True) _ _ (λ err _, is_Some err)); [|clear|done].
    + apply total_bind_any; [by apply returns_tc_SendEvent|].
      intros [e'|]; by apply total_ret.
    + intros err s2 [e2 ->]. by apply total_outcome_failed.
Qed.

(** The text of an event goes into a GraphQL query between quotes: whatever the
    message, the text the director is given holds neither a quote nor a line end. *)
Theorem event_text_embeddable (source message class src : string) (s : Conductor W) :
  ∃ spec text, EvMessage spec = Some text ∧ embeddable text ∧
    EvClass spec = Some class ∧ SourceInstance spec = Some source ∧
    (run (lib_SendEvent source message class src) s).2 =
    set_world (td_AddEvent spec (clock_now (world s)).2).2 s.
Proof.
  set (tm := format_time (clock_now (world s)).1).
  exists (mkEventSpec (Some class) (Some [""]) (Some (removespecial (tm +:+ ": " +:+ message)))
            "" (Some src) (Some source)), (removespecial (tm +:+ ": " +:+ message)).
  split; [done|]. split; [apply removespecial_embeddable|]. split; [done|]. split; [done|].
  unfold lib_SendEvent, getTime, time_Now. rewrite !run_bind, run_outside. cbn [seq_run].
  rewrite run_done. cbn [seq_run]. rewrite run_bind, run_td_call, world_set. fold tm.
  cbn [seq_run]. rewrite set_world_set.
  destruct (td_AddEvent _ _) as [[e|ev] w]; cbn [fst snd]; [done|].
  apply keeps_run with (I := λ s', s' = set_world w s); [|done].
  unfold index. solve_keeps.
Qed.
End Reports.

(** ** Durations *)

(** A string of decimal digits. *)
Fixpoint digits (s : string) : bool :=
  match s with EmptyString => true | String c s' => is_digit c && digits s' end.

Lemma span_digits_app d c r :
  digits d = true → is_digit c = false →
  span_digits (d +:+ String c r) = (d, String c r).
Proof.
  intros Hd Hc. unfold String.app. induction d as [|x d IH]; simpl in *; [by rewrite Hc|].
  apply andb_true_iff in Hd as [Hx Hd]. by rewrite Hx, (IH Hd).
Qed.

Lemma leading_count_hit k u d r :
  digits d = true → is_digit u = false → (1 ≤ String.length d ≤ k)%nat →
  leading_count k u (d +:+ String u r) = Some (d, r).
Proof.
  intros Hd Hu Hl. unfold leading_count. rewrite span_digits_app by done.
  rewrite bool_decide_eq_true_2 by done. by rewrite bool_decide_eq_true_2.
Qed.

(** A duration with days and hours is turned into hours that Go can read: the days
    count for 24 hours each, the rest of the text is kept, and nothing is left of days and
    hours that are zero. *)
Theorem convert_days_and_hours (days hours rest : string) :
  digits days = true → (1 ≤ String.length days ≤ 3)%nat →
  digits hours = true → (1 ≤ String.length hours ≤ 2)%nat →
  let n := (digits_val days * 24 + digits_val hours)%Z in
  ConvertTime (days +:+ "d" +:+ hours +:+ "h" +:+ rest) =
  (if decide (n = 0%Z) then "" else Itoa n +:+ "h") +:+ rest.
Proof.
  intros Hd Hdl Hh Hhl n. unfold ConvertTime.
  change ("d" +:+ hours +:+ "h" +:+ rest) with
    (String "d"%char (hours +:+ String "h"%char rest)).
  rewrite leading_count_hit by done. rewrite leading_count_hit by done.
  replace (digits_val hours + digits_val days * 24)%Z with n by lia.
  repeat case_decide; done.
Qed.
Lemma convert_days_and_hours_witness : ConvertTime "2d8h20m30s" = "56h20m30s".
Proof.
  apply (convert_days_and_hours "2" "8" "20m30s"); [reflexivity|simpl; lia|reflexivity|simpl; lia].
Defined.

Definition day_text (d : nat) : string := Itoa (Z.of_nat d) +:+ "d".

(** All the day counts the pattern admits, one by one. *)
Lemma days_checked :
  forallb (λ d, bool_decide (GetDuration (day_text d) = ((Z.of_nat d * 24 * Hour)%Z, None)))
    (seq 1 999) = true.
Proof. vm_compute. reflexivity. Qed.

(** A whole number of days, from 1 to 999, is read as that many times 24 hours. *)
Theorem get_duration_days (d : nat) :
  (0 < d < 1000)%nat → GetDuration (day_text d) = ((Z.of_nat d * 24 * Hour)%Z, None).
Proof.
  intros Hd. pose proof days_checked as Hc. rewrite forallb_forall in Hc.
  specialize (Hc d). rewrite in_seq in Hc. specialize (Hc ltac:(lia)).
  by apply bool_decide_eq_true_1 in Hc.
Qed.
Lemma get_duration_days_witness : GetDuration "14d" = ((14 * 24 * Hour)%Z, None).
Proof. apply (get_duration_days 14). lia. Defined.

(** ** Devices *)

Lemma run_index {S A} (l : list A) (i : Z) (x : A) (s : S) :
  (0 ≤ i)%Z → l !! Z.to_nat i = Some x → run (index l i) s = (Ret x, s).
Proof. intros Hi Hx. unfold index. by rewrite bool_decide_eq_true_2, Hx. Qed.

Section Devices.
Context {W : Type} `{Http W}.
Context (accepts : ∀ method url, http_NewRequest method url = None).

Lemma run_sendRequest t u d (s : Conductor W) :
  ∃ r s', run (sendRequestGetResponse t u d) s = (Ret r, s').
Proof.
  unfold sendRequestGetResponse. rewrite accepts. unfold client_Do.
  rewrite !run_bind, run_outside. cbn [seq_run].
  destruct (http_Do _ (world s)) as [[e|resp] w]; cbn [fst snd]; rewrite run_done;
    cbn [seq_run]; [by eexists _, _|].
  rewrite run_bind, run_deref_Some. cbn [seq_run].
  case_bool_decide; [by eexists _, _|]. unfold ReadAll.
  destruct (rs_body resp) as [[]|]; by eexists _, _.
Qed.
Lemma returns_onlineDevice ip dev : returns (onlineDevice (W:=W) ip dev).
Proof.
  unfold onlineDevice, ControlDevice, checkDeviceState, Exec.
  apply returns_bind; [intros s; apply run_sendRequest|]. intros [res [e|]]; [solve_returns|].
  apply returns_bind; [intros s; apply run_sendRequest|]. intros [r e]. solve_returns.
Qed.

(** The devices were brought online one after another, from state [s] to [s']. *)
Fixpoint all_online (devs : list deviceDescriptor) (s s' : Conductor W) : Prop :=
  match devs with
  | [] => s' = s
  | d :: devs' =>
      ∃ s1, run (onlineDevice (dev_node d) (dev_device d)) s = (Ret None, s1) ∧
            all_online devs' s1 s'
  end.
(** Why [restoreDevices] stopped at the devices [rest]. *)
Definition stopped_at (rest : list deviceDescriptor) (err : error) (s s' : Conductor W) : Prop :=
  match rest with
  | [] => err = None ∧ s' = s
  | d :: _ => is_Some err ∧
              run (onlineDevice (dev_node d) (dev_device d)) s = (Ret err, s')
  end.

Lemma restore_loop todo cur (s : Conductor W) :
  todo = cur →
  ∃ done rest err s1 s',
    cur = (done ++ rest)%list ∧ all_online done s s1 ∧ stopped_at rest err s1 s' ∧
    run (for_range todo cur (λ dev devs,
        err ← onlineDevice (dev_node dev) (dev_device dev);
        match err with
        | Some e => mret (Return (devs, Some e))
        | None => mret (Next (tail devs))
        end)) s =
    (Ret (match err with None => inl rest | Some _ => inr (rest, err) end), s').
Proof.
  intros <-. revert s. induction todo as [|d todo IH]; intros s.
  - by exists [], [], None, s, s.
  - rewrite run_for_range_cons, run_bind.
    destruct (returns_onlineDevice (dev_node d) (dev_device d) s) as ([e|] & s1 & E).
    + exists [], (d :: todo), (Some e), s, s1. rewrite E. cbn [seq_run].
      repeat split; [done|]. by rewrite E.
    + destruct (IH s1) as (done & rest & err & s2 & s' & Hd & Ha & Hs & Hr).
      exists (d :: done), rest, err, s2, s'. rewrite E. cbn [seq_run]. rewrite run_done.
      cbn [seq_run tail]. repeat split; [by rewrite Hd|by exists s1|done|done].
Qed.
End Devices.

(** [restoreDevices] brings the devices online in order and stops at the first that
    fails: what it gives back is exactly the devices that are still to be restored, the
    failed one first, and there is no error exactly when none is left. *)
Theorem restore_devices_rest {W} `{Http W} (devs : list deviceDescriptor) (s : Conductor W) :
  (∀ method url, http_NewRequest method url = None) →
  ∃ done rest err s1 s', devs = (done ++ rest)%list ∧ all_online done s s1 ∧
    stopped_at rest err s1 s' ∧ run (restoreDevices devs) s = (Ret (rest, err), s').
Proof.
  intros Hreq. destruct (restore_loop Hreq devs devs s eq_refl)
    as (done & rest & err & s1 & s' & Hd & Ha & Hs & Hr).
  exists done, rest, err, s1, s'. repeat split; [done..|].
  unfold restoreDevices. rewrite run_bind, Hr. by destruct err.
Qed.

Definition reply (text : string) : goerror + response := inr (mkResponse 200 (inr text)).
Definition fresh_conductor (c : Cluster) : Conductor Cluster := mkCond ∅ [] c.
Definition sdb (ip : string) : deviceDescriptor := mkDevice ip "sdb".

(** The second device refuses. *)
Definition second_refuses : Conductor Cluster :=
  fresh_conductor (with_replies [reply ""; reply "running"] empty_cluster).

Lemma restore_devices_rest_witness :
  ∃ done rest err s1 s', [sdb "10.0.0.1"; sdb "10.0.0.2"] = (done ++ rest)%list ∧
    all_online done second_refuses s1 ∧ stopped_at rest err s1 s' ∧
    run (restoreDevices [sdb "10.0.0.1"; sdb "10.0.0.2"]) second_refuses = (Ret (rest, err), s').
Proof. apply restore_devices_rest. reflexivity. Defined.

(** ... and only the second is left. *)
Example second_is_left :
  (run (restoreDevices [sdb "10.0.0.1"; sdb "10.0.0.2"]) second_refuses).1 =
  Ret ([sdb "10.0.0.2"], Some refusal).
Proof. vm_compute. reflexivity. Qed.

(** A cluster with a node, its pool on /dev/sdb, and replies of the node's agent. *)
Definition n1_pool : MayastorPool :=
  mkMsp (named "n1-pool" NSMayastor) (mkMspSpec ["/dev/sdb"] "n1") (msp_status zero_msp).
Definition one_pool (replies : list (goerror + response)) : Conductor Cluster :=
  fresh_conductor (with_replies replies (with_msps [n1_pool]
    (with_nodes [demo_node "n1" "10.0.0.1"] empty_cluster))).

Definition with_conductor_replies (l : list (goerror + response)) (s : Conductor Cluster)
    : Conductor Cluster := mkCond (faultedPVCs s) (errchan s) (with_replies l (cond_world s)).

Lemma run_agent_reply t u d text l (s : Conductor Cluster) :
  cl_replies (cond_world s) = reply text :: l →
  run (sendRequestGetResponse t u d) s = (Ret (text, None), with_conductor_replies l s).
Proof.
  intros Hl. unfold sendRequestGetResponse. cbn [http_NewRequest cluster_http].
  unfold client_Do. rewrite !run_bind, run_outside. cbn [http_Do cluster_http world cond_has_world].
  rewrite Hl. reflexivity.
Qed.

Lemma run_one_pool_pools l :
  run ListMsPools (one_pool l) = (Ret ([n1_pool], None), one_pool l).
Proof. reflexivity. Qed.
Lemma run_one_pool_nodes l :
  run GetNodeLocs (one_pool l) =
  (Ret ([mkNodeLocation "n1" "10.0.0.1" true false], None), one_pool l).
Proof. reflexivity. Qed.

(** A device whose agent accepted to put it offline, but whose state does not read
    back as offline (whatever it reads instead, or nothing at all), is not among the devices
    to restore: the list comes back as it was, with an error. *)
Theorem unseen_offline_device_forgotten (accepted text : string) (devs : list deviceDescriptor) :
  TrimRight text newline ≠ "offline" →
  ∃ e, (run (offlineDevice 0 1 devs) (one_pool [reply accepted; reply text])).1 =
       Ret (devs, Some e) ∧
       cl_replies (world (run (offlineDevice 0 1 devs)
                            (one_pool [reply accepted; reply text])).2) = [].
Proof.
  intros Ht. eexists.
  assert (E : run (offlineDevice 0 1 devs) (one_pool [reply accepted; reply text]) =
    (Ret (devs, errorf ("unexpected state: expected offline, got " +:+ TrimRight text newline)),
     one_pool [])); [|rewrite E; by split].
  unfold offlineDevice. rewrite run_bind, run_one_pool_pools. cbn [seq_run length].
  rewrite bool_decide_eq_false_2 by lia. rewrite run_bind, run_for_range_cons.
  rewrite run_bind, (run_index _ 0 "/dev/sdb") by done. cbn [seq_run]. rewrite run_done.
  cbn [seq_run for_range]. rewrite run_done. cbn [seq_run no_return].
  rewrite run_bind, run_done. cbn [seq_run].
  rewrite run_bind, run_one_pool_nodes. cbn [seq_run length].
  rewrite bool_decide_eq_false_2 by lia. rewrite run_bind, (run_index _ 0 n1_pool) by done.
  cbn [seq_run].
  rewrite filter_cons_True by reflexivity. cbn [head].
  change (pool_device n1_pool _) with (inl ("10.0.0.1", "sdb") : (string * string) + error).
  cbv iota beta. rewrite decide_False by done.
  unfold ControlDevice. rewrite run_bind, (run_agent_reply _ _ _ accepted [reply text]) by done.
  cbn [seq_run]. unfold checkDeviceState, Exec.
  rewrite !run_bind, (run_agent_reply _ _ _ text []) by done.
  cbn [seq_run]. rewrite decide_True by done. done.
Qed.
Lemma unseen_offline_device_forgotten_witness :
  ∃ e, (run (offlineDevice 0 1 []) (one_pool [reply ""; reply "running"])).1 = Ret ([], Some e) ∧
       cl_replies (world (run (offlineDevice 0 1 [])
                            (one_pool [reply ""; reply "running"])).2) = [].
Proof. apply (unseen_offline_device_forgotten "" "running" []). discriminate. Defined.

(** ** A configuration for examples *)

Definition demo_config (name : string) : ExtendedTestConfig :=
  mkConfig "run" name "1h" "fio:latest" 1 "/dev/sdb" 1 1 "ET-1"
    (mkSteadyStateCfg 1 0 0 64)
    (mkNonSteadyStateCfg 2 1 0 0 "1h" 64)
    (mkPrimitivePoolDeletionCfg 1 1000 "300s" "30s" "30s" "40s" "20s" "360s" 240)
    (mkReplicaEliminationCfg 0 0 3 "1h" 64 10 0 0)
    (mkReplicaPerturbationCfg 0 0 1 0 0 3 0 0 64 0).
Definition demo_conductor (name : string) : TestConductor :=
  mkConductor (demo_config name) "tc-uuid" "n1".

(** Here the director cannot be reached. *)
Lemma failed_test_exit_code_witness :
  ∃ s', run (SendTestRunFinished (demo_conductor "steady_state") (Some (GoError "broken" Plain)))
          (fresh_conductor (with_director false empty_cluster)) = (Ret 1%Z, s').
Proof.
  apply (failed_test_exit_code (demo_conductor "steady_state") (GoError "broken" Plain)).
  intros spec w ev w'. cbn. destruct (cl_director w); by intros [= <- <-].
Defined.
