(* ===== verification/WaitTheorems.v ===== *)
(** * Watching volumes

    The waits for the state of a volume, and the health check that reports a faulted
    volume. *)

From stdpp Require Import base gmap strings list pretty.
From Stdlib Require Import Ascii.
From S2P Require Import Prelude GoLib Json Http Models Kube Total MayastorClient GoTime.
From S2P Require Import K8sPods K8sLib K8sApps DirectorLib ScriptedCluster AgentClient WmLib.
From S2P Require Import TestCommon.

(** A loop whose body always goes round again never ends, whatever the fuel. *)
Lemma for_fuel_for_ever {S B R} (fuel : nat) i (b : B) (body : Z → B → prog S (ctl B R)) s :
  (∀ j b s, ∃ b' s', run (body j b) s = (Ret (Next b'), s')) →
  (run (for_fuel fuel i b body) s).1 = Exhausted.
Proof.
  intros Hbody. revert i b s. induction fuel as [|fuel IH]; intros i b s; [done|].
  cbn [for_fuel]. rewrite run_bind. destruct (Hbody i b s) as (b' & s' & E). rewrite E.
  cbn [seq_run]. apply IH.
Qed.

(** ** The requests to the control plane come back *)

Section Mcp.
Context {W : Type} `{Http W}.

Lemma returns_mcp_sendRequest t u : returns (S:=Conductor W) (mcp_sendRequest t u).
Proof.
  unfold mcp_sendRequest. destruct (http_NewRequest t u); [solve_returns|].
  intros s. unfold client_Do. rewrite !run_bind, run_outside. cbn [seq_run].
  destruct (http_Do _ (world s)) as [[e|resp] w]; cbn [fst snd]; rewrite run_done;
    cbn [seq_run]; [by eexists _, _|].
  rewrite run_bind, run_deref_Some. cbn [seq_run].
  case_bool_decide; [by eexists _, _|]. unfold ReadAll.
  destruct (rs_body resp) as [[]|]; by eexists _, _.
Qed.
Lemma returns_mcp_get {A} (zero : A) dec u : returns (S:=Conductor W) (mcp_get zero dec u).
Proof.
  unfold mcp_get. apply returns_bind; [apply returns_mcp_sendRequest|].
  intros [r [e|]]; solve_returns.
Qed.
Hint Resolve returns_mcp_get : returns.
Lemma returns_getVolumeStatus ip u : returns (getVolumeStatus (W:=W) ip u).
Proof. unfold getVolumeStatus, GetVolumeStatus, GetVolume. solve_returns. Qed.
Hint Resolve returns_getVolumeStatus : returns.

(** [waitForVolumeNotOnline] comes back after at most a hundred and one looks,
    whatever the control plane answers. *)
Theorem wait_not_online_returns `{Clock W} (ms_ip uuid : string) (s : Conductor W) :
  ∃ err s', run (waitForVolumeNotOnline ms_ip uuid) s = (Ret err, s').
Proof.
  apply returns_bind; [|solve_returns]. apply returns_for_fuel; [lia|].
  intros j b Hj. eapply total_bind; [apply total_returns, returns_getVolumeStatus|].
  intros [st [e|]]; [by apply total_ret|].
  case_decide; [by apply total_ret|]. case_decide; [by apply total_ret|].
  eapply total_bind; [apply total_returns; auto with returns|].
  intros []. apply total_ret. intros _ _. lia.
Qed.
End Mcp.

(** ** A volume that does not change *)

Section Constant.
Context {W : Type} `{Http W} `{Clock W}.
(** The control plane accepts requests and always answers with [body], a volume [vol]. *)
Definition always_answers (body : string) (vol : SparseVolume) : Prop :=
  (∀ method url, http_NewRequest method url = None) ∧
  (∀ (r : request) (w : W), http_Do r w = (inr (mkResponse 200 (inr body)), w)) ∧
  json_parse body ≫= SparseVolume_of_json = Some vol.

Context {body : string} {vol : SparseVolume} (Hans : always_answers body vol).

Lemma run_mcp_get_constant u (s : Conductor W) :
  run (mcp_get zero_volume SparseVolume_of_json u) s = (Ret (vol, None), s).
Proof.
  destruct Hans as (Hreq & Hdo & Hdec). unfold mcp_get, mcp_sendRequest. rewrite Hreq.
  unfold client_Do. rewrite !run_bind, run_outside, Hdo. cbn [seq_run fst snd].
  rewrite set_world_world, run_done. cbn [seq_run].
  rewrite run_bind, run_deref_Some. cbn [seq_run StatusCode].
  rewrite bool_decide_eq_false_2 by lia. cbn [ReadAll rs_body]. rewrite run_bind, run_done.
  cbn [seq_run]. rewrite run_done. cbn [seq_run]. by rewrite Hdec.
Qed.
Lemma run_count_constant ip u (s : Conductor W) :
  run (GetVolumeReplicaCount ip u) s = (Ret (Z.of_nat (length (TargetChildren vol)), None), s).
Proof. unfold GetVolumeReplicaCount. by rewrite run_bind, run_mcp_get_constant. Qed.
Lemma run_status_constant ip u (s : Conductor W) :
  run (getVolumeStatus ip u) s = (Ret (VolStatus vol, None), s).
Proof.
  unfold getVolumeStatus, GetVolumeStatus, GetVolume.
  by rewrite run_bind, run_mcp_get_constant.
Qed.
End Constant.

(** The wait for the state of a volume has no end while the volume has no replicas:
    the test for the hundredth look is then never reached, and no number of looks is
    enough. *)
Theorem wait_status_without_replicas {W} `{Http W} `{Clock W} (body : string)
    (vol : SparseVolume) (ms_ip uuid wanted : string) (fuel : nat) (s : Conductor W) :
  always_answers body vol → TargetChildren vol = [] →
  (run (waitForVolumeStatus fuel ms_ip uuid wanted) s).1 = Exhausted.
Proof.
  intros Hans Hnone. unfold waitForVolumeStatus. rewrite run_bind.
  match goal with |- (seq_run (run (for_fuel ?n ?i ?b ?f) ?s) _).1 = _ =>
    pose proof (for_fuel_for_ever n i b f s) as Hf;
    destruct (run (for_fuel n i b f) s) as [o s'] end.
  cbn [fst] in Hf. rewrite Hf; [done|]. intros j b s1.
  rewrite run_bind, (run_count_constant Hans), Hnone. cbn [seq_run length].
  rewrite bool_decide_eq_false_2 by lia. by eexists _, _.
Qed.

(** A volume that has replicas is waited for at most a hundred and one looks, and the
    result is right: success when its state is the one wanted, the time-out otherwise. *)
Theorem wait_status_with_replicas {W} `{Http W} `{Clock W} (body : string)
    (vol : SparseVolume) (ms_ip uuid wanted : string) (fuel : nat) (s : Conductor W) :
  always_answers body vol → TargetChildren vol ≠ [] → (101 ≤ fuel)%nat →
  ∃ s', run (waitForVolumeStatus fuel ms_ip uuid wanted) s =
    (Ret (if decide (VolStatus vol = wanted) then None
          else errorf ("timed out waiting for nexus to be " +:+ wanted)), s').
Proof.
  intros Hans Hsome Hfuel.
  set (res := if decide (VolStatus vol = wanted) then None
              else errorf ("timed out waiting for nexus to be " +:+ wanted)).
  assert (Ht : total (λ _ : Conductor W, True) (waitForVolumeStatus fuel ms_ip uuid wanted)
                 (λ err _, err = res));
    [|destruct (Ht s I) as (err & s' & E & ->); eauto].
  assert (Hlen : bool_decide (0 < Z.of_nat (length (TargetChildren vol)))%Z = true).
  { apply bool_decide_eq_true_2. destruct (TargetChildren vol); [done|simpl; lia]. }
  set (Q := λ (r : unit + error) (_ : Conductor W),
              match r with inl _ => res = None | inr e => e = res end).
  eapply (total_bind _ _ _ Q).
  - eapply total_weaken;
      [apply (total_for_fuel (λ j _ _, (j ≤ 100)%Z) _ _ _ _ Q)|simpl; lia|done]; [lia|].
    intros j b Hj s0 Hj0. rewrite run_bind, (run_count_constant Hans). cbn [seq_run].
    rewrite Hlen, run_bind, (run_status_constant Hans). cbn [seq_run].
    clear Hlen. unfold Q, res. case_decide; [by eexists _, _|].
    case_decide; [by eexists _, _|]. eexists _, _. split; [reflexivity|]. cbn. lia.
  - intros [u|e]; apply total_ret; naive_solver.
Qed.

(** ** Faulted volumes *)

Definition found_faulted (u : string) : error := errorf ("found faulted volume, uuid " +:+ u).

Lemma found_faulted_inj u v : found_faulted u = found_faulted v → u = v.
Proof. unfold found_faulted, errorf. intros [= E]. by apply (inj (String.app _)) in E. Qed.

Section Faulted.
Context {W : Type} `{Http W} `{Kube W}.
Notation has F := (λ s : Conductor W, faultedPVCs s = F).

#[local] Instance has_world_free F : WorldFree (has F).
Proof. intros s w Hs. exact Hs. Qed.

Lemma keeps_mcp_sendRequest (I : Conductor W → Prop) `{!WorldFree I} t u :
  keeps I (mcp_sendRequest t u).
Proof. unfold mcp_sendRequest. solve_keeps. Qed.
Hint Resolve keeps_mcp_sendRequest : keeps.
Lemma total_GetVolumes F ip : total (has F) (GetVolumes ip) (λ _, has F).
Proof.
  apply total_keeps; [apply returns_mcp_get|]. unfold GetVolumes, mcp_get. solve_keeps.
Qed.
Lemma total_checkPVCexists F u : total (has F) (checkPVCexists u) (λ _, has F).
Proof.
  intros s Hs. unfold checkPVCexists, ListPVCs. rewrite !run_bind, run_kube_call.
  cbn [seq_run]. destruct (pvc_List NSDefault (world s)) as [[e|l] w]; by eexists _, _.
Qed.

(** What one check does to the set of reported volumes. *)
Definition reports (F : gset string) (err : error) (s' : Conductor W) : Prop :=
  (∃ u, err = found_faulted u ∧ u ∉ F ∧ faultedPVCs s' = {[u]} ∪ F) ∨
  (∀ u, err ≠ found_faulted u) ∧ faultedPVCs s' = F.

Lemma total_check F ip : total (has F) (CheckMSVwithCP ip) (reports F).
Proof.
  unfold CheckMSVwithCP. eapply total_bind; [apply total_GetVolumes|].
  intros [vols [e|]]; [apply total_ret; intros s Hs; by right|].
  set (Q := λ (r : unit + error) s', reports F (match r with inl _ => None | inr e => e end) s').
  eapply (total_bind _ _ _ Q); [|intros [u|e]; by apply total_ret].
  apply (total_for_range (λ _ _, has F) _ _ _ Q); [|intros [] s Hs; by right].
  intros vol l [] . case_decide.
  - intros s Hs. rewrite run_bind, run_reads. cbn [seq_run]. rewrite Hs.
    case_bool_decide as Hin; [by eexists _, _|].
    revert s Hs. change (total (has F) ('(present, err) ← checkPVCexists (VolUuid vol);
      match err with
      | Some e =>
          mret (Return (errorf ("failed to check PVC exists, error: " +:+ err_text e)))
      | None =>
          if present : bool then
            updates (add_faulted (VolUuid vol)) ;;
            mret (Return (errorf ("found faulted volume, uuid " +:+ VolUuid vol)))
          else mret (Next tt)
      end) (λ c s,
       match c with
       | Next _ => faultedPVCs s = F
       | Break b' => Q (inl b') s
       | Return r => Q (inr r) s
       end)).
    eapply total_bind; [apply total_checkPVCexists|].
    intros [b [e|]]; [apply total_ret; intros s Hs; by right|].
    destruct b; [|by apply total_ret]. intros s Hs. rewrite run_bind, run_updates.
    eexists _, _. split; [reflexivity|]. left. exists (VolUuid vol).
    split; [done|]. split; [done|]. by rewrite <- Hs.
  - case_decide; apply total_ret; intros s Hs; [done|by right].
Qed.

(** Several checks one after another, and what each of them reported. *)
Fixpoint checks (ips : list string) : prog (Conductor W) (list error) :=
  match ips with
  | [] => mret []
  | ip :: ips' => err ← CheckMSVwithCP ip; errs ← checks ips'; mret (err :: errs)
  end.

Lemma total_checks F ips :
  total (has F) (checks ips) (λ errs _,
    (∀ i u, errs !! i = Some (found_faulted u) → u ∉ F) ∧
    (∀ i j u, errs !! i = Some (found_faulted u) → errs !! j = Some (found_faulted u) → i = j)).
Proof.
  revert F. induction ips as [|ip ips IH]; intros F s Hs; [by exists [], s|].
  destruct (total_check F ip s Hs) as (err & s1 & E & Hr).
  destruct (IH (faultedPVCs s1) s1 eq_refl) as (errs & s2 & E2 & Hnew & Huniq).
  exists (err :: errs), s2. cbn [checks]. rewrite run_bind, E. cbn [seq_run].
  rewrite run_bind, E2. split; [done|].
  assert (Hsub : ∀ u, u ∉ faultedPVCs s1 → u ∉ F)
    by (destruct Hr as [(v & _ & _ & ->)|[_ ->]]; set_solver).
  assert (Hhead : ∀ u, err = found_faulted u → u ∉ F ∧ u ∈ faultedPVCs s1).
  { intros u ->. destruct Hr as [(v & Hv & Hn & ->)|[Hno _]]; [|by destruct (Hno u)].
    apply found_faulted_inj in Hv as <-. set_solver. }
  split.
  - intros [|i] u Hi; simplify_eq/=; [by apply Hhead|]. by eapply Hsub, Hnew.
  - intros [|i] [|j] u Hi Hj; simplify_eq/=; [done| | |f_equal; by eapply Huniq].
    + destruct (Hhead u eq_refl) as [_ Hin]. by destruct (Hnew j u Hj).
    + destruct (Hhead u eq_refl) as [_ Hin]. by destruct (Hnew i u Hi).
Qed.

(** A volume a check passes by: it is healthy enough, or it was reported before. *)
Definition passed_by (F : gset string) (vol : SparseVolume) : Prop :=
  VolStatus vol ∈ [MCP_MSV_ONLINE; MCP_MSV_DEGRADED; MCP_MSV_UNKNOWN] ∨
  VolStatus vol = MCP_MSV_FAULTED ∧ VolUuid vol ∈ F.

Lemma check_finds ip (pre post : list SparseVolume) (vol : SparseVolume) (pvcs : list PVC)
    (pvc : PVC) (s s1 : Conductor W) :
  run (GetVolumes ip) s = (Ret ((pre ++ vol :: post)%list, None), s1) →
  Forall (passed_by (faultedPVCs s)) pre →
  VolStatus vol = MCP_MSV_FAULTED → VolUuid vol ∉ faultedPVCs s →
  (pvc_List NSDefault (world s1)).1 = inr pvcs → pvc ∈ pvcs →
  PvcVolumeName pvc = PV_PREFIX +:+ VolUuid vol →
  ∃ s', run (CheckMSVwithCP ip) s = (Ret (found_faulted (VolUuid vol)), s') ∧
        faultedPVCs s' = {[VolUuid vol]} ∪ faultedPVCs s.
Proof.
  intros Hv Hpre Hst Hnew Hl Hin Hname.
  destruct (total_GetVolumes (faultedPVCs s) ip s eq_refl) as (r & s1' & Hr & Hf).
  rewrite Hv in Hr. simplify_eq. rewrite <- Hf in *.
  unfold CheckMSVwithCP. rewrite run_bind, Hv. cbn [seq_run]. clear Hv Hf s.
  rewrite run_bind. induction Hpre as [|x pre Hx _ IH]; cbn [app].
  - rewrite run_for_range_cons, decide_True by done.
    rewrite run_bind, run_reads. cbn [seq_run]. rewrite bool_decide_false by done.
    unfold checkPVCexists, ListPVCs. rewrite !run_bind, run_kube_call, Hl.
    cbn [seq_run]. rewrite run_done. cbn [seq_run]. rewrite run_bind, run_deref_Some.
    cbn [seq_run]. rewrite run_done. cbn [seq_run].
    replace (existsb _ pvcs) with true.
    { rewrite run_bind, run_updates. by eexists. }
    symmetry. apply existsb_exists. exists pvc. rewrite bool_decide_eq_true.
    by rewrite <- list_elem_of_In.
  - rewrite run_for_range_cons. destruct Hx as [Hx|[Hx Hx']].
    + rewrite decide_False by (intros E; rewrite E in Hx; set_solver).
      rewrite decide_True by done. rewrite run_done. exact IH.
    + rewrite decide_True by done. rewrite run_bind, run_reads. cbn [seq_run].
      rewrite bool_decide_true by done. rewrite run_done. exact IH.
Qed.
End Faulted.

(** (C33) The health check comes back whatever the control plane and the cluster answer, and
    in any number of checks one after another no faulted volume is reported twice, nor one
    that was reported before.  A faulted volume that was not reported before and has a claim
    is reported and remembered, when every volume listed before it is online, degraded or
    unknown, or was reported as faulted before, and the claims can be listed. *)
Theorem faulted_volume_reported_once {W} `{Http W} `{Kube W} (s : Conductor W) :
  (∀ ips, ∃ errs s', run (checks ips) s = (Ret errs, s') ∧
    (∀ i u, errs !! i = Some (found_faulted u) → u ∉ faultedPVCs s) ∧
    (∀ i j u, errs !! i = Some (found_faulted u) → errs !! j = Some (found_faulted u) → i = j)) ∧
  (∀ ip pre post vol pvcs pvc s1,
    run (GetVolumes ip) s = (Ret ((pre ++ vol :: post)%list, None), s1) →
    Forall (passed_by (faultedPVCs s)) pre →
    VolStatus vol = MCP_MSV_FAULTED → VolUuid vol ∉ faultedPVCs s →
    (pvc_List NSDefault (world s1)).1 = inr pvcs → pvc ∈ pvcs →
    PvcVolumeName pvc = PV_PREFIX +:+ VolUuid vol →
    ∃ s', run (CheckMSVwithCP ip) s = (Ret (found_faulted (VolUuid vol)), s') ∧
          faultedPVCs s' = {[VolUuid vol]} ∪ faultedPVCs s).
Proof.
  split; [|intros ip pre post vol pvcs pvc s1; apply check_finds].
  intros ips. destruct (total_checks (faultedPVCs s) ips s eq_refl) as (errs & s' & ? & ?). eauto.
Qed.

(** ** A control plane whose answer never changes *)

#[local] Instance frozen_clock : Clock unit := { clock_now w := (0%Z, w); clock_sleep _ w := w }.
Definition frozen_http (body : string) : Http unit := {|
  http_NewRequest _ _ := None;
  http_Do _ w := (inr (mkResponse 200 (inr body)), w);
|}.
Definition no_children : string := json_text "{'state':{'target':{'children':[]},'status':'Online'}}".
Definition one_child : string :=
  json_text "{'state':{'target':{'children':[{'state':'Online'}]},'status':'Degraded'}}".

Definition frozen_wait (body : string) (fuel : nat) (wanted : string)
    : outcome error * Conductor unit :=
  let _ := frozen_http body in
  run (waitForVolumeStatus fuel "10.0.0.1" "u" wanted) (mkCond ∅ [] ()).

Lemma wait_status_without_replicas_witness :
  (frozen_wait no_children 100000 "Online").1 = Exhausted.
Proof.
  eapply (@wait_status_without_replicas unit (frozen_http no_children) _ no_children);
    [split; [done|]; split; [done|]; vm_compute; reflexivity|reflexivity].
Defined.

Lemma wait_status_with_replicas_witness :
  ∃ s', frozen_wait one_child 101 "Online" =
        (Ret (errorf "timed out waiting for nexus to be Online"), s').
Proof.
  eapply (@wait_status_with_replicas unit (frozen_http one_child) _ one_child
            (mkSparseVolume 0 ["Online"] "" "" "Degraded"));
    [split; [done|]; split; [done|]; vm_compute; reflexivity|discriminate|lia].
Defined.

Definition one_faulted : string :=
  json_text "[{'state':{'uuid':'u0','status':'Online'}},{'state':{'uuid':'u1','status':'Faulted'}}]".

Lemma faulted_volume_reported_once_witness :
  ∃ s', run (CheckMSVwithCP "10.0.0.1")
          (mkCond ∅ [] (with_replies [inr (mkResponse 200 (inr one_faulted))] empty_cluster)) =
        (Ret (found_faulted "u1"), s') ∧ faultedPVCs s' = {["u1"]}.
Proof.
  destruct (proj2 (faulted_volume_reported_once
    (mkCond ∅ [] (with_replies [inr (mkResponse 200 (inr one_faulted))] empty_cluster)))
    "10.0.0.1" [mkSparseVolume 0 [] "" "u0" "Online"] [] (mkSparseVolume 0 [] "" "u1" "Faulted")
    [demo_claim] demo_claim (mkCond ∅ [] empty_cluster)) as (s' & Hrun & Hf).
  - vm_compute. reflexivity.
  - constructor; [left; apply list_elem_of_here|constructor].
  - reflexivity.
  - apply not_elem_of_empty.
  - reflexivity.
  - apply list_elem_of_here.
  - reflexivity.
  - exists s'. split; [exact Hrun|]. rewrite Hf. reflexivity.
Defined.
