(* ===== verification/Scenarios.v ===== *)
(** * The tests of the conductor (test_conductor/tests)

    Steady state, non-steady state, replica perturbation, replica elimination and
    primitive pool deletion, the choice among them, and the start of the conductor.
    The loops that end with the clock or with the cluster take a bound [fuel]. *)

From stdpp Require Import base gmap strings list pretty.
From S2P Require Import Prelude GoLib Json Http Models Kube MayastorClient GoTime K8sPods.
From S2P Require Import K8sLib K8sApps DirectorLib AgentClient WmLib Director TestCommon.

Record VolSpec := mkVolSpec {
  sc_names : list string; vol_types : list VolumeType; vol_size_mb : Z }.

(** [fmt.Errorf("<text>%v", err)] of an error that is not nil. *)
Definition wrap_error (text : string) (err : error) : error :=
  match err with Some e => errorf (text +:+ err_text e) | None => None end.

(** [combinederr = fmt.Errorf("%v: <text>%v", combinederr, err)] when [err] is not nil. *)
Definition add_error (text : string) (combined err : error) : error :=
  match err with
  | Some e => errorf (fmt_error combined +:+ ": " +:+ text +:+ err_text e)
  | None => combined
  end.

Definition podDeletionTimeoutSecs : Z := 120.
Definition storage_tester_image : string :=
  "ci-registry.mayastor-ci.mayadata.io/mayadata/e2e-storage-tester:latest".

Section Scenarios.
Context {W : Type} `{MapRange W} `{Kube W} `{Clock W} `{Grpc W} `{Http W} `{TdClient W}
        `{WmClient W} `{LocalTime} `{Uuid W}.
Notation M := (prog (Conductor W)).

(** [if err = p; err != nil { return <text> err }]. *)
Definition or_return (text : string) (p k : M error) : M error :=
  err ← p;
  match err with Some _ => mret (wrap_error text err) | None => k end.

(** One step after another until the first that fails; the variables of the loop are
    carried along. *)
Definition and_then {B} (p : M (B * error)) (k : B → M (B * error)) : M (B * error) :=
  '(b, err) ← p;
  match err with Some _ => mret (b, err) | None => k b end.
Definition step {B} (b : B) (p : M error) : M (B * error) := err ← p; mret (b, err).

(** The variables at the end of a round: go round again, or leave the loop. *)
Definition round_end {B} (r : B * error) : ctl (B * error) Empty_set :=
  match r.2 with Some _ => Break r | None => Next r end.

Definition make_sc (name : string) (replicas : Z) (mode : string)
    (local : option bool) : M error :=
  let b := sc_WithVolumeBindingMode mode (sc_WithNamespace NSDefault
             (sc_WithProtocol ShareProtoNvmf (sc_WithReplicas replicas
               (sc_WithName name NewScBuilder)))) in
  BuildAndCreate (match local with Some l => sc_WithLocal l b | None => b end).

(** ** steady_state.go *)

Definition SteadyStateTest (fuel : nat) (t : TestConductor) : M error :=
  let cfg := SteadyState (Config t) in
  let sc_name := "steady-state-sc" in
  let pvc_name := "steady-state-pvc" in
  let fio_name := "steady-state-fio" in
  or_return "failed to inform test director of test creation, error: " (SendTestRunToDo t)
    (let '(duration, err) := GetDuration (Duration (Config t)) in
     or_return "failed to parse duration " (mret err)
    (or_return "failed to inform test director of test start, error: " (SendTestRunStarted t)
    (or_return "failed add common workloads, error: " (AddCommonWorkloads violations)
    (or_return "failed to create sc "
       (make_sc sc_name (ss_Replicas cfg) VolumeBindingImmediate None)
    (or_return "failed to create pvc "
       ('(_, err) ← MkPVC (ss_VolumeSizeMb cfg) pvc_name sc_name VolRawBlock NSDefault false;
        mret err)
    (or_return ("failed to deploy pod " +:+ fio_name +:+ ", error: ")
       (DeployFio (E2eFioImage (Config t)) fio_name pvc_name VolRawBlock
          (ss_VolumeSizeMb cfg) 1000000 (ss_ThinkTime cfg) (ss_ThinkTimeBlocks cfg))
    (or_return ("failed to inform workload monitor of " +:+ fio_name +:+ ", error: ")
       (AddWorkload fio_name NSDefault violations)
    (combinederr ← MonitorCRs fuel t duration "";
     err ← lib_DeleteWorkloads;
     let combinederr :=
       add_error "failed to delete all registered workloads, error: " combinederr err in
     err ← DeletePod fio_name NSDefault podDeletionTimeoutSecs;
     let combinederr :=
       add_error ("failed to delete pod " +:+ fio_name +:+ ", error: ") combinederr err in
     err ← DeletePVC pvc_name NSDefault;
     let combinederr :=
       add_error ("failed to delete PVC " +:+ pvc_name +:+ ", error: ") combinederr err in
     err ← DeleteSc sc_name;
     mret (add_error ("failed to delete storage class " +:+ sc_name +:+ ", error: ")
             combinederr err))))))))).

(** ** non_steady_state.go *)

Definition suffix_of (vol_type : VolumeType) : string :=
  if decide (vol_type = VolFileSystem) then "fs" else "block".

(** One volume after another until the end of the duration or the first failure. *)
Definition testVolume (fuel : nat) (t : TestConductor) (id : Z) (testName : string)
    (vol_spec : VolSpec) (duration timeout : Z) : M error :=
  let cfg := NonSteadyState (Config t) in
  start ← time_Now;
  let endTime := (start + duration)%Z in
  let noOfSpecs := Z.of_nat (length (vol_types vol_spec)) in
  let noOfSCs := Z.of_nat (length (sc_names vol_spec)) in
  if decide (noOfSpecs = 0%Z ∨ noOfSCs = 0%Z) then mret (errorf "Invalid volume spec")
  else
    r ← for_fuel fuel 1 (None : error) (λ i _,
          now ← time_Now;
          if bool_decide (endTime < now)%Z then mret (Break None)
          else
            vol_type ← index (vol_types vol_spec) ((i + id) `rem` noOfSpecs);
            sc_name ← index (sc_names vol_spec) (((i + id) `quot` 2) `rem` noOfSCs);
            let tag := Itoa id +:+ "-" +:+ Itoa i +:+ "-" +:+ suffix_of vol_type +:+ "-" +:+
                       sc_name in
            let pvc_name := testName +:+ "-pvc-" +:+ tag in
            let fio_name := testName +:+ "-fio-" +:+ tag in
            err ← or_return ("failed to create pvc " +:+ pvc_name +:+ ", error: ")
              ('(_, err) ← MkPVC (vol_size_mb vol_spec) pvc_name sc_name vol_type NSDefault
                             false;
               mret err)
              (or_return ("failed to deploy pod " +:+ fio_name +:+ ", error: ")
                (DeployFio (E2eFioImage (Config t)) fio_name pvc_name vol_type
                   (vol_size_mb vol_spec) 1 (ns_ThinkTime cfg) (ns_ThinkTimeBlocks cfg))
              (err ← WaitPodNotRunning fuel fio_name timeout;
               match err with
               | Some e => mret (Some e)
               | None =>
                   err ← CheckPodAndDelete fio_name NSDefault podDeletionTimeoutSecs;
                   match err with
                   | Some e => mret (Some e)
                   | None =>
                       or_return ("failed to delete pvc " +:+ pvc_name +:+ ", error = ")
                         (DeletePVC pvc_name NSDefault) (mret None)
                   end
               end));
            mret (match err with Some e => Break (Some e) | None => Next None end));
    no_return r.

(** [errchan <- err]: the send waits while the buffer is full. *)
Definition send_err (capacity : nat) (e : goerror) : M unit :=
  guarded (λ s, if decide (length (errchan s) < capacity)%nat
                then Some (tt, set_errchan (errchan s ++ [e])%list s) else None).

(** A goroutine of the test: its error is an event and goes on the channel. *)
Definition reporting (t : TestConductor) (capacity : nat) (p : M error) : M unit :=
  err ← p;
  match err with
  | None => mret tt
  | Some e => SendEventTestFail t (err_text e) ;; send_err capacity e
  end.

Definition test_threads (fuel : nat) (concurrentVolumes : Z) (t : TestConductor)
    (testName : string) (vol_spec : VolSpec) (duration timeout : Z) : list (M unit) :=
  let capacity := Z.to_nat (concurrentVolumes + 1) in
  (map (λ i, reporting t capacity
               (testVolume fuel t i testName vol_spec duration timeout))
       (seqZ 0 concurrentVolumes) ++
   [reporting t capacity (MonitorCRs fuel t duration "")])%list.

Definition is_done (p : M unit) : bool := match p with Done _ => true | _ => false end.

(** The errors on the closed channel, in the order they were sent. *)
Definition drain (errs : list goerror) : error :=
  foldl (λ allerrs e,
    match allerrs with
    | None => Some e
    | Some a => errorf (err_text a +:+ ": " +:+ err_text e)
    end) None errs.

(** The goroutines run as the schedule says, until all of them are done. *)
Definition testVolumes (sched : list nat) (fuel : nat) (concurrentVolumes : Z)
    (t : TestConductor) (testName : string) (vol_spec : VolSpec) (duration timeout : Z)
    : M error :=
  updates (set_errchan []) ;;
  guarded (λ s,
    match pool_run sched
            (test_threads fuel concurrentVolumes t testName vol_spec duration timeout) s with
    | Some (ts, s') => if forallb is_done ts then Some (drain (errchan s'), s') else None
    | None => None
    end).

Definition NonSteadyStateTest (sched : list nat) (fuel : nat) (t : TestConductor)
    : M error :=
  let cfg := NonSteadyState (Config t) in
  let sc_name := "sc-immed" in
  let sc_name_local := "sc-local-wait" in
  let start_failed := "failed to inform test director of test start, error: " in
  or_return start_failed (SendTestRunToDo t)
    (let '(duration, err) := GetDuration (Duration (Config t)) in
     or_return "failed to parse duration " (mret err)
    (let '(timeout, err) := GetDuration (ns_Timeout cfg) in
     or_return "failed to parse duration " (mret err)
    (or_return start_failed (SendTestRunStarted t)
    (or_return "failed add common workloads, error: " (AddCommonWorkloads violations)
    (or_return "failed to create sc "
       (make_sc sc_name (ns_Replicas cfg) VolumeBindingImmediate (Some false))
    (or_return "failed to create sc "
       (make_sc sc_name_local (ns_Replicas cfg) VolumeBindingWaitForFirstConsumer (Some true))
    (combinederr ← testVolumes sched fuel (ns_ConcurrentVols cfg) t "non-steady-state"
                     (mkVolSpec [sc_name_local; sc_name] [VolFileSystem; VolRawBlock]
                        (ns_VolumeSizeMb cfg)) duration timeout;
     err ← lib_DeleteWorkloads;
     let combinederr :=
       add_error "failed to delete all registered workloads, err " combinederr err in
     err ← DeleteSc sc_name;
     let combinederr :=
       add_error ("failed to delete SC " +:+ sc_name +:+ ", error = ") combinederr err in
     err ← DeleteSc sc_name_local;
     (* the text names the other class *)
     mret (add_error ("failed to delete SC " +:+ sc_name +:+ ", error = ")
             combinederr err)))))))).

(** ** replica_perturbation.go *)

Definition setReplicasRetry (ms_ip uuid : string) (replicas retries : Z) : M error :=
  r ← for_upto 0 retries ("", None : error) (λ _ _,
        '(resp, err) ← SetVolumeReplicas ms_ip uuid replicas;
        match err with
        | None => mret (Break (resp, None))
        | Some e => time_Sleep (10 * Second) ;; mret (Next (resp, Some e))
        end);
  '(resp, err) ← no_return r;
  match err with
  | Some e => mret (errorf ("failed to set replicas to " +:+ Itoa replicas +:+ ", err: " +:+
                            err_text e +:+ ", response " +:+ resp))
  | None =>
      r ← for_upto 0 100 tt (λ _ _,
            '(reps, err) ← GetVolumeReplicaCount ms_ip uuid;
            match err with
            | Some e => mret (Return (errorf ("failed to get replicas, err: " +:+ err_text e
                                              +:+ ", response " +:+ resp)))
            | None =>
                if decide (reps = replicas) then mret (Return None)
                else time_Sleep (10 * Second) ;; mret (Next tt)
            end);
      match r with
      | inr err => mret err
      | inl _ => mret (errorf ("failed to set replicas to " +:+ Itoa replicas +:+
                               ", timed out"))
      end
  end.

Definition setReplicas (ms_ip uuid : string) (replicas : Z) : M error :=
  setReplicasRetry ms_ip uuid replicas 1.

Definition maybe_sleep (randomly : Z) : M error :=
  if decide (randomly = 1%Z) then randomSleep else mret None.

(** A device of a pool chosen at random goes offline. *)
Definition offline_random (t : TestConductor) (devs : list deviceDescriptor)
    : M (list deviceDescriptor * error) :=
  '(poolToAffect, err) ← EtfwRandom (Msnodes (Config t) `mod` 2 ^ 32)%Z;
  match err with
  | Some e => mret (devs, Some e)
  | None => offlineDevice poolToAffect (Msnodes (Config t)) devs
  end.

(** The volume must be the only one and online. *)
Definition only_online_volume (ms_ip : string) : M (string * error) :=
  '(uuid, status, err) ← getOnlyVolume ms_ip;
  match err with
  | Some e => mret (uuid, errorf ("failed to get volumes via rest, error: " +:+ err_text e))
  | None =>
      if decide (status ≠ MCP_MSV_ONLINE)
      then mret (uuid, errorf ("Unexpected volume status, expected " +:+ MCP_MSV_ONLINE +:+
                               ", got " +:+ status))
      else mret (uuid, None)
  end.

(** test 1: offline / online single device *)
Definition perturb_device (fuel : nat) (t : TestConductor) (ip uuid : string)
    (devs : list deviceDescriptor) : M (list deviceDescriptor * error) :=
  and_then (offline_random t devs) (λ devs,
  and_then (step devs (waitForVolumeStatus fuel ip uuid MCP_MSV_DEGRADED)) (λ devs,
  and_then (restoreDevices devs) (λ devs,
  and_then (step devs (waitForVolumeStatus fuel ip uuid MCP_MSV_ONLINE)) (λ devs,
  step devs (maybe_sleep (rp_RandomSleep (ReplicaPerturbation (Config t)))))))).

(** test 2: change replicas *)
Definition perturb_replicas (fuel : nat) (t : TestConductor) (ip uuid : string)
    (devs : list deviceDescriptor) : M (list deviceDescriptor * error) :=
  and_then (step devs (setReplicas ip uuid 2)) (λ devs,
  and_then (step devs (waitForVolumeStatus fuel ip uuid MCP_MSV_ONLINE)) (λ devs,
  and_then (step devs (setReplicas ip uuid 3)) (λ devs,
  and_then (step devs (waitForVolumeStatus fuel ip uuid MCP_MSV_DEGRADED)) (λ devs,
  and_then (step devs (waitForVolumeStatus fuel ip uuid MCP_MSV_ONLINE)) (λ devs,
  step devs (maybe_sleep (rp_RandomSleep (ReplicaPerturbation (Config t))))))))).

(** test 3: offline/online device and change replicas; the first attempt to go back to
    three replicas is expected to fail *)
Definition perturb_both (fuel : nat) (t : TestConductor) (ip uuid : string)
    (devs : list deviceDescriptor) : M (list deviceDescriptor * error) :=
  and_then (offline_random t devs) (λ devs,
  and_then (step devs (waitForVolumeStatus fuel ip uuid MCP_MSV_DEGRADED)) (λ devs,
  and_then (step devs (setReplicas ip uuid 2)) (λ devs,
  and_then (step devs (waitForVolumeStatus fuel ip uuid MCP_MSV_ONLINE)) (λ devs,
  setReplicas ip uuid 3 ;;
  and_then (restoreDevices devs) (λ devs,
  and_then (step devs (setReplicasRetry ip uuid 3 10)) (λ devs,
  and_then (step devs (waitForVolumeStatus fuel ip uuid MCP_MSV_ONLINE)) (λ devs,
  step devs (maybe_sleep (rp_RandomSleep (ReplicaPerturbation (Config t))))))))))).

(** A part of the round the configuration switches on. *)
Definition when_set {B} (flag : Z) (p : B → M (B * error)) (b : B) : M (B * error) :=
  if decide (flag ≠ 0%Z) then p b else mret (b, None).

(** One round of the test. *)
Definition perturb_round (fuel : nat) (t : TestConductor) (ip : string)
    (devs : list deviceDescriptor) : M (list deviceDescriptor * error) :=
  let cfg := ReplicaPerturbation (Config t) in
  '(uuid, err) ← only_online_volume ip;
  match err with
  | Some e => mret (devs, Some e)
  | None =>
      and_then (when_set (rp_OfflineDeviceTest cfg) (perturb_device fuel t ip uuid) devs)
        (λ devs,
      and_then (when_set (rp_ReplicasTest cfg) (perturb_replicas fuel t ip uuid) devs)
        (λ devs,
      when_set (rp_OfflineDevAndReplicasTest cfg) (perturb_both fuel t ip uuid) devs))
  end.

(** Rounds until the end of the duration or the first failure. *)
Definition perturb_loop (fuel : nat) (t : TestConductor) (ip : string) (endTime : Z)
    : M (list deviceDescriptor * error) :=
  r ← for_fuel fuel 0 ([], None : error) (λ _ '(devs, err),
        now ← time_Now;
        if bool_decide (endTime < now)%Z then mret (Break (devs, err))
        else res ← perturb_round fuel t ip devs; mret (round_end res));
  no_return r.

(** [err = CombineErrors(err, fmt.Errorf("<text>%v", locerr))] when [locerr] is not nil. *)
Definition combine_with (text : string) (err locerr : error) : M error :=
  match locerr with
  | Some _ => CombineErrors err (wrap_error text locerr)
  | None => mret err
  end.

Definition perturbVolume (fuel : nat) (t : TestConductor) (sc_name : string)
    (duration : Z) : M error :=
  let cfg := ReplicaPerturbation (Config t) in
  start ← time_Now;
  '(msNodeIps, err) ← GetMayastorNodeIPs;
  match err with
  | Some _ => mret (wrap_error "Failed to get MS node IPs, error: " err)
  | None =>
      match msNodeIps with
      | [] => mret (errorf "No MS nodes")
      | cpNodeIp :: _ =>
          let vol_type :=
            if decide (rp_FsVolume cfg ≠ 0%Z) then VolFileSystem else VolRawBlock in
          let tag := suffix_of vol_type +:+ "-" +:+ sc_name in
          let pvc_name := "replica-perturbation-pvc-" +:+ tag in
          let fio_name := "replica-perturbation-fio-" +:+ tag in
          or_return ("failed to create pvc " +:+ pvc_name +:+ ", error: ")
            ('(_, err) ← MkPVC (rp_VolumeSizeMb cfg) pvc_name sc_name vol_type NSDefault
                           false;
             mret err)
          (or_return ("failed to deploy pod " +:+ fio_name +:+ ", error: ")
            (DeployFio (E2eFioImage (Config t)) fio_name pvc_name vol_type
               (rp_VolumeSizeMb cfg) 1000000 (rp_ThinkTime cfg) (rp_ThinkTimeBlocks cfg))
          (or_return ("failed to inform workload monitor of " +:+ fio_name +:+ ", error: ")
            (AddWorkload fio_name NSDefault violations)
          ('(devs, err) ← perturb_loop fuel t cpNodeIp (start + duration)%Z;
           restoreDevices devs ;;
           locerr ← lib_DeleteWorkload fio_name NSDefault;
           err ← combine_with "Failed to delete application workloads, err " err locerr;
           locerr ← DeletePod fio_name NSDefault podDeletionTimeoutSecs;
           err ← combine_with ("Failed to delete application " +:+ fio_name +:+ ", error = ")
                   err locerr;
           locerr ← DeletePVC pvc_name NSDefault;
           combine_with ("Failed to delete pvc " +:+ pvc_name +:+ ", error = ") err locerr)))
      end
  end.

(** One goroutine, and a wait for it: its error comes back over the channel. *)
Definition wait_one (p : M error) : M error :=
  updates (set_errchan []) ;;
  err ← p;
  (match err with Some e => send_err 1 e | None => mret tt end) ;;
  errs ← reads errchan;
  r ← for_range errs (None : error) (λ e combinederr,
        c ← CombineErrors combinederr (Some e); mret (Next c));
  no_return r.

Definition testVolumePerturbation (fuel : nat) (t : TestConductor) (sc_name : string)
    (duration : Z) : M error :=
  wait_one (perturbVolume fuel t sc_name duration).

(** The storage class of a test: local volumes wait for their consumer. *)
Definition test_sc (local : Z) : string * string * bool :=
  if decide (local ≠ 0%Z)
  then ("sc-local-wait", VolumeBindingWaitForFirstConsumer, true)
  else ("sc-immed", VolumeBindingImmediate, false).

(** The end of a test: the workloads and the storage class are removed. *)
Definition clean_up (sc_name : string) (combinederr : error) : M error :=
  err ← lib_DeleteWorkloads;
  combinederr ← combine_with "Failed to delete all registered workloads, error = "
                  combinederr err;
  err ← DeleteSc sc_name;
  combine_with ("Failed to delete SC " +:+ sc_name +:+ ", error = ") combinederr err.

Definition ReplicaPerturbationTest (fuel : nat) (t : TestConductor) : M error :=
  let cfg := ReplicaPerturbation (Config t) in
  let start_failed := "failed to inform test director of test start, error: " in
  or_return start_failed (SendTestRunToDo t)
    (or_return start_failed (SendTestRunStarted t)
    (or_return "failed add common workloads, error: " (AddCommonWorkloads violations)
    (let '(duration, err) := GetDuration (Duration (Config t)) in
     or_return "failed to parse duration " (mret err)
    (let '(sc_name, mode, local) := test_sc (rp_LocalVolume cfg) in
     or_return "failed to create sc " (make_sc sc_name (rp_Replicas cfg) mode (Some local))
    (combinederr ← testVolumePerturbation fuel t sc_name duration;
     clean_up sc_name combinederr))))).

(** ** replica_elimination.go *)

(** The status is for the log only; so is a count of zero. *)
Definition checkVolume (ms_ip uuid : string) (seconds : Z) : M error :=
  r ← for_upto 0 seconds tt (λ _ _,
        getVolumeStatus ms_ip uuid ;;
        '(_, err) ← GetVolumeReplicaCount ms_ip uuid;
        match err with
        | Some e => mret (Return (errorf ("failed to get replicas, uuid " +:+ uuid +:+
                                          ", err: " +:+ err_text e)))
        | None => time_Sleep (10 * Second) ;; mret (Next tt)
        end);
  match r with inl _ => mret None | inr err => mret err end.

Definition kill_three (nodecount : Z) : M error :=
  r ← for_range [0; 1; 2]%Z tt (λ i _,
        err ← killMayastor i nodecount;
        mret (match err with Some _ => Return err | None => Next tt end));
  match r with inl _ => mret None | inr err => mret err end.

(** The devices of all pools go offline one after another and come back, or all
    mayastor instances are killed. *)
Definition eliminate_fault (fuel : nat) (t : TestConductor) (cfg : ReplicaEliminationCfg)
    (ip uuid : string) (devs : list deviceDescriptor) : M (list deviceDescriptor * error) :=
  let nodes := Msnodes (Config t) in
  if decide (re_KillMayastor cfg = 0%Z) then
    and_then (offlineDevice 0 nodes devs) (λ devs,
    and_then (step devs (waitForVolumeStatus fuel ip uuid MCP_MSV_DEGRADED)) (λ devs,
    and_then (offlineDevice 1 nodes devs) (λ devs,
    and_then (offlineDevice 2 nodes devs) (λ devs,
    and_then (step devs (checkVolume ip uuid 100)) (λ devs,
    restoreDevices devs)))))
  else
    and_then (step devs (kill_three nodes)) (λ devs,
    step devs (waitForVolumeNotOnline ip uuid)).

Definition deploy_tester (pvc_name name : string) (vol_type : VolumeType)
    (args : list string) : M error :=
  err ← DeployStorageTester storage_tester_image name pvc_name vol_type args;
  mret (wrap_error ("failed to deploy e2e-storage-tester pod " +:+ name +:+ ", error: ") err).

(** The pod must complete with success, and is deleted. *)
Definition complete_tester (fuel : nat) (name : string) (timeout : Z) : M error :=
  err ← WaitPodNotRunning fuel name timeout;
  match err with
  | Some e => mret (Some e)
  | None =>
      err ← CheckPodAndDelete name NSDefault podDeletionTimeoutSecs;
      match err with
      | Some e => mret (Some e)
      | None => time_Sleep (10 * Second) ;; mret None
      end
  end.

Definition tester_write : string := "e2e-storage-tester-write".
Definition tester_read : string := "e2e-storage-tester-read".
Definition tester_verify : string := "e2e-storage-tester-verify".

(** One round; the loop's variables are the devices that are offline and the name of
    the last pod. *)
Definition eliminate_round (fuel : nat) (t : TestConductor) (cfg : ReplicaEliminationCfg)
    (ip pvc_name : string) (vol_type : VolumeType) (timeout : Z)
    (b : list deviceDescriptor * string)
    : M ((list deviceDescriptor * string) * error) :=
  let blocks := Itoa (re_BlocksToWrite cfg) in
  '(uuid, err) ← only_online_volume ip;
  match err with
  | Some e => mret (b, Some e)
  | None =>
      let b := (b.1, tester_write) in
      and_then (step b (deploy_tester pvc_name tester_write vol_type
        ["./e2e-storage-tester"; "-w"; "-v"; "-n"; blocks; "/dev/sdm"])) (λ b,
      and_then (step b (complete_tester fuel tester_write timeout)) (λ b,
      let b := (b.1, tester_read) in
      and_then (step b (deploy_tester pvc_name tester_read vol_type
        ["./e2e-storage-tester"; "-r"; "-n"; blocks; "-t"; "300"; "-d"; "100"; "/dev/sdm"]))
        (λ b,
      and_then ('(devs, err) ← eliminate_fault fuel t cfg ip uuid b.1;
                mret ((devs, b.2), err)) (λ b,
      and_then (step b (waitForVolumeStatus fuel ip uuid MCP_MSV_ONLINE)) (λ b,
      and_then (step b (WaitPodNotRunning fuel tester_read timeout)) (λ b,
      DeletePod tester_read NSDefault podDeletionTimeoutSecs ;;
      time_Sleep (10 * Second) ;;
      let b := (b.1, tester_verify) in
      and_then (step b (deploy_tester pvc_name tester_verify vol_type
        ["./e2e-storage-tester"; "-v"; "-n"; blocks; "-t"; "150"; "/dev/sdm"])) (λ b,
      and_then (step b (complete_tester fuel tester_verify timeout)) (λ b,
      step b (maybe_sleep (re_RandomSleep cfg))))))))))
  end.

Definition eliminate_loop (fuel : nat) (t : TestConductor) (cfg : ReplicaEliminationCfg)
    (ip pvc_name : string) (vol_type : VolumeType) (endTime timeout : Z)
    : M ((list deviceDescriptor * string) * error) :=
  r ← for_fuel fuel 1 (([], ""), None : error) (λ _ '(b, err),
        now ← time_Now;
        if bool_decide (endTime < now)%Z then mret (Break (b, err))
        else res ← eliminate_round fuel t cfg ip pvc_name vol_type timeout b;
             mret (round_end res));
  no_return r.

Definition eliminateVolume (fuel : nat) (t : TestConductor) (cfg : ReplicaEliminationCfg)
    (sc_name : string) (duration timeout : Z) : M error :=
  start ← time_Now;
  '(msNodeIps, err) ← GetMayastorNodeIPs;
  match err with
  | Some _ => mret (wrap_error "Failed to get MS node IPs, error: " err)
  | None =>
      match msNodeIps with
      | [] => mret (errorf "No MS nodes")
      | cpNodeIp :: _ =>
          let vol_type :=
            if decide (re_FsVolume cfg ≠ 0%Z) then VolFileSystem else VolRawBlock in
          let pvc_name := "replica-elimination-pvc-" +:+ suffix_of vol_type +:+ "-" +:+
                          sc_name in
          or_return ("failed to create pvc " +:+ pvc_name +:+ ", error: ")
            ('(_, err) ← MkPVC (re_VolumeSizeMb cfg) pvc_name sc_name vol_type NSDefault
                           false;
             mret err)
          ('(devs, tester, err) ← eliminate_loop fuel t cfg cpNodeIp pvc_name vol_type
                                    (start + duration)%Z timeout;
           restoreDevices devs ;;
           match err with
           | Some e => mret (Some e)
           | None =>
               DeletePod tester NSDefault podDeletionTimeoutSecs ;;
               locerr ← DeletePVC pvc_name NSDefault;
               combine_with ("Failed to delete pvc " +:+ pvc_name +:+ ", error = ") err locerr
           end)
      end
  end.

Definition testVolumeElimination (fuel : nat) (t : TestConductor)
    (cfg : ReplicaEliminationCfg) (sc_name : string) (duration timeout : Z) : M error :=
  wait_one (eliminateVolume fuel t cfg sc_name duration timeout).

Definition ReplicaEliminationTest (fuel : nat) (t : TestConductor) : M error :=
  let cfg := ReplicaElimination (Config t) in
  let exclusion_list := if decide (re_KillMayastor cfg ≠ 0%Z) then ["mayastor"] else [] in
  let start_failed := "failed to inform test director of test start, error: " in
  or_return start_failed (SendTestRunToDo t)
    (or_return start_failed (SendTestRunStarted t)
    (or_return "failed add common workloads, error: "
       (AddCommonWorkloadsWithExclusions violations exclusion_list)
    (let '(duration, err) := GetDuration (Duration (Config t)) in
     or_return "failed to parse duration " (mret err)
    (let '(timeout, err) := GetDuration (re_Timeout cfg) in
     or_return "failed to parse duration " (mret err)
    (let '(sc_name, mode, local) := test_sc (re_LocalVolume cfg) in
     or_return ("failed to create sc " +:+ sc_name +:+ " ")
       (make_sc sc_name (re_Replicas cfg) mode (Some local))
    (combinederr ← testVolumeElimination fuel t cfg sc_name duration timeout;
     clean_up sc_name combinederr)))))).

(** ** primitive_pool_deletion.go *)

Definition sleepTimeSec : Z := 10.

(** Look every ten seconds until the answer is good or the time is up; the variables
    keep the last answer. *)
Definition poll_for {A} (timeout : Z) (look : M (A * error)) (good : A → bool)
    (cur : A * error) : M (A * error) :=
  r ← for_upto 0 (int_Seconds timeout `quot` sleepTimeSec) cur (λ _ _,
        '(a, err) ← look;
        if bool_decide (err = None) && good a then mret (Break (a, err))
        else time_Sleep (sleepTimeSec * Second) ;; mret (Next (a, err)));
  no_return r.

(** Do it to every pool; the errors are added to those there were. *)
Definition pool_round (what : string) (f : MayastorPool → M error)
    (pools : list MayastorPool) (combinederr : error) : M error :=
  r ← for_range pools combinederr (λ pool combinederr,
        err ← f pool;
        mret (Next (add_error (what +:+ Name (msp_meta pool) +:+ ", error: ")
                      combinederr err)));
  no_return r.

(** Rounds until no error has been seen; the errors are never cleared. *)
Definition repeat_pools (timeout : Z) (what : string) (f : MayastorPool → M error)
    (pools : list MayastorPool) : M error :=
  r ← for_upto 0 (int_Seconds timeout `quot` sleepTimeSec) (None : error)
        (λ _ combinederr,
           combinederr ← pool_round what f pools combinederr;
           match combinederr with
           | None => mret (Break None)
           | Some _ =>
               time_Sleep (sleepTimeSec * Second) ;; mret (Next combinederr)
           end);
  no_return r.

(** A replica on every pool of every mayastor node; how many there are then. *)
Definition make_replicas (size : Z) (nodes : list NodeLocation) : M (Z + error) :=
  r ← for_range nodes 0%Z (λ node replicaCount,
        if negb (MayastorNode_ node) then mret (Next replicaCount)
        else
          replicaUuid ← outside uuid_New;
          '(mayastorPools, err) ← ListPools [IPAddress node];
          match err with
          | Some e => mret (Return (errorf (
              "failed to list mayastor pools via gRPC, node: [" +:+ IPAddress node +:+
              "], error: " +:+ err_text e)))
          | None =>
              r ← for_range mayastorPools replicaCount (λ pool replicaCount,
                    err ← CreateReplica (IPAddress node) replicaUuid (uwrap64 size)
                            (PiName pool);
                    match err with
                    | Some e => mret (Return (errorf ("failed to create replica with uuid " +:+
                        replicaUuid +:+ " via gRPC, error: " +:+ err_text e)))
                    | None => mret (Next (replicaCount + 1)%Z)
                    end);
              mret (match r with inl c => Next c | inr err => Return err end)
          end);
  mret r.

(** The error of a wait: the last look failed, or its answer is not the one wanted. *)
Definition wait_error {A} (failed mismatch : string) (good : A → bool) (r : A * error)
    : error :=
  match r.2 with
  | Some e => errorf (failed +:+ err_text e)
  | None => if good r.1 then None else errorf mismatch
  end.

(** The waits for the replicas, the use of the pools and the pools. *)
Definition wait_replicas (timeout n : Z) (failed : string)
    (cur : list MayastorReplica * error) : M (list MayastorReplica * error) :=
  let good := λ l : list MayastorReplica, bool_decide (Z.of_nat (length l) = n) in
  r ← poll_for timeout ListReplicasInCluster good cur;
  mret (r.1, wait_error failed ("failed to match replica count,Expected Count: " +:+ Itoa n
    +:+ ", Actual count: " +:+ Itoa (Z.of_nat (length r.1)) +:+ ", error: <nil>") good r).
Definition wait_usage (timeout : Z) (used : bool) (failed expected : string)
    (cur : Z * error) : M (Z * error) :=
  let good := λ u : Z, eqb used (negb (bool_decide (u = 0%Z))) in
  r ← poll_for timeout GetPoolUsageInCluster good cur;
  mret (r.1, wait_error failed ("failed to match pool usage,Expected pool usage: " +:+
    expected +:+ ", Actual pool usage: " +:+ Itoa r.1 +:+ ", error: <nil>") good r).

(** The pools by name; of pools of one name the last counts. *)
Definition msp_map (l : list MayastorPool) : gmap string MayastorPool :=
  foldl (λ m p, <[Name (msp_meta p) := p]> m) ∅ l.

(** A pool as it was, and the pool of that name now. *)
Definition compare_msp (after : gmap string MayastorPool) (i : string) (m : MayastorPool)
    : M (ctl unit error) :=
  match after !! i with
  | None => mret (Return (errorf "pool not found"))
  | Some a =>
      let ms := msp_status m in
      let sa := msp_status a in
      if decide (Capacity ms ≠ Capacity sa) then
        mret (Return (errorf ("failed due to capacity mismatch capacity before: " +:+
          Itoa (Capacity ms) +:+ " capacity after: " +:+ Itoa (Capacity sa))))
      else if decide (MspUsed ms ≠ MspUsed sa) then
        mret (Return (errorf ("failed due to pool usage mismatch usage before: " +:+
          Itoa (MspUsed ms) +:+ " usage after: " +:+ Itoa (MspUsed sa))))
      else
        d ← index (Disks (msp_spec m)) 0;
        da ← index (Disks (msp_spec a)) 0;
        if decide (d ≠ da) then
          mret (Return (errorf ("failed due to disk mismatch disk before: " +:+ d +:+
                                " disk after: " +:+ da)))
        else if decide (MspNode (msp_spec m) ≠ MspNode (msp_spec a)) then
          mret (Return (errorf (
            "failed due to node name mismatch node name before: " +:+
            MspNode (msp_spec m) +:+ " node name after: " +:+ MspNode (msp_spec a))))
        else mret (Next tt)
  end.

Definition compareMsps (mspListBefore mspListAfter : list MayastorPool) : M error :=
  l ← range_map (msp_map mspListBefore);
  r ← for_range l tt (λ im _, compare_msp (msp_map mspListAfter) im.1 im.2);
  match r with inl _ => mret None | inr err => mret err end.

(** A timeout of the configuration, and what an unreadable one gives. *)
Definition with_timeout (what text shown : string) (k : Z → M error) : M error :=
  match ParseDuration text with
  | Some d => k d
  | None => mret (errorf ("failed to parse " +:+ what +:+ " timeout " +:+ shown +:+
                          " string , error: " +:+ parse_error text))
  end.

(** Replicas are made on every pool, counted, and removed again. *)
Definition replicas_phase (params : PrimitivePoolDeletionCfg)
    (replicasTimeout poolUsageTimeout : Z) (nodes : list NodeLocation) (nodes_err : error)
    (k : list MayastorReplica → Z → M error) : M error :=
  let list_failed := "failed to list replicas in cluster, error: " in
  let usage_failed := "failed to get mayastor pool usage in cluster, error: " in
  r ← make_replicas (ReplicaSize params) nodes;
  match r with
  | inr err => mret err
  | inl replicaCount =>
      '(replicas, err) ← wait_replicas replicasTimeout replicaCount list_failed
                           ([], nodes_err);
      match err with
      | Some e => mret (Some e)
      | None =>
          '(poolUsage, err) ← wait_usage poolUsageTimeout true usage_failed ">=0" (0%Z, None);
          match err with
          | Some e => mret (Some e)
          | None =>
              or_return "failed to remove replicas from cluster , error: " RmReplicasInCluster
              ('(replicas, err) ← wait_replicas replicasTimeout 0 list_failed
                                    (replicas, None);
               match err with
               | Some e => mret (Some e)
               | None =>
                   '(poolUsage, err) ← wait_usage poolUsageTimeout false usage_failed "0"
                                         (poolUsage, None);
                   match err with
                   | Some e => mret (Some e)
                   | None => k replicas poolUsage
                   end
               end)
          end
      end
  end.

(** The pools are deleted and gone from the cluster. *)
Definition delete_phase (pools : list MayastorPool) (poolDeletionTimeout poolListTimeout : Z)
    (k : M error) : M error :=
  or_return "failed to delete mayastor pools, error: "
    (repeat_pools poolDeletionTimeout "failed to delete pool "
       (λ pool, DeleteMsPool (Name (msp_meta pool))) pools)
    (r ← poll_for poolListTimeout ListMsPools (λ l, bool_decide (length l = 0)) ([], None);
     match wait_error "failed to list mayastor pools in cluster, error: "
             ("failed to match mayastor pools in cluster, Expected count: 0, Actual count: " +:+
              Itoa (Z.of_nat (length r.1)) +:+ ", error: <nil>")
             (λ l, bool_decide (length l = 0)) r with
     | Some e => mret (Some e)
     | None => k
     end).

(** Mayastor is restarted and answers again. *)
Definition restart_phase (params : PrimitivePoolDeletionCfg) (k : M error) : M error :=
  or_return "failed to restart mayastor pods, error: "
    (RestartMayastorPods (MayastorRestartTimeout params))
  (or_return "failed to start mayastor control plane components, error: "
    (WaitForMCPPath (DefTimeoutSecs params))
  ('(ms_ips, err) ← GetMayastorNodeIPs;
   match err with
   | Some _ => mret (wrap_error "failed to get mayastor nodes ip, error: " err)
   | None =>
       if decide (length ms_ips = 0) then mret (errorf "no mayastor nodes found")
       else or_return "failed to start socket to mayastor pod, error: "
              (WaitForMayastorSockets ms_ips (DefTimeoutSecs params)) k
   end)).

(** The pools are made again, unused and as they were. *)
Definition create_phase (pools : list MayastorPool)
    (poolCreationTimeout poolUsageTimeout replicasTimeout : Z)
    (replicas : list MayastorReplica) (poolUsage : Z) : M error :=
  or_return "failed to create mayastor pools, error: "
    (repeat_pools poolCreationTimeout "failed to create pool "
       (λ pool, '(_, err) ← CreateMsPool (Name (msp_meta pool)) (MspNode (msp_spec pool))
                              (Disks (msp_spec pool));
                mret err) pools)
    (time_Sleep (60 * Second) ;;
     '(_, err) ← wait_usage poolUsageTimeout false
                   "failed to match mayastor pool usage to 0, error: " "0" (poolUsage, None);
     match err with
     | Some e => mret (Some e)
     | None =>
         '(_, err) ← wait_replicas replicasTimeout 0
                       "failed to match replica count to 0, error: " (replicas, None);
         match err with
         | Some e => mret (Some e)
         | None =>
             '(msps, err) ← ListMsPools;
             match err with
             | Some _ => mret (wrap_error "failed to list pools, error: " err)
             | None =>
                 or_return "failed while checking mayastor pool configuration, error: "
                   (compareMsps pools msps) (mret None)
             end
         end
     end).

Definition primitivePoolDeletion (t : TestConductor) : M error :=
  let params := PrimitivePoolDeletion (Config t) in
  with_timeout "replica" (ReplicasTimeoutSecs params) (ReplicasTimeoutSecs params)
    (λ replicasTimeout,
  with_timeout "pool usage" (PoolUsageTimeoutSecs params) (PoolUsageTimeoutSecs params)
    (λ poolUsageTimeout,
  with_timeout "pool deletion" (PoolDeleteTimeoutSecs params) (PoolDeleteTimeoutSecs params)
    (λ poolDeletionTimeout,
  (* the text of this error shows another timeout *)
  with_timeout "pool list" (PoolListTimeoutSecs params) (PoolUsageTimeoutSecs params)
    (λ poolListTimeout,
  with_timeout "pool creation" (PoolCreateTimeoutSecs params) (PoolCreateTimeoutSecs params)
    (λ poolCreationTimeout,
  '(pools, err) ← ListMsPools;
  match err with
  | Some _ => mret (wrap_error "failed to list mayastor pools via CRD, error: " err)
  | None =>
      '(nodes, nodes_err) ← GetNodeLocs;
      replicas_phase params replicasTimeout poolUsageTimeout nodes nodes_err
        (λ replicas poolUsage,
           delete_phase pools poolDeletionTimeout poolListTimeout
             (restart_phase params
                (create_phase pools poolCreationTimeout poolUsageTimeout replicasTimeout
                   replicas poolUsage)))
  end))))).

Definition PrimitivePoolDeletionTest (t : TestConductor) : M error :=
  or_return "failed to inform test director of test creation, error: " (SendTestRunToDo t)
    (or_return "failed to inform test director of test start, error: " (SendTestRunStarted t)
       (r ← for_upto 0 (Iterations (PrimitivePoolDeletion (Config t))) tt (λ _ _,
              err ← primitivePoolDeletion t;
              mret (match err with Some e => Return (Some e) | None => Next tt end));
        match r with inl _ => mret None | inr err => mret err end)).

(** ** RunTests and the start *)

Definition run_scenario (sched : list nat) (fuel : nat) (t : TestConductor) : M error :=
  let name := TestName (Config t) in
  if decide (name = "steady_state") then SteadyStateTest fuel t
  else if decide (name = "non_steady_state") then NonSteadyStateTest sched fuel t
  else if decide (name = "primitive_pool_deletion") then PrimitivePoolDeletionTest t
  else if decide (name = "replica_perturbation") then ReplicaPerturbationTest fuel t
  else if decide (name = "replica_elimination") then ReplicaEliminationTest fuel t
  else mret (errorf ("Unknown test: " +:+ name)).

(** The result is the exit code of the process. *)
Definition RunTests (sched : list nat) (fuel : nat) (t : TestConductor) : M Z :=
  err ← run_scenario sched fuel t;
  SendTestRunFinished t err.

(** The configuration is what [GetConfig] gave. *)
Definition NewTestConductor (fuel : nat) (config : ExtendedTestConfig + goerror)
    : M (option TestConductor * error) :=
  match config with
  | inr _ => mret (None, errorf "failed to get config")
  | inl config =>
      '(workloadMonitorPod, err) ← WaitForPodReady "workload-monitor" EtfwNamespace;
      match err with
      | Some _ => mret (None, wrap_error "failed to get workload-monitor, error: " err)
      | None =>
          deref workloadMonitorPod ;;
          '(testDirectorPod, err) ← WaitForPodReady "test-director" EtfwNamespace;
          match err with
          | Some _ => mret (None, wrap_error "failed to get test-director, error: " err)
          | None =>
              deref testDirectorPod ;;
              '(tcpod, err) ← GetPod "test-conductor" EtfwNamespace;
              match err with
              | Some _ => mret (None, wrap_error "failed to get tc pod uid, error: " err)
              | None =>
                  tcpod ← deref tcpod;
                  (if decide (SendXrayTest config = 1%Z ∨ SendEvent_ config = 1%Z)
                   then WaitTestDirector fuel else mret tt) ;;
                  mret (Some (mkConductor config (UID (pod_meta tcpod))
                                (NodeName (pod_spec tcpod))), None)
              end
          end
      end
  end.

(** cmd/test_conductor/main.go: the exit code. *)
Definition conductor_main (sched : list nat) (fuel : nat)
    (config : ExtendedTestConfig + goerror) : M Z :=
  '(t, err) ← NewTestConductor fuel config;
  match err with
  | Some _ => mret 1%Z
  | None => t ← deref t; RunTests sched fuel t
  end.
End Scenarios.
