(* ===== verification/ScenarioTheorems.v ===== *)
(** * What the tests of the conductor promise

    The goroutines of the non-steady-state test, the retries and the comparison of the pool
    deletion test, and the registration of workloads. *)

From stdpp Require Import base gmap strings list pretty.
From S2P Require Import Prelude GoLib Json Http Models Kube Total MayastorClient GoTime.
From S2P Require Import K8sPods K8sLib K8sApps DirectorLib ScriptedCluster K8sTheorems AgentClient WmLib.
From S2P Require Import Director TestCommon ConductorTheorems Scenarios.

(** ** The channel of errors *)

Section Channel.
Context {W : Type}.
Notation M := (prog (Conductor W)).

(** No action of the program waits, and none touches the channel. *)
Fixpoint quiet {A} (p : M A) : Prop :=
  match p with
  | Act f k =>
      (∀ s, ∃ x s', f s = Some (x, s') ∧ errchan s' = errchan s) ∧ ∀ x, quiet (k x)
  | _ => True
  end.

(** The program sends at most [n] times, and waits only when the channel holds
    [capacity] errors. *)
Fixpoint budget {A} (capacity n : nat) (p : M A) : Prop :=
  match p with
  | Act f k =>
      ((∀ s, ∃ x s', f s = Some (x, s') ∧ errchan s' = errchan s) ∧
       ∀ x, budget capacity n (k x)) ∨
      ∃ m, n = Datatypes.S m ∧
        (∀ s, (length (errchan s) < capacity)%nat → is_Some (f s)) ∧
        (∀ s x s', f s = Some (x, s') →
           length (errchan s') = Datatypes.S (length (errchan s))) ∧
        ∀ x, budget capacity m (k x)
  | _ => True
  end.

Lemma quiet_bind {A B} (p : M A) (k : A → M B) :
  quiet p → (∀ a, quiet (k a)) → quiet (p ≫= k).
Proof. unfold mbind, prog_mbind. intros Hp Hk. induction p; simpl in *; naive_solver. Qed.
Lemma budget_bind {A B} c n (p : M A) (k : A → M B) :
  quiet p → (∀ a, budget c n (k a)) → budget c n (p ≫= k).
Proof. unfold mbind, prog_mbind. intros Hp Hk. induction p; simpl in *; naive_solver. Qed.
Lemma quiet_mret {A} (a : A) : quiet (mret (M:=M) a).
Proof. done. Qed.
Lemma quiet_deref {A} (x : option A) : quiet (deref (S:=Conductor W) x).
Proof. by destruct x. Qed.
Lemma quiet_outside {A} (f : W → A * W) : quiet (outside f).
Proof. split; [|done]. intros s. by eexists _, _. Qed.
Lemma quiet_reads {A} (f : Conductor W → A) : quiet (reads f).
Proof. split; [|done]. intros s. by eexists _, _. Qed.
Lemma quiet_add_faulted u : quiet (updates (add_faulted (W:=W) u)).
Proof. split; [|done]. intros s. by eexists _, _. Qed.
Lemma quiet_for_range {A B R} (l : list A) (b : B) (body : A → B → M (ctl B R)) :
  (∀ x b, quiet (body x b)) → quiet (for_range l b body).
Proof.
  intros Hb. revert b. induction l as [|x l IH]; intros b; [done|].
  apply quiet_bind; [done|]. by intros [].
Qed.
Lemma quiet_for_fuel {B R} fuel i (b : B) (body : Z → B → M (ctl B R)) :
  (∀ j b, quiet (body j b)) → quiet (for_fuel fuel i b body).
Proof.
  intros Hb. revert i b. induction fuel as [|fuel IH]; intros i b; [done|].
  apply quiet_bind; [done|]. by intros [].
Qed.
Lemma budget_send c e : budget c 1 (send_err c e).
Proof.
  right. exists 0. split; [done|]. split; [|split; [|done]].
  - intros s Hs. rewrite decide_True by done. by eexists.
  - intros s x s' Hs. case_decide; simplify_eq/=. rewrite length_app. simpl. lia.
Qed.
End Channel.

Create HintDb quiet discriminated.

(** Decide [quiet] along the structure of a program, unfolding the calls. *)
Ltac head_of t := match t with ?f _ => head_of f | _ => t end.
Ltac quiet_step :=
  match goal with
  | |- quiet _ =>
      first
        [ solve [auto with quiet nocore]
        | lazymatch goal with
          | |- quiet (mret _) => exact I
          | |- quiet (Panic _) => exact I
          | |- quiet (deref _) => apply quiet_deref
          | |- quiet (outside _) => apply quiet_outside
          | |- quiet (reads _) => apply quiet_reads
          | |- quiet (updates (add_faulted _)) => apply quiet_add_faulted
          | |- quiet (_ ≫= _) => apply quiet_bind
          | |- quiet (for_range _ _ _) => apply quiet_for_range
          | |- quiet (for_fuel _ _ _ _) => apply quiet_for_fuel
          | |- quiet (match ?x with _ => _ end) => destruct x
          | |- quiet ((match ?x with _ => _ end) _) => destruct x
          | |- quiet (let _ := _ in _) => cbv zeta
          | |- quiet ?p => let h := head_of p in unfold h
          end ]
  | |- _ => progress intros
  end.
Ltac solve_quiet := repeat quiet_step.

Section Threads.
Context {W : Type} `{MapRange W} `{Kube W} `{Clock W} `{Grpc W} `{Http W} `{TdClient W}
        `{WmClient W} `{LocalTime}.

Lemma quiet_SendEventTestFail t text : quiet (SendEventTestFail (W:=W) t text).
Proof. solve_quiet. Qed.
Lemma quiet_NodeIPs : quiet (GetMayastorNodeIPs (S:=Conductor W)).
Proof. solve_quiet. Qed.
Lemma quiet_CheckPools n : quiet (CheckPools (W:=W) n).
Proof. solve_quiet. Qed.
Lemma quiet_CheckMSVwithCP ip : quiet (CheckMSVwithCP (W:=W) ip).
Proof. solve_quiet. Qed.
Lemma quiet_CheckMSVwithGrpc ips : quiet (CheckMSVwithGrpc (W:=W) ips).
Proof. solve_quiet. Qed.
Lemma quiet_GetPod n ns : quiet (GetPod (S:=Conductor W) n ns).
Proof. solve_quiet. Qed.
Hint Resolve quiet_SendEventTestFail quiet_NodeIPs quiet_CheckPools quiet_CheckMSVwithCP
  quiet_CheckMSVwithGrpc quiet_GetPod : quiet.
Lemma quiet_MonitorCRs fuel t d pod : quiet (MonitorCRs (W:=W) fuel t d pod).
Proof. solve_quiet. Qed.

Lemma quiet_MkPVC z n sc vt ns moac : quiet (MkPVC (S:=Conductor W) z n sc vt ns moac).
Proof. solve_quiet. Qed.
Lemma quiet_DeployFio i p c vt z l a b : quiet (DeployFio (S:=Conductor W) i p c vt z l a b).
Proof. solve_quiet. Qed.
Lemma quiet_WaitPodNotRunning fuel p d : quiet (WaitPodNotRunning (W:=W) fuel p d).
Proof. solve_quiet. Qed.
Lemma quiet_CheckPodAndDelete n ns d : quiet (CheckPodAndDelete (S:=Conductor W) n ns d).
Proof. solve_quiet. Qed.
Lemma quiet_DeletePVC n ns : quiet (DeletePVC (S:=Conductor W) n ns).
Proof. solve_quiet. Qed.
Hint Resolve quiet_MkPVC quiet_DeployFio quiet_WaitPodNotRunning quiet_CheckPodAndDelete
  quiet_DeletePVC : quiet.
Lemma quiet_testVolume fuel t id name spec d timeout :
  quiet (testVolume (W:=W) fuel t id name spec d timeout).
Proof. solve_quiet. Qed.

Lemma budget_reporting c t (p : prog (Conductor W) error) :
  quiet p → budget c 1 (reporting t c p).
Proof.
  intros Hp. apply budget_bind; [done|]. intros [e|]; [|done].
  apply budget_bind; [apply quiet_SendEventTestFail|]. intros _. apply budget_send.
Qed.

Lemma budget_threads fuel n t name spec d timeout :
  Forall (budget (Z.to_nat (n + 1)) 1) (test_threads (W:=W) fuel n t name spec d timeout).
Proof.
  unfold test_threads. apply Forall_app. split.
  - apply Forall_map, Forall_forall. intros i _. apply budget_reporting, quiet_testVolume.
  - apply Forall_singleton, budget_reporting, quiet_MonitorCRs.
Qed.
End Threads.

(** ** Threads that share the channel *)

Section Credits.
Context {W : Type}.
Notation M := (prog (Conductor W)).

(** A thread that is not done can take its next action. *)
Definition can_move {A} (s : Conductor W) (p : M A) : Prop :=
  match p with Act f _ => is_Some (f s) | _ => True end.

(** What the threads may still send fits in the channel. *)
Definition credit {A} (c : nat) (ts : list (M A)) (s : Conductor W) : Prop :=
  ∃ ns, Forall2 (budget c) ns ts ∧ (sum_list ns + length (errchan s) ≤ c)%nat.

Lemma sum_list_lookup ns i n : ns !! i = Some n → (n ≤ sum_list ns)%nat.
Proof.
  revert i. induction ns as [|m ns IH]; intros [|i] Hi; simplify_eq/=; [lia|].
  specialize (IH i Hi). lia.
Qed.
Lemma sum_list_insert_pred ns i m :
  ns !! i = Some (S m) → sum_list ns = S (sum_list (<[i := m]> ns)).
Proof.
  revert i. induction ns as [|k ns IH]; intros [|i] Hi; simplify_eq/=; [lia|].
  rewrite (IH i Hi). lia.
Qed.

Lemma credit_can_move {A} c (ts : list (M A)) s :
  credit c ts s → Forall (can_move s) ts.
Proof.
  intros (ns & Hb & Hsum). apply Forall_lookup. intros i p Hi.
  destruct (Forall2_lookup_r _ _ _ _ _ Hb Hi) as (n & Hn & Hp).
  destruct p as [| | |X f k]; try done. cbn [can_move].
  destruct Hp as [[Hf _]|(m & -> & Hf & _)].
  - destruct (Hf s) as (x & s' & E & _). eauto.
  - apply Hf. pose proof (sum_list_lookup _ _ _ Hn). lia.
Qed.

Lemma credit_step {A} c (ts ts' : list (M A)) s s' :
  pool_step (ts, s) (ts', s') → credit c ts s → credit c ts' s'.
Proof.
  intros Hstep (ns & Hb & Hsum).
  inversion Hstep as [ts1 s1 i X f k x s1' Hi Hf]; simplify_eq.
  destruct (Forall2_lookup_r _ _ _ _ _ Hb Hi) as (n & Hn & [[Hq Hk]|(m & -> & _ & Hs & Hk)]).
  - destruct (Hq s) as (x' & s1 & E & He). rewrite Hf in E. simplify_eq.
    exists ns. rewrite He. split; [|done].
    rewrite <- (list_insert_id ns i n) by done. by apply Forall2_insert.
  - exists (<[i := m]> ns). split; [by apply Forall2_insert|].
    rewrite (Hs _ _ _ Hf). pose proof (sum_list_insert_pred _ _ _ Hn). lia.
Qed.

Lemma credit_steps {A} c (cfg cfg' : list (M A) * Conductor W) :
  rtc pool_step cfg cfg' → credit c cfg.1 cfg.2 → credit c cfg'.1 cfg'.2.
Proof.
  induction 1 as [|[ts s] [ts1 s1] cfg3 Hstep _ IH]; [done|].
  intros Hc. apply IH. by eapply credit_step.
Qed.
End Credits.

(** (C6) In the non-steady-state test no goroutine ever waits to send its error: however the
    volume threads and the monitor are interleaved, every thread that is not done can take
    its next step, because the channel has room for one error of each. *)
Theorem test_threads_never_wait {W} `{MapRange W} `{Kube W} `{Clock W} `{Grpc W} `{Http W}
    `{TdClient W} `{LocalTime} (fuel : nat) (volumes : Z) (t : TestConductor)
    (name : string) (spec : VolSpec) (duration timeout : Z) (s s' : Conductor W) ts' :
  (0 ≤ volumes)%Z → errchan s = [] →
  rtc pool_step (test_threads fuel volumes t name spec duration timeout, s) (ts', s') →
  Forall (can_move s') ts'.
Proof.
  intros Hn He Hsteps. apply (credit_can_move (Z.to_nat (volumes + 1))).
  refine (credit_steps _ _ _ Hsteps _). cbn [fst snd].
  set (ts := test_threads _ _ _ _ _ _ _).
  exists (replicate (length ts) 1). split.
  - apply Forall2_replicate_l, budget_threads. done.
  - rewrite He. unfold ts, test_threads. rewrite length_app, length_map, length_seqZ. simpl.
    assert (Hsum : ∀ k, sum_list (replicate k 1) = k) by (induction k; simpl; lia).
    rewrite Hsum. lia.
Qed.

Definition demo_spec : VolSpec :=
  mkVolSpec ["sc-local-wait"; "sc-immed"] [VolFileSystem; VolRawBlock] 64.

Lemma test_threads_never_wait_witness :
  Forall (can_move (fresh_conductor two_nodes))
    (test_threads 10 2 (demo_conductor "non_steady_state") "t" demo_spec 0 0).
Proof.
  apply (test_threads_never_wait 10 2 (demo_conductor "non_steady_state") "t" demo_spec 0 0
           (fresh_conductor two_nodes) (fresh_conductor two_nodes));
    [lia|reflexivity|apply rtc_refl].
Defined.

(** ** Pool deletion *)

Section Retried.
Context {W : Type} `{Clock W}.
Notation M := (prog (Conductor W)).
Context (what : string) (f : MayastorPool → M error) (f_returns : ∀ p, returns (f p)).

Lemma add_error_sticky text e err : is_Some (add_error text (Some e) err).
Proof. destruct err; by eexists. Qed.

Lemma total_pool_round pools e :
  total (λ _, True) (pool_round what f pools (Some e)) (λ err _, is_Some err).
Proof.
  unfold pool_round. eapply (total_bind _ _ _ (λ r _, ∃ e', r = inl (Some e'))).
  - eapply total_weaken;
      [apply (total_for_range (λ _ b _, is_Some b) pools (Some e) _
                (λ r _, ∃ e', r = inl (Some e')))|by eexists|done].
    + intros p l b s [e' ->]. destruct (f_returns p s) as (err & s' & E).
      rewrite run_bind, E. eexists _, _. split; [reflexivity|]. apply add_error_sticky.
    + intros b s [e' ->]. by eexists.
  - intros r s [e' ->]. by eexists _, _.
Qed.
End Retried.

(** The retries of the pool deletion test change nothing: when the first round over the
    pools met an error, the rounds that follow are all made, and the step fails whatever they
    do, because the errors are never cleared. *)
Theorem pool_retries_cannot_succeed {W} `{Clock W} (timeout : Z) (what : string)
    (f : MayastorPool → prog (Conductor W) error) (pools : list MayastorPool)
    (s s1 : Conductor W) (e : goerror) :
  (∀ p, returns (f p)) → (10 * Second ≤ timeout)%Z →
  run (pool_round what f pools None) s = (Ret (Some e), s1) →
  ∃ e' s', run (repeat_pools timeout what f pools) s = (Ret (Some e'), s').
Proof.
  intros Hf Ht Hfirst. unfold repeat_pools, for_upto.
  assert (Hn : (1 ≤ int_Seconds timeout `quot` sleepTimeSec)%Z).
  { unfold int_Seconds, sleepTimeSec, Second in *.
    apply Z.quot_le_lower_bound; [lia|]. apply Z.quot_le_lower_bound; lia. }
  rewrite run_bind, seqZ_cons by lia. rewrite run_for_range_cons, run_bind, Hfirst.
  cbn [seq_run]. rewrite run_bind. unfold time_Sleep at 1. rewrite run_outside. cbn [seq_run].
  rewrite run_done. cbn [seq_run].
  match goal with |- context [for_range ?l ?b ?body] =>
    assert (Hl : total (λ _, True) (for_range l b body) (λ r _, ∃ e', r = inl (Some e')))
  end.
  { eapply total_weaken;
      [apply (total_for_range (λ _ b _, is_Some b) _ _ _ (λ r _, ∃ e', r = inl (Some e')))
      |by eexists|done].
    - intros j l b s2 [e2 ->].
      destruct (total_pool_round what f Hf pools e2 s2 I) as (err & s3 & E & [e3 ->]).
      rewrite run_bind, E. eexists _, _. split; [reflexivity|]. by eexists.
    - intros b s2 [e2 ->]. by eexists. }
  match goal with |- context [run (for_range _ _ _) ?s] =>
    destruct (Hl s I) as (r & s2 & E & [e2 ->]) end.
  rewrite E. by eexists _, _.
Qed.

(** ** The comparison of the pools *)

(** What the comparison looks at. *)
Definition same_msp (m a : MayastorPool) : Prop :=
  Capacity (msp_status m) = Capacity (msp_status a) ∧
  MspUsed (msp_status m) = MspUsed (msp_status a) ∧
  head (Disks (msp_spec m)) = head (Disks (msp_spec a)) ∧
  MspNode (msp_spec m) = MspNode (msp_spec a).
Definition has_disk (p : MayastorPool) : Prop := Disks (msp_spec p) ≠ [].

Lemma msp_map_Forall (P : MayastorPool → Prop) l i m :
  Forall P l → msp_map l !! i = Some m → P m.
Proof.
  unfold msp_map.
  assert (Hg : ∀ acc : gmap string MayastorPool, map_Forall (λ _, P) acc → Forall P l →
            map_Forall (λ _, P) (foldl (λ m p, <[Name (msp_meta p) := p]> m) acc l)).
  { induction l as [|p l IH]; intros acc Ha Hl; [done|]. cbn [foldl].
    inversion Hl; subst. apply IH; [by apply map_Forall_insert_2|done]. }
  intros Hl Hm. exact (Hg ∅ (map_Forall_empty _) Hl i m Hm).
Qed.

Section Compare.
Context {W : Type} `{MapRange W}.

Definition kept (after : gmap string MayastorPool) (im : string * MayastorPool) : Prop :=
  ∃ a, after !! im.1 = Some a ∧ same_msp im.2 a.

Lemma run_compare_msp after i m (s : Conductor W) :
  has_disk m → (∀ a, after !! i = Some a → has_disk a) →
  ∃ c, run (compare_msp after i m) s = (Ret c, s) ∧
    (c = Next tt ∧ kept after (i, m) ∨
     (∃ e, c = Return (Some e)) ∧ ¬ kept after (i, m)).
Proof.
  intros Hm Ha. unfold compare_msp, kept, same_msp, has_disk in *. cbn [fst snd].
  destruct (after !! i) as [a|] eqn:E; [|eexists; split; [reflexivity|]; right; naive_solver].
  specialize (Ha a eq_refl).
  destruct (Disks (msp_spec m)) as [|d dm] eqn:Edm; [done|].
  destruct (Disks (msp_spec a)) as [|da dam] eqn:Eda; [done|]. cbv zeta.
  assert (Hfail : ∀ e (P : Prop), (P → False) → ∃ c,
            run (mret (Return (Some e)) : prog (Conductor W) (ctl unit error)) s = (Ret c, s) ∧
            (c = Next tt ∧ P ∨ (∃ e, c = Return (Some e)) ∧ ¬ P))
    by (intros e P HP; exists (Return (Some e)); split; [done|]; right; eauto).
  case_decide; [apply Hfail; naive_solver|]. case_decide; [apply Hfail; naive_solver|].
  rewrite run_bind, (run_index _ 0 d) by done. cbn [seq_run].
  rewrite run_bind, (run_index _ 0 da) by done. cbn [seq_run].
  case_decide; [apply Hfail; intros (a' & [= <-] & _ & _ & Hd & _); rewrite Eda in Hd; by simplify_eq/=|].
  case_decide; [apply Hfail; naive_solver|].
  eexists. split; [reflexivity|]. left. split; [done|]. exists a.
  rewrite Eda. simpl. naive_solver.
Qed.

Lemma total_compare_loop after l :
  Forall (λ im : string * MayastorPool, has_disk im.2) l →
  (∀ i a, after !! i = Some a → has_disk a) →
  total (λ _ : Conductor W, True)
    (for_range l tt (λ im _, compare_msp after im.1 im.2))
    (λ r _, r = inl tt ∧ Forall (kept after) l ∨
            (∃ e, r = inr (Some e)) ∧ ¬ Forall (kept after) l).
Proof.
  intros Hl Ha. induction Hl as [|[i m] l Hd Hl IH]; intros s _.
  - exists (inl tt), s. split; [done|]. left. split; [done|]. apply Forall_nil. done.
  - rewrite run_for_range_cons.
    destruct (run_compare_msp after i m s Hd (Ha i)) as (c & E & Hc).
    cbn [fst snd]. rewrite E. cbn [seq_run].
    destruct Hc as [[-> Hk]|[[e ->] Hk]].
    + destruct (IH s I) as (r & s' & Er & Hr). exists r, s'. split; [done|].
      rewrite Forall_cons. tauto.
    + exists (inr (Some e)), s. split; [done|]. right. split; [eauto|].
      rewrite Forall_cons. tauto.
Qed.
End Compare.

(** [compareMsps] gives no error exactly when every pool there was is still there with
    its capacity, its use, its first disk and its node, whatever the order in which Go ranges
    over the pools, as long as every pool has a disk. *)
Theorem compare_msps_iff {W} `{MapRange W} (before after : list MayastorPool)
    (s : Conductor W) :
  Forall has_disk before → Forall has_disk after →
  ∃ err s', run (compareMsps before after) s = (Ret err, s') ∧
    (err = None ↔ ∀ i m, msp_map before !! i = Some m → kept (msp_map after) (i, m)).
Proof.
  intros Hb Ha. unfold compareMsps, range_map. rewrite run_bind, run_outside. cbn [seq_run].
  pose proof (map_order_perm (msp_map before) (world s)) as Hp.
  set (l := (map_order (msp_map before) (world s)).1) in *.
  destruct (total_compare_loop (W:=W) (msp_map after) l) with (s := set_world
    (map_order (msp_map before) (world s)).2 s) as (r & s' & E & Hr); [| |done|].
  - rewrite Hp. apply Forall_forall. intros [i m] Hin. apply elem_of_map_to_list in Hin.
    by apply (msp_map_Forall has_disk before i m).
  - intros i a. by apply msp_map_Forall.
  - assert (Hall : Forall (kept (msp_map after)) l ↔
              ∀ i m, msp_map before !! i = Some m → kept (msp_map after) (i, m)).
    { rewrite Hp, Forall_forall. split.
      - intros Hf i m Hm. by apply Hf, elem_of_map_to_list.
      - intros Hf [i m] Hin. apply Hf. by apply elem_of_map_to_list. }
    rewrite run_bind, E. cbn [seq_run].
    destruct Hr as [[-> Hk]|[[e ->] Hk]]; eexists _, _; (split; [reflexivity|]);
      rewrite <- Hall; naive_solver.
Qed.

Definition grown_pool : MayastorPool :=
  mkMsp (named "n1-pool" NSMayastor) (mkMspSpec ["/dev/sdb"] "n1")
    (mkMspStatus 0 20 [] "" (mkMspSpec [] "") "online" 10).
Lemma compare_msps_iff_witness :
  ∃ err s', run (compareMsps [n1_pool] [grown_pool]) (fresh_conductor two_nodes) = (Ret err, s') ∧
    (err = None ↔ ∀ i m, msp_map [n1_pool] !! i = Some m → kept (msp_map [grown_pool]) (i, m)).
Proof. apply compare_msps_iff; repeat constructor; discriminate. Defined.

Lemma pool_retries_cannot_succeed_witness :
  ∃ e' s', run (repeat_pools (40 * Second) "failed to delete pool "
                  (λ _, mret (Some refusal)) [n1_pool]) (fresh_conductor two_nodes) =
           (Ret (Some e'), s').
Proof.
  eapply (pool_retries_cannot_succeed (40 * Second) "failed to delete pool "
            (λ _, mret (Some refusal)) [n1_pool] (fresh_conductor two_nodes)).
  - intros p s. by exists (Some refusal), s.
  - discriminate.
  - reflexivity.
Defined.

(** ** Workloads *)

(** When the workload monitor cannot be told of the first pod that counts, the conductor
    does not try again: it reads the payload of the failed answer and panics, although the
    loop is written to make five attempts. *)
Theorem failed_registration_panics {W} `{Kube W} `{Clock W} `{WmClient W} (requester ns : string)
    (violations labels : list string) (pre post : list Pod) (pod : Pod) (e : goerror)
    (s : Conductor W) (w w' : W) :
  pods_List ns (world s) = (inr (pre ++ pod :: post)%list, w) →
  Forall (λ p, excluded labels p = true) pre → excluded labels pod = false →
  wm_PutWorkload requester (UID (pod_meta pod)) violations w = (inl e, w') →
  run (AddNamespaceWorkloads requester violations ns labels) s =
  (Panicked nil_deref, set_world w' s).
Proof.
  intros Hl Hpre Hpod Hput. unfold AddNamespaceWorkloads, GetPodsInNamespace.
  rewrite !run_bind, run_kube_call, Hl. cbn [seq_run fst snd]. rewrite run_done.
  cbn [seq_run]. rewrite run_bind, run_deref_Some. cbn [seq_run]. rewrite run_bind.
  clear Hl. induction Hpre as [|p pre Hp _ IH]; cbn [app].
  - rewrite run_for_range_cons, Hpod. unfold for_upto.
    change (seqZ 0 (5 - 0)) with (0 :: seqZ 1 4)%Z.
    rewrite run_bind, run_for_range_cons, run_bind, run_td_call, world_set, Hput.
    cbn [seq_run fst snd]. by rewrite set_world_set.
  - rewrite run_for_range_cons, Hp, run_done. cbn [seq_run]. apply IH.
Qed.

(** A monitor that refuses every workload. *)
#[local] Instance refusing_wm : WmClient Cluster := {
  wm_PutWorkload _ _ _ c := (inl refusal, c);
  wm_DeleteWorkload _ _ c := (inl refusal, c);
  wm_DeleteWorkloads _ c := (inl refusal, c);
}.
Definition mayastor_pods : Cluster :=
  with_pods (inr [demo_pod "mayastor-1" "u1" PodRunning 0]) empty_cluster.

Lemma failed_registration_panics_witness :
  run (AddNamespaceWorkloads "tc" violations "mayastor" []) (fresh_conductor mayastor_pods) =
  (Panicked nil_deref, fresh_conductor mayastor_pods).
Proof.
  apply (failed_registration_panics "tc" "mayastor" violations [] [] []
           (demo_pod "mayastor-1" "u1" PodRunning 0) refusal (fresh_conductor mayastor_pods)
           mayastor_pods mayastor_pods); [reflexivity|constructor|reflexivity|reflexivity].
Defined.
