(* ===== verification/LogMonitor.v ===== *)
(** * The log monitor (log_monitor)

    A process beside the test director: it follows the logs of the fluentd pods, picks the
    lines that report an error or a warning, and posts an event about them to the director,
    for the run that executes. *)

From stdpp Require Import base gmap strings list pretty.
From Stdlib Require Import Ascii.
From S2P Require Import Prelude GoLib Json Http Kube Models DirectorLib.

(** ** What the sources call *)

(** [regexp.MatchString] of a pattern and a text.  Only the default pattern is known:
    [level], at most four characters that are not line ends, then [error] or [warn]. *)
Definition default_regex : string := "level.{0,4}(error|warn)".

Fixpoint level_word (k : nat) (s : string) : bool :=
  HasPrefix s "error" || HasPrefix s "warn" ||
  match k, s with
  | S k', String c s' => if decide (c = newline) then false else level_word k' s'
  | _, _ => false
  end.

Fixpoint drop_chars (n : nat) (s : string) : string :=
  match n, s with
  | S n', String _ s' => drop_chars n' s'
  | _, _ => s
  end.

Fixpoint default_match (s : string) : bool :=
  (HasPrefix s "level" && level_word 4 (drop_chars 5 s)) ||
  match s with EmptyString => false | String _ s' => default_match s' end.

Class Regexp := {
  MatchString : string → string → goerror + bool;
  MatchString_default s : MatchString default_regex s = inr (default_match s);
}.

(** Running [tail] in a container: the cluster configuration, the executor, and the stream
    that a goroutine of its own copies into the pipe. *)
Class PodExec (W : Type) := {
  InClusterConfig : W → error * W;
  NewSPDYExecutor : string → string → string → W → error * W;
  exec_Stream : string → string → W → W;
}.

(** The next line of the pipe, with the error that ended it. *)
Class Pipe (W : Type) := { pipe_ReadLine : W → (string * error) * W }.

(** ** utils, config and models *)

Definition TestDirectorTestRunsAPI : string := ":8080/api/v1/td/testRuns".
Definition TestDirectorEventsAPI : string := ":8080/api/v1/td/events".
Definition FluentdNS : string := "fluentd".

(** The application state.  [LogChannel] is the value a sender offers on the unbuffered
    channel, if there is one. *)
Record AppConfig (W : Type) := mkApp {
  LogChannel : option string; PodMap : gmap string Pod; LogRegex : string; app_world : W }.
Arguments mkApp {W} _ _ _ _.
Arguments LogChannel {W} _.
Arguments PodMap {W} _.
Arguments LogRegex {W} _.
Arguments app_world {W} _.

#[export] Program Instance app_has_world W : HasWorld (AppConfig W) W := {
  world := app_world;
  set_world w s := mkApp (LogChannel s) (PodMap s) (LogRegex s) w;
}.
Next Obligation. done. Qed.
Next Obligation. by intros W []. Qed.
Next Obligation. done. Qed.

Definition set_LogChannel {W} (c : option string) (s : AppConfig W) : AppConfig W :=
  mkApp c (PodMap s) (LogRegex s) (app_world s).
Definition set_PodMap {W} (f : gmap string Pod → gmap string Pod) (s : AppConfig W) : AppConfig W :=
  mkApp (LogChannel s) (f (PodMap s)) (LogRegex s) (app_world s).
Definition set_LogRegex {W} (r : string) (s : AppConfig W) : AppConfig W :=
  mkApp (LogChannel s) (PodMap s) r (app_world s).

(** A run as the log monitor reads it: its specification is a member of its own. *)
Record LmTestRunSpec := mkLmSpec {
  LmData : string; LmStatus : string; LmExecIssueID : string; LmTestID : string;
  LmTestKey : string }.
Record LmTestRun := mkLmRun {
  LmEnd : string; LmID : string; LmStart : string; LmSpec : LmTestRunSpec }.
Definition zero_lmspec : LmTestRunSpec := mkLmSpec "" "" "" "" "".

Definition LmTestRunSpec_of_json (v : json) (cur : LmTestRunSpec) : option LmTestRunSpec :=
  fs ← object_fields v;
  d ← decode_field "data" dec_string fs (LmData cur);
  st ← decode_field "status" dec_string fs (LmStatus cur);
  te ← decode_field "testExecIssueId" dec_string fs (LmExecIssueID cur);
  ti ← decode_field "testId" dec_string fs (LmTestID cur);
  tk ← decode_field "testKey" dec_string fs (LmTestKey cur);
  Some (mkLmSpec d st te ti tk).

Definition LmTestRun_of_json (v : json) : option LmTestRun :=
  fs ← object_fields v;
  e ← decode_field "endDateTime" dec_string fs "";
  i ← decode_field "id" dec_string fs "";
  s ← decode_field "startDateTime" dec_string fs "";
  sp ← decode_field "Spec" LmTestRunSpec_of_json fs zero_lmspec;
  Some (mkLmRun e i s sp).

(** [null] leaves the slice nil. *)
Definition LmTestRuns_of_json (v : json) : option (list LmTestRun) :=
  match v with
  | JNull => Some []
  | JArr l => mapM LmTestRun_of_json l
  | _ => None
  end.

Record LmEvent := mkLmEvent {
  LmSourceClass : string; LmSourceInstance : string; LmResource : string; LmClass : string;
  LmMessage : string; LmEvData : option (list string); LmItems : string }.

Definition LmEvent_json (e : LmEvent) : json :=
  JObj [("sourceClass", JStr (LmSourceClass e)); ("sourceInstance", JStr (LmSourceInstance e));
        ("resource", JStr (LmResource e)); ("class", JStr (LmClass e));
        ("message", JStr (LmMessage e)); ("data", slice_json JStr (LmEvData e));
        ("items", JStr (LmItems e))].

(** [log.Fatalln] ends the process. *)
Definition Fatal {S A} (why : string) : prog S A := Panic ("exit: " +:+ why).

Section Monitor.
Context {W : Type} `{Kube W} `{Clock W} `{Http W} `{MapRange W} `{PodExec W} `{Pipe W}
        `{Getenv} `{Regexp}.
Notation M := (prog (AppConfig W)).

(** ** k8sclient.go *)

Definition Init : M error := outside InClusterConfig.

Definition lm_GetPod (podName ns : string) : M (Pod * error) :=
  kube_call zero_pod (pods_Get ns podName).

Definition ListPods (ns : string) : M (list Pod * error) := kube_call [] (pods_List ns).

Definition lm_PodStatus (pod : Pod) : string := Phase (pod_status pod).

(** The stream itself runs in a goroutine of its own. *)
Definition execTailPodCommand (pod : Pod) : M unit :=
  c ← index (Containers (pod_spec pod)) 0;
  err ← outside InClusterConfig;
  match err with
  | Some _ => mret tt
  | None =>
      err ← outside (NewSPDYExecutor FluentdNS (Name (pod_meta pod)) (CtrName c));
      match err with
      | Some e => Fatal (err_text e)
      | None => outside (λ w, (tt, exec_Stream (Name (pod_meta pod)) (CtrName c) w))
      end
  end.

(** ** log_checker.go *)

(** [http.Get] and [http.Post]. *)
Definition http_call (method url : string) (headers : list (string * string))
    (body : option json) : M (option response * error) :=
  match http_NewRequest method url with
  | Some e => mret (None, Some e)
  | None => client_Do (mkRequest method url headers body)
  end.

Definition executing_run_of (trs : list LmTestRun) : LmTestRun :=
  default (mkLmRun "" "" "" zero_lmspec)
    (head (filter (λ tr, LmStatus (LmSpec tr) = "EXECUTING") trs)).

Definition post_event (ip level line run_id : string) : M unit :=
  http_call "POST" ("http://" +:+ ip +:+ TestDirectorEventsAPI)
    [("Content-Type", "application/json")]
    (Some (LmEvent_json (mkLmEvent "log-monitor" run_id "" level line None ""))) ;;
  mret tt.

Definition sendEvent (level line : string) : M unit :=
  '(p, err) ← lm_GetPod "test-director" "mayastor-e2e";
  match err with
  | Some _ => mret tt
  | None =>
      let ip := PodIP (pod_status p) in
      '(req, err) ← http_call "GET" ("http://" +:+ ip +:+ TestDirectorTestRunsAPI) [] None;
      match err with
      | Some _ => mret tt
      | None =>
          req ← deref req;
          '(body, err) ← ReadAll req;
          match err with
          | Some _ => mret tt
          | None =>
              match json_parse body ≫= LmTestRuns_of_json with
              | None => mret tt
              | Some trs =>
                  let testRun := executing_run_of trs in
                  if decide (LmID testRun = "") then mret tt
                  else post_event ip level line (LmID testRun)
              end
          end
      end
  end.

Definition checkLine (s : string) : M unit :=
  let s := ToLower s in
  regex ← reads LogRegex;
  match MatchString regex s with
  | inl _ => mret tt
  | inr match_ =>
      if match_ : bool then
        if Contains s "error" then sendEvent "FAIL" s
        else if Contains s "warn" then sendEvent "WARN" s
        else mret tt
      else mret tt
  end.

(** The goroutine that takes the lines from the channel. *)
Definition ProcessLogLine (fuel : nat) : M unit :=
  r ← for_fuel fuel 0 tt (λ _ _,
        msg ← guarded (λ s, match LogChannel s with
                            | Some msg => Some (msg, set_LogChannel None s)
                            | None => None
                            end);
        checkLine msg ;; mret (Next tt));
  no_return r.

(** ** pod_checker.go *)

(** A pod of the list is looked at up to four times; the list is not read again. *)
Definition look_at_pod (p : Pod) (podMap : gmap string Pod) : M (gmap string Pod) :=
  r ← for_range [0; 1; 2; 3]%Z podMap (λ _ podMap,
        if decide (lm_PodStatus p = "Running") then
          mret (Break (<[Name (pod_meta p) := p]> podMap))
        else if decide (lm_PodStatus p = "Pending" ∨ lm_PodStatus p = "ContainerCreating") then
          time_Sleep (5 * Second) ;; mret (Next podMap)
        else mret (Break podMap));
  no_return r.

Definition initFluentdPodMap : M (gmap string Pod) :=
  '(pods, err) ← ListPods FluentdNS;
  match err with
  | Some e => Fatal (err_text e)
  | None =>
      r ← for_range pods ∅ (λ p podMap, podMap ← look_at_pod p podMap; mret (Next podMap));
      no_return r
  end.

Definition follow_new (podNew : gmap string Pod) : M unit :=
  l ← range_map podNew;
  r ← for_range l tt (λ kv _,
        known ← reads (λ s, bool_decide (is_Some (PodMap s !! kv.1)));
        if known : bool then mret (Next tt)
        else
          updates (set_PodMap (<[kv.1 := kv.2]>)) ;;
          execTailPodCommand kv.2 ;; mret (Next tt));
  no_return r.

Definition checkForNewFluentdPods (fuel : nat) : M unit :=
  r ← for_fuel fuel 0 tt (λ _ _,
        podNew ← initFluentdPodMap; follow_new podNew ;;
        time_Sleep (5 * Minute) ;; mret (Next tt));
  no_return r.

(** ** main.go *)

(** At most five waits for a pod, of [5 / counter] minutes each. *)
Definition await_fluentd : M unit :=
  r ← for_range [5; 4; 3; 2; 1]%Z false (λ counter _,
        none ← reads (λ s, bool_decide (size (PodMap s) = 0));
        if none : bool then
          time_Sleep ((5 `quot` counter) * Minute) ;; mret (Next (bool_decide (counter = 1%Z)))
        else mret (Break false));
  out ← no_return r;
  none ← reads (λ s, bool_decide (size (PodMap s) = 0));
  if out && none then Fatal "There are no fluentd pods" else mret tt.

(** A line is offered on the channel and taken before the next is read. *)
Definition read_lines (fuel : nat) : M unit :=
  r ← for_fuel fuel 0 tt (λ _ _,
        '(l, err) ← outside pipe_ReadLine;
        guarded (λ s, match LogChannel s with
                      | None => Some (tt, set_LogChannel (Some l) s)
                      | Some _ => None
                      end) ;;
        guarded (λ s, match LogChannel s with None => Some (tt, s) | Some _ => None end) ;;
        match err with
        | Some e => Fatal (err_text e)
        | None => mret (Next tt)
        end);
  no_return r.

Definition choose_regex : M unit :=
  updates (set_LogRegex (if decide (getenv "LOG_REGEX" ≠ "") then getenv "LOG_REGEX"
                         else default_regex)).

(** What main does before the search for pods starts.  The reader of the channel, which is
    started earlier, has nothing to take until then. *)
Definition lm_start : M unit :=
  err ← Init;
  match err with
  | Some e => Fatal (err_text e)
  | None => choose_regex ;; time_Sleep (30 * Second)
  end.

(** The goroutines from then on: the reader of the channel, the search for pods, main. *)
Definition lm_threads (fuel : nat) : list (M unit) :=
  [ProcessLogLine fuel; checkForNewFluentdPods fuel; await_fluentd ;; read_lines fuel].
End Monitor.
