(* ===== verification/LogTheorems.v ===== *)
(** * The log monitor: theorems

    Which lines are picked and what is posted about them, which pods are followed, and what
    the log monitor makes of the runs the director answers with. *)

From stdpp Require Import base gmap strings list pretty.
From Stdlib Require Import Ascii.
From S2P Require Import Prelude GoLib Json Http Kube Models Cache Director Scripted.
From S2P Require Import DirectorLib ScriptedCluster LogMonitor.

(** ** Lines *)

Lemma contains_prefix s sub : HasPrefix s sub = true → Contains s sub = true.
Proof. unfold HasPrefix. destruct s; simpl; intros ->; done. Qed.

Lemma contains_tail c s sub : Contains s sub = true → Contains (String c s) sub = true.
Proof. simpl. intros ->. apply orb_true_r. Qed.

Lemma contains_drop n s sub : Contains (drop_chars n s) sub = true → Contains s sub = true.
Proof.
  revert s. induction n as [|n IH]; intros [|c s]; try done.
  intros Hs. by apply contains_tail, IH.
Qed.

Lemma level_word_contains k s :
  level_word k s = true → Contains s "error" = true ∨ Contains s "warn" = true.
Proof.
  revert s. induction k as [|k IH]; intros s Hs.
  - simpl in Hs. rewrite orb_false_r in Hs. apply orb_true_iff in Hs as [Hs|Hs]; [left|right];
      by apply contains_prefix.
  - cbn [level_word] in Hs. rewrite !orb_true_iff in Hs.
    destruct Hs as [[Hs|Hs]|Hs]; [left; by apply contains_prefix|right; by apply contains_prefix|].
    destruct s as [|c s]; [done|]. case_decide; [done|].
    destruct (IH s Hs); [left|right]; by apply contains_tail.
Qed.

Lemma default_match_contains s :
  default_match s = true → Contains s "error" = true ∨ Contains s "warn" = true.
Proof.
  induction s as [|c s IH]; intros Hs; [done|].
  cbn [default_match] in Hs. apply orb_true_iff in Hs as [Hs|Hs].
  - apply andb_true_iff in Hs as [_ Hs]. apply level_word_contains in Hs.
    destruct Hs; [left|right]; by eapply contains_drop.
  - destruct (IH Hs); [left|right]; by apply contains_tail.
Qed.

Section Lines.
Context {W : Type} `{Kube W} `{Clock W} `{Http W} `{MapRange W} `{Getenv} `{Regexp}.

(** With the default pattern no line that matches is dropped: it is sent in lower case, as
    a failure when it mentions an error anywhere, otherwise as a warning; any other line
    does nothing. *)
Theorem matched_line_is_sent (l : string) (s : AppConfig W) :
  LogRegex s = default_regex →
  run (checkLine l) s =
  if default_match (ToLower l)
  then run (sendEvent (if Contains (ToLower l) "error" then "FAIL" else "WARN") (ToLower l)) s
  else (Ret tt, s).
Proof.
  intros Hr. unfold checkLine. rewrite run_bind, run_reads. cbn [seq_run].
  rewrite Hr, MatchString_default.
  destruct (default_match (ToLower l)) eqn:Hm; [|done].
  destruct (Contains (ToLower l) "error") eqn:He; [done|].
  destruct (default_match_contains _ Hm) as [Hc|Hc]; [congruence|]. by rewrite Hc.
Qed.
End Lines.

(** ** Events *)

(** The event that is posted is read by the director as it was meant, and is valid. *)
Theorem posted_event_is_valid (level line id : string) :
  level ∈ ["FAIL"; "WARN"] →
  ∃ spec, EventSpec_of_json
            (LmEvent_json (mkLmEvent "log-monitor" id "" level line None "")) = Some spec ∧
    EventSpec_Validate spec = [] ∧ EvClass spec = Some level ∧ EvMessage spec = Some line ∧
    SourceInstance spec = Some id.
Proof.
  intros Hl. eexists. split; [reflexivity|]. simpl.
  repeat split. unfold EventSpec_Validate. simpl.
  set_unfold in Hl. by destruct Hl as [->|[->|[]]].
Qed.

(** ** Runs *)

Section Reports.
Context {W : Type} `{Kube W} `{Clock W} `{Http W} `{MapRange W} `{Swag} `{Strfmt}.

(** The director writes the specification of a run among its other members, where the log
    monitor does not look for it. *)
Lemma read_run_status (r : TestRun) (tr : LmTestRun) :
  LmTestRun_of_json (TestRun_MarshalJSON r) = Some tr → LmSpec tr = zero_lmspec.
Proof.
  unfold LmTestRun_of_json, TestRun_MarshalJSON, TestRunSpec_json.
  rewrite ConcatJSON_objects. cbn [object_fields mbind option_bind].
  intros Hr. apply bind_Some in Hr as (e & _ & Hr). apply bind_Some in Hr as (i & _ & Hr).
  apply bind_Some in Hr as (st & _ & Hr). apply bind_Some in Hr as (sp & Hsp & Hr).
  injection Hr as <-. rewrite decode_field_skip in Hsp by skip_keys. by injection Hsp as <-.
Qed.

Lemma no_run_executes (rs : list TestRun) (trs : list LmTestRun) :
  LmTestRuns_of_json (JArr (map TestRun_MarshalJSON rs)) = Some trs →
  LmID (executing_run_of trs) = "".
Proof.
  simpl. intros Hm.
  assert (Hall : Forall (λ tr, LmSpec tr = zero_lmspec) trs).
  { apply mapM_Some in Hm. revert Hm.
    generalize trs. induction rs as [|r rs IH]; intros l Hl; simpl in Hl;
      apply Forall2_cons_inv_l in Hl || apply Forall2_nil_inv_l in Hl as ->; [constructor|].
    destruct Hl as (tr & l' & Htr & Hl' & ->). constructor; [|by apply IH].
    by eapply read_run_status. }
  unfold executing_run_of.
  replace (filter _ trs) with (@nil LmTestRun); [done|].
  symmetry. clear Hm. induction Hall as [|tr trs' Htr _ IH]; [done|].
  rewrite filter_cons, decide_False by (by rewrite Htr). exact IH.
Qed.

(** (C40) The log monitor never posts an event.  Whatever runs the director has, executing or
    not, the log monitor reads their specification from a member the director does not
    write, finds no run that executes, and stops after it has asked for the runs: no request
    is made after the answer. *)
Theorem log_monitor_never_posts (level line body : string) (rs : list TestRun) (p : Pod)
    (code : Z) (s : AppConfig W) (w1 w2 : W) :
  let url := "http://" +:+ PodIP (pod_status p) +:+ TestDirectorTestRunsAPI in
  pods_Get "mayastor-e2e" "test-director" (app_world s) = (inr p, w1) →
  http_NewRequest "GET" url = None →
  http_Do (mkRequest "GET" url [] None) w1 = (inr (mkResponse code (inr body)), w2) →
  json_parse body = Some (JArr (map TestRun_MarshalJSON rs)) →
  run (sendEvent level line) s = (Ret tt, set_world w2 s).
Proof.
  intros url Hp Hurl Hdo Hbody. unfold sendEvent, lm_GetPod.
  rewrite run_bind, run_kube_call. change (world s) with (app_world s). rewrite Hp.
  cbn [seq_run fst snd]. fold url. unfold http_call. rewrite Hurl. unfold client_Do.
  rewrite !run_bind, run_outside, world_set, Hdo. cbn [seq_run fst snd].
  rewrite run_done. cbn [seq_run]. rewrite run_bind, run_deref_Some. cbn [seq_run].
  unfold ReadAll. rewrite run_bind. cbn [rs_body]. rewrite run_done. cbn [seq_run].
  rewrite Hbody, set_world_set. cbn [mbind option_bind].
  destruct (LmTestRuns_of_json _) as [trs|] eqn:Et; [|done].
  by rewrite decide_True by (by eapply no_run_executes).
Qed.
End Reports.

(** ** Pods *)

Definition runs_now (p : Pod) : bool := bool_decide (Phase (pod_status p) = PodRunning).
Definition running_map (pods : list Pod) : gmap string Pod :=
  foldl (λ m p, if runs_now p then <[Name (pod_meta p) := p]> m else m) ∅ pods.

(** A pod is in the map exactly under its name, and only if it runs. *)
Lemma running_map_lookup (pods : list Pod) (k : string) :
  match running_map pods !! k with
  | Some p => p ∈ pods ∧ runs_now p = true ∧ Name (pod_meta p) = k
  | None => ∀ p, p ∈ pods → runs_now p = true → Name (pod_meta p) ≠ k
  end.
Proof.
  unfold running_map. induction pods as [|p pods IH] using rev_ind.
  { simpl. rewrite lookup_empty. set_solver. }
  rewrite foldl_app. simpl. destruct (runs_now p) eqn:Hp.
  - rewrite lookup_insert. case_decide as Hk; [set_solver|].
    destruct (_ !! k); set_solver.
  - destruct (_ !! k) eqn:E; [set_solver|].
    intros q Hq Hr. apply elem_of_app in Hq as [Hq|Hq]; [by apply IH|].
    apply list_elem_of_singleton in Hq as ->. congruence.
Qed.

Section Pods.
Context {W : Type} `{Kube W} `{Clock W}.

Lemma run_look_at_pod (p : Pod) (m : gmap string Pod) (s : AppConfig W) :
  ∃ w, run (look_at_pod p m) s =
    (Ret (if runs_now p then <[Name (pod_meta p) := p]> m else m), set_world w s).
Proof.
  unfold look_at_pod, lm_PodStatus, runs_now. cbn [for_range].
  change "Running" with PodRunning.
  destruct (decide (Phase (pod_status p) = PodRunning)) as [Hr|Hr];
    [rewrite bool_decide_true by done|rewrite bool_decide_false by done].
  { exists (app_world s). by destruct s. }
  destruct (decide (_ ∨ _)); [by eexists|exists (app_world s); by destruct s].
Qed.

Lemma run_initFluentdPodMap (pods : list Pod) (w : W) (s : AppConfig W) :
  pods_List FluentdNS (app_world s) = (inr pods, w) →
  ∃ w', run initFluentdPodMap s = (Ret (running_map pods), set_world w' s).
Proof.
  intros Hl. unfold initFluentdPodMap, ListPods. rewrite run_bind, run_kube_call.
  change (world s) with (app_world s). rewrite Hl. cbn [seq_run fst snd].
  unfold running_map. generalize (∅ : gmap string Pod) as m. clear Hl.
  generalize w. induction pods as [|p pods IH]; intros w0 m; [by exists w0|].
  rewrite run_bind, run_for_range_cons, run_bind.
  destruct (run_look_at_pod p m (set_world w0 s)) as [w1 E]. rewrite E.
  cbn [seq_run]. rewrite run_done. cbn [seq_run]. rewrite set_world_set.
  destruct (IH w1 (if runs_now p then <[Name (pod_meta p) := p]> m else m)) as [w2 E2].
  rewrite run_bind in E2. by exists w2.
Qed.

(** [initFluentdPodMap] gives the pods that the list shows as running and no other: a pod that
    is starting is looked at four times, but always in the list that was read first. *)
Theorem fluentd_pods_are_running (pods : list Pod) (w : W) (s : AppConfig W) :
  pods_List FluentdNS (app_world s) = (inr pods, w) →
  ∃ m w', run initFluentdPodMap s = (Ret m, set_world w' s) ∧
    ∀ k, match m !! k with
         | Some p => p ∈ pods ∧ runs_now p = true ∧ Name (pod_meta p) = k
         | None => ∀ p, p ∈ pods → runs_now p = true → Name (pod_meta p) ≠ k
         end.
Proof.
  intros Hl. exists (running_map pods).
  destruct (run_initFluentdPodMap pods w s Hl) as [w' Hw]. exists w'.
  split; [done|apply running_map_lookup].
Qed.
End Pods.

(** ** Witnesses *)

#[local] Program Instance script_regexp : Regexp := { MatchString _ s := inr (default_match s) }.
Next Obligation. done. Qed.

(** A run that executes, as the director answers it. *)
Definition lm_run : TestRun :=
  mkTestRun 0 "900" 0 (mkTestRunSpec "" TestRunStatusEnumEXECUTING "" "" (Some "MQ-201")).
Definition lm_answer : string := json_text
  "[{'endDateTime':[],'id':'900','startDateTime':[],'status':'EXECUTING','testKey':'MQ-201'}]".
Definition lm_cluster : Cluster :=
  with_pods (inr [demo_pod "test-director" "uid-9" PodRunning 0])
    (with_replies [inr (mkResponse 200 (inr lm_answer))] empty_cluster).
Definition lm_app : AppConfig Cluster := mkApp None ∅ default_regex lm_cluster.

Lemma log_monitor_never_posts_witness :
  run (sendEvent "FAIL" "level=error") lm_app = (Ret tt, set_world (with_replies [] lm_cluster) lm_app).
Proof.
  refine (log_monitor_never_posts "FAIL" "level=error" lm_answer [lm_run]
    (demo_pod "test-director" "uid-9" PodRunning 0) 200 lm_app lm_cluster _ _ _ _ _);
    vm_compute; reflexivity.
Defined.

(** The line is picked, and nothing comes of it. *)
Lemma matched_line_is_sent_witness :
  run (checkLine "Level=Error") lm_app = run (sendEvent "FAIL" "level=error") lm_app.
Proof. refine (matched_line_is_sent "Level=Error" lm_app _). reflexivity. Defined.

Lemma fluentd_pods_are_running_witness :
  ∃ m w', run initFluentdPodMap lm_app = (Ret m, set_world w' lm_app) ∧
    is_Some (m !! "test-director").
Proof.
  destruct (fluentd_pods_are_running [demo_pod "test-director" "uid-9" PodRunning 0] lm_cluster lm_app)
    as (m & w' & Hrun & Hm); [reflexivity|].
  exists m, w'. split; [exact Hrun|]. specialize (Hm "test-director").
  destruct (m !! "test-director"); [by eexists|]. destruct (Hm _ (list_elem_of_here _ _) eq_refl eq_refl).
Defined.
