(* ===== verification/Shell.v ===== *)
(** * Commands and files

    [os/exec] and the file operations of [os] and [ioutil] as the sources use them. *)

From stdpp Require Import base gmap strings list.
From S2P Require Import Prelude GoLib.

(** A command is its name and arguments and the directory it runs in.  [CombinedOutput]
    gives what it printed, also when it fails. *)
Class Shell (W : Type) := {
  sh_CombinedOutput : string → list string → W → (string * error) * W;
}.

Class Files (W : Type) := {
  os_Create : string → W → error * W;
  file_WriteString : string → string → W → error * W;
  file_Close : string → W → error * W;
  ioutil_WriteFile : string → string → W → error * W;
}.

Section Commands.
Context {S W : Type} `{HasWorld S W} `{Shell W}.

Definition exec_in (dir : string) (cmd : list string) : prog S (string * error) :=
  outside (sh_CombinedOutput dir cmd).

(** [exec.Command(cmd...).CombinedOutput()] in the working directory. *)
Definition exec_cmd (cmd : list string) : prog S (string * error) := exec_in "" cmd.
End Commands.

Section CommandFacts.
Context {S W : Type} `{HasWorld S W} `{Shell W} (I : S → Prop) `{!WorldFree I}.
Lemma keeps_exec_in dir cmd : keeps I (exec_in dir cmd).
Proof. unfold exec_in. solve_keeps. Qed.
Lemma keeps_exec_cmd cmd : keeps I (exec_cmd cmd).
Proof. apply keeps_exec_in. Qed.
End CommandFacts.
#[export] Hint Resolve keeps_exec_in keeps_exec_cmd : keeps.
