(* ===== verification/AgentServer.v ===== *)
(** * The agent on each node (tools/e2e-agent)

    The REST server that runs on every node of the cluster: it blocks and unblocks traffic
    between nodes, puts devices offline, runs commands and crashes the node. *)

From stdpp Require Import base gmap strings list pretty.
From Stdlib Require Import Ascii.
From S2P Require Import Prelude GoLib Json Http Shell.

(** ** Decoding a request

    [json.Decoder.Decode] fills what it can before it reports a value of the wrong type;
    the handlers go on with what was filled. *)

Definition lax_string (v : json) (cur : string) : string * bool :=
  match v with JStr s => (s, true) | JNull => (cur, true) | _ => (cur, false) end.

Definition lax_strings (v : json) (cur : list string) : list string * bool :=
  match v with
  | JNull => ([], true)
  | JArr l => (map (λ x, (lax_string x "").1) l, forallb (λ x, (lax_string x "").2) l)
  | _ => (cur, false)
  end.

Definition lax_field {A} (name : string) (dec : json → A → A * bool)
    (fs : list (string * json)) (zero : A) : A * bool :=
  foldl (λ acc kv, if key_matches name kv.1
                   then let '(x, ok) := dec kv.2 acc.1 in (x, acc.2 && ok) else acc)
        (zero, true) fs.

(** The members of the body, and whether it could be read as an object at all. *)
Definition body_fields (body : option json) : list (string * json) * bool :=
  match body with
  | Some (JObj fs) => (fs, true)
  | Some JNull => ([], true)
  | _ => ([], false)
  end.

Definition NodeList_Decode (body : option json) : list string * bool :=
  let '(fs, ok) := body_fields body in
  let '(nodes, ok') := lax_field "nodes" lax_strings fs [] in (nodes, ok && ok').

Definition CmdList_Decode (body : option json) : string * bool :=
  let '(fs, ok) := body_fields body in
  let '(cmd, ok') := lax_field "cmd" lax_string fs "" in (cmd, ok && ok').

Record Device := mkDevice { DevDevice : string; DevTable : string }.
Definition Device_Decode (body : option json) : Device * bool :=
  let '(fs, ok) := body_fields body in
  let '(d, ok1) := lax_field "device" lax_string fs "" in
  let '(t, ok2) := lax_field "table" lax_string fs "" in (mkDevice d t, ok && ok1 && ok2).

Record ControlledDevice := mkControlled { CtlDevice : string; CtlState : string }.
Definition ControlledDevice_Decode (body : option json) : ControlledDevice * bool :=
  let '(fs, ok) := body_fields body in
  let '(d, ok1) := lax_field "device" lax_string fs "" in
  let '(st, ok2) := lax_field "state" lax_string fs "" in
  (mkControlled d st, ok && ok1 && ok2).

(** ** Writing an answer *)

(** [http.ResponseWriter]: the first write fixes the status at 200 if none was set, and a
    status that comes later is ignored. *)
Record reply := mkReply { rp_code : option Z; rp_text : string }.
Definition no_reply : reply := mkReply None "".
Definition WriteHeader (code : Z) (w : reply) : reply :=
  match rp_code w with Some _ => w | None => mkReply (Some code) (rp_text w) end.
Definition Fprint (text : string) (w : reply) : reply :=
  mkReply (Some (default 200%Z (rp_code w))) (rp_text w +:+ text).
(** What the client receives. *)
Definition reply_response (w : reply) : response :=
  mkResponse (default 200%Z (rp_code w)) (inr (rp_text w)).

Definition InternalServerErrorCode : Z := 500.
Definition UnprocessableEntityErrorCode : Z := 422.
Definition SYSRQ_TRIGGER_FILE : string := "/host/proc/sysrq-trigger".

(** The text of the decoder's error does not matter to the handlers. *)
Definition note_decode (ok : bool) : reply :=
  if ok then no_reply else Fprint "json: cannot unmarshal" no_reply.

Definition fail_with (e : goerror) (w : reply) : reply :=
  Fprint (err_text e) (WriteHeader InternalServerErrorCode w).
Definition refuse (why : string) (w : reply) : reply :=
  Fprint why (WriteHeader UnprocessableEntityErrorCode w).

(** The answers of the router to requests no handler is registered for. *)
Class Mux := { mux_unmatched : string → string → reply }.

Section Server.
Context {W : Type} `{Clock W} `{Shell W} `{Files W} `{Getenv} `{Mux}.
Context {S : Type} `{HasWorld S W}.
Notation M := (prog S).

(** ** e2e-agent.go *)

Definition accept_rule (host port : string) : list string :=
  if decide (host ≠ "") then
    ["iptables"; "-t"; "mangle"; "-i"; "eth0"; "-s"; host; "-I"; "PREROUTING"; "-p"; "tcp";
     "--dport"; port; "-j"; "ACCEPT"; "-m"; "comment"; "--comment"; "mayastor-e2e-test"]
  else
    ["iptables"; "-t"; "mangle"; "-i"; "eth0"; "-I"; "PREROUTING"; "-p"; "tcp";
     "--dport"; port; "-j"; "ACCEPT"; "-m"; "comment"; "--comment"; "mayastor-e2e-test"].

(** One command after the other, until one fails. *)
Definition run_each (cmds : list (list string)) : M error :=
  r ← for_range cmds tt (λ cmd _,
        '(_, err) ← exec_cmd cmd;
        match err with
        | Some e => mret (Return (Some e))
        | None => mret (Next tt)
        end);
  match r with inl _ => mret None | inr err => mret err end.

Definition Setup : M error :=
  run_each (map (accept_rule (getenv "E2E_HOST_ADDR"))
              [getenv "REST_PORT"; getenv "MAYASTOR_PORT"; getenv "MCP_REST_PORT"]).

Definition srv_UngracefulReboot : M error :=
  time_Sleep (2 * Second) ;; outside (ioutil_WriteFile SYSRQ_TRIGGER_FILE "c").

Definition srv_GracefulReboot : M error := mret None.

Definition drop_spec (node : string) : list string :=
  ["-i"; "eth0"; "-s"; node; "-j"; "DROP"; "-m"; "comment"; "--comment"; "mayastor-e2e-test"].
Definition chain_cmd (op : string) (node : string) : list string :=
  ["iptables"; "-t"; "mangle"; op; "PREROUTING"] ++ drop_spec node.

Definition srv_DropConnectionsFromNodes (nodes : list string) : M error :=
  run_each (map (chain_cmd "-I") nodes).
Definition srv_AcceptConnectionsFromNodes (nodes : list string) : M error :=
  run_each (map (chain_cmd "-D") nodes).

(** ** server.go *)

Definition homePage : M reply := mret (Fprint ("Welcome home!" +:+ String "010" "") no_reply).

(** The reboot itself is left to a goroutine ([agent_background]). *)
Definition ungracefulReboot : M reply := mret no_reply.

Definition gracefulReboot : M reply :=
  mret (Fprint "Graceful reboots are not yet supported" no_reply).

Definition dropConnectionsFromNodes (body : option json) : M reply :=
  let '(nodes, ok) := NodeList_Decode body in
  let w := note_decode ok in
  err ← srv_DropConnectionsFromNodes nodes;
  match err with
  | Some e => mret (fail_with e w)
  | None => mret (Fprint ("Successfully stopped network services" +:+ String "010" "") w)
  end.

Definition acceptConnectionsFromNodes (body : option json) : M reply :=
  let '(nodes, ok) := NodeList_Decode body in
  let w := note_decode ok in
  err ← srv_AcceptConnectionsFromNodes nodes;
  match err with
  | Some e => mret (fail_with e w)
  | None => mret (Fprint ("Successfully started network services" +:+ String "010" "") w)
  end.

(** Run a command and answer with its output. *)
Definition answer_command (cmd : list string) (w : reply) : M reply :=
  '(output, err) ← exec_cmd cmd;
  match err with
  | Some e => mret (fail_with e w)
  | None => mret (Fprint output w)
  end.

Definition execCmd (body : option json) : M reply :=
  let '(cmd, ok) := CmdList_Decode body in
  let w := note_decode ok in
  if decide (cmd = "") then mret (refuse "no command passed" w)
  else answer_command (Split cmd " "%char) w.

(** The errors of the file are printed on the server; the client gets an empty answer. *)
Definition createFaultyDevice (body : option json) : M reply :=
  let '(device, ok) := Device_Decode body in
  let w := note_decode ok in
  if decide (DevDevice device = "") then mret (refuse "no device passed" w)
  else if decide (DevTable device = "") then mret (refuse "no table passed" w)
  else
    err ← outside (os_Create "table");
    match err with
    | Some _ => mret w
    | None =>
        err ← outside (file_WriteString "table" (DevTable device));
        match err with
        | Some _ => outside (file_Close "table") ;; mret w
        | None =>
            err ← outside (file_Close "table");
            match err with
            | Some _ => mret w
            | None =>
                name ← index (Split (DevDevice device) "/"%char) 2;
                answer_command (Split ("dmsetup create" +:+ " " +:+ name +:+ " " +:+ "table")
                                  " "%char) w
            end
        end
    end.

Definition state_command (device state : string) : list string :=
  ["bash"; "-c"; "echo " +:+ state +:+ " > /host/sys/block/" +:+ device +:+ "/device/state"].

Definition controlDevice (body : option json) : M reply :=
  let '(device, ok) := ControlledDevice_Decode body in
  let w := note_decode ok in
  if decide (CtlDevice device = "") then mret (refuse "no device passed" w)
  else if decide (CtlState device ≠ "offline" ∧ CtlState device ≠ "running")
  then mret (refuse "invalid state" w)
  else answer_command (state_command (CtlDevice device) (CtlState device)) w.

Definition kill_command : list string := ["bash"; "-c"; "MS=$(pidof mayastor) && kill -9 $MS"].
Definition srv_killMayastor : M reply := answer_command kill_command no_reply.

(** The routes of [handleRequests]; the first two answer without reading the body. *)
Definition agent_serve (method path : string) (body : option json) : M reply :=
  if decide (path = "/") then homePage
  else if decide (method ≠ "POST") then mret (mux_unmatched method path)
  else if decide (path = "/ungracefulReboot") then ungracefulReboot
  else if decide (path = "/gracefulReboot") then gracefulReboot
  else if decide (path = "/dropConnectionsFromNodes") then dropConnectionsFromNodes body
  else if decide (path = "/acceptConnectionsFromNodes") then acceptConnectionsFromNodes body
  else if decide (path = "/createFaultyDevice") then createFaultyDevice body
  else if decide (path = "/exec") then execCmd body
  else if decide (path = "/devicecontrol") then controlDevice body
  else if decide (path = "/killmayastor") then srv_killMayastor
  else mret (mux_unmatched method path).

(** What a request leaves running. *)
Definition agent_background (method path : string) : M unit :=
  if decide (method = "POST" ∧ path = "/ungracefulReboot")
  then srv_UngracefulReboot ;; mret tt else mret tt.
End Server.
