(* ===== verification/AgentTheorems.v ===== *)
(** * The agent and its client together

    The client's requests answered by the server's handlers: what a request does to the node
    it is sent to. *)

From stdpp Require Import base gmap strings list pretty.
From Stdlib Require Import Ascii.
From S2P Require Import Prelude GoLib Json Http Shell AgentClient AgentServer.

(** ** The network between them *)

(** What follows a prefix. *)
Fixpoint after_prefix (p s : string) : option string :=
  match p, s with
  | EmptyString, _ => Some s
  | String c p', String d s' => if decide (c = d) then after_prefix p' s' else None
  | _, _ => None
  end.

Lemma after_prefix_app p s : after_prefix p (p +:+ s) = Some s.
Proof.
  unfold String.app. induction p as [|c p IH]; [by destruct s|]. simpl.
  by rewrite decide_True.
Qed.

(** A node as a program of its own. *)
Definition self_world (W : Type) : HasWorld W W.
Proof. refine {| world w := w; set_world w _ := w |}; done. Defined.

Section Network.
Context {W : Type} `{Clock W} `{Shell W} `{Files W} `{Mux}.
#[local] Instance node_world : HasWorld W W := self_world W.

(** A request to the agent's port is served by the agent; a handler that panics closes the
    connection. *)
Definition agent_do (addr : string) (r : request) (w : W) : (goerror + response) * W :=
  match after_prefix (agent_url addr "") (rq_url r) with
  | None => (inl (GoError "no route to host" Plain), w)
  | Some path =>
      match run (agent_serve (rq_method r) path (rq_body r)) w with
      | (Ret rp, w') => (inr (reply_response rp), w')
      | (_, w') => (inl (GoError "EOF" Plain), w')
      end
  end.
Definition agent_http (addr : string) : Http W := {|
  http_NewRequest _ _ := None;
  http_Do := agent_do addr;
|}.

Lemma agent_do_serve addr method path headers body (w : W) :
  agent_do addr (mkRequest method (agent_url addr path) headers body) w =
  match run (agent_serve method path body) w with
  | (Ret rp, w') => (inr (reply_response rp), w')
  | (_, w') => (inl (GoError "EOF" Plain), w')
  end.
Proof.
  unfold agent_do. cbn [rq_url rq_method rq_body].
  replace (agent_url addr path) with (agent_url addr "" +:+ path)
    by (unfold agent_url; by rewrite !string_app_assoc).
  by rewrite after_prefix_app.
Qed.

(** What the client makes of the agent's answer. *)
Lemma run_agent_call {S} `{HasWorld S W} addr method path data (s : S) :
  run (sendRequestGetResponse (H:=_) (H0:=agent_http addr) method (agent_url addr path) data) s =
  match run (agent_serve method path (Some data)) (world s) with
  | (Ret rp, w) =>
      (Ret (if bool_decide (default 200%Z (rp_code rp) ≠ 200%Z)
            then ("", errorf ("request returned code " +:+ Itoa (default 200%Z (rp_code rp))))
            else (rp_text rp, None)), set_world w s)
  | (_, w) => (Ret ("", Some (GoError "EOF" Plain)), set_world w s)
  end.
Proof.
  unfold sendRequestGetResponse. cbn [http_NewRequest agent_http].
  unfold client_Do. rewrite !run_bind, run_outside.
  cbn [http_Do agent_http]. rewrite agent_do_serve.
  destruct (run (agent_serve method path (Some data)) (world s)) as [[rp|why| |] w];
    cbn [fst snd seq_run]; rewrite ?run_done; cbn [seq_run]; try done.
  rewrite run_bind, run_deref_Some. cbn [seq_run reply_response StatusCode].
  case_bool_decide; [done|]. cbn [ReadAll rs_body reply_response]. by rewrite run_bind.
Qed.
End Network.

(** ** Blocking and unblocking traffic *)

Fixpoint remove_first (x : list string) (l : list (list string)) : list (list string) :=
  match l with
  | [] => []
  | y :: l' => if decide (y = x) then l' else y :: remove_first x l'
  end.

(** The PREROUTING chain of iptables' mangle table: where the command succeeds, [-I] has put a
    rule in front, and [-D] has deleted the first rule that equals the given one.  Nothing is
    said of a command that fails. *)
Class Firewall (W : Type) `{Shell W} := {
  rules : W → list (list string);
  fw_insert spec w out w' :
    sh_CombinedOutput "" (["iptables"; "-t"; "mangle"; "-I"; "PREROUTING"] ++ spec) w =
      ((out, None), w') → rules w' = spec :: rules w;
  fw_delete spec w out w' :
    sh_CombinedOutput "" (["iptables"; "-t"; "mangle"; "-D"; "PREROUTING"] ++ spec) w =
      ((out, None), w') → rules w' = remove_first spec (rules w);
}.

Lemma remove_first_app x l k : x ∈ l → remove_first x (l ++ k)%list = (remove_first x l ++ k)%list.
Proof.
  induction l as [|y l IH]; intros Hx; [by apply not_elem_of_nil in Hx|]. simpl.
  case_decide; [done|]. rewrite IH; [done|]. set_solver.
Qed.

Lemma remove_first_perm x l : x ∈ l → l ≡ₚ x :: remove_first x l.
Proof.
  induction l as [|y l IH]; intros Hx; [by apply not_elem_of_nil in Hx|]. simpl.
  case_decide as Hy; [by subst|].
  rewrite Permutation_swap, <- IH; [done|]. set_solver.
Qed.

(** Removing in any order what was put in front leaves what was there before. *)
Lemma remove_first_all l front back :
  front ≡ₚ l → foldl (λ r x, remove_first x r) (front ++ back)%list l = back.
Proof.
  revert front. induction l as [|x l IH]; intros front Hp; simpl.
  { by apply Permutation_nil_r in Hp as ->. }
  assert (Hx : x ∈ front) by (rewrite Hp; set_solver).
  rewrite remove_first_app by done. apply IH.
  apply (Permutation_cons_inv (a:=x)). by rewrite <- remove_first_perm.
Qed.

Section Firewall.
Context {W : Type} `{Clock W} `{Files W} `{Mux} `{Firewall W}.
#[local] Instance fw_world : HasWorld W W := self_world W.

(** The commands have been run one after the other, and all have succeeded. *)
Fixpoint all_run (cmds : list (list string)) (w w' : W) : Prop :=
  match cmds with
  | [] => w' = w
  | c :: l => ∃ out w1, sh_CombinedOutput "" c w = ((out, None), w1) ∧ all_run l w1 w'
  end.
(** Commands are run until one fails. *)
Lemma run_each_spec cmds (w : W) :
  ∃ err w', run (run_each cmds) w = (Ret err, w') ∧
    match err with
    | None => all_run cmds w w'
    | Some e => ∃ before c rest w1 out, cmds = (before ++ c :: rest)%list ∧
        all_run before w w1 ∧ sh_CombinedOutput "" c w1 = ((out, Some e), w')
    end.
Proof.
  unfold run_each. revert w. induction cmds as [|c l IH]; intros w; [by exists None, w|].
  destruct (sh_CombinedOutput "" c w) as [[out [e|]] w1] eqn:E.
  - exists (Some e), w1. split; [|by exists [], c, l, w, out].
    rewrite run_bind, run_for_range_cons. unfold exec_cmd, exec_in at 1.
    rewrite run_bind, run_outside. cbn [world]. cbn in E |- *. by rewrite E.
  - destruct (IH w1) as (err & w' & Er & Herr). exists err, w'. split.
    + rewrite run_bind, run_for_range_cons. unfold exec_cmd, exec_in at 1.
      rewrite run_bind, run_outside. cbn [world]. cbn in E |- *. rewrite E. cbn.
      by rewrite run_bind in Er.
    + destruct err as [e|]; [|by exists out, w1].
      destruct Herr as (before & c' & rest & w2 & out' & -> & Hb & Ec).
      exists (c :: before), c', rest, w2, out'. split; [done|]. split; [by exists out, w1|done].
Qed.

Lemma inserted_rules nodes (w w' : W) :
  all_run (map (chain_cmd "-I") nodes) w w' →
  rules w' = (rev (map drop_spec nodes) ++ rules w)%list.
Proof.
  revert w. induction nodes as [|n nodes IH]; intros w; [by intros ->|].
  intros (out & w1 & E & Hw). rewrite (IH w1 Hw). apply fw_insert in E.
  rewrite E. cbn [map rev]. by rewrite <- app_assoc.
Qed.
Lemma deleted_rules nodes (front back : list (list string)) (w w' : W) :
  front ≡ₚ map drop_spec nodes → rules w = (front ++ back)%list →
  all_run (map (chain_cmd "-D") nodes) w w' → rules w' = back.
Proof.
  intros Hp Hw Hrun.
  assert (rules w' = foldl (λ r x, remove_first x r) (rules w) (map drop_spec nodes)) as ->.
  { clear Hp Hw. revert w Hrun. induction nodes as [|n nodes IH]; intros w; [by intros ->|].
    intros (out & w1 & E & Hw). rewrite (IH w1 Hw). apply fw_delete in E. by rewrite E. }
  rewrite Hw. by apply remove_first_all.
Qed.

Lemma decode_nodes nodes : NodeList_Decode (Some (NodeList_json nodes)) = (nodes, true).
Proof.
  assert (Hl : lax_strings (JArr (map JStr nodes)) [] = (nodes, true)).
  { cbn [lax_strings]. f_equal; [|by induction nodes].
    rewrite map_map. exact (map_id nodes). }
  unfold NodeList_Decode, NodeList_json, lax_field. cbn -[lax_strings]. by rewrite Hl.
Qed.

(** What a client is told of the run of the commands. *)
Definition told_of (err : error) : error :=
  match err with Some _ => errorf "request returned code 500" | None => None end.
Lemma run_Drop {S} `{HasWorld S W} addr nodes (s : S) err w' :
  run (srv_DropConnectionsFromNodes nodes) (world s) = (Ret err, w') →
  run (DropConnectionsFromNodes (H0 := agent_http addr) addr nodes) s =
    (Ret (told_of err), set_world w' s).
Proof.
  intros E. unfold DropConnectionsFromNodes, agent_sendRequest. rewrite run_bind, run_agent_call.
  change (agent_serve _ _ _) with
    (dropConnectionsFromNodes (W:=W) (S:=W) (Some (NodeList_json nodes))).
  unfold dropConnectionsFromNodes. rewrite decode_nodes, run_bind, E. by destruct err.
Qed.
Lemma run_Accept {S} `{HasWorld S W} addr nodes (s : S) err w' :
  run (srv_AcceptConnectionsFromNodes nodes) (world s) = (Ret err, w') →
  run (AcceptConnectionsFromNodes (H0 := agent_http addr) addr nodes) s =
    (Ret (told_of err), set_world w' s).
Proof.
  intros E. unfold AcceptConnectionsFromNodes, agent_sendRequest.
  rewrite run_bind, run_agent_call. change (agent_serve _ _ _) with
    (acceptConnectionsFromNodes (W:=W) (S:=W) (Some (NodeList_json nodes))).
  unfold acceptConnectionsFromNodes. rewrite decode_nodes, run_bind, E. by destruct err.
Qed.

(** (C10) Blocking the traffic from some nodes and unblocking it again, client, requests,
    handlers and commands together, over a connection that delivers both requests and their
    answers: both calls come back.  When the first reports success, every node is blocked;
    when the second does too, the rules are exactly what they were before.  An error
    of the first means that one of the commands failed: the answer is 500, and the nodes before
    that one were blocked. *)
Theorem unblock_restores_rules {S} `{HasWorld S W} (addr : string) (nodes : list string)
    (s : S) :
  let _ := agent_http addr in
  ∃ err1 s1 err2 s2, run (DropConnectionsFromNodes addr nodes) s = (Ret err1, s1) ∧
    run (AcceptConnectionsFromNodes addr nodes) s1 = (Ret err2, s2) ∧
    match err1 with
    | None =>
        rules (world s1) = (rev (map drop_spec nodes) ++ rules (world s))%list ∧
        (err2 = None → rules (world s2) = rules (world s))
    | Some _ =>
        err1 = errorf "request returned code 500" ∧
        ∃ before node rest w out e, nodes = (before ++ node :: rest)%list ∧
          rules w = (rev (map drop_spec before) ++ rules (world s))%list ∧
          sh_CombinedOutput "" (chain_cmd "-I" node) w = ((out, Some e), world s1)
    end.
Proof.
  intros Hh. subst Hh.
  destruct (run_each_spec (map (chain_cmd "-I") nodes) (world s)) as (err1 & w1 & E1 & Hd1).
  destruct (run_each_spec (map (chain_cmd "-D") nodes) w1) as (err2 & w2 & E2 & Hd2).
  exists (told_of err1), (set_world w1 s), (told_of err2), (set_world w2 s).
  split; [by apply run_Drop|]. split.
  { erewrite (run_Accept addr nodes (set_world w1 s));
      [|by rewrite world_set]. by rewrite set_world_set. }
  rewrite !world_set. destruct err1 as [e|]; cbn [told_of errorf].
  - split; [done|]. destruct Hd1 as (before & c & rest & w & out & Hl & Hb & Ec).
    apply map_eq_app in Hl as (before' & rest' & -> & <- & Hl).
    apply map_eq_cons in Hl as (node & rest'' & -> & <- & <-).
    exists before', node, rest'', w, out, e. split; [done|]. split; [by apply inserted_rules|done].
  - apply inserted_rules in Hd1. split; [done|]. intros Herr2.
    destruct err2; [done|]. eapply deleted_rules; [|exact Hd1|exact Hd2].
    by rewrite <- Permutation_rev.
Qed.

(** A body that cannot be read is answered as a success, and nothing is blocked. *)
Theorem unreadable_body_reported_as_success (w : W) :
  ∃ rp, run (dropConnectionsFromNodes None) w = (Ret rp, w) ∧ default 200%Z (rp_code rp) = 200%Z.
Proof. eexists. split; reflexivity. Qed.
End Firewall.

(** ** Devices *)

Section Devices.
Context {W : Type} `{Clock W} `{Shell W} `{Files W} `{Mux}.


End Devices.

(** ** A node whose only state is its rules *)

Definition chain := list (list string).
#[local] Instance chain_shell : Shell chain := {
  sh_CombinedOutput _ cmd w :=
    match cmd with
    | "iptables" :: "-t" :: "mangle" :: "-I" :: "PREROUTING" :: spec => (("", None), spec :: w)
    | "iptables" :: "-t" :: "mangle" :: "-D" :: "PREROUTING" :: spec =>
        if decide (spec ∈ w) then (("", None), remove_first spec w)
        else (("", errorf "exit status 1"), w)
    | _ => (("", None), w)
    end;
}.
#[local] Instance chain_clock : Clock chain := { clock_now w := (0%Z, w); clock_sleep _ w := w }.
#[local] Instance chain_files : Files chain := {
  os_Create _ w := (None, w);
  file_WriteString _ _ w := (None, w);
  file_Close _ w := (None, w);
  ioutil_WriteFile _ _ w := (None, w);
}.
#[local] Instance chain_mux : Mux :=
  { mux_unmatched _ _ := Fprint "404 page not found" (WriteHeader 404 no_reply) }.
#[local] Program Instance chain_firewall : Firewall chain := { rules w := w }.
Next Obligation. by intros spec w out w' [= _ <-]. Qed.
Next Obligation.
  intros spec w out w'. cbn. case_decide as Hs; by intros [= _ <-].
Qed.

Lemma unblock_restores_rules_witness :
  ∃ s1 s2 : chain,
    (let _ := self_world chain in let _ := agent_http "10.0.0.1" in
     run (DropConnectionsFromNodes "10.0.0.1" ["10.0.0.2"; "10.0.0.3"]) ([["-j"; "ACCEPT"]] : chain))
    = (Ret None, s1) ∧ rules s1 ≠ rules s2 ∧ rules s2 = [["-j"; "ACCEPT"]].
Proof.
  pose proof (unblock_restores_rules (H4 := self_world chain) "10.0.0.1"
    ["10.0.0.2"; "10.0.0.3"] ([["-j"; "ACCEPT"]] : chain)) as (err1 & s1 & err2 & s2 & E1 & E2 & Hr).
  assert (err1 = None) as -> by (vm_compute in E1; congruence).
  destruct Hr as [Hr1 Hr2]. cbn in Hr1.
  assert (err2 = None) as Herr2 by (cbn in Hr1; subst s1; vm_compute in E2; congruence).
  specialize (Hr2 Herr2). exists s1, s2. split; [exact E1|]. split; [|exact Hr2].
  cbn in Hr1, Hr2. cbn. by rewrite Hr1, Hr2.
Defined.
