(* ===== verification/Session.v ===== *)
(** * The process of an end-to-end test: configuration and package variables

    common/e2e_config/e2e_config.go: where the configuration comes from, the [once] that
    loads it, and the one field that changes afterwards; with it the variables of the
    packages the test process is made of. *)

From stdpp Require Import base gmap strings list.
From Stdlib Require Import Ascii.
From S2P Require Import Prelude GoLib Json Http Shell Kube.

(** ** The configuration

    The members the modelled code reads; those that only single tests or installations of
    other products read are left out. *)
Record Platform := mkPlatform {
  Platform_Name : string;
  HostNetworkingRequired : bool;
  MayastorNamespace : string;
  FilteredMayastorPodCheck : Z;
}.

Record Product := mkProduct {
  ProductName : string;
  ProductNamespace : string;
  DeploymentName : string;
  PodName : string;
  ContainerName : string;
  DaemonsetName : string;
  CsiDaemonsetName : string;
  EngineLabel : string;
  EngineLabelValue : string;
  KubectlPluginName : string;
  KubectlPluginPort : string;
  CsiProvisioner : string;
  ControlPlaneAgent : string;
  ControlPlaneEtcd : string;
  ControlPlaneCsiController : string;
  ControlPlanePoolOperator : string;
  ControlPlaneRestServer : string;
  DataPlaneName : string;
  DataPlaneCsi : string;
  DataPlaneNats : string;
  EtcdYaml : string;
  NatsDeploymentYaml : string;
  CsiDaemonsetYaml : string;
  DaemonsetYaml : string;
}.

Record E2EConfig := mkConfig {
  ConfigName : string;
  ConfigFile : string;
  PlatformConfigFile : string;
  cfg_Platform : Platform;
  cfg_Product : Product;
  GrpcMandated : bool;
  MayastorRootDir : string;
  E2eRootDir : string;
  SessionDir : string;
  MayastorVersion : string;
  KubectlPluginDir : string;
  Registry : string;
  ImageTag : string;
  PoolDevice : string;
  E2eFioImage : string;
  E2eFsxImage : string;
  DeferredAssert : bool;
  DefaultReplicaCount : Z;
  BeforeEachCheckAndRestart : bool;
  FailQuick : bool;
  ReportsDir : string;
  SelfTest : bool;
  (** [IOSoakTest.FioDutyCycles]: think time and blocks. *)
  FioDutyCycles : list (Z * Z);
  Cores : Z;
  (** [Uninstall.Cleanup]. *)
  UninstallCleanup : Z;
}.

Definition set_files (file platform : string) (c : E2EConfig) : E2EConfig :=
  mkConfig (ConfigName c) file platform (cfg_Platform c) (cfg_Product c) (GrpcMandated c)
    (MayastorRootDir c) (E2eRootDir c) (SessionDir c) (MayastorVersion c) (KubectlPluginDir c)
    (Registry c) (ImageTag c) (PoolDevice c) (E2eFioImage c) (E2eFsxImage c)
    (DeferredAssert c) (DefaultReplicaCount c) (BeforeEachCheckAndRestart c) (FailQuick c)
    (ReportsDir c) (SelfTest c) (FioDutyCycles c)
    (Cores c) (UninstallCleanup c).
Definition set_dirs (root session : string) (c : E2EConfig) : E2EConfig :=
  mkConfig (ConfigName c) (ConfigFile c) (PlatformConfigFile c) (cfg_Platform c)
    (cfg_Product c) (GrpcMandated c) (MayastorRootDir c) root session (MayastorVersion c)
    (KubectlPluginDir c) (Registry c) (ImageTag c) (PoolDevice c) (E2eFioImage c)
    (E2eFsxImage c) (DeferredAssert c) (DefaultReplicaCount c)
    (BeforeEachCheckAndRestart c) (FailQuick c) (ReportsDir c) (SelfTest c) (FioDutyCycles c)
    (Cores c) (UninstallCleanup c).
Definition set_version (version : string) (c : E2EConfig) : E2EConfig :=
  mkConfig (ConfigName c) (ConfigFile c) (PlatformConfigFile c) (cfg_Platform c)
    (cfg_Product c) (GrpcMandated c) (MayastorRootDir c) (E2eRootDir c) (SessionDir c)
    version (KubectlPluginDir c) (Registry c) (ImageTag c) (PoolDevice c) (E2eFioImage c)
    (E2eFsxImage c) (DeferredAssert c) (DefaultReplicaCount c)
    (BeforeEachCheckAndRestart c) (FailQuick c) (ReportsDir c) (SelfTest c) (FioDutyCycles c)
    (Cores c) (UninstallCleanup c).
Definition set_duty (l : list (Z * Z)) (c : E2EConfig) : E2EConfig :=
  mkConfig (ConfigName c) (ConfigFile c) (PlatformConfigFile c) (cfg_Platform c)
    (cfg_Product c) (GrpcMandated c) (MayastorRootDir c) (E2eRootDir c) (SessionDir c)
    (MayastorVersion c) (KubectlPluginDir c) (Registry c) (ImageTag c) (PoolDevice c)
    (E2eFioImage c) (E2eFsxImage c) (DeferredAssert c) (DefaultReplicaCount c)
    (BeforeEachCheckAndRestart c) (FailQuick c) (ReportsDir c) (SelfTest c) l
    (Cores c) (UninstallCleanup c).

(** The zero value of the package variable. *)
Definition zero_config : E2EConfig :=
  mkConfig "" "" "" (mkPlatform "" false "" 0)
    (mkProduct "" "" "" "" "" "" "" "" "" "" "" "" "" "" "" "" "" "" "" "" "" "" "" "")
    false "" "" "" "" "" "" "" "" "" "" false 0 false false "" false [] 0 0.

Definition ConfigDir : string := "/configurations".
Definition PlatformConfigDir : string := "/configurations/platforms/".

(** ** The variables of the test process *)

(** The implementations of the control plane interface (controlplane/v1). *)
Inductive CP := CPv1.

Record Session (W : Type) := mkSession {
  se_world : W;
  e2eConfig : E2EConfig;           (* e2e_config *)
  config_once : bool;
  cp_once : bool;                  (* controlplane *)
  ifc : option CP;
  nodeIpAddresses : list string;
  canConnect : bool;               (* mayastorclient *)
  addrs_once : bool;               (* k8stest *)
  resourceCheckError : error;
  mayastorInitialPodCount : Z;
}.
Arguments mkSession {W}.
Arguments se_world {W}.
Arguments e2eConfig {W}.
Arguments config_once {W}.
Arguments cp_once {W}.
Arguments ifc {W}.
Arguments nodeIpAddresses {W}.
Arguments canConnect {W}.
Arguments addrs_once {W}.
Arguments resourceCheckError {W}.
Arguments mayastorInitialPodCount {W}.

#[export] Program Instance session_world {W} : HasWorld (Session W) W := {
  world := se_world;
  set_world w s := mkSession w (e2eConfig s) (config_once s) (cp_once s) (ifc s) (nodeIpAddresses s)
       (canConnect s) (addrs_once s) (resourceCheckError s) (mayastorInitialPodCount s);
}.
Solve All Obligations with by intros; repeat match goal with s : Session _ |- _ => destruct s end.

Definition set_config {W} (c : E2EConfig) (s : Session W) : Session W :=
  mkSession (se_world s) c (config_once s) (cp_once s) (ifc s) (nodeIpAddresses s)
     (canConnect s) (addrs_once s) (resourceCheckError s) (mayastorInitialPodCount s).
Definition set_config_once {W} (s : Session W) : Session W :=
  mkSession (se_world s) (e2eConfig s) true (cp_once s) (ifc s) (nodeIpAddresses s)
     (canConnect s) (addrs_once s) (resourceCheckError s) (mayastorInitialPodCount s).
Definition set_cp_once {W} (s : Session W) : Session W :=
  mkSession (se_world s) (e2eConfig s) (config_once s) true (ifc s) (nodeIpAddresses s)
     (canConnect s) (addrs_once s) (resourceCheckError s) (mayastorInitialPodCount s).
Definition set_ifc {W} (i : option CP) (s : Session W) : Session W :=
  mkSession (se_world s) (e2eConfig s) (config_once s) (cp_once s) i (nodeIpAddresses s)
     (canConnect s) (addrs_once s) (resourceCheckError s) (mayastorInitialPodCount s).
Definition set_addresses {W} (l : list string) (s : Session W) : Session W :=
  mkSession (se_world s) (e2eConfig s) (config_once s) (cp_once s) (ifc s) l
     (canConnect s) (addrs_once s) (resourceCheckError s) (mayastorInitialPodCount s).
Definition set_connect {W} (b : bool) (s : Session W) : Session W :=
  mkSession (se_world s) (e2eConfig s) (config_once s) (cp_once s) (ifc s)
     (nodeIpAddresses s) b (addrs_once s) (resourceCheckError s)
     (mayastorInitialPodCount s).
Definition set_addrs_once {W} (s : Session W) : Session W :=
  mkSession (se_world s) (e2eConfig s) (config_once s) (cp_once s) (ifc s)
     (nodeIpAddresses s) (canConnect s) true (resourceCheckError s)
     (mayastorInitialPodCount s).
Definition set_check_error {W} (e : error) (s : Session W) : Session W :=
  mkSession (se_world s) (e2eConfig s) (config_once s) (cp_once s) (ifc s)
     (nodeIpAddresses s) (canConnect s) (addrs_once s) e (mayastorInitialPodCount s).
Definition set_pod_count {W} (n : Z) (s : Session W) : Session W :=
  mkSession (se_world s) (e2eConfig s) (config_once s) (cp_once s) (ifc s)
     (nodeIpAddresses s) (canConnect s) (addrs_once s) (resourceCheckError s) n.

(** [sync.Once.Do]: the function is not called again, even when it panicked. *)
Definition once_Do {S} (done : S → bool) (mark : S → S) (f : prog S unit) : prog S unit :=
  d ← reads done;
  if d : bool then mret tt else updates mark ;; f.

(** ** [path.Clean] *)

Definition clean_step (rooted : bool) (stack : list string) (c : string) : list string :=
  if decide (c = "" ∨ c = ".") then stack
  else if decide (c = "..") then
    match stack with
    | [] => if rooted then [] else [".."]
    | d :: rest => if decide (d = "..") then ".." :: stack else rest
    end
  else c :: stack.
Definition path_Clean (p : string) : string :=
  let rooted := HasPrefix p "/" in
  let out := Join (rev (foldl (clean_step rooted) [] (Split p "/"%char))) "/" in
  if rooted then "/" +:+ out else if decide (out = "") then "." else out.

Example path_Clean_examples :
  map path_Clean ["/a//b/./c/../d"; "x/../../y"; ""; "/.."; "/root/configurations/platforms/k3d.yaml"]
  = ["/a/b/d"; "../y"; "."; "/"; "/root/configurations/platforms/k3d.yaml"].
Proof. vm_compute. reflexivity. Qed.

(** ** Loading the configuration *)

(** The environment variables and the file system as [GetConfig] uses them; [os_Stat] says
    whether a path is a directory. *)
Class System (W : Type) := {
  os_LookupEnv : string → option string;
  os_Getwd : answer W string;
  os_Stat : string → answer W bool;
  os_MkdirAll : string → answer W unit;
}.

(** cleanenv and yaml: the tags of the structs say what they read and write. *)
Class ConfigFiles (W : Type) := {
  cleanenv_ReadEnv : E2EConfig → E2EConfig;
  cleanenv_ReadConfig : string → E2EConfig → W → (E2EConfig * error) * W;
  yaml_Marshal : E2EConfig → string;
}.

Section Config.
Context {W : Type} `{Files W} `{System W} `{ConfigFiles W}.
Notation M := (prog (Session W)).

(** [os.Stat]: no information comes with an error. *)
Definition Stat (path : string) : M (option bool * error) :=
  '(d, err) ← kube_call false (os_Stat path);
  mret (match err with Some _ => None | None => Some d end, err).

Definition IsNotExist (err : error) : bool :=
  match err with Some e => bool_decide (err_is e = NotFound) | None => false end.

(** The checkout the working directory lies in: the first directory mayastor-e2e on the
    way down that has src below it and can be examined. *)
Definition find_root (comps : list string) : M (option string) :=
  r ← for_upto 0 (Z.of_nat (length comps)) tt (λ ix _,
        let i := Z.to_nat ix in
        if decide (comps !! i = Some "mayastor-e2e" ∧ (2 < length (drop i comps))%nat ∧
                   comps !! (i + 1) = Some "src") then
          let candidate := path_Clean ("/" +:+ Join (take (i + 1) comps) "/") in
          '(info, err) ← Stat candidate;
          match err, info with
          | None, Some true => mret (Return candidate)
          | _, _ => mret (Next tt)
          end
        else mret (Next tt));
  match r with inl _ => mret None | inr root => mret (Some root) end.

Definition e2e_root_dir : M (option string) :=
  match os_LookupEnv "e2e_root_dir" with
  | Some d => mret (Some d)
  | None =>
      '(cwd, err) ← kube_call "" os_Getwd;
      match err with
      | None => find_root (Split cwd "/"%char)
      | Some _ => mret None
      end
  end.

(** Read a file into the configuration; any failure ends the process. *)
Definition read_config (info : option bool) (file : string) : M unit :=
  isDir ← deref info;
  if isDir : bool then Panic (file +:+ " is not a file")
  else
    c ← reads e2eConfig;
    '(c, err) ← outside (cleanenv_ReadConfig file c);
    updates (set_config c) ;;
    match err with Some e => Panic (err_text e) | None => mret tt end.

(** The file named [given], or one of that name in the configurations of the checkout;
    [note] records the second. *)
Definition load_file (what dir given : string) (note : string → E2EConfig → E2EConfig)
    (root : option string) : M unit :=
  let file := path_Clean given in
  '(info, err) ← Stat file;
  match IsNotExist err, root with
  | true, Some r =>
      let file := path_Clean (r +:+ dir +:+ given) in
      '(info, err) ← Stat file;
      match err with
      | Some _ => Panic ("Unable to access " +:+ what +:+ " " +:+ file)
      | None =>
          c ← reads e2eConfig;
          updates (set_config (note file c)) ;;
          read_config info file
      end
  | _, _ => read_config info file
  end.

Definition load_config_file (root : option string) : M unit :=
  c ← reads e2eConfig;
  if decide (ConfigFile c = "") then mret tt
  else load_file "configuration file" (ConfigDir +:+ "/") (ConfigFile c)
         (λ file c, set_files file (PlatformConfigFile c) c) root.
Definition load_platform_file (root : option string) : M unit :=
  c ← reads e2eConfig;
  if decide (PlatformConfigFile c = "") then mret tt
  else load_file "platform configuration file" PlatformConfigDir (PlatformConfigFile c)
         (λ file c, set_files (ConfigFile c) file c) root.
Definition load_product_file : M unit :=
  let productConfigFile := default "" (os_LookupEnv "e2e_product_config_yaml") in
  if decide (productConfigFile = "") then mret tt
  else
    let file := path_Clean productConfigFile in
    '(info, err) ← Stat file;
    if IsNotExist err then Panic (file +:+ " file not not found")
    else read_config info file.

(** The resolved configuration is written beside the session; a failure is only printed. *)
Definition saveConfig : M unit :=
  c ← reads e2eConfig;
  _ ← outside (ioutil_WriteFile
        (path_Clean (SessionDir c +:+ "/resolved-configuration-" +:+ ConfigName c +:+ "-" +:+
                     Platform_Name (cfg_Platform c) +:+ ".yaml"))
        (yaml_Marshal c));
  mret tt.

Definition default_duty : list (Z * Z) :=
  [(500000, 1000); (750000, 1000); (1250000, 2000); (1500000, 3000); (1750000, 3000);
   (2000000, 4000)]%Z.

Definition load_config : M unit :=
  root ← e2e_root_dir;
  updates (λ s, set_config (set_duty default_duty (cleanenv_ReadEnv (e2eConfig s))) s) ;;
  load_config_file root ;;
  load_platform_file root ;;
  load_product_file ;;
  c ← reads e2eConfig;
  let artifactsDir := path_Clean (match root with
                                  | Some r => r +:+ "/artifacts"
                                  | None => "/tmp/mayastor-e2e" end) in
  updates (set_config (set_dirs (default (E2eRootDir c) root) (SessionDir c) c)) ;;
  (if decide (SessionDir c = "") then
     let dir := artifactsDir +:+ "/sessions/default" in
     updates (λ s, set_config (set_dirs (E2eRootDir (e2eConfig s)) dir (e2eConfig s)) s) ;;
     err ← kube_do (os_MkdirAll dir);
     match err with Some e => Panic (err_text e) | None => mret tt end
   else mret tt) ;;
  saveConfig.

Definition GetConfig : M E2EConfig :=
  once_Do config_once set_config_once load_config ;; reads e2eConfig.

(** The version is set once, and is then only confirmed. *)
Definition SetControlPlane (controlPlane : string) : M bool :=
  _ ← GetConfig;
  c ← reads e2eConfig;
  if decide (MayastorVersion c = "" ∨ MayastorVersion c = controlPlane) then
    updates (set_config (set_version controlPlane c)) ;;
    saveConfig ;;
    mret true
  else mret false.
End Config.

(** ** common/vars.go and constants.go

    The variables of the package are initialised by calls of [GetConfig], so that every
    function of a test finds the configuration loaded: it reads the variable. *)
Section Vars.
Context {W : Type}.
Notation M := (prog (Session W)).

Definition Config : M E2EConfig := reads e2eConfig.
Definition e2e_NSMayastor : M string := reads (ProductNamespace ∘ cfg_Product ∘ e2eConfig).
Definition GetFioImage : M string :=
  c ← Config; mret (Registry c +:+ "/" +:+ E2eFioImage c).
Definition GetFsxImage : M string :=
  c ← Config; mret (Registry c +:+ "/" +:+ E2eFsxImage c).
End Vars.
Definition NSE2EAgent : string := "e2e-agent".
Definition NSE2EPrefix : string := "e2e-maya".
Definition DefaultIOTimeout : Z := 60.
Definition DefaultVolumeSizeMb : Z := 64.
Definition DefaultFioSizeMb : Z := 50.
