(* ===== verification/ControlPlane.v ===== *)
(** * The control plane of Mayastor (common/controlplane, common/types.go)

    What a test learns about volumes, nodes and pools goes through one interface with one
    implementation, which runs the kubectl plugin and asks the REST server for replicas. *)

From stdpp Require Import base gmap strings list pretty.
From Stdlib Require Import Ascii.
From S2P Require Import Prelude GoLib Json Http Shell Kube MayastorClient GoTime K8sPods K8sLib.
From S2P Require Import Session.

(** ** common/types.go *)

Record CmVolumeSpec := mkCmVolumeSpec {
  cv_Protocol : string; cv_ReplicaCount : Z; cv_RequiredBytes : Z }.
Record CmNexusChild := mkCmChild { cc_State : string; cc_Uri : string }.
Record CmNexus := mkCmNexus {
  cn_Children : list CmNexusChild; cn_DeviceUri : string; cn_Node : string;
  cn_State : string; cn_Uuid : string }.
Record CmReplica := mkCmReplica {
  cr_Node : string; cr_Offline : bool; cr_Pool : string; cr_Uri : string }.
Record CmVolumeStatus := mkCmVolumeStatus {
  cv_Nexus : CmNexus; cv_Reason : string; cv_Replicas : list CmReplica; cv_Size : Z;
  cv_State : string }.
Record CmVolume := mkCmVolume {
  cv_Name : string; cv_Spec : CmVolumeSpec; cv_Status : CmVolumeStatus }.
Definition zero_cm_volume : CmVolume :=
  mkCmVolume "" (mkCmVolumeSpec "" 0 0) (mkCmVolumeStatus (mkCmNexus [] "" "" "" "") "" [] 0 "").

Record CmNodeState := mkCmNodeState {
  cs_GrpcEndpoint : string; cs_ID : string; cs_Status : string }.
Record CmNode := mkCmNode {
  cm_NodeName : string; cm_GrpcEndpoint : string; cm_ID : string; cm_NodeState : CmNodeState }.

Record CmPoolSpec := mkCmPoolSpec { cp_Disks : list string; cp_Node : string }.
Record CmPoolStatus := mkCmPoolStatus {
  cp_Avail : Z; cp_Capacity : Z; cp_StatusDisks : list string; cp_Reason : string;
  cp_StatusSpec : CmPoolSpec; cp_State : string; cp_Used : Z }.
Record CmPool := mkCmPool { cp_Name : string; cp_Spec : CmPoolSpec; cp_Status : CmPoolStatus }.

(** [ErrorAccumulator]: the errors in the order they came. *)
Definition Accumulate (err : error) (acc : list goerror) : list goerror :=
  match err with Some e => (acc ++ [e])%list | None => acc end.
(** The first error is wrapped, so that it keeps its kind. *)
Definition GetError (acc : list goerror) : error :=
  foldl (λ err e,
    match err with
    | Some a => Some (GoError (err_text a +:+ "; " +:+ err_text e) (err_is a))
    | None => Some e
    end) None acc.

(** ** What the plugin prints (controlplane/v1) *)

(** An unsigned number of 64 bits. *)
Definition uint_lit (s : string) : option Z :=
  let '(ds, r) := span_digits s in
  if bool_decide (ds ≠ "" ∧ r = "" ∧ digits_val ds < 2 ^ 64)%Z then Some (digits_val ds) else None.
Definition dec_uint (v : json) (cur : Z) : option Z :=
  match v with JNull => Some cur | JNum l => uint_lit l | _ => None end.
Definition dec_strings : json → list string → option (list string) :=
  dec_list (λ v, dec_string v "").
(** A map keyed by strings: [null] makes it nil, an object adds its members. *)
Definition dec_map {A} (dec : json → option A) (v : json) (cur : gmap string A)
    : option (gmap string A) :=
  match v with
  | JNull => Some ∅
  | JObj fs => foldl (λ acc kv, m ← acc; a ← dec kv.2; Some (<[kv.1 := a]> m)) (Some cur) fs
  | _ => None
  end.

Record replica_topology := mkReplicaTopology {
  rt_node : string; rt_pool : string; rt_state : string }.
Definition dec_topology (v : json) : option replica_topology :=
  dec_object (λ fs cur,
    n ← decode_field "node" dec_string fs (rt_node cur);
    p ← decode_field "pool" dec_string fs (rt_pool cur);
    s ← decode_field "state" dec_string fs (rt_state cur);
    Some (mkReplicaTopology n p s)) v (mkReplicaTopology "" "" "").

Record stateTarget := mkStateTarget {
  st_Children : list CmNexusChild; st_DeviceUri : string; st_Node : string; st_Rebuilds : Z;
  st_Protocol : string; st_Size : Z; st_State : string; st_Uuid : string }.
Definition dec_child (v : json) : option CmNexusChild :=
  dec_object (λ fs cur,
    s ← decode_field "state" dec_string fs (cc_State cur);
    u ← decode_field "uri" dec_string fs (cc_Uri cur);
    Some (mkCmChild s u)) v (mkCmChild "" "").
Definition dec_state_target : json → stateTarget → option stateTarget :=
  dec_object (λ fs cur,
    c ← decode_field "children" (dec_list dec_child) fs (st_Children cur);
    d ← decode_field "deviceUri" dec_string fs (st_DeviceUri cur);
    n ← decode_field "node" dec_string fs (st_Node cur);
    r ← decode_field "rebuilds" dec_int fs (st_Rebuilds cur);
    p ← decode_field "protocol" dec_string fs (st_Protocol cur);
    z ← decode_field "size" dec_int fs (st_Size cur);
    s ← decode_field "state" dec_string fs (st_State cur);
    u ← decode_field "uuid" dec_string fs (st_Uuid cur);
    Some (mkStateTarget c d n r p z s u)).

Record msvState := mkMsvState {
  ms_Target : stateTarget; ms_Size : Z; ms_Status : string; ms_Uuid : string;
  Replica_topology : gmap string replica_topology }.
Definition dec_msv_state : json → msvState → option msvState :=
  dec_object (λ fs cur,
    t ← decode_field "target" dec_state_target fs (ms_Target cur);
    z ← decode_field "size" dec_int fs (ms_Size cur);
    s ← decode_field "status" dec_string fs (ms_Status cur);
    u ← decode_field "uuid" dec_string fs (ms_Uuid cur);
    r ← decode_field "replica_topology" (dec_map dec_topology) fs (Replica_topology cur);
    Some (mkMsvState t z s u r)).

Record specTarget := mkSpecTarget { sp_Protocol : string; sp_Node : string }.
Definition dec_spec_target : json → specTarget → option specTarget :=
  dec_object (λ fs cur,
    p ← decode_field "protocol" dec_string fs (sp_Protocol cur);
    n ← decode_field "node" dec_string fs (sp_Node cur);
    Some (mkSpecTarget p n)).

(** The nodes a volume may and should be on, and the labels of its pools. *)
Record topology := mkTopology {
  AllowedNodes : list string; PreferredNodes_ : list string;
  Inclusion : gmap string json; Exclusion : gmap string json }.
Definition dec_explicit : json → topology → option topology :=
  dec_object (λ fs cur,
    a ← decode_field "allowed_nodes" dec_strings fs (AllowedNodes cur);
    p ← decode_field "preferred_nodes" dec_strings fs (PreferredNodes_ cur);
    Some (mkTopology a p (Inclusion cur) (Exclusion cur))).
Definition dec_labelled : json → topology → option topology :=
  dec_object (λ fs cur,
    i ← decode_field "inclusion" (dec_map Some) fs (Inclusion cur);
    e ← decode_field "exclusion" (dec_map Some) fs (Exclusion cur);
    Some (mkTopology (AllowedNodes cur) (PreferredNodes_ cur) i e)).
Definition dec_topologies : json → topology → option topology :=
  dec_object (λ fs cur,
    t ← decode_field "node_topology"
          (dec_object (λ fs cur, decode_field "explicit" dec_explicit fs cur)) fs cur;
    decode_field "pool_topology"
      (dec_object (λ fs cur, decode_field "labelled" dec_labelled fs cur)) fs t).

Record msvSpec := mkMsvSpecCp {
  vs_Num_replicas : Z; vs_Size : Z; vs_Status : string; vs_Target : specTarget;
  vs_Uuid : string; vs_Topology : topology; Self_heal : bool }.
Definition dec_msv_spec : json → msvSpec → option msvSpec :=
  dec_object (λ fs cur,
    n ← decode_field "num_replicas" dec_int fs (vs_Num_replicas cur);
    z ← decode_field "size" dec_int fs (vs_Size cur);
    s ← decode_field "status" dec_string fs (vs_Status cur);
    t ← decode_field "target" dec_spec_target fs (vs_Target cur);
    u ← decode_field "uuid" dec_string fs (vs_Uuid cur);
    top ← decode_field "topology" dec_topologies fs (vs_Topology cur);
    h ← decode_field "policy"
          (dec_object (λ fs cur, decode_field "self_heal" dec_bool fs cur)) fs (Self_heal cur);
    Some (mkMsvSpecCp n z s t u top h)).

Record MayastorCpVolume := mkCpVolume { vol_Spec : msvSpec; vol_State : msvState }.
Definition zero_cp_volume : MayastorCpVolume :=
  mkCpVolume (mkMsvSpecCp 0 0 "" (mkSpecTarget "" "") "" (mkTopology [] [] ∅ ∅) false)
    (mkMsvState (mkStateTarget [] "" "" 0 "" 0 "" "") 0 "" "" ∅).
Definition MayastorCpVolume_of_json (v : json) : option MayastorCpVolume :=
  dec_object (λ fs cur,
    sp ← decode_field "spec" dec_msv_spec fs (vol_Spec cur);
    st ← decode_field "state" dec_msv_state fs (vol_State cur);
    Some (mkCpVolume sp st)) v zero_cp_volume.

Record msnSpec := mkMsnSpec { ns_GrpcEndpoint : string; ns_ID : string }.
Record MayastorCpNode := mkCpNode { node_Spec : msnSpec; node_State : CmNodeState }.
Definition MayastorCpNode_of_json (v : json) : option MayastorCpNode :=
  dec_object (λ fs cur,
    sp ← decode_field "spec" (dec_object (λ fs cur,
           g ← decode_field "grpcEndpoint" dec_string fs (ns_GrpcEndpoint cur);
           i ← decode_field "id" dec_string fs (ns_ID cur);
           Some (mkMsnSpec g i))) fs (node_Spec cur);
    st ← decode_field "state" (dec_object (λ fs cur,
           g ← decode_field "grpcEndpoint" dec_string fs (cs_GrpcEndpoint cur);
           i ← decode_field "id" dec_string fs (cs_ID cur);
           s ← decode_field "status" dec_string fs (cs_Status cur);
           Some (mkCmNodeState g i s))) fs (node_State cur);
    Some (mkCpNode sp st)) v (mkCpNode (mkMsnSpec "" "") (mkCmNodeState "" "" "")).

Record mspSpec := mkMspSpecCp {
  ps_Disks : list string; ps_Id : string; ps_Labels : gmap string string; ps_Node : string;
  ps_Status : string }.
Record mspState := mkMspState {
  pt_Capacity : Z; pt_Disks : list string; pt_ID : string; pt_Node : string;
  pt_Status : string; pt_Used : Z }.
Record MayastorCpPool := mkCpPool { pool_Id : string; pool_Spec : mspSpec; pool_State : mspState }.
Definition MayastorCpPool_of_json (v : json) : option MayastorCpPool :=
  dec_object (λ fs cur,
    i ← decode_field "id" dec_string fs (pool_Id cur);
    sp ← decode_field "spec" (dec_object (λ fs cur,
           d ← decode_field "disks" dec_strings fs (ps_Disks cur);
           i ← decode_field "id" dec_string fs (ps_Id cur);
           l ← decode_field "labels" (dec_map (λ v, dec_string v "")) fs (ps_Labels cur);
           n ← decode_field "node" dec_string fs (ps_Node cur);
           s ← decode_field "status" dec_string fs (ps_Status cur);
           Some (mkMspSpecCp d i l n s))) fs (pool_Spec cur);
    st ← decode_field "state" (dec_object (λ fs cur,
           c ← decode_field "capacity" dec_uint fs (pt_Capacity cur);
           d ← decode_field "disks" dec_strings fs (pt_Disks cur);
           i ← decode_field "id" dec_string fs (pt_ID cur);
           n ← decode_field "node" dec_string fs (pt_Node cur);
           s ← decode_field "status" dec_string fs (pt_Status cur);
           u ← decode_field "used" dec_uint fs (pt_Used cur);
           Some (mkMspState c d i n s u))) fs (pool_State cur);
    Some (mkCpPool i sp st)) v
    (mkCpPool "" (mkMspSpecCp [] "" ∅ "" "") (mkMspState 0 [] "" "" "" 0)).

Record mayastorCpReplica := mkCpReplica {
  re_Node : string; re_Pool : string; re_Share : string; re_Size : Z; re_State : string;
  re_Thin : bool; re_Uri : string; re_Uuid : string }.
Definition zero_cp_replica : mayastorCpReplica := mkCpReplica "" "" "" 0 "" false "" "".
Definition mayastorCpReplica_of_json (v : json) : option mayastorCpReplica :=
  dec_object (λ fs cur,
    n ← decode_field "node" dec_string fs (re_Node cur);
    p ← decode_field "pool" dec_string fs (re_Pool cur);
    h ← decode_field "share" dec_string fs (re_Share cur);
    z ← decode_field "size" dec_int fs (re_Size cur);
    s ← decode_field "state" dec_string fs (re_State cur);
    t ← decode_field "thin" dec_bool fs (re_Thin cur);
    u ← decode_field "uri" dec_string fs (re_Uri cur);
    i ← decode_field "uuid" dec_string fs (re_Uuid cur);
    Some (mkCpReplica n p h z s t u i)) v zero_cp_replica.

(** ** The two regular expressions *)

(** [.*]: as far as possible on the line, then back. *)
Fixpoint dot_star {R} (k : string → option R) (s : string) : option R :=
  match s with
  | EmptyString => k s
  | String c s' =>
      if decide (c = "010"%char) then k s
      else match dot_star k s' with Some r => Some r | None => k s end
  end.
Definition is_re_space (c : ascii) : bool :=
  bool_decide (c ∈ [" "; "009"; "010"; "012"; "013"]%char).
Definition is_word (c : ascii) : bool :=
  let n := N_of_ascii c in
  is_digit c || bool_decide (c = "_"%char) ||
  ((65 <=? n) && (n <=? 90))%N || ((97 <=? n) && (n <=? 122))%N.
Fixpoint skip_re_spaces (s : string) : string :=
  match s with
  | String c s' => if is_re_space c then skip_re_spaces s' else s
  | EmptyString => s
  end.
Fixpoint take_word (s : string) : string :=
  match s with
  | String c s' => if is_word c then String c (take_word s') else EmptyString
  | EmptyString => EmptyString
  end.

(** [kind:\s*(\w+)] at the start of the text. *)
Definition kind_word (s : string) : option string :=
  r ← literal "kind:" s;
  let w := take_word (skip_re_spaces r) in
  if decide (w = "") then None else Some w.
Definition rest_json_error (s : string) : option string :=
  r ← literal "Error error in response" s;
  dot_star (λ t, r ← literal "RestJsonError" t; dot_star kind_word r) r.
(** The leftmost match. *)
Fixpoint find_match {R} (m : string → option R) (s : string) : option R :=
  match m s with
  | Some r => Some r
  | None => match s with EmptyString => None | String _ s' => find_match m s' end
  end.

Definition HasNotFoundRestJsonError (str : string) : bool :=
  bool_decide (find_match rest_json_error str = Some "NotFound").

Example not_found_example :
  HasNotFoundRestJsonError
    "x Error error in response: status 404, RestJsonError { details: a, kind:  NotFound }" = true
  ∧ HasNotFoundRestJsonError
    "Error error in response RestJsonError kind: NotFound, kind: Timeout" = false
  ∧ HasNotFoundRestJsonError "RestJsonError kind: NotFound" = false.
Proof. vm_compute. done. Qed.

(** ** Running the plugin *)

Definition ErrOutput : string := "Error error".

Section ControlPlaneV1.
Context {W : Type} `{Shell W} `{Http W} `{MapRange W}.
Notation M := (prog (Session W)).

Definition pluginpath : M string :=
  c ← Config;
  mret (KubectlPluginDir c +:+ "/" +:+ KubectlPluginName (cfg_Product c)).

Definition run_plugin (args : list string) : M (string * error) :=
  path ← pluginpath;
  exec_cmd (path :: args).

(** A plugin that failed without saying so in its exit code. *)
Definition output_error (output : string) (err : error) : error :=
  match err with
  | Some e => Some e
  | None => if Contains output ErrOutput then errorf output else None
  end.

(** An object; the error for output that cannot be decoded is the output. *)
Definition get_object {A} (dec : json → option A) (output : string) (err : error)
    : option A * error :=
  match err with
  | Some e => (None, Some e)
  | None =>
      match json_parse output ≫= dec with
      | Some a => (Some a, None)
      | None => (None, errorf output)
      end
  end.
Definition list_objects {A} (dec : json → option A) (output : string) (err : error)
    : list A * error :=
  match err with
  | Some e => ([], Some e)
  | None =>
      match json_parse output ≫= (λ v, dec_list dec v []) with
      | Some l => (l, None)
      | None => ([], errorf output)
      end
  end.

(** *** Volumes (msv_cp.go) *)

Definition GetMayastorCpVolume (uuid : string) : M (option MayastorCpVolume * error) :=
  '(output, err) ← run_plugin ["-ojson"; "get"; "volume"; uuid];
  mret (get_object MayastorCpVolume_of_json output (output_error output err)).

Definition ListMayastorCpVolumes : M (list MayastorCpVolume * error) :=
  '(output, err) ← run_plugin ["-ojson"; "get"; "volumes"];
  mret (list_objects MayastorCpVolume_of_json output (output_error output err)).

Definition scaleMayastorVolume (uuid : string) (replicaCount : Z) : M error :=
  '(output, err) ← run_plugin ["scale"; "volume"; uuid; Itoa replicaCount];
  mret (output_error output err).

Definition GetMayastorVolumeState (volName : string) : M (string * error) :=
  '(msv, err) ← GetMayastorCpVolume volName;
  match err with
  | None => v ← deref msv; mret (ms_Status (vol_State v), None)
  | Some e => mret ("", Some e)
  end.
Definition GetMayastorVolumeChildren (volName : string) : M (list CmNexusChild * error) :=
  '(msv, err) ← GetMayastorCpVolume volName;
  match err with
  | Some e => mret ([], Some e)
  | None => v ← deref msv; mret (st_Children (ms_Target (vol_State v)), None)
  end.
Definition GetMayastorVolumeChildState (uuid : string) : M (string * error) :=
  '(msv, err) ← GetMayastorCpVolume uuid;
  match err with
  | Some e => mret ("", Some e)
  | None => v ← deref msv; mret (st_State (ms_Target (vol_State v)), None)
  end.
Definition IsMayastorVolumePublished (uuid : string) : M bool :=
  '(msv, err) ← GetMayastorCpVolume uuid;
  match err with
  | None => v ← deref msv; mret (bool_decide (sp_Node (vs_Target (vol_Spec v)) ≠ ""))
  | Some _ => mret false
  end.
Definition IsMayastorVolumeDeleted (uuid : string) : M bool :=
  '(msv, err) ← GetMayastorCpVolume uuid;
  match err with
  | Some e => mret (HasNotFoundRestJsonError (err_text e))
  | None => v ← deref msv; mret (bool_decide (vs_Uuid (vol_Spec v) = ""))
  end.
Definition CheckForMayastorVolumes : M (bool * error) :=
  '(msvs, err) ← ListMayastorCpVolumes;
  mret (bool_decide (err = None ∧ length msvs ≠ 0), err).
Definition CheckAllMayastorVolumesAreHealthy : M error :=
  '(msvs, err) ← ListMayastorCpVolumes;
  let allHealthy := forallb (λ v, bool_decide (ms_Status (vol_State v) = "Online")) msvs in
  if bool_decide (err = None) && negb allHealthy
  then mret (errorf "CheckAllMayastorVolumesAreHealth: all MSVs were not healthy")
  else mret err.

(** *** Replicas (replica_cp.go) *)

(** The first node whose answer can be read; the errors of the loop are its own, so that
    none comes out of it. *)
Definition getMayastorCpReplica (replicaUuid : string) (address : list string)
    : M (mayastorCpReplica * error) :=
  if decide (length address = 0) then mret (zero_cp_replica, errorf "mayastor nodes not found")
  else
    c ← Config;
    r ← for_range address "" (λ addr _,
          let url := "http://" +:+ addr +:+ ":" +:+ KubectlPluginPort (cfg_Product c) +:+
                     "/v0/replicas/" +:+ replicaUuid in
          _ ← deref (match http_NewRequest "GET" url with None => Some tt | Some _ => None end);
          '(resp, _) ← client_Do (mkRequest "GET" url [("Accept", "application/json")] None);
          resp ← deref resp;
          '(body, err) ← ReadAll resp;
          match err with
          | Some _ => mret (Next body)
          | None => mret (Break body)
          end);
    jsonResponse ← no_return r;
    match json_parse jsonResponse ≫= mayastorCpReplica_of_json with
    | Some re => mret (re, None)
    | None => mret (zero_cp_replica, errorf "json: cannot unmarshal")
    end.

Definition replica_of (re : mayastorCpReplica) : CmReplica :=
  mkCmReplica (re_Node re) (bool_decide (ToLower (re_State re) ≠ "online")) (re_Pool re)
    (re_Uri re).

(** A replica that cannot be had makes the whole volume empty. *)
Definition cpVolumeToMsv (cpMsv : MayastorCpVolume) (address : list string) : M CmVolume :=
  let st := vol_State cpMsv in
  uuids ← range_map (Replica_topology st);
  r ← for_range uuids [] (λ '(uuid, _) replicas,
        '(replica, err) ← getMayastorCpReplica uuid address;
        match err with
        | Some _ => mret (Return tt)
        | None => mret (Next (replicas ++ [replica_of replica])%list)
        end);
  match r with
  | inr _ => mret zero_cm_volume
  | inl replicas =>
      let t := ms_Target st in
      mret (mkCmVolume (vs_Uuid (vol_Spec cpMsv))
        (mkCmVolumeSpec (sp_Protocol (vs_Target (vol_Spec cpMsv)))
           (vs_Num_replicas (vol_Spec cpMsv)) (vs_Size (vol_Spec cpMsv)))
        (mkCmVolumeStatus
           (mkCmNexus (st_Children t) (st_DeviceUri t) (st_Node t) (st_State t) (st_Uuid t))
           "" replicas (ms_Size st) (ms_Status st)))
  end.

(** Nothing and no error while the volume is being created.  The texts do not show the
    state of the volume. *)
Definition v1_GetMSV (uuid : string) : M (option CmVolume * error) :=
  '(cpMsv, err) ← GetMayastorCpVolume uuid;
  match err with
  | Some e => mret (None, errorf ("GetMSV: " +:+ err_text e))
  | None =>
      v ← deref cpMsv;
      if decide (vs_Uuid (vol_Spec v) = "") then mret (None, None)
      else if decide (ms_Status (vol_State v) = "pending") then mret (None, None)
      else if decide (ms_Status (vol_State v) = "") then
        mret (None, errorf "GetMSV: state not defined")
      else if decide (vs_Num_replicas (vol_Spec v) < 1)%Z then
        mret (None, errorf ("GetMSV: msv.Spec.Num_replicas=" +:+
                            quoted (Itoa (vs_Num_replicas (vol_Spec v)))))
      else
        address ← reads nodeIpAddresses;
        msv ← cpVolumeToMsv v address;
        mret (Some msv, None)
  end.

Definition v1_GetMsvReplicas (volName : string) : M (list CmReplica * error) :=
  '(vol, err) ← v1_GetMSV volName;
  match err with
  | Some e => mret ([], Some e)
  | None => v ← deref vol; mret (cv_Replicas (cv_Status v), None)
  end.

(** The replicas are read again, after the array for their nodes was made. *)
Definition v1_GetMsvNodes (uuid : string) : M (string * list string) :=
  '(msv, err) ← GetMayastorCpVolume uuid;
  match err with
  | Some _ => mret ("", [])
  | None =>
      v ← deref msv;
      let node := st_Node (ms_Target (vol_State v)) in
      let n := vs_Num_replicas (vol_Spec v) in
      if decide (n < 0)%Z then Panic "makeslice: len out of range"
      else
        '(msvReplicas, err) ← v1_GetMsvReplicas uuid;
        match err with
        | Some _ => mret (node, [])
        | None =>
            r ← for_range msvReplicas (0%nat, replicate (Z.to_nat n) "") (λ r '(ix, replicas),
                  if decide (ix < length replicas)%nat
                  then mret (Next (Datatypes.S ix, <[ix := cr_Node r]> replicas))
                  else Panic "index out of range");
            '(_, replicas) ← no_return r;
            mret (node, replicas)
        end
  end.

Definition v1_ListMsvs : M (list CmVolume * error) :=
  '(items, err) ← ListMayastorCpVolumes;
  match err with
  | Some e => mret ([], Some e)
  | None =>
      r ← for_range items [] (λ item msvs,
            address ← reads nodeIpAddresses;
            msv ← cpVolumeToMsv item address;
            mret (Next (msvs ++ [msv])%list));
      msvs ← no_return r;
      mret (msvs, None)
  end.

Definition v1_DeleteMsv (volName : string) : M error :=
  mret (errorf ("delete of mayastor volume not supported " +:+ volName)).

(** *** Nodes (msn_cp.go) *)

Definition GetMayastorCpNode (nodeName : string) : M (option MayastorCpNode * error) :=
  '(output, err) ← run_plugin ["-ojson"; "get"; "node"; nodeName];
  mret (get_object MayastorCpNode_of_json output (output_error output err)).
Definition ListMayastorCpNodes : M (list MayastorCpNode * error) :=
  '(output, err) ← run_plugin ["-ojson"; "get"; "nodes"];
  mret (list_objects MayastorCpNode_of_json output (output_error output err)).

Definition cpNodeToMsn (n : MayastorCpNode) : CmNode :=
  mkCmNode (ns_ID (node_Spec n)) (ns_GrpcEndpoint (node_Spec n)) (ns_ID (node_Spec n))
    (node_State n).

Definition v1_GetMSN (nodeName : string) : M (option CmNode * error) :=
  '(cpMsn, err) ← GetMayastorCpNode nodeName;
  match err, cpMsn with
  | Some e, _ => mret (None, errorf ("GetMSN: " +:+ err_text e))
  | None, None => mret (None, None)
  | None, Some n => mret (Some (cpNodeToMsn n), None)
  end.
Definition v1_ListMsns : M (list CmNode * error) :=
  '(items, err) ← ListMayastorCpNodes;
  match err with
  | Some e => mret ([], Some e)
  | None => mret (map cpNodeToMsn items, None)
  end.
Definition v1_GetMsNodeStatus (nodeName : string) : M (string * error) :=
  '(cpMsn, err) ← GetMayastorCpNode nodeName;
  match err with
  | Some e => mret ("", errorf ("GetMsNodeStatus: " +:+ err_text e))
  | None => n ← deref cpMsn; mret (cs_Status (node_State n), None)
  end.

(** *** Pools (msp_cp.go): the output is not searched for errors. *)

Definition GetMayastorCpPool (name : string) : M (option MayastorCpPool * error) :=
  '(output, err) ← run_plugin ["-ojson"; "get"; "pool"; name];
  mret (get_object MayastorCpPool_of_json output err).
Definition ListMayastorCpPools : M (list MayastorCpPool * error) :=
  '(output, err) ← run_plugin ["-ojson"; "get"; "pools"];
  mret (list_objects MayastorCpPool_of_json output err).

Definition cpMspToMsp (p : MayastorCpPool) : CmPool :=
  let sp := mkCmPoolSpec (ps_Disks (pool_Spec p)) (ps_Node (pool_Spec p)) in
  let st := pool_State p in
  mkCmPool (pool_Id p) sp
    (mkCmPoolStatus (uwrap64 (pt_Capacity st - pt_Used st)) (pt_Capacity st) (pt_Disks st) "" sp
       (pt_Status st) (pt_Used st)).

Definition v1_GetMsPool (poolName : string) : M (option CmPool * error) :=
  '(cpMsp, err) ← GetMayastorCpPool poolName;
  match err, cpMsp with
  | Some e, _ => mret (None, errorf ("GetMsPool: " +:+ err_text e))
  | None, None => mret (None, None)
  | None, Some p => mret (Some (cpMspToMsp p), None)
  end.
Definition v1_ListMsPools : M (list CmPool * error) :=
  '(items, err) ← ListMayastorCpPools;
  match err with
  | Some e => mret ([], Some e)
  | None => mret (map cpMspToMsp items, None)
  end.
End ControlPlaneV1.

(** *** Versions and states (controlplane_v1.go) *)

(** A search for one of two fixed texts. *)
Definition v1_IsTimeoutError (err : error) : bool :=
  let str := fmt_error err in
  Contains str "Request Timeout" || Contains str "request timed out".

Definition v1_MspGrpcStateToCrdState (mspState : Z) : string :=
  if decide (mspState = 0)%Z then "Pending"
  else if decide (mspState = 1)%Z then "Online"
  else if decide (mspState = 2)%Z then "Degraded"
  else if decide (mspState = 3)%Z then "Faulted"
  else "Offline".

(** ** The interface (controlplane.go) *)

Record ControlPlaneInterface (M : Type → Type) := mkControlPlane {
  cpi_MajorVersion : Z;
  cpi_Version : string;
  cpi_IsTimeoutError : error → bool;
  cpi_VolStateHealthy : string;
  cpi_VolStateDegraded : string;
  cpi_ChildStateUnknown : string;
  cpi_ChildStateOnline : string;
  cpi_ChildStateDegraded : string;
  cpi_ChildStateFaulted : string;
  cpi_NexusStateUnknown : string;
  cpi_NexusStateOnline : string;
  cpi_NexusStateDegraded : string;
  cpi_NexusStateFaulted : string;
  cpi_MspStateOnline : string;
  cpi_MspGrpcStateToCrdState : Z → string;
  cpi_GetMSV : string → M (option CmVolume * error)%type;
  cpi_GetMsvNodes : string → M (string * list string)%type;
  cpi_DeleteMsv : string → M error;
  cpi_ListMsvs : M (list CmVolume * error)%type;
  cpi_SetMsvReplicaCount : string → Z → M error;
  cpi_GetMsvState : string → M (string * error)%type;
  cpi_GetMsvReplicas : string → M (list CmReplica * error)%type;
  cpi_GetMsvNexusChildren : string → M (list CmNexusChild * error)%type;
  cpi_GetMsvNexusState : string → M (string * error)%type;
  cpi_IsMsvPublished : string → M bool;
  cpi_IsMsvDeleted : string → M bool;
  cpi_CheckForMsvs : M (bool * error)%type;
  cpi_CheckAllMsvsAreHealthy : M error;
  cpi_GetMSN : string → M (option CmNode * error)%type;
  cpi_ListMsns : M (list CmNode * error)%type;
  cpi_GetMsNodeStatus : string → M (string * error)%type;
  cpi_NodeStateOffline : string;
  cpi_NodeStateOnline : string;
  cpi_NodeStateUnknown : string;
  cpi_NodeStateEmpty : string;
  cpi_GetMsPool : string → M (option CmPool * error)%type;
  cpi_ListMsPools : M (list CmPool * error)%type;
}.

(** An optional sign and digits, within 64 bits. *)
Definition Atoi (s : string) : option Z :=
  match s with String "+"%char (String "-"%char _) => None
             | String "+"%char r => int_lit r
             | _ => int_lit s end.

Definition SetIpNodeAddresses {W} (address : list string) : prog (Session W) unit :=
  updates (set_addresses address).

Section Dispatch.
Context {W : Type} `{Shell W} `{Http W} `{MapRange W}.
Notation M := (prog (Session W)).

Definition CPv1_methods : ControlPlaneInterface M := {|
  cpi_MajorVersion := 1;
  cpi_Version := "1.0.0";
  cpi_IsTimeoutError := v1_IsTimeoutError;
  cpi_VolStateHealthy := "Online";
  cpi_VolStateDegraded := "Degraded";
  cpi_ChildStateUnknown := "Unknown";
  cpi_ChildStateOnline := "Online";
  cpi_ChildStateDegraded := "Degraded";
  cpi_ChildStateFaulted := "Faulted";
  cpi_NexusStateUnknown := "Unknown";
  cpi_NexusStateOnline := "Online";
  cpi_NexusStateDegraded := "Degraded";
  cpi_NexusStateFaulted := "Faulted";
  cpi_MspStateOnline := "Online";
  cpi_MspGrpcStateToCrdState := v1_MspGrpcStateToCrdState;
  cpi_GetMSV := v1_GetMSV;
  cpi_GetMsvNodes := v1_GetMsvNodes;
  cpi_DeleteMsv := v1_DeleteMsv;
  cpi_ListMsvs := v1_ListMsvs;
  cpi_SetMsvReplicaCount := scaleMayastorVolume;
  cpi_GetMsvState := GetMayastorVolumeState;
  cpi_GetMsvReplicas := v1_GetMsvReplicas;
  cpi_GetMsvNexusChildren := GetMayastorVolumeChildren;
  cpi_GetMsvNexusState := GetMayastorVolumeChildState;
  cpi_IsMsvPublished := IsMayastorVolumePublished;
  cpi_IsMsvDeleted := IsMayastorVolumeDeleted;
  cpi_CheckForMsvs := CheckForMayastorVolumes;
  cpi_CheckAllMsvsAreHealthy := CheckAllMayastorVolumesAreHealthy;
  cpi_GetMSN := v1_GetMSN;
  cpi_ListMsns := v1_ListMsns;
  cpi_GetMsNodeStatus := v1_GetMsNodeStatus;
  cpi_NodeStateOffline := "Offline";
  cpi_NodeStateOnline := "Online";
  cpi_NodeStateUnknown := "Unknown";
  cpi_NodeStateEmpty := "";
  cpi_GetMsPool := v1_GetMsPool;
  cpi_ListMsPools := v1_ListMsPools;
|}.

Definition methods (c : CP) : ControlPlaneInterface M :=
  match c with CPv1 => CPv1_methods end.

(** The implementation is chosen at the first use, for good. *)
Definition choose_control_plane : M unit :=
  c ← Config;
  match map Atoi (Split (MayastorVersion c) "."%char) with
  | Some major :: _ =>
      if decide (major = 1)%Z then updates (set_ifc (Some CPv1))
      else Panic ("unsupported control plane version " +:+ MayastorVersion c)
  | _ => Panic "strconv.Atoi"
  end.
Definition getControlPlane : M (ControlPlaneInterface M) :=
  once_Do cp_once set_cp_once choose_control_plane ;;
  i ← reads ifc;
  c ← deref i;
  mret (methods c).

(** A call through the interface: [GetMSV] and the others of the package. *)
Definition via {A} (m : ControlPlaneInterface M → M A) : M A :=
  c ← getControlPlane; m c.
Definition via_get {A} (m : ControlPlaneInterface M → A) : M A :=
  c ← getControlPlane; mret (m c).

Definition cp_MajorVersion : M Z := via_get (cpi_MajorVersion _).
Definition cp_GetMSV (uuid : string) := via (λ c, cpi_GetMSV _ c uuid).
Definition cp_GetMsvNodes (uuid : string) := via (λ c, cpi_GetMsvNodes _ c uuid).
Definition cp_DeleteMsv (volName : string) := via (λ c, cpi_DeleteMsv _ c volName).
Definition cp_ListMsvs := via (cpi_ListMsvs _).
Definition cp_SetMsvReplicaCount (uuid : string) (n : Z) :=
  via (λ c, cpi_SetMsvReplicaCount _ c uuid n).
Definition cp_GetMsvState (uuid : string) := via (λ c, cpi_GetMsvState _ c uuid).
Definition cp_GetMsvReplicas (uuid : string) := via (λ c, cpi_GetMsvReplicas _ c uuid).
Definition cp_GetMsvNexusChildren (uuid : string) := via (λ c, cpi_GetMsvNexusChildren _ c uuid).
Definition cp_GetMsvNexusState (uuid : string) := via (λ c, cpi_GetMsvNexusState _ c uuid).
Definition cp_IsMsvPublished (uuid : string) := via (λ c, cpi_IsMsvPublished _ c uuid).
Definition cp_IsMsvDeleted (uuid : string) := via (λ c, cpi_IsMsvDeleted _ c uuid).
Definition cp_CheckForMsvs := via (cpi_CheckForMsvs _).
Definition cp_CheckAllMsvsAreHealthy := via (cpi_CheckAllMsvsAreHealthy _).
Definition cp_GetMSN (node : string) := via (λ c, cpi_GetMSN _ c node).
Definition cp_ListMsns := via (cpi_ListMsns _).
Definition cp_GetMsNodeStatus (node : string) := via (λ c, cpi_GetMsNodeStatus _ c node).
Definition cp_GetMsPool (pool : string) := via (λ c, cpi_GetMsPool _ c pool).
Definition cp_ListMsPools := via (cpi_ListMsPools _).
End Dispatch.
