(* ===== verification/CpTheorems.v ===== *)
(** * Theorems about the control plane client *)

From stdpp Require Import base gmap strings list pretty.
From Stdlib Require Import Ascii.
From S2P Require Import Prelude GoLib Json Models Http Shell Kube MayastorClient GoTime K8sPods K8sLib.
From S2P Require Import ScriptedCluster ConductorTheorems Session ControlPlane.

(** ** Decoding keeps the width of the integers *)

Lemma decode_field_inv {A} (P : A → Prop) name (dec : json → A → option A) fs zero x :
  (∀ v cur y, P cur → dec v cur = Some y → P y) → P zero →
  decode_field name dec fs zero = Some x → P x.
Proof.
  intros Hdec. unfold decode_field. revert zero.
  induction fs as [|[k v] fs IH]; intros zero Hz; simpl; [by intros [= <-]|].
  destruct (key_matches name k); [|by apply IH].
  destruct (dec v zero) as [y|] eqn:E; [by eapply IH, Hdec|].
  intros Hx. exfalso. clear -Hx. induction fs as [|kv fs IH]; simpl in Hx; [done|auto].
Qed.

Lemma dec_object_inv {A} (P : A → Prop) (dec : list (string * json) → A → option A) v cur x :
  (∀ fs cur y, P cur → dec fs cur = Some y → P y) → P cur →
  dec_object dec v cur = Some x → P x.
Proof. intros Hdec Hc. destruct v; simpl; intros Hx; simplify_eq; eauto. Qed.

Definition uint64 (z : Z) : Prop := (0 ≤ z < 2 ^ 64)%Z.

Lemma span_digits_digits s : Forall (λ c, is_digit c = true) (String.list_ascii_of_string (span_digits s).1).
Proof.
  induction s as [|c s IH]; simpl; [constructor|].
  destruct (is_digit c) eqn:E; [|constructor].
  destruct (span_digits s). by constructor.
Qed.

Lemma digits_val_nonneg s :
  Forall (λ c, is_digit c = true) (String.list_ascii_of_string s) → (0 ≤ digits_val s)%Z.
Proof.
  unfold digits_val. enough (∀ acc, (0 ≤ acc)%Z → Forall (λ c, is_digit c = true)
    (String.list_ascii_of_string s) → (0 ≤ (fix go s acc := match s with EmptyString => acc
      | String c s' => go s' (acc * 10 + digit_val c)%Z end) s acc)%Z) by (apply H; lia).
  induction s as [|c s IH]; intros acc Hacc; simpl; [done|].
  inversion 1 as [|? ? Hc Hs]; simplify_eq. apply IH; [|done].
  unfold is_digit, digit_val in *. apply andb_true_iff in Hc as [Hc _].
  apply N.leb_le in Hc. lia.
Qed.

Lemma uint_lit_range s z : uint_lit s = Some z → uint64 z.
Proof.
  unfold uint_lit, uint64. pose proof (span_digits_digits s) as Hd.
  destruct (span_digits s) as [ds r]. simpl in Hd. case_bool_decide; intros; simplify_eq.
  split; [by apply digits_val_nonneg|tauto].
Qed.

Lemma dec_uint_range v cur z : uint64 cur → dec_uint v cur = Some z → uint64 z.
Proof. destruct v; simpl; intros; simplify_eq; eauto using uint_lit_range. Qed.

(** Every way a pool is printed leaves both sizes within 64 bits. *)
Lemma pool_sizes v p :
  MayastorCpPool_of_json v = Some p →
  uint64 (pt_Capacity (pool_State p)) ∧ uint64 (pt_Used (pool_State p)).
Proof.
  unfold MayastorCpPool_of_json.
  apply (dec_object_inv (λ p, uint64 (pt_Capacity (pool_State p)) ∧
                              uint64 (pt_Used (pool_State p)))); [|by vm_compute].
  intros fs cur q Hcur E.
  repeat (apply bind_Some in E as (? & ? & E)). injection E as <-. cbn [pool_State].
  match goal with H : decode_field "state" _ _ _ = Some ?x |- _ =>
    revert H; apply (decode_field_inv (λ s, uint64 (pt_Capacity s) ∧ uint64 (pt_Used s))); [|done] end.
  intros w st st' Hst.
  apply (dec_object_inv (λ s, uint64 (pt_Capacity s) ∧ uint64 (pt_Used s))); [|done].
  clear. intros fs st st' [Hc Hu] E.
  repeat (apply bind_Some in E as (? & ? & E)). injection E as <-. cbn [pt_Capacity pt_Used].
  split.
  - match goal with H : decode_field "capacity" _ _ _ = _ |- _ => revert H end.
    apply decode_field_inv; [apply dec_uint_range|done].
  - match goal with H : decode_field "used" _ _ _ = _ |- _ => revert H end.
    apply decode_field_inv; [apply dec_uint_range|done].
Qed.

(** (C13) The space of a pool: for every pool the plugin can print, capacity, use and the
    space that is reported as available are 64-bit numbers, and use and available space make
    up the capacity modulo 2^64.  The available space is what is left of the capacity, unless
    the pool reports more use than capacity: then the subtraction wraps and more space is
    reported available than the pool has. *)
Theorem pool_space_bounds v p :
  MayastorCpPool_of_json v = Some p →
  let st := cp_Status (cpMspToMsp p) in
  uint64 (cp_Capacity st) ∧ uint64 (cp_Used st) ∧ uint64 (cp_Avail st) ∧
  ((cp_Avail st + cp_Used st) mod 2 ^ 64)%Z = cp_Capacity st ∧
  ((cp_Used st ≤ cp_Capacity st)%Z → cp_Avail st = (cp_Capacity st - cp_Used st)%Z) ∧
  ((cp_Capacity st < cp_Used st)%Z → (cp_Capacity st < cp_Avail st)%Z).
Proof.
  intros Hp. apply pool_sizes in Hp as [Hc Hu]. unfold uint64 in *.
  cbn [cpMspToMsp cp_Status cp_Avail cp_Capacity cp_Used].
  set (c := pt_Capacity (pool_State p)) in *. set (u := pt_Used (pool_State p)) in *.
  pose proof (uwrap64_range (c - u)) as Hr. unfold uwrap64 in *.
  repeat split; try lia; try (intros Hlt).
  - rewrite Zplus_mod_idemp_l. replace (c - u + u)%Z with c by lia. by apply Z.mod_small.
  - apply Z.mod_small. lia.
  - rewrite <- (Z.mod_add (c - u) 1) by lia. rewrite Z.mod_small by lia. lia.
Qed.

Definition full_pool_text : string := json_text
  "{'id':'p1','spec':{'disks':['/dev/sdb']},'state':{'capacity':100,'used':101}}".
Definition full_pool_json : json :=
  JObj [("id", JStr "p1"); ("spec", JObj [("disks", JArr [JStr "/dev/sdb"])]);
        ("state", JObj [("capacity", JNum "100"); ("used", JNum "101")])].
Definition full_pool : MayastorCpPool :=
  mkCpPool "p1" (mkMspSpecCp ["/dev/sdb"] "" ∅ "" "") (mkMspState 100 [] "" "" "" 101).
Lemma pool_space_bounds_witness :
  json_parse full_pool_text = Some full_pool_json ∧
  MayastorCpPool_of_json full_pool_json = Some full_pool ∧
  cp_Avail (cp_Status (cpMspToMsp full_pool)) = 18446744073709551615%Z ∧
  (100 < cp_Avail (cp_Status (cpMspToMsp full_pool)))%Z.
Proof.
  split; [vm_compute; reflexivity|]. split; [vm_compute; reflexivity|].
  split; [vm_compute; reflexivity|].
  destruct (pool_space_bounds full_pool_json full_pool) as (_ & _ & _ & _ & _ & Hwrap);
    [vm_compute; reflexivity|].
  apply Hwrap. vm_compute. reflexivity.
Defined.

(** ** Every decoded volume is well typed *)

Definition int64 (z : Z) : Prop := (- 2 ^ 63 ≤ z < 2 ^ 63)%Z.
Definition wf_spec (s : msvSpec) : Prop := int64 (vs_Num_replicas s) ∧ int64 (vs_Size s).
Definition wf_target (t : stateTarget) : Prop := int64 (st_Rebuilds t) ∧ int64 (st_Size t).
Definition wf_state (s : msvState) : Prop := int64 (ms_Size s) ∧ wf_target (ms_Target s).
Definition wf_volume (v : MayastorCpVolume) : Prop :=
  wf_spec (vol_Spec v) ∧ wf_state (vol_State v).

Lemma dec_int_range v cur z : int64 cur → dec_int v cur = Some z → int64 z.
Proof.
  destruct v; simpl; intros Hc E; simplify_eq; [done|]. unfold int_lit in E.
  destruct (match lit with String "-"%char r => _ | _ => _ end) as [neg d].
  destruct (span_digits d) as [ds r]. case_bool_decide; [|done].
  case_bool_decide; [|done]. by simplify_eq.
Qed.

(** The fields of a struct that was decoded, one after the other. *)
Ltac decoded_fields E :=
  repeat (apply bind_Some in E as (? & ? & E)); injection E as <-.
Ltac decoded_field name inv :=
  match goal with H : decode_field name _ _ _ = Some _ |- _ =>
    revert H; apply decode_field_inv; [intros ? ? ?; apply inv|done] end.

Lemma dec_spec_wf v cur s : wf_spec cur → dec_msv_spec v cur = Some s → wf_spec s.
Proof.
  apply dec_object_inv. clear. intros fs cur s [Hn Hz] E. decoded_fields E.
  split; cbn [vs_Num_replicas vs_Size].
  - decoded_field "num_replicas" dec_int_range.
  - decoded_field "size" dec_int_range.
Qed.
Lemma dec_target_wf v cur t : wf_target cur → dec_state_target v cur = Some t → wf_target t.
Proof.
  apply dec_object_inv. clear. intros fs cur t [Hr Hz] E. decoded_fields E.
  split; cbn [st_Rebuilds st_Size].
  - decoded_field "rebuilds" dec_int_range.
  - decoded_field "size" dec_int_range.
Qed.
Lemma dec_state_wf v cur s : wf_state cur → dec_msv_state v cur = Some s → wf_state s.
Proof.
  apply dec_object_inv. clear. intros fs cur s [Hz Ht] E. decoded_fields E.
  split; cbn [ms_Size ms_Target].
  - decoded_field "size" dec_int_range.
  - decoded_field "target" dec_target_wf.
Qed.

Lemma decoded_wf json v : MayastorCpVolume_of_json json = Some v → wf_volume v.
Proof.
  unfold MayastorCpVolume_of_json. apply dec_object_inv; [|by vm_compute].
  clear. intros fs cur v [Hs Ht] E. decoded_fields E. split; cbn [vol_Spec vol_State].
  - decoded_field "spec" dec_spec_wf.
  - decoded_field "state" dec_state_wf.
Qed.

(** ** Numbers *)

Lemma digits_val_acc (s : string) (n : Z) :
  (fix go s acc := match s with
                   | EmptyString => acc
                   | String c s' => go s' (acc * 10 + digit_val c)%Z
                   end) s n = (n * 10 ^ Z.of_nat (String.length s) + digits_val s)%Z.
Proof.
  revert n. induction s as [|c s IH]; intros n; [unfold digits_val; simpl; lia|].
  unfold digits_val. cbn -[Z.pow Z.of_nat]. rewrite !IH, Nat2Z.inj_succ, Z.pow_succ_r by lia. lia.
Qed.
Lemma digits_val_cons c s :
  digits_val (String c s) =
  (digit_val c * 10 ^ Z.of_nat (String.length s) + digits_val s)%Z.
Proof. unfold digits_val at 1. simpl. by rewrite digits_val_acc. Qed.

(** The digits of [pretty] are digits and denote the number. *)
Lemma pretty_N_char_digit n :
  (n < 10)%N → is_digit (pretty_N_char n) = true ∧ digit_val (pretty_N_char n) = Z.of_N n.
Proof.
  intros Hn. assert (n = 0 ∨ n = 1 ∨ n = 2 ∨ n = 3 ∨ n = 4 ∨ n = 5 ∨ n = 6 ∨ n = 7 ∨ n = 8 ∨
    n = 9)%N as Hc by lia.
  by destruct_or!; subst n.
Qed.
Lemma pretty_N_go_digits n s :
  digits s = true →
  digits (pretty_N_go n s) = true ∧ 
  digits_val (pretty_N_go n s) =
    (Z.of_N n * 10 ^ Z.of_nat (String.length s) + digits_val s)%Z.
Proof.
  revert s. induction (N.lt_wf_0 n) as [n _ IH]; intros s Hs.
  destruct (decide (n = 0)%N) as [->|Hn]; [by rewrite pretty_N_go_0|].
  rewrite pretty_N_go_step by lia.
  destruct (pretty_N_char_digit (n `mod` 10)) as [Hc Hv]; [by apply N.mod_lt|].
  destruct (IH (n `div` 10)%N) with (s := String (pretty_N_char (n `mod` 10)) s) as [Hd Hval].
  - apply N.div_lt; lia.
  - simpl. by rewrite Hc.
  - split; [done|]. rewrite Hval, digits_val_cons, Hv. cbn [String.length].
    rewrite Nat2Z.inj_succ, Z.pow_succ_r by lia.
    pose proof (N.div_mod n 10). nia.
Qed.

Lemma span_digits_all s : digits s = true → span_digits s = (s, "").
Proof.
  induction s as [|c s IH]; simpl; [done|]. intros [-> Hs]%andb_true_iff. by rewrite IH.
Qed.
Lemma pretty_N_digits (n : N) :
  digits (pretty n) = true ∧ digits_val (pretty n) = Z.of_N n ∧ pretty n ≠ "".
Proof.
  assert (n = 0%N ∨ (0 < n)%N) as [->|Hn] by lia; [done|].
  unfold pretty, pretty_N. rewrite decide_False by lia.
  destruct (pretty_N_go_digits n "" eq_refl) as [Hd Hv].
  change (digits_val "") with 0%Z in Hv. cbn [String.length Z.of_nat Z.pow] in Hv.
  split_and!; [done|lia|]. intros E. rewrite E in Hv. change (digits_val "") with 0%Z in Hv. lia.
Qed.

Lemma int_lit_digits s :
  digits s = true → s ≠ "" →
  int_lit s = if decide (- 2 ^ 63 ≤ digits_val s < 2 ^ 63)%Z then Some (digits_val s) else None.
Proof.
  intros Hd Hs.
  assert (int_lit s = let '(ds, r) := span_digits s in
    if bool_decide (ds ≠ "" ∧ r = "") then
      if bool_decide (- 2 ^ 63 ≤ digits_val ds < 2 ^ 63)%Z then Some (digits_val ds) else None
    else None) as ->.
  { destruct s as [|c s]; [done|]. simpl in Hd. apply andb_true_iff in Hd as [Hc _].
    by destruct c as [[] [] [] [] [] [] [] []]. }
  rewrite span_digits_all by done. rewrite bool_decide_eq_true_2 by done.
  by rewrite decide_bool_decide.
Qed.

Lemma int_lit_minus s :
  digits s = true → s ≠ "" →
  int_lit (String "-" s) =
  if decide (- 2 ^ 63 ≤ - digits_val s < 2 ^ 63)%Z then Some (- digits_val s)%Z else None.
Proof.
  intros Hd Hs. unfold int_lit. cbv beta iota. rewrite span_digits_all by done. cbv beta iota.
  rewrite bool_decide_eq_true_2 by done. by rewrite decide_bool_decide.
Qed.

(** A number of 64 bits is read back as it was written. *)
Lemma int_lit_Itoa (z : Z) : (- 2 ^ 63 ≤ z < 2 ^ 63)%Z → int_lit (Itoa z) = Some z.
Proof.
  intros Hz. destruct z as [|p|p]; [done| |].
  - change (Itoa (Z.pos p)) with (pretty (N.pos p)).
    destruct (pretty_N_digits (N.pos p)) as (Hd & Hv & Hne).
    rewrite int_lit_digits, Hv by done. apply decide_True; lia.
  - change (Itoa (Z.neg p)) with (String "-" (pretty (N.pos p))).
    destruct (pretty_N_digits (N.pos p)) as (Hd & Hv & Hne).
    rewrite int_lit_minus, Hv by done. apply decide_True; lia.
Qed.

(** ** A volume as the plugin prints it *)

Definition int_json (z : Z) : json := JNum (Itoa z).
Definition list_json {A} (enc : A → json) (l : list A) : json := JArr (map enc l).
Definition map_json {A} (enc : A → json) (m : gmap string A) : json :=
  JObj (map (λ kv, (kv.1, enc kv.2)) (map_to_list m)).
Definition child_json (c : CmNexusChild) : json :=
  JObj [("state", JStr (cc_State c)); ("uri", JStr (cc_Uri c))].
Definition state_target_json (t : stateTarget) : json :=
  JObj [("children", list_json child_json (st_Children t));
        ("deviceUri", JStr (st_DeviceUri t)); ("node", JStr (st_Node t));
        ("rebuilds", int_json (st_Rebuilds t)); ("protocol", JStr (st_Protocol t));
        ("size", int_json (st_Size t)); ("state", JStr (st_State t));
        ("uuid", JStr (st_Uuid t))].
Definition replica_json (r : replica_topology) : json :=
  JObj [("node", JStr (rt_node r)); ("pool", JStr (rt_pool r)); ("state", JStr (rt_state r))].
Definition state_json (s : msvState) : json :=
  JObj [("target", state_target_json (ms_Target s)); ("size", int_json (ms_Size s));
        ("status", JStr (ms_Status s)); ("uuid", JStr (ms_Uuid s));
        ("replica_topology", map_json replica_json (Replica_topology s))].
Definition topology_json (t : topology) : json :=
  JObj [("node_topology", JObj [("explicit",
           JObj [("allowed_nodes", list_json JStr (AllowedNodes t));
                 ("preferred_nodes", list_json JStr (PreferredNodes_ t))])]);
        ("pool_topology", JObj [("labelled",
           JObj [("inclusion", map_json id (Inclusion t));
                 ("exclusion", map_json id (Exclusion t))])])].
Definition spec_json (s : msvSpec) : json :=
  JObj [("num_replicas", int_json (vs_Num_replicas s)); ("size", int_json (vs_Size s));
        ("status", JStr (vs_Status s));
        ("target", JObj [("protocol", JStr (sp_Protocol (vs_Target s)));
                         ("node", JStr (sp_Node (vs_Target s)))]);
        ("uuid", JStr (vs_Uuid s)); ("topology", topology_json (vs_Topology s));
        ("policy", JObj [("self_heal", JBool (Self_heal s))])].
Definition volume_json (v : MayastorCpVolume) : json :=
  JObj [("spec", spec_json (vol_Spec v)); ("state", state_json (vol_State v))].

Lemma dec_int_json z cur : int64 z → dec_int (int_json z) cur = Some z.
Proof. intros Hz. cbn [dec_int int_json]. by apply int_lit_Itoa. Qed.
Lemma dec_list_json {A} (enc : A → json) dec l cur :
  (∀ a, dec (enc a) = Some a) → dec_list dec (list_json enc l) cur = Some l.
Proof.
  intros Hd. cbn [dec_list list_json]. induction l as [|a l IH]; [done|]. simpl.
  by rewrite Hd, IH.
Qed.
Lemma foldl_insert {A} (l : list (string * A)) (cur : gmap string A) :
  NoDup l.*1 → foldl (λ m kv, <[kv.1:=kv.2]> m) cur l = list_to_map l ∪ cur.
Proof.
  revert cur. induction l as [|[k a] l IH]; intros cur; simpl; [by rewrite (left_id_L ∅ (∪))|].
  intros [Hk Hl]%NoDup_cons. rewrite IH by done.
  rewrite <- insert_union_r by by apply not_elem_of_list_to_map_1.
  by rewrite insert_union_l.
Qed.
Lemma dec_map_json {A} (enc : A → json) dec (m : gmap string A) :
  (∀ a, dec (enc a) = Some a) → dec_map dec (map_json enc m) ∅ = Some m.
Proof.
  intros Hd. cbn [dec_map map_json].
  assert (∀ l cur, foldl (λ acc kv, m ← acc; a ← dec kv.2; Some (<[kv.1:=a]> m)) (Some cur)
    (map (λ kv : string * A, (kv.1, enc kv.2)) l) =
    Some (foldl (λ m kv, <[kv.1:=kv.2]> m) cur l)) as ->.
  { intros l. induction l as [|[k a] l IH]; intros cur; [done|]. simpl. rewrite Hd. apply IH. }
  rewrite foldl_insert by apply NoDup_fst_map_to_list.
  by rewrite list_to_map_to_list, (right_id_L ∅ (∪)).
Qed.

(** A member of an object: the keys before it are others, and so are those after it. *)
Lemma decode_field_miss {A} name (dec : json → A → option A) k v fs zero :
  key_matches name k = false →
  decode_field name dec ((k, v) :: fs) zero = decode_field name dec fs zero.
Proof. intros Hk. unfold decode_field. cbn -[key_matches]. by rewrite Hk. Qed.
Ltac misses := repeat (rewrite decode_field_miss by (vm_compute; reflexivity)).
Ltac member lem :=
  eapply bind_eq;
    [misses; rewrite decode_field_cons, lem by done; cbn [mbind option_bind]; misses;
     reflexivity|]; cbv beta.

Lemma dec_string_json s cur : dec_string (JStr s) cur = Some s.
Proof. done. Qed.
Lemma dec_bool_json b cur : dec_bool (JBool b) cur = Some b.
Proof. done. Qed.
Lemma dec_child_json c : dec_child (child_json c) = Some c.
Proof.
  unfold dec_child. cbn [dec_object child_json]. do 2 member dec_string_json. by destruct c.
Qed.
Lemma dec_topology_json r : dec_topology (replica_json r) = Some r.
Proof.
  unfold dec_topology. cbn [dec_object replica_json]. do 3 member dec_string_json.
  by destruct r.
Qed.
Lemma dec_children_json l cur : dec_list dec_child (list_json child_json l) cur = Some l.
Proof. apply dec_list_json, dec_child_json. Qed.
Lemma dec_strings_json l cur : dec_strings (list_json JStr l) cur = Some l.
Proof. by apply dec_list_json. Qed.
Lemma dec_replicas_json m : dec_map dec_topology (map_json replica_json m) ∅ = Some m.
Proof. apply dec_map_json, dec_topology_json. Qed.
Lemma dec_labels_json (m : gmap string json) : dec_map Some (map_json id m) ∅ = Some m.
Proof. by apply dec_map_json. Qed.

Lemma dec_target_json t cur :
  wf_target t → dec_state_target (state_target_json t) cur = Some t.
Proof.
  intros [Hr Hz]. unfold dec_state_target. cbn [dec_object state_target_json].
  member dec_children_json. do 2 member dec_string_json. member dec_int_json.
  member dec_string_json. member dec_int_json. do 2 member dec_string_json. by destruct t.
Qed.
Lemma dec_state_json s t0 z0 s0 u0 :
  wf_state s → dec_msv_state (state_json s) (mkMsvState t0 z0 s0 u0 ∅) = Some s.
Proof.
  intros [Hz Ht]. unfold dec_msv_state. cbn [dec_object state_json ms_Target ms_Size ms_Status
    ms_Uuid Replica_topology].
  member dec_target_json. member dec_int_json. do 2 member dec_string_json.
  member dec_replicas_json. by destruct s.
Qed.
Lemma dec_spec_target_json t cur :
  dec_spec_target (JObj [("protocol", JStr (sp_Protocol t)); ("node", JStr (sp_Node t))]) cur =
  Some t.
Proof.
  unfold dec_spec_target. cbn [dec_object]. do 2 member dec_string_json. by destruct t.
Qed.
Lemma dec_topologies_json t :
  dec_topologies (topology_json t) (mkTopology [] [] ∅ ∅) = Some t.
Proof.
  unfold dec_topologies. cbn [dec_object topology_json].
  eapply bind_eq.
  { misses. rewrite decode_field_cons. cbn [dec_object]. rewrite decode_field_hit.
    unfold dec_explicit. cbn [dec_object AllowedNodes PreferredNodes_ Inclusion Exclusion].
    eapply bind_eq; [do 2 member dec_strings_json; reflexivity|]. cbv beta. misses. reflexivity. }
  cbv beta. misses. rewrite decode_field_cons. cbn [dec_object]. rewrite decode_field_hit.
  unfold dec_labelled. cbn [dec_object AllowedNodes PreferredNodes_ Inclusion Exclusion].
  eapply bind_eq; [do 2 member dec_labels_json; reflexivity|]. cbv beta. by destruct t.
Qed.
Lemma dec_policy_json b cur :
  dec_object (λ fs cur, decode_field "self_heal" dec_bool fs cur)
    (JObj [("self_heal", JBool b)]) cur = Some b.
Proof. cbn [dec_object]. by rewrite decode_field_hit. Qed.
Lemma dec_spec_json s n0 z0 s0 t0 u0 h0 :
  wf_spec s →
  dec_msv_spec (spec_json s) (mkMsvSpecCp n0 z0 s0 t0 u0 (mkTopology [] [] ∅ ∅) h0) = Some s.
Proof.
  intros [Hn Hz]. unfold dec_msv_spec. cbn [dec_object spec_json vs_Num_replicas vs_Size
    vs_Status vs_Target vs_Uuid vs_Topology Self_heal].
  do 2 member dec_int_json. member dec_string_json. member dec_spec_target_json.
  member dec_string_json. member dec_topologies_json. member dec_policy_json. by destruct s.
Qed.

(** (C12) The types of a volume: a volume whose sizes and counts are 64-bit integers is read back
    from the object in which the plugin prints it with every member as it was, the children of
    the nexus, the replicas and the labels included; and whatever the plugin prints, what is
    decoded from it is a volume of that kind.  A volume that does not fit is never decoded to
    itself. *)
Theorem decoded_volume_typed v :
  (MayastorCpVolume_of_json (volume_json v) = Some v ↔ wf_volume v) ∧
  ∀ json, MayastorCpVolume_of_json json = Some v → wf_volume v.
Proof.
  split; [split|intros json]; [apply decoded_wf| |apply decoded_wf].
  intros [Hs Ht]. unfold MayastorCpVolume_of_json, zero_cp_volume.
  cbn [dec_object volume_json vol_Spec vol_State].
  member dec_spec_json. member dec_state_json. by destruct v.
Qed.

(** ** The error of the REST server *)

(** No line break. *)
Definition one_line : string → Prop := lacks "010"%char.
Fixpoint all_chars (P : ascii → bool) (s : string) : Prop :=
  match s with EmptyString => True | String c s' => P c = true ∧ all_chars P s' end.

Lemma prefix_app p s : String.prefix p (p +:+ s) = true.
Proof.
  induction p as [|c p IH]; [by destruct s|].
  change (String.prefix (String c p) (String c (p +:+ s)) = true). simpl.
  by destruct (ascii_dec c c).
Qed.
Lemma substring_all s n : (String.length s ≤ n)%nat → String.substring 0 n s = s.
Proof.
  revert n. induction s as [|c s IH]; intros [|n]; simpl; intros Hn; try done; [lia|].
  f_equal. apply IH. lia.
Qed.
Lemma substring_app p s n :
  (String.length s ≤ n)%nat → String.substring (String.length p) n (p +:+ s) = s.
Proof.
  intros Hn. induction p as [|c p IH]; [by apply substring_all|].
  change (String.substring (String.length p) n (p +:+ s) = s). done.
Qed.
Lemma length_app_string p s : String.length (p +:+ s) = (String.length p + String.length s)%nat.
Proof.
  induction p as [|c p IH]; [done|].
  change (Datatypes.S (String.length (p +:+ s)) = Datatypes.S (String.length p + String.length s)).
  by rewrite IH.
Qed.
Lemma prefix_inv p s : String.prefix p s = true → ∃ r, s = p +:+ r.
Proof.
  revert s. induction p as [|c p IH]; intros s; [by exists s|].
  destruct s as [|d s]; simpl; [done|]. destruct (ascii_dec c d); [|done]. subst.
  intros Hp. apply IH in Hp as [r ->]. by exists r.
Qed.

Lemma literal_spec w s r : literal w s = Some r ↔ s = w +:+ r.
Proof.
  unfold literal. split.
  - destruct (String.prefix w s) eqn:E; [|done]. apply prefix_inv in E as [t ->].
    intros [= <-]. by rewrite substring_app by (rewrite length_app_string; lia).
  - intros ->. rewrite prefix_app.
    by rewrite substring_app by (rewrite length_app_string; lia).
Qed.

Lemma app_nil_string (s : string) : "" +:+ s = s.
Proof. done. Qed.
Lemma app_cons_string c (s t : string) : String c s +:+ t = String c (s +:+ t).
Proof. done. Qed.

(** A greedy [.*] finds some split of the line whose rest is accepted, and finds one when
    there is one. *)
Lemma dot_star_some {R} (k : string → option R) s r :
  dot_star k s = Some r → ∃ a b, s = a +:+ b ∧ one_line a ∧ k b = Some r.
Proof.
  induction s as [|c s IH]; cbn [dot_star]; [by exists "", ""|].
  case_decide as Hc; [intros; by exists "", (String c s)|].
  destruct (dot_star k s) as [r'|]; intros E; simplify_eq.
  - destruct (IH eq_refl) as (a & b & -> & Ha & Hb).
    by exists (String c a), b.
  - by exists "", (String c s).
Qed.
Lemma dot_star_complete {R} (k : string → option R) a b :
  one_line a → is_Some (k b) → is_Some (dot_star k (a +:+ b)).
Proof.
  induction a as [|c a IH]; intros Ha Hb.
  - rewrite app_nil_string. destruct b as [|c b]; simpl; [done|].
    case_decide; [done|]. destruct (dot_star k b); [done|exact Hb].
  - destruct Ha as [Hc Ha]. rewrite app_cons_string. cbn [dot_star].
    rewrite decide_False by done.
    destruct (IH Ha Hb) as [r ->]. done.
Qed.
Lemma find_match_some {R} (m : string → option R) s r :
  find_match m s = Some r → ∃ a b, s = a +:+ b ∧ m b = Some r.
Proof.
  induction s as [|c s IH]; cbn [find_match].
  - destruct (m "") eqn:E; [|done]. intros [= <-]. by exists "", "".
  - destruct (m (String c s)) eqn:E; [intros [= <-]; by exists "", (String c s)|].
    intros Hs. destruct (IH Hs) as (a & b & -> & Hb). by exists (String c a), b.
Qed.
Lemma find_match_complete {R} (m : string → option R) a b :
  is_Some (m b) → is_Some (find_match m (a +:+ b)).
Proof.
  intros Hb. induction a as [|c a IH].
  - rewrite app_nil_string. destruct Hb as [r Hr]. destruct b; cbn [find_match]; rewrite Hr; eauto.
  - rewrite app_cons_string. cbn [find_match]. destruct (m (String c (a +:+ b))); [eauto|apply IH].
Qed.

Lemma skip_re_spaces_inv s :
  ∃ sp, s = sp +:+ skip_re_spaces s ∧ all_chars is_re_space sp.
Proof.
  induction s as [|c s (sp & E & Hsp)]; cbn [skip_re_spaces]; [by exists ""|].
  destruct (is_re_space c) eqn:Ec; [|by exists ""].
  exists (String c sp). rewrite app_cons_string, <- E. done.
Qed.
Lemma take_word_inv s :
  ∃ r, s = take_word s +:+ r ∧ all_chars is_word (take_word s).
Proof.
  induction s as [|c s (r & E & Hr)]; cbn [take_word]; [by exists ""|].
  destruct (is_word c) eqn:Ec; [|by exists (String c s)].
  exists r. rewrite app_cons_string, <- E. done.
Qed.
Lemma word_not_space c : is_word c = true → is_re_space c = false.
Proof.
  unfold is_re_space. intros Hw. apply bool_decide_eq_false. intros Hin.
  set_unfold. destruct_or!; subst; by vm_compute in Hw.
Qed.
Lemma kind_word_complete sp w r :
  all_chars is_re_space sp → all_chars is_word w → w ≠ "" →
  is_Some (kind_word ("kind:" +:+ sp +:+ w +:+ r)).
Proof.
  intros Hsp Hw Hne. unfold kind_word.
  rewrite (proj2 (literal_spec _ _ (sp +:+ w +:+ r)) eq_refl). cbn [mbind option_bind].
  assert (Hskip : skip_re_spaces (sp +:+ w +:+ r) = w +:+ r).
  { induction sp as [|c sp IH]; [|rewrite app_cons_string; cbn [skip_re_spaces]; destruct Hsp as [-> ?]; auto].
    rewrite app_nil_string. destruct w as [|c w]; [done|]. rewrite app_cons_string. cbn [skip_re_spaces].
    by rewrite word_not_space by apply Hw. }
  rewrite Hskip. destruct w as [|c w]; [done|]. rewrite app_cons_string. cbn [take_word].
  destruct Hw as [-> _]. by rewrite decide_False by done.
Qed.

(** The texts the expression
    [Error error in response.*RestJsonError.*kind:\s*(\w+)] matches, and the word. *)
Definition rest_error_text (s w : string) : Prop :=
  ∃ a b c sp r,
    s = a +:+ "Error error in response" +:+ b +:+ "RestJsonError" +:+ c +:+
        "kind:" +:+ sp +:+ w +:+ r ∧
    one_line b ∧ one_line c ∧ all_chars is_re_space sp ∧ all_chars is_word w ∧ w ≠ "".

Lemma rest_error_sound s w :
  find_match rest_json_error s = Some w → rest_error_text s w.
Proof.
  intros Hm. apply find_match_some in Hm as (a & t & -> & Ht).
  unfold rest_json_error in Ht. apply bind_Some in Ht as (t1 & E1 & Ht).
  apply literal_spec in E1 as ->.
  apply dot_star_some in Ht as (b & t2 & -> & Hb & Ht).
  apply bind_Some in Ht as (t3 & E2 & Ht). apply literal_spec in E2 as ->.
  apply dot_star_some in Ht as (c & t4 & -> & Hc & Ht).
  unfold kind_word in Ht. apply bind_Some in Ht as (t5 & E3 & Ht). apply literal_spec in E3 as ->.
  case_decide as Hw; [done|]. injection Ht as <-.
  destruct (skip_re_spaces_inv t5) as (sp & Et5 & Hsp).
  destruct (take_word_inv (skip_re_spaces t5)) as (r & Er & Hr).
  exists a, b, c, sp, r. rewrite <- Er, <- Et5. done.
Qed.

(** The recognition of "not found": the matcher for the regular expression of
    [HasNotFoundRestJsonError] accepts exactly the texts of the expression's language, and
    what it captures is a word of such a reading; so a text is taken for "not found" only
    when it reads so, and a text in which the word of every reading is NotFound always is. *)
Theorem not_found_recognised str :
  (HasNotFoundRestJsonError str = true → rest_error_text str "NotFound") ∧
  ((∃ w, rest_error_text str w) →
   (∀ w, rest_error_text str w → w = "NotFound") → HasNotFoundRestJsonError str = true) ∧
  ((∃ w, rest_error_text str w) ↔ is_Some (find_match rest_json_error str)).
Proof.
  assert (Hcomp : (∃ w, rest_error_text str w) → is_Some (find_match rest_json_error str)).
  { intros (w & a & b & c & sp & r & -> & Hb & Hc & Hsp & Hw & Hne).
    apply find_match_complete. unfold rest_json_error.
    rewrite (proj2 (literal_spec _ _ _) eq_refl). cbn [mbind option_bind].
    apply dot_star_complete; [done|].
    rewrite (proj2 (literal_spec _ _ _) eq_refl). cbn [mbind option_bind].
    apply dot_star_complete; [done|]. by apply kind_word_complete. }
  unfold HasNotFoundRestJsonError. repeat split.
  - intros E. apply bool_decide_eq_true in E. by apply rest_error_sound.
  - intros Hex Hall. apply bool_decide_eq_true. destruct (Hcomp Hex) as [w E].
    rewrite E. f_equal. by apply Hall, rest_error_sound.
  - apply Hcomp.
  - intros [w E]. exists w. by apply rest_error_sound.
Qed.

(** ** Volumes *)

Section Volumes.
Context {W : Type} `{Shell W} `{Http W} `{MapRange W}.

Lemma run_once_Do_done {S} (done : S → bool) mark (f : prog S unit) s :
  done s = true → run (once_Do done mark f) s = (Ret tt, s).
Proof.
  intros Hd. unfold once_Do. rewrite run_bind, run_reads. cbn [seq_run]. by rewrite Hd.
Qed.
Lemma run_once_Do_first {S} (done : S → bool) mark (f : prog S unit) s :
  done s = false → run (once_Do done mark f) s = run f (mark s).
Proof.
  intros Hd. unfold once_Do. rewrite run_bind, run_reads. cbn [seq_run]. rewrite Hd.
  by rewrite run_bind, run_updates.
Qed.

(** What the plugin does with the arguments. *)
Definition plugin_run (args : list string) (s : Session W) : (string * error) * Session W :=
  let r := sh_CombinedOutput "" ((KubectlPluginDir (e2eConfig s) +:+ "/" +:+
             KubectlPluginName (cfg_Product (e2eConfig s))) :: args) (se_world s) in
  (r.1, set_world r.2 s).
Lemma run_run_plugin args s :
  run (run_plugin args) s = (Ret (plugin_run args s).1, (plugin_run args s).2).
Proof. done. Qed.

Lemma run_GetMayastorCpVolume uuid s :
  run (GetMayastorCpVolume uuid) s =
  (let '(o, s') := plugin_run ["-ojson"; "get"; "volume"; uuid] s in
   (Ret (get_object MayastorCpVolume_of_json o.1 (output_error o.1 o.2)), s')).
Proof.
  unfold GetMayastorCpVolume. rewrite run_bind, run_run_plugin. cbn [seq_run].
  by destruct (plugin_run _ s) as [[] ?].
Qed.

(** The nodes of the replicas are written over an array of empty names. *)
Lemma run_fill_nodes (rs : list CmReplica) k (l : list string) (s : Session W) :
  (k ≤ length l)%nat →
  run (for_range (R:=Empty_set) rs (k, l) (λ r '(ix, replicas),
         if decide (ix < length replicas)%nat
         then mret (Next (Datatypes.S ix, <[ix := cr_Node r]> replicas))
         else Panic "index out of range")) s =
  if decide (k + length rs ≤ length l)%nat
  then (Ret (inl ((k + length rs)%nat, (take k l ++ map cr_Node rs ++ drop (k + length rs) l)%list)), s)
  else (Panicked "index out of range", s).
Proof.
  revert k l. induction rs as [|r rs IH]; intros k l Hk.
  - simpl. rewrite Nat.add_0_r, decide_True by done. by rewrite take_drop.
  - rewrite run_for_range_cons. destruct (decide (k < length l)%nat) as [Hlt|Hge].
    + rewrite run_done. cbn [seq_run]. rewrite IH by (rewrite length_insert; lia).
      rewrite length_insert. cbn [length].
      replace (Datatypes.S k + length rs)%nat with (k + Datatypes.S (length rs))%nat by lia.
      case_decide; [|done].
      rewrite (take_S_r _ _ (cr_Node r)) by (by rewrite list_lookup_insert_eq by lia).
      rewrite take_insert_ge by lia. rewrite drop_insert_lt by lia.
      by rewrite <- app_assoc.
    + rewrite decide_False by (simpl; lia). done.
Qed.

(** The nodes of a volume: the plugin is asked twice, for the volume and for its
    replicas; when the replicas fit the count of the first answer, their nodes come in
    their order, filled up with empty names; when there are more of them, the process
    panics. *)
Theorem msv_nodes_spec uuid s s1 s2 v rs :
  run (GetMayastorCpVolume uuid) s = (Ret (Some v, None), s1) →
  (0 ≤ vs_Num_replicas (vol_Spec v))%Z →
  run (v1_GetMsvReplicas uuid) s1 = (Ret (rs, None), s2) →
  let n := Z.to_nat (vs_Num_replicas (vol_Spec v)) in
  run (v1_GetMsvNodes uuid) s =
  if decide (length rs ≤ n)%nat
  then (Ret (st_Node (ms_Target (vol_State v)),
             map cr_Node rs ++ replicate (n - length rs) "")%list, s2)
  else (Panicked "index out of range", s2).
Proof.
  intros Hv Hn Hrs n. unfold v1_GetMsvNodes. rewrite run_bind, Hv. cbn [seq_run].
  rewrite run_bind, run_deref_Some. cbn [seq_run]. cbv zeta.
  rewrite decide_False by lia. rewrite run_bind, Hrs. cbn [seq_run].
  rewrite run_bind, run_fill_nodes by lia. rewrite length_replicate. cbn [Nat.add].
  fold n. case_decide; [|done]. cbn [seq_run]. rewrite run_bind. cbn [no_return].
  rewrite run_done. cbn [seq_run]. rewrite take_0, drop_replicate. done.
Qed.

(** A volume that is still being created: [GetMSV] answers nothing and no error. *)
Lemma run_v1_GetMSV_pending uuid s o s1 v :
  plugin_run ["-ojson"; "get"; "volume"; uuid] s = (o, s1) →
  get_object MayastorCpVolume_of_json o.1 (output_error o.1 o.2) = (Some v, None) →
  vs_Uuid (vol_Spec v) = "" ∨ ms_Status (vol_State v) = "pending" →
  run (v1_GetMSV uuid) s = (Ret (None, None), s1).
Proof.
  intros Ho Hv Hp. unfold v1_GetMSV.
  rewrite run_bind, run_GetMayastorCpVolume, Ho, Hv. cbn [seq_run].
  rewrite run_bind, run_deref_Some. cbn [seq_run].
  case_decide as Hu; [done|]. destruct Hp as [Hp|Hp]; [done|]. by rewrite decide_True.
Qed.

(** A volume that is still being created: [GetMSV] answers nothing and no error, as
    its comment says, and [GetMsvReplicas], which looks at the error only, takes the
    process down. *)
Theorem pending_volume_panics uuid s o s1 v :
  plugin_run ["-ojson"; "get"; "volume"; uuid] s = (o, s1) →
  get_object MayastorCpVolume_of_json o.1 (output_error o.1 o.2) = (Some v, None) →
  vs_Uuid (vol_Spec v) = "" ∨ ms_Status (vol_State v) = "pending" →
  run (v1_GetMSV uuid) s = (Ret (None, None), s1) ∧
  run (v1_GetMsvReplicas uuid) s = (Panicked nil_deref, s1).
Proof.
  intros Ho Hv Hp. pose proof (run_v1_GetMSV_pending uuid s o s1 v Ho Hv Hp) as HG.
  split; [done|]. unfold v1_GetMsvReplicas. by rewrite run_bind, HG.
Qed.

(** A replica is asked for on one node after the other, but only an answer that cannot
    be read to its end leads to the next node: when the request to the first address fails,
    the process panics and the others are not asked. *)
Theorem unreachable_node_panics replica addr rest s e w :
  let url := "http://" +:+ addr +:+ ":" +:+ KubectlPluginPort (cfg_Product (e2eConfig s)) +:+
             "/v0/replicas/" +:+ replica in
  http_NewRequest "GET" url = None →
  http_Do (mkRequest "GET" url [("Accept", "application/json")] None) (se_world s) = (inl e, w) →
  run (getMayastorCpReplica replica (addr :: rest)) s = (Panicked nil_deref, set_world w s).
Proof.
  intros url Hr Hdo. unfold getMayastorCpReplica. rewrite decide_False by done.
  rewrite run_bind. cbn [Config]. unfold Config. rewrite run_reads. cbn [seq_run].
  rewrite run_bind, run_for_range_cons. cbv zeta. fold url. rewrite Hr.
  rewrite run_bind, run_deref_Some. cbn [seq_run]. unfold client_Do.
  rewrite !run_bind, run_outside. cbn [seq_run world session_world].
  rewrite Hdo. cbn [fst snd]. by rewrite run_done.
Qed.
End Volumes.

(** ** A plugin with one answer *)

Definition says (text : string) : Shell Cluster :=
  {| sh_CombinedOutput _ _ c := ((text, None), c) |}.
Definition demo_product : Product :=
  mkProduct "mayastor" "mayastor" "mayastor" "mayastor" "mayastor" "mayastor" "mayastor-csi"
    "openebs.io/engine" "mayastor" "kubectl-mayastor" "30011" "io.openebs.csi-mayastor"
    "core-agents" "mayastor-etcd" "csi-controller" "msp-operator" "rest" "mayastor"
    "mayastor-csi" "nats" "etcd" "nats-deployment.yaml" "csi-daemonset.yaml"
    "mayastor-daemonset.yaml".
Definition demo_config (version : string) : E2EConfig :=
  mkConfig "default" "" "" (mkPlatform "default" false "mayastor" 0) demo_product false "" ""
    "/tmp/s" version "/bin" "registry" "" "/dev/sdb" "mayadata/e2e-fio" "mayadata/e2e-fsx"
    false 2 false false "" false default_duty 0 0.
Definition demo_session (addrs : list string) (c : Cluster) : Session Cluster :=
  mkSession c (demo_config "1.0.0") true true (Some CPv1) addrs true
    true None 0.

Definition pending_text : string := json_text
  "{'spec':{'uuid':'v1','num_replicas':1},'state':{'status':'pending'}}".
Definition volume_of (text : string) : MayastorCpVolume :=
  default zero_cp_volume (json_parse text ≫= MayastorCpVolume_of_json).

Lemma decoded_volume_typed_witness :
  MayastorCpVolume_of_json (default JNull (json_parse pending_text)) =
    Some (volume_of pending_text) ∧ wf_volume (volume_of pending_text) ∧
  MayastorCpVolume_of_json (volume_json (volume_of pending_text)) =
    Some (volume_of pending_text).
Proof.
  assert (MayastorCpVolume_of_json (default JNull (json_parse pending_text)) =
    Some (volume_of pending_text)) as E by (vm_compute; reflexivity).
  destruct (decoded_volume_typed (volume_of pending_text)) as [Hback Hwf].
  split; [exact E|]. split; [exact (Hwf _ E)|]. apply Hback. exact (Hwf _ E).
Defined.

Lemma pending_volume_panics_witness :
  let Hs := says pending_text in
  ms_Status (vol_State (volume_of pending_text)) = "pending" ∧
  run (v1_GetMSV "v1") (demo_session [] empty_cluster) =
    (Ret (None, None), demo_session [] empty_cluster) ∧
  run (v1_GetMsvReplicas "v1") (demo_session [] empty_cluster) =
    (Panicked nil_deref, demo_session [] empty_cluster).
Proof.
  intros Hs. split; [vm_compute; reflexivity|]. subst Hs.
  apply (pending_volume_panics (H:=says pending_text) "v1" (demo_session [] empty_cluster)
           (pending_text, None) (demo_session [] empty_cluster) (volume_of pending_text)).
  - reflexivity.
  - vm_compute. reflexivity.
  - right. vm_compute. reflexivity.
Defined.

(** A volume of one replica, while the second is still listed. *)
Definition shrinking_text : string := json_text
  "{'spec':{'uuid':'v1','num_replicas':1},'state':{'status':'Online','target':{'node':'n1'},'replica_topology':{'r1':{},'r2':{}}}}".
Definition replica_text (node : string) : string := json_text
  ("{'node':'" +:+ node +:+ "','state':'online'}").
Definition two_replies : Cluster :=
  with_replies [inr (mkResponse 200 (inr (replica_text "n1")));
                inr (mkResponse 200 (inr (replica_text "n2")))] empty_cluster.

Lemma msv_nodes_spec_witness :
  let Hs := says shrinking_text in
  let s := demo_session ["10.0.0.1"] two_replies in
  let s2 := demo_session ["10.0.0.1"] empty_cluster in
  run (v1_GetMsvReplicas "v1") s =
    (Ret ([mkCmReplica "n1" false "" ""; mkCmReplica "n2" false "" ""], None), s2) ∧
  run (v1_GetMsvNodes "v1") s = (Panicked "index out of range", s2).
Proof.
  intros Hs s s2. split; [vm_compute; reflexivity|]. subst Hs.
  rewrite (msv_nodes_spec (H:=says shrinking_text) "v1" s s s2 (volume_of shrinking_text)
    [mkCmReplica "n1" false "" ""; mkCmReplica "n2" false "" ""]).
  - reflexivity.
  - vm_compute. reflexivity.
  - vm_compute. discriminate.
  - vm_compute. reflexivity.
Defined.

Lemma unreachable_node_panics_witness :
  let s := demo_session ["10.0.0.1"; "10.0.0.2"] empty_cluster in
  run (getMayastorCpReplica "r1" ["10.0.0.1"; "10.0.0.2"]) s = (Panicked nil_deref, s).
Proof.
  intros s. change s with (set_world empty_cluster s) at 2.
  apply (unreachable_node_panics "r1" "10.0.0.1" ["10.0.0.2"] s refusal empty_cluster);
    reflexivity.
Defined.

(** ** The choice of the control plane *)

Section Choice.
Context {W : Type} `{Shell W} `{Http W} `{MapRange W}.

Definition version_major (version : string) : option Z :=
  match map Atoi (Split version "."%char) with Some m :: _ => Some m | _ => None end.

Lemma run_getControlPlane_done (s : Session W) :
  cp_once s = true →
  run getControlPlane s =
  (match ifc s with Some c => Ret (methods c) | None => Panicked nil_deref end, s).
Proof.
  intros Hd. unfold getControlPlane. rewrite run_bind, run_once_Do_done by done.
  cbn [seq_run]. rewrite run_bind, run_reads. cbn [seq_run]. rewrite run_bind.
  by destruct (ifc s).
Qed.

Lemma run_choose (s : Session W) :
  run choose_control_plane s =
  if decide (version_major (MayastorVersion (e2eConfig s)) = Some 1%Z)
  then (Ret tt, set_ifc (Some CPv1) s)
  else (Panicked (match version_major (MayastorVersion (e2eConfig s)) with
                  | Some _ => "unsupported control plane version " +:+
                              MayastorVersion (e2eConfig s)
                  | None => "strconv.Atoi" end), s).
Proof.
  unfold choose_control_plane, version_major. rewrite run_bind. unfold Config.
  rewrite run_reads. cbn [seq_run].
  destruct (map Atoi _) as [|[m|] l]; try by rewrite decide_False.
  destruct (decide (m = 1%Z)) as [->|Hm]; [by rewrite decide_True|].
  rewrite decide_False by congruence. done.
Qed.

(** The control plane is chosen by the first call that needs it, for good: with a
    version whose first number is 1 the implementation of control plane 1 answers that call
    and every later one, whatever version is configured afterwards; with any other version,
    or none yet, the first call panics and every later call does too, also once the right
    version has been configured. *)
Theorem control_plane_chosen_once (s : Session W) :
  cp_once s = false → ifc s = None →
  let r := run getControlPlane s in
  (version_major (MayastorVersion (e2eConfig s)) = Some 1%Z →
     r.1 = Ret CPv1_methods ∧
     ∀ c, run getControlPlane (set_config c r.2) = (Ret CPv1_methods, set_config c r.2)) ∧
  (version_major (MayastorVersion (e2eConfig s)) ≠ Some 1%Z →
     (∃ why, r.1 = Panicked why) ∧
     ∀ c, run getControlPlane (set_config c r.2) = (Panicked nil_deref, set_config c r.2)).
Proof.
  intros Hd Hi r.
  assert (E : r = seq_run (run choose_control_plane (set_cp_once s))
                    (λ _, i ← reads ifc; c ← deref i; mret (methods c))).
  { subst r. unfold getControlPlane. by rewrite run_bind, run_once_Do_first. }
  rewrite run_choose in E. cbn [e2eConfig set_cp_once] in E.
  split; intros Hm.
  - rewrite decide_True in E by done. rewrite E. split; [done|].
    intros c. by rewrite run_getControlPlane_done.
  - rewrite decide_False in E by done. rewrite E. split; [by eexists|].
    intros c. rewrite run_getControlPlane_done by done. simpl. by rewrite Hi.
Qed.

(** ** The configuration *)

Context `{Files W} `{System W} `{ConfigFiles W}.

Lemma run_GetConfig_loaded (s : Session W) :
  config_once s = true → run GetConfig s = (Ret (e2eConfig s), s).
Proof. intros Hc. unfold GetConfig. by rewrite run_bind, run_once_Do_done. Qed.

(** The version after an attempt to set it. *)
Definition agreed (version current : string) : bool :=
  bool_decide (current = "" ∨ current = version).

Lemma run_SetControlPlane (version : string) (s : Session W) :
  config_once s = true →
  ∃ w, run (SetControlPlane version) s =
    (Ret (agreed version (MayastorVersion (e2eConfig s))),
     if agreed version (MayastorVersion (e2eConfig s))
     then set_world w (set_config (set_version version (e2eConfig s)) s) else s).
Proof.
  intros Hc. unfold SetControlPlane. rewrite run_bind, run_GetConfig_loaded by done.
  cbn [seq_run]. rewrite run_bind, run_reads. cbn [seq_run]. unfold agreed.
  destruct (decide _) as [Hv|Hv].
  - rewrite bool_decide_eq_true_2 by done. unfold saveConfig.
    rewrite !run_bind, run_updates. cbn [seq_run]. rewrite !run_bind, run_reads. cbn [seq_run].
    rewrite !run_bind, run_outside. cbn [seq_run]. by eexists.
  - rewrite bool_decide_eq_false_2 by done. by exists (se_world s).
Qed.

Fixpoint set_each (versions : list string) : prog (Session W) (list bool) :=
  match versions with
  | [] => mret []
  | v :: l => b ← SetControlPlane v; bs ← set_each l; mret (b :: bs)
  end.

(** The version of the control plane once set stays: of any sequence of attempts to
    set it, after the first version that is not empty exactly the attempts that name the
    same version succeed, and the configuration names it at the end. *)
Theorem version_set_once (v : string) (versions : list string) (s : Session W) :
  config_once s = true → MayastorVersion (e2eConfig s) = v → v ≠ "" →
  ∃ s', run (set_each versions) s = (Ret (map (λ w, bool_decide (w = v)) versions), s') ∧
        MayastorVersion (e2eConfig s') = v ∧ config_once s' = true.
Proof.
  revert s. induction versions as [|w l IH]; intros s Hc Hv Hne; [by exists s|].
  destruct (run_SetControlPlane w s Hc) as (wd & E). cbn [set_each].
  rewrite run_bind, E. cbn [seq_run]. rewrite run_bind. unfold agreed. rewrite Hv.
  destruct (decide (w = v)) as [->|Hw].
  - rewrite bool_decide_eq_true_2 by auto.
    destruct (IH (set_world wd (set_config (set_version v (e2eConfig s)) s)))
      as (s' & E' & ? & ?); [done..|].
    exists s'. rewrite E'. cbn [seq_run map]. rewrite run_done, (bool_decide_eq_true_2 (v = v)) by done.
    done.
  - rewrite bool_decide_eq_false_2 by naive_solver.
    destruct (IH s) as (s' & E' & ? & ?); [done..|].
    exists s'. rewrite E'. cbn [seq_run map]. by rewrite run_done, (bool_decide_eq_false_2 (w = v)).
Qed.

(** A configuration file that is named and cannot be found stops the process with a
    nil pointer instead of the message meant for it, unless the checkout of the tests is
    known; so does one that cannot be examined for another reason. *)
Theorem lost_config_file_panics (s : Session W) root e w :
  ConfigFile (e2eConfig s) ≠ "" →
  os_Stat (path_Clean (ConfigFile (e2eConfig s))) (se_world s) = (inl e, w) →
  err_is e ≠ NotFound ∨ root = None →
  run (load_config_file root) s = (Panicked nil_deref, set_world w s).
Proof.
  intros Hf Hs Hr. unfold load_config_file. rewrite run_bind, run_reads. cbn [seq_run].
  rewrite decide_False by done. unfold load_file, Stat.
  rewrite !run_bind, run_kube_call. cbn [seq_run world session_world]. rewrite Hs.
  cbn [fst snd seq_run]. rewrite run_done. cbn [seq_run IsNotExist].
  destruct Hr as [Hr| ->]; [rewrite bool_decide_eq_false_2 by done|]; [done|].
  by destruct (bool_decide _).
Qed.
End Choice.

Definition quiet_files : Files Cluster :=
  {| os_Create _ c := (None, c); file_WriteString _ _ c := (None, c);
     file_Close _ c := (None, c); ioutil_WriteFile _ _ c := (None, c) |}.
(** A machine without the files that are named. *)
Definition bare_system : System Cluster :=
  {| os_LookupEnv _ := None; os_Getwd := ok "/tmp"; os_Stat _ := no; os_MkdirAll _ := ok tt |}.
Definition plain_config : ConfigFiles Cluster :=
  {| cleanenv_ReadEnv c := c; cleanenv_ReadConfig _ c w := ((c, None), w);
     yaml_Marshal _ := "" |}.
(** A test that has not used the control plane yet. *)
Definition new_session (version : string) : Session Cluster :=
  mkSession empty_cluster (demo_config version) true false None [] true false None 0.

Lemma control_plane_chosen_once_witness :
  let Hs := says "" in
  let s := new_session "" in
  run getControlPlane (set_config (demo_config "1.0.0") (run getControlPlane s).2) =
  (Panicked nil_deref, set_config (demo_config "1.0.0") (run getControlPlane s).2).
Proof.
  intros Hs s. subst Hs.
  destruct (control_plane_chosen_once (H:=says "") s eq_refl eq_refl) as [_ Hbad].
  apply Hbad. vm_compute. discriminate.
Defined.

Lemma version_set_once_witness :
  let Hf := quiet_files in let Hs := bare_system in let Hc := plain_config in
  ∃ s', run (set_each ["1.0.0"; "2.0.0"; "1.0.0"; ""]) (new_session "1.0.0") =
    (Ret [true; false; true; false], s') ∧
    MayastorVersion (e2eConfig s') = "1.0.0" ∧ config_once s' = true.
Proof.
  intros Hf Hs Hc. subst Hf Hs Hc.
  apply (version_set_once (H2:=quiet_files) (H3:=bare_system) (H4:=plain_config)
           "1.0.0" ["1.0.0"; "2.0.0"; "1.0.0"; ""] (new_session "1.0.0"));
    [reflexivity..|discriminate].
Defined.

Definition named_config : E2EConfig := set_files "ci.yaml" "" (demo_config "").
Lemma lost_config_file_panics_witness :
  let Hs := bare_system in let Hc := plain_config in
  let s := set_config named_config (new_session "") in
  run (load_config_file None) s = (Panicked nil_deref, s).
Proof.
  intros Hs Hc s. change s with (set_world empty_cluster s) at 2. subst Hs Hc.
  apply (lost_config_file_panics (H3:=bare_system) (H4:=plain_config) s None missing
           empty_cluster); [discriminate|reflexivity|by right].
Defined.
