(* ===== verification/E2ENodes.v ===== *)
(** * Nodes and the way to the control plane (common/k8stest)

    util_node.go, and msv.go, msn.go, msp.go: the calls of the control plane interface after
    the addresses it needs have been looked up once. *)

From stdpp Require Import base gmap strings list pretty.
From Stdlib Require Import Ascii.
From S2P Require Import Prelude GoLib Json Http Shell Kube MayastorClient GoTime.
From S2P Require Import K8sPods K8sLib Session ControlPlane.

Section E2ENodes.
Context {W : Type} `{Kube W} `{KubeApps W} `{Shell W} `{Http W} `{MapRange W}.
Notation M := (prog (Session W)).

(** ** util_node.go *)

Definition e2e_GetNodeLocs : M (list NodeLocation * error) :=
  '(nodeList, err) ← kube_call [] nodes_List;
  match err with
  | Some _ => mret ([], errorf "failed to list nodes")
  | None =>
      r ← for_range nodeList [] add_node_loc;
      match r with
      | inl locs => mret (locs, None)
      | inr err => mret ([], err)
      end
  end.

Definition GetNodeLocsMap : M (gmap string NodeLocation * error) :=
  '(nodeLocs, err) ← e2e_GetNodeLocs;
  match err with
  | Some e => mret (∅, Some e)
  | None => mret (foldl (λ m n, <[LocName n := n]> m) ∅ nodeLocs, None)
  end.

Definition find_loc (nodeName : string) (locs : list NodeLocation) : option NodeLocation :=
  snd <$> list_find (λ n, LocName n = nodeName) locs.

Definition GetNodeIPAddress (nodeName : string) : M (option string * error) :=
  '(nodeLocs, err) ← e2e_GetNodeLocs;
  match err with
  | Some e => mret (None, Some e)
  | None =>
      match find_loc nodeName nodeLocs with
      | Some nl => mret (Some (IPAddress nl), None)
      | None => mret (None, errorf ("node " +:+ nodeName +:+ " not found"))
      end
  end.

Definition mayastor_nodes (nodes : list NodeLocation) : list NodeLocation :=
  filter (λ n, MayastorNode_ n) nodes.

(** None when the nodes cannot be listed. *)
Definition GetMayastorNodeIPAddresses : M (list string) :=
  '(nodes, err) ← e2e_GetNodeLocs;
  match err with
  | Some _ => mret []
  | None => mret (map IPAddress (mayastor_nodes nodes))
  end.
Definition e2e_GetMayastorNodeNames : M (list string * error) :=
  '(nodes, err) ← e2e_GetNodeLocs;
  match err with
  | Some e => mret ([], Some e)
  | None => mret (map LocName (mayastor_nodes nodes), None)
  end.
Definition getClusterMayastorNodeIPAddrs : M (list string * error) :=
  '(nodes, err) ← e2e_GetNodeLocs;
  match err with
  | Some e => mret ([], Some e)
  | None => mret (map IPAddress (mayastor_nodes nodes), None)
  end.

(** kubectl, with the error it is given when it fails. *)
Definition kubectl (args : list string) (failure : goerror → string) : M error :=
  '(_, err) ← exec_cmd ("kubectl" :: args);
  mret (match err with Some e => errorf (failure e) | None => None end).

Definition LabelNode (nodename label value : string) : M error :=
  let labelAssign := label +:+ "=" +:+ value in
  kubectl ["label"; "node"; nodename; labelAssign; "--overwrite=true"]
    (λ e, "failed to label node " +:+ nodename +:+ ", label: " +:+ labelAssign +:+
          ", error: " +:+ err_text e).
Definition UnlabelNode (nodename label : string) : M error :=
  kubectl ["label"; "node"; nodename; label +:+ "-"]
    (λ e, "failed to remove label from node " +:+ nodename +:+ ", label: " +:+ label +:+
          ", error: " +:+ err_text e).

Definition master_name (nodes : list NodeLocation) : string :=
  match list_find (λ n, MasterNode n = true) nodes with Some (_, n) => LocName n | None => "" end.
Definition master_taint : string := "node-role.kubernetes.io/master:NoSchedule".

(** The first master is tainted, or the node without a name when there is none. *)
Definition taint_master (taint what : string) : M error :=
  '(nodes, err) ← e2e_GetNodeLocs;
  match err with
  | Some e => mret (errorf ("failed to get nodes, error: " +:+ err_text e))
  | None =>
      let masterNode := master_name nodes in
      kubectl ["taint"; "node"; masterNode; taint]
        (λ e, what +:+ " " +:+ masterNode +:+ ", error: " +:+ err_text e)
  end.
Definition AllowMasterScheduling : M error :=
  taint_master (master_taint +:+ "-")
    "failed to remove  no schedule toleration from master node".
Definition RemoveMasterScheduling : M error :=
  taint_master master_taint "failed to add  no schedule toleration to master node".

(** Every node that is not a master is labelled, also after one that failed. *)
Definition EnsureNodeLabels : M error :=
  '(nodes, err) ← e2e_GetNodeLocs;
  match err with
  | Some e => mret (Some e)
  | None =>
      c ← Config;
      r ← for_range nodes [] (λ node errs,
            if MasterNode node then mret (Next errs)
            else
              err ← LabelNode (LocName node) (EngineLabel (cfg_Product c))
                      (EngineLabelValue (cfg_Product c));
              mret (Next (Accumulate err errs)));
      errs ← no_return r;
      mret (GetError errs)
  end.

Definition NodeReadyType : string := "Ready".
Definition node_is_master (n : Node) : bool :=
  existsb (λ t, bool_decide (TaintKey t = "node-role.kubernetes.io/master")) (Taints n).
(** The status of the condition is not looked at. *)
Definition node_ready (n : Node) : bool :=
  existsb (λ c, (bool_decide (CondReason c = "KubeletReady") || node_is_master n) &&
                bool_decide (CondType c = NodeReadyType)) (NodeConditions n).
Definition zero_node : Node := mkNode zero_meta [] [] [].

Definition IsNodeReady (nodeName : string) (node : option Node) : M (bool * error) :=
  '(node, err) ← match node with
                 | Some n => mret (n, None)
                 | None => kube_call zero_node (nodes_Get nodeName)
                 end;
  match err with
  | Some e => mret (false, Some e)
  | None => mret (node_ready node, None)
  end.

Definition AreNodesReady : M (bool * error) :=
  '(nodes, err) ← kube_call [] nodes_List;
  match err with
  | Some e => mret (false, Some e)
  | None =>
      r ← for_range nodes tt (λ node _,
            '(readyStatus, err) ← IsNodeReady (Name (node_meta node)) (Some node);
            match err with
            | Some e => mret (Return (false, Some e))
            | None => if readyStatus : bool then mret (Next tt) else mret (Return (false, None))
            end);
      match r with inl _ => mret (true, None) | inr res => mret res end
  end.

(** ** msv.go, msn.go, msp.go *)

(** The addresses of the masters; when the nodes cannot be listed there are none, for good. *)
Definition EnsureNodeAddressesAreSet : M unit :=
  once_Do addrs_once set_addrs_once (
    '(nodes, err) ← e2e_GetNodeLocs;
    SetIpNodeAddresses (map IPAddress (filter (λ n, MasterNode n) nodes))).

Definition e2e_GetMSV (uuid : string) : M (option CmVolume * error) :=
  EnsureNodeAddressesAreSet ;; cp_GetMSV uuid.
Definition e2e_GetMsvNodes (uuid : string) : M (string * list string) :=
  EnsureNodeAddressesAreSet ;; cp_GetMsvNodes uuid.
Definition e2e_DeleteMsv (volName : string) : M error :=
  EnsureNodeAddressesAreSet ;; cp_DeleteMsv volName.
Definition e2e_ListMsvs : M (list CmVolume * error) :=
  EnsureNodeAddressesAreSet ;; cp_ListMsvs.
Definition e2e_SetMsvReplicaCount (uuid : string) (replicaCount : Z) : M error :=
  EnsureNodeAddressesAreSet ;; cp_SetMsvReplicaCount uuid replicaCount.
Definition e2e_GetMsvState (uuid : string) : M (string * error) :=
  EnsureNodeAddressesAreSet ;; cp_GetMsvState uuid.
Definition e2e_GetMsvReplicas (volName : string) : M (list CmReplica * error) :=
  EnsureNodeAddressesAreSet ;; cp_GetMsvReplicas volName.
Definition e2e_GetMsvNexusChildren (volName : string) : M (list CmNexusChild * error) :=
  EnsureNodeAddressesAreSet ;; cp_GetMsvNexusChildren volName.
Definition e2e_GetMsvNexusState (uuid : string) : M (string * error) :=
  EnsureNodeAddressesAreSet ;; cp_GetMsvNexusState uuid.
Definition e2e_IsMsvPublished (uuid : string) : M bool :=
  EnsureNodeAddressesAreSet ;; cp_IsMsvPublished uuid.
Definition e2e_IsMsvDeleted (uuid : string) : M bool :=
  EnsureNodeAddressesAreSet ;; cp_IsMsvDeleted uuid.
Definition e2e_CheckForMsvs : M (bool * error) :=
  EnsureNodeAddressesAreSet ;; cp_CheckForMsvs.
Definition e2e_CheckAllMsvsAreHealthy : M error :=
  EnsureNodeAddressesAreSet ;; cp_CheckAllMsvsAreHealthy.
Definition e2e_GetMSN (nodeName : string) : M (option CmNode * error) :=
  EnsureNodeAddressesAreSet ;; cp_GetMSN nodeName.
Definition e2e_ListMsns : M (list CmNode * error) :=
  EnsureNodeAddressesAreSet ;; cp_ListMsns.
Definition e2e_GetMsNodeStatus (nodeName : string) : M (string * error) :=
  EnsureNodeAddressesAreSet ;; cp_GetMsNodeStatus nodeName.
Definition e2e_GetMsPool (poolName : string) : M (option CmPool * error) :=
  EnsureNodeAddressesAreSet ;; cp_GetMsPool poolName.
Definition e2e_ListMsPools : M (list CmPool * error) :=
  EnsureNodeAddressesAreSet ;; cp_ListMsPools.
End E2ENodes.
