(* ===== verification/E2EPods.v ===== *)
(** * Test pods (common/k8stest/util_testpods.go, util_pod.go) *)

From stdpp Require Import base gmap strings list pretty.
From Stdlib Require Import Ascii.
From S2P Require Import Prelude GoLib Json Http Shell Kube MayastorClient GoTime.
From S2P Require Import K8sPods K8sLib K8sApps Session ControlPlane.

(** ** Pod definitions *)

Definition set_host_network (p : Pod) : Pod :=
  on_spec (λ s, mkPodSpec (Containers s) (Volumes s) (Tolerations s) (NodeSelector s)
    (NodeName s) (RestartPolicy s) (ServiceAccountName s) true) p.

Section E2EPods.
Context {W : Type} `{Kube W} `{KubeApps W} `{Shell W} `{Clock W}.
Notation M := (prog (Session W)).

(** The builder of K8sPods.v, but for the network of the host. *)
Definition e2e_Build (b : PodBuilder) : M (option Pod * error) :=
  c ← Config;
  let pod := if HostNetworkingRequired (cfg_Platform c)
             then set_host_network (pb_pod b) else pb_pod b in
  match pb_errs b with
  | [] => mret (Some pod, None)
  | errs => mret (None, errorf (fmt_errs errs))
  end.

Definition e2e_MakeFioContainer (name : string) (args : list string) : M Container :=
  image ← GetFioImage;
  mret (mkContainer name image PullIfNotPresent (default_args args) (Some root_context) [] []).
Definition MakeFsxContainer (name : string) (args : list string) : M Container :=
  image ← GetFsxImage;
  mret (mkContainer name image PullIfNotPresent args (Some root_context) [] []).

Definition CreateFioPodDef (podName volName : string) (volType : VolumeType)
    (nameSpace : string) : M Pod :=
  image ← GetFioImage;
  c ← Config;
  let mounts := if decide (volType = VolFileSystem)
                then [mkVolumeMount "ms-volume" FioFsMountPoint] else [] in
  let devices := if decide (volType = VolRawBlock)
                 then [mkVolumeDevice "ms-volume" FioBlockFilename] else [] in
  mret (mkPod (mkMeta podName "" nameSpace "" {[ "app" := "fio" ]} ∅ None 0 None)
    (mkPodSpec [mkContainer podName image PullAlways ["sleep"; "1000000"] None mounts devices]
       [mkVolume "ms-volume" (Some volName)] [] ∅ "" RestartPolicyNever ""
       (HostNetworkingRequired (cfg_Platform c)))
    zero_podstatus).

Definition e2e_CreatePod (podDef : Pod) (nameSpace : string) : M (Pod * error) :=
  kube_call zero_pod (pods_Create nameSpace podDef).
Definition e2e_DeletePod (podName nameSpace : string) : M error :=
  kube_do (pods_Delete nameSpace podName).

(** The pod is defined for [nameSpace] and sent to the default one. *)
Definition CreateFioPod (podName volName : string) (volType : VolumeType) (nameSpace : string)
    : M (Pod * error) :=
  podDef ← CreateFioPodDef podName volName volType nameSpace;
  e2e_CreatePod podDef NSDefault.

Definition fio_command (podName : string) (duration : Z) (filename : string) (sizeMb : Z)
    (args : list string) : list string :=
  (["kubectl"; "exec"; "-it"; podName; "--"; "fio"; "--name=benchtest"; "--verify=crc32";
    "--verify_fatal=1"; "--verify_async=2"; "--filename=" +:+ filename; "--direct=1";
    "--rw=randrw"; "--ioengine=libaio"; "--bs=4k"; "--iodepth=16"; "--numjobs=1";
    "--time_based"; "--runtime=" +:+ Itoa duration] ++
   (if decide (sizeMb = 0%Z) then [] else ["--size=" +:+ Itoa sizeMb +:+ "m"]) ++ args)%list.
Definition RunFio (podName : string) (duration : Z) (filename : string) (sizeMb : Z)
    (args : list string) : M (string * error) :=
  exec_cmd (fio_command podName duration filename sizeMb args).

(** ** What pods are doing *)

(** The running pod, or the last one there is. *)
Definition running_of (pods : list Pod) : string * bool :=
  match list_find (λ p, Phase (pod_status p) = PodRunning) pods with
  | Some (_, p) => (Name (pod_meta p), true)
  | None => (default "" (Name ∘ pod_meta <$> last pods), false)
  end.
Definition IsPodWithLabelsRunning (labels namespace : string) : M (string * bool * error) :=
  '(pods, err) ← kube_call [] (pods_Select namespace labels);
  match err with
  | Some e => mret ("", false, Some e)
  | None => mret (running_of pods, None)
  end.

Definition ForceDeleteTerminatingPods (labels namespace : string) : M error :=
  '(pods, err) ← kube_call [] (pods_Select namespace labels);
  match err with
  | Some e => mret (Some e)
  | None =>
      r ← for_range pods tt (λ pod _,
            match DeletionTimestamp (pod_meta pod) with
            | None => mret (Next tt)
            | Some _ =>
                err ← kube_do (pods_DeleteNow namespace (Name (pod_meta pod)));
                match err with
                | Some e => mret (Return (Some e))
                | None => mret (Next tt)
                end
            end);
      match r with inl _ => mret None | inr err => mret err end
  end.

(** The phase of the last pod on each node. *)
Definition GetNodeListForPods (labels namespace : string) : M (gmap string string * error) :=
  '(pods, err) ← kube_call [] (pods_Select namespace labels);
  match err with
  | Some e => mret (∅, Some e)
  | None => mret (foldl (λ m p, <[NodeName (pod_spec p) := Phase (pod_status p)]> m) ∅ pods,
                  None)
  end.

Definition WaitPodRunning (podName nameSpace : string) (timeoutSecs : Z) : M bool :=
  r ← for_upto 0 ((timeoutSecs + 3 - 1) `quot` 3) tt (λ _ _,
        running ← IsPodRunning podName nameSpace;
        if running : bool then mret (Break tt)
        else time_Sleep (3 * Second) ;; mret (Next tt));
  _ ← no_return r;
  IsPodRunning podName nameSpace.

Definition PodScheduled : string := "PodScheduled".
Definition GetPodScheduledStatus (podName nameSpace : string) : M (string * string * error) :=
  '(pod, err) ← kube_call zero_pod (pods_Get nameSpace podName);
  match err with
  | Some _ => mret (ConditionUnknown, "", errorf "failed to get pod")
  | None =>
      match list_find (λ c, CondType c = PodScheduled) (PodConditions (pod_status pod)) with
      | Some (_, c) => mret (CondStatus c, CondReason c, None)
      | None => mret (ConditionUnknown, "", errorf "failed to find pod scheduled condition")
      end
  end.

Definition GetPodHostIp (podName nameSpace : string) : M (string * error) :=
  '(pod, err) ← kube_call zero_pod (pods_Get nameSpace podName);
  match err with
  | Some e => mret ("", Some e)
  | None => mret (HostIP (pod_status pod), None)
  end.

(** The container that bears the name of the pod decides when it has completed. *)
Definition completed_phase (podName : string) (pod : Pod) : string :=
  match list_find (λ cs, CsName cs = podName ∧ CsReady cs = false ∧
                         fst <$> Terminated cs = Some "Completed")
          (ContainerStatuses (pod_status pod)) with
  | Some (_, cs) =>
      if decide (snd <$> Terminated cs = Some 0%Z) then PodSucceeded else PodFailed
  | None => Phase (pod_status pod)
  end.
Definition CheckPodContainerCompleted (podName nameSpace : string) : M (string * error) :=
  '(pod, err) ← kube_call zero_pod (pods_Get nameSpace podName);
  match err with
  | Some e => mret (PodUnknown, Some e)
  | None => mret (completed_phase podName pod, None)
  end.
Definition CheckPodCompleted : string → string → M (string * error) :=
  CheckPodContainerCompleted.

(** ** The health of test pods *)

Definition test_namespace (ns : string) : bool :=
  HasPrefix ns NSE2EPrefix || bool_decide (ns = NSDefault).

(** A namespace whose pods cannot be listed counts as empty. *)
Definition CheckForTestPods : M (bool * error) :=
  '(nameSpaces, err) ← kube_call [] ns_List;
  match err with
  | Some e => mret (false, Some e)
  | None =>
      r ← for_range (filter (λ ns, test_namespace ns) nameSpaces) false (λ ns found,
            '(pods, err) ← kube_call [] (pods_List ns);
            mret (Next (found || bool_decide (err = None ∧ pods ≠ []))));
      found ← no_return r;
      mret (found, None)
  end.

Definition isPodHealthCheckCandidate (podName namespace : string) : M bool :=
  ns ← e2e_NSMayastor;
  mret (if decide (namespace = ns) then negb (HasPrefix podName "mayastor-etcd") else true).

(** A message for every restart and for every container of a pod that failed. *)
Definition pod_complaints (pod : Pod) : list string :=
  ContainerStatuses (pod_status pod) ≫= (λ cs,
    (if decide (RestartCount cs = 0%Z) then []
     else [Name (pod_meta pod) +:+ " restarted " +:+ Itoa (RestartCount cs) +:+ " times"]) ++
    (if decide (Phase (pod_status pod) = PodFailed ∨ Phase (pod_status pod) = PodUnknown)
     then [Name (pod_meta pod) +:+ " phase is " +:+ Phase (pod_status pod)] else []))%list.

Definition CheckTestPodsHealth (namespace : string) : M error :=
  '(podList, err) ← kube_call [] (pods_List namespace);
  match err with
  | Some _ => mret (errorf "failed to list pods")
  | None =>
      r ← for_range podList [] (λ pod errorStrings,
            ok ← isPodHealthCheckCandidate (Name (pod_meta pod)) namespace;
            mret (Next (if ok : bool then errorStrings ++ pod_complaints pod
                        else errorStrings)%list));
      errorStrings ← no_return r;
      mret (match errorStrings with [] => None | _ => errorf (Join errorStrings "; ") end)
  end.

(** ** Restarting the pods of Mayastor *)

Definition e2e_listMayastorPods (timestamp : option Z) : M (list string * error) :=
  ns ← e2e_NSMayastor;
  '(pods, err) ← kube_call [] (pods_List ns);
  match err with
  | Some e => mret ([], Some e)
  | None => mret (map (λ p, Name (pod_meta p))
                    (filter (λ p, negb (HasPrefix (Name (pod_meta p)) "mayastor-etcd") &&
                       match timestamp with
                       | None => true
                       | Some t => bool_decide (Phase (pod_status p) = PodRunning) &&
                                   bool_decide (t < CreationTimestamp (pod_meta p))%Z
                       end) pods), None)
  end.

(** As many pods as were counted when the tests began are enough. *)
Definition e2e_RestartMayastorPods (timeoutSecs : Z) : M error :=
  ns ← e2e_NSMayastor;
  '(podNames, err) ← e2e_listMayastorPods None;
  match err with
  | Some e => mret (Some e)
  | None =>
      now ← time_Now;
      time_Sleep (1 * Second) ;;
      r ← for_range podNames (None : error) (λ podName err,
            delErr ← kube_do (pods_Delete ns podName);
            mret (Next (match delErr with Some e => Some e | None => err end)));
      err ← no_return r;
      match err with
      | Some e => mret (Some e)
      | None =>
          r ← for_upto 1 ((timeoutSecs + 10 - 1) `quot` 10) (None : error) (λ _ _,
                time_Sleep (10 * Second) ;;
                '(newPodNames, err) ← e2e_listMayastorPods (Some now);
                n ← reads mayastorInitialPodCount;
                if decide (err = None ∧ (n ≤ Z.of_nat (length newPodNames))%Z)
                then mret (Return tt) else mret (Next err));
          match r with
          | inr _ => mret None
          | inl err => mret (errorf ("restart failed incomplete error=" +:+ fmt_error err))
          end
      end
  end.

Definition GetCoreAgentNodeName : M (string * error) :=
  ns ← e2e_NSMayastor;
  '(pods, err) ← kube_call [] (pods_List ns);
  match err with
  | Some e => mret ("", Some e)
  | None =>
      mret (match list_find (λ p, HasPrefix (Name (pod_meta p)) "core-agent" ∧
                                  Phase (pod_status p) = PodRunning) pods with
            | Some (_, p) => NodeName (pod_spec p)
            | None => ""
            end, None)
  end.

(** Thirty looks at each label, ten seconds apart; a round that saw the pods elsewhere is
    no error. *)
Definition VerifyPodsOnNode (podLabelsList : list string) (nodeName namespace : string)
    : M error :=
  r ← for_range podLabelsList tt (λ label _,
        r ← for_upto 0 (300 `quot` 10) (None : error) (λ _ _,
              '(nodeList, err) ← GetNodeListForPods ("app=" +:+ label) namespace;
              if decide (err = None ∧ size nodeList = 1%nat ∧
                         nodeList !! nodeName = Some PodRunning)
              then mret (Break err)
              else time_Sleep (10 * Second) ;; mret (Next err));
        err ← no_return r;
        match err with
        | Some e => mret (Return (errorf ("failed to verify pod on node " +:+ nodeName +:+
                      ", podLabel: " +:+ label +:+ ", error: " +:+ err_text e)))
        | None => mret (Next tt)
        end);
  match r with inl _ => mret None | inr err => mret err end.
End E2EPods.
