(* ===== verification/E2EUtil.v ===== *)
(** * The helpers of the end-to-end tests (common/k8stest/util.go) *)

From stdpp Require Import base gmap strings list pretty.
From Stdlib Require Import Ascii.
From S2P Require Import Prelude GoLib Json Http Shell Kube MayastorClient GoTime.
From S2P Require Import K8sPods K8sLib K8sApps Session ControlPlane E2ENodes E2EPods.

(** [regexp.Compile]: the matcher, or why there is none. *)
Class Regexps := { regexp_Compile : string → goerror + (string → bool) }.

Section E2EUtil.
Context {W : Type} `{Kube W} `{KubeApps W} `{Shell W} `{Http W} `{MapRange W} `{Clock W}
  `{Grpc W} `{Files W} `{System W} `{ConfigFiles W} `{Regexps}.
Notation M := (prog (Session W)).

Definition regexp_MustCompile (re : string) : M (string → bool) :=
  match regexp_Compile re with inl e => Panic (err_text e) | inr m => mret m end.

(** ** Yaml files, storage classes, namespaces *)

Definition kubectl_yaml (verb filename dir : string) : M error :=
  '(out, err) ← exec_in dir ["kubectl"; verb; "-f"; filename];
  mret (match err with
        | Some e => errorf ("failed to apply yaml file " +:+ filename +:+ " : Output: " +:+ out +:+
                            " : Error: " +:+ err_text e)
        | None => None
        end).
Definition KubeCtlApplyYaml : string → string → M error := kubectl_yaml "apply".
Definition KubeCtlDeleteYaml : string → string → M error := kubectl_yaml "delete".

(** A class of the product that is configured (util_storageclass.go); the rest of the builder
    is that of K8sLib.v. *)
Definition e2e_NewScBuilder : M ScBuilder :=
  c ← Config;
  mret (sc_WithReplicas (DefaultReplicaCount c)
          (sc_WithProvisioner (CsiProvisioner (cfg_Product c)) (mkScBuilder zero_sc []))).
Definition MkStorageClass (scName : string) (scReplicas : Z) (protocol nameSpace : string)
    : M error :=
  b ← e2e_NewScBuilder;
  BuildAndCreate (sc_WithNamespace nameSpace (sc_WithProtocol protocol
    (sc_WithReplicas scReplicas (sc_WithName scName b)))).

Definition is_not_found (err : error) : bool :=
  match err with Some e => bool_decide (err_is e = NotFound) | None => false end.
Definition RmStorageClass (scName : string) : M error :=
  deleteErr ← kube_do (sc_Delete scName);
  mret (if is_not_found deleteErr then None else deleteErr).

Definition CheckForStorageClasses : M (bool * error) :=
  c ← Config;
  '(scs, err) ← kube_call [] sc_List;
  mret (existsb (λ sc, bool_decide (Provisioner sc = CsiProvisioner (cfg_Product c))) scs, err).

Definition MkNamespace (nameSpace : string) : M error := kube_do (ns_Create nameSpace).
Definition EnsureNamespace (nameSpace : string) : M error :=
  err ← kube_do (ns_Get nameSpace);
  match err with None => mret None | Some _ => MkNamespace nameSpace end.
Definition RmNamespace (nameSpace : string) : M error := kube_do (ns_Delete nameSpace).

(** ** Node selectors and replication *)

Definition ApplyNodeSelectorToPodObject (label value : string) : Pod → Pod :=
  on_spec (λ s, mkPodSpec (Containers s) (Volumes s) (Tolerations s)
    (<[label := value]> (NodeSelector s)) (NodeName s) (RestartPolicy s)
    (ServiceAccountName s) (HostNetwork s)).

Definition dep_select (sel : option (gmap string string)) (d : Deployment) : Deployment :=
  mkDeployment (dep_meta d) (dep_Replicas d) sel (dep_Containers d) (dep_Conditions d).
Definition dep_scale (replicas : option Z) (d : Deployment) : Deployment :=
  mkDeployment (dep_meta d) replicas (dep_NodeSelector d) (dep_Containers d) (dep_Conditions d).
Definition sts_scale (replicas : option Z) (s : StatefulSet) : StatefulSet :=
  mkStatefulSet (sts_meta s) replicas (StsReplicas s) (StsReady s) (StsCurrent s).

Definition dep_failure (what name ns : string) (e : goerror) : error :=
  errorf ("failed to " +:+ what +:+ " deployment " +:+ name +:+ " : ns: " +:+ ns +:+
          " : Error: " +:+ err_text e).

Definition ApplyNodeSelectorToDeployment (deploymentName namespace label value : string)
    : M error :=
  '(deployment, err) ← kube_call zero_deployment (dep_Get namespace deploymentName);
  match err with
  | Some e => mret (dep_failure "get" deploymentName namespace e)
  | None =>
      '(_, err) ← kube_call zero_deployment (dep_Update namespace
        (dep_select (Some (<[label := value]> (default ∅ (dep_NodeSelector deployment))))
           deployment));
      mret (match err with
            | Some e => dep_failure "apply node selector to" deploymentName namespace e
            | None => None end)
  end.

Definition RemoveAllNodeSelectorsFromDeployment (deploymentName namespace : string) : M error :=
  '(deployment, err) ← kube_call zero_deployment (dep_Get namespace deploymentName);
  match err with
  | Some e => mret (dep_failure "get" deploymentName namespace e)
  | None =>
      match dep_NodeSelector deployment with
      | None => mret None
      | Some _ =>
          '(_, err) ← kube_call zero_deployment (dep_Update namespace
                        (dep_select None deployment));
          mret (match err with
                | Some e => dep_failure "remove node selector from" deploymentName namespace e
                | None => None end)
      end
  end.

(** Ten attempts to change an object that others may change meanwhile.  The error of an
    update is a variable of the round: after the loop there is none. *)
Definition set_replication {A} (what name namespace : string) (zero : A)
    (get : answer W A) (update : A → answer W A) (scale : A → A) : M error :=
  r ← for_upto 0 10 tt (λ _ _,
        '(obj, err) ← kube_call zero get;
        match err with
        | Some e => mret (Return (errorf ("failed to get " +:+ what +:+ ", name: " +:+ name +:+
                            ", namespace: " +:+ namespace +:+ ", error: " +:+ err_text e)))
        | None =>
            '(_, err) ← kube_call zero (update (scale obj));
            match err with
            | None => mret (Break tt)
            | Some _ => time_Sleep (1 * Second) ;; mret (Next tt)
            end
        end);
  match r with inl _ => mret None | inr err => mret err end.
Definition SetDeploymentReplication (deploymentName namespace : string) (replicas : option Z)
    : M error :=
  set_replication "deployment" deploymentName namespace zero_deployment
    (dep_Get namespace deploymentName) (dep_Update namespace) (dep_scale replicas).
Definition SetStatefulsetReplication (statefulsetName namespace : string)
    (replicas : option Z) : M error :=
  set_replication "statefulset" statefulsetName namespace zero_statefulset
    (sts_Get namespace statefulsetName) (sts_Update namespace) (sts_scale replicas).

Definition SetReplication (appName namespace : string) (replicas : option Z) : M error :=
  let labels := "app=" +:+ appName in
  '(deployments, err) ← kube_call [] (dep_List namespace labels);
  match err with
  | Some e => mret (errorf ("failed to list deployment, namespace: " +:+ namespace +:+
                            ", error: " +:+ err_text e))
  | None =>
      '(sts, err) ← kube_call [] (sts_List namespace labels);
      match err with
      | Some e => mret (errorf ("failed to list statefulset, namespace: " +:+ namespace +:+
                                ", error: " +:+ err_text e))
      | None =>
          match deployments, sts with
          | [d], _ => SetDeploymentReplication (Name (dep_meta d)) namespace replicas
          | _, [s] => SetStatefulsetReplication (Name (sts_meta s)) namespace replicas
          | _, _ => mret (errorf ("app " +:+ appName +:+
                                  " is not deployed as a deployment or sts"))
          end
      end
  end.

(** ** Pods on a node *)

Definition on_node (validID : string → bool) (nodeName : string) (p : Pod) : bool :=
  bool_decide (NodeName (pod_spec p) = nodeName) && validID (Name (pod_meta p)).

Definition WaitForPodAbsentFromNode (podNameRegexp namespace nodeName : string)
    (timeoutSeconds : Z) : M error :=
  validID ← regexp_MustCompile podNameRegexp;
  r ← for_upto 0 timeoutSeconds false (λ _ podAbsent,
        if podAbsent : bool then mret (Break true)
        else
          time_Sleep Second ;;
          '(podList, err) ← kube_call [] (pods_List namespace);
          match err with
          | Some _ => mret (Return (errorf "failed to list pods"))
          | None => mret (Next (negb (existsb (on_node validID nodeName) podList)))
          end);
  match r with
  | inl podAbsent =>
      mret (if podAbsent : bool then None else errorf "timed out waiting for pod")
  | inr err => mret err
  end.

(** The phase of the first such pod, if there is one. *)
Definition getPodStatus (podNameRegexp namespace nodeName : string)
    : M (option string * error) :=
  validID ← regexp_MustCompile podNameRegexp;
  '(podList, err) ← kube_call [] (pods_List namespace);
  match err with
  | Some e => mret (None, errorf ("failed to list pods , namespace: " +:+ namespace +:+
                                  ", error: " +:+ err_text e))
  | None =>
      mret ((λ '(_, p), Phase (pod_status p)) <$>
              list_find (λ p, on_node validID nodeName p = true) podList, None)
  end.

Definition wait_phase (podNameRegexp namespace nodeName : string) (timeoutSeconds : Z)
    (wanted : option string → bool) (timed_out : string) : M error :=
  r ← for_upto 0 timeoutSeconds tt (λ _ _,
        '(stat, err) ← getPodStatus podNameRegexp namespace nodeName;
        match err with
        | Some e => mret (Return (errorf ("failed to get pod status, podRegexp: " +:+
            podNameRegexp +:+ ", namespace: " +:+ namespace +:+ ", nodename: " +:+ nodeName +:+
            ", error: " +:+ err_text e)))
        | None =>
            if wanted stat then mret (Return None)
            else time_Sleep (1 * Second) ;; mret (Next tt)
        end);
  match r with inl _ => mret (errorf timed_out) | inr err => mret err end.
Definition WaitForPodRunningOnNode (podNameRegexp namespace nodeName : string)
    (timeoutSeconds : Z) : M error :=
  wait_phase podNameRegexp namespace nodeName timeoutSeconds
    (λ stat, bool_decide (stat = Some PodRunning)) "timed out waiting for pod to be running".
Definition WaitForPodNotRunningOnNode (podNameRegexp namespace nodeName : string)
    (timeoutSeconds : Z) : M error :=
  wait_phase podNameRegexp namespace nodeName timeoutSeconds
    (λ stat, bool_decide (stat ≠ Some PodRunning)) "timed out waiting for pod to stop running".

Definition PodPresentOnNode (podNameRegexp namespace nodeName : string) : M (bool * error) :=
  validID ← regexp_MustCompile podNameRegexp;
  '(podList, err) ← kube_call [] (pods_List namespace);
  match err with
  | Some e => mret (false, errorf ("failed to list pod, podRegexp: " +:+ podNameRegexp +:+
      ", namespace: " +:+ namespace +:+ ", nodename: " +:+ nodeName +:+ ", error: " +:+
      err_text e))
  | None => mret (existsb (on_node validID nodeName) podList, None)
  end.

(** ** Readiness *)

Definition available (d : DaemonSet * error) : Z :=
  match d.2 with Some _ => (-1)%Z | None => NumberAvailable d.1 end.
(** The name of the daemon set is fixed here, whatever the configuration says. *)
Definition mayastorReadyPodCount : M Z :=
  ns ← e2e_NSMayastor;
  d ← kube_call zero_daemonset (ds_Get ns "mayastor");
  mret (available d).
Definition mayastorCSIReadyPodCount : M Z :=
  c ← Config;
  d ← kube_call zero_daemonset (ds_Get (ProductNamespace (cfg_Product c))
        (CsiDaemonsetName (cfg_Product c)));
  mret (available d).

Definition msnOnlineCount : M Z :=
  '(msns, err) ← ListMsNodes;
  mret (match err with
        | Some _ => (-1)%Z
        | None => Z.of_nat (length (filter (λ n, MsnStatus n = "online") msns))
        end).

(** [(duration + sleepTime - 1) / sleepTime]. *)
Definition poll_count (sleepTime duration : Z) : M Z :=
  if decide (sleepTime = 0%Z) then Panic "integer divide by zero"
  else mret ((duration + sleepTime - 1) `quot` sleepTime)%Z.

Definition instances_ready (numMayastorInstances : Z) : M bool :=
  v ← cp_MajorVersion;
  if decide (v = 0%Z) then
    n ← mayastorReadyPodCount;
    if negb (bool_decide (n = numMayastorInstances)) then mret false
    else
      csi ← mayastorCSIReadyPodCount;
      if negb (bool_decide (numMayastorInstances ≤ csi)%Z) then mret false
      else
        online ← msnOnlineCount;
        mret (bool_decide (online = numMayastorInstances))
  else if decide (v = 1%Z) then
    n ← mayastorReadyPodCount;
    if negb (bool_decide (n = numMayastorInstances)) then mret false
    else
      csi ← mayastorCSIReadyPodCount;
      mret (bool_decide (numMayastorInstances ≤ csi)%Z)
  else Panic "unexpected control plane version".

(** Sleep and look, until it is ready or the rounds are over. *)
Definition await_ready (sleepTime duration : Z) (look : M bool) : M bool :=
  count ← poll_count sleepTime duration;
  r ← for_upto 0 count false (λ _ ready,
        if ready : bool then mret (Break true)
        else time_Sleep (sleepTime * Second) ;; ready ← look; mret (Next ready));
  no_return r.

Definition MayastorInstancesReady (numMayastorInstances sleepTime duration : Z)
    : M (bool * error) :=
  ready ← await_ready sleepTime duration (instances_ready numMayastorInstances);
  mret (ready, None).

Definition MayastorReady (sleepTime duration : Z) : M (bool * error) :=
  '(nodes, err) ← e2e_GetNodeLocs;
  match err with
  | Some e => mret (false, Some e)
  | None =>
      MayastorInstancesReady
        (Z.of_nat (length (filter (λ n, MayastorNode_ n && negb (MasterNode n)) nodes)))
        sleepTime duration
  end.

Definition DeploymentReady (deploymentName namespace : string) : M bool :=
  '(d, err) ← kube_call zero_deployment (dep_Get namespace deploymentName);
  match err with
  | Some _ => mret false
  | None => mret (existsb (λ c, bool_decide (CondType c = DeploymentAvailable) &&
                                bool_decide (CondStatus c = ConditionTrue)) (dep_Conditions d))
  end.
Definition daemonset_ready (d : DaemonSet) : bool :=
  bool_decide (DesiredNumberScheduled d = CurrentNumberScheduled d) &&
  bool_decide (DesiredNumberScheduled d = NumberReady d) &&
  bool_decide (DesiredNumberScheduled d = NumberAvailable d).
Definition DaemonSetReady (daemonName namespace : string) : M bool :=
  '(d, err) ← kube_call zero_daemonset (ds_Get namespace daemonName);
  mret (match err with Some _ => false | None => daemonset_ready d end).
Definition statefulset_ready (s : StatefulSet) : bool :=
  bool_decide (StsReplicas s = StsReady s) && bool_decide (StsReady s = StsCurrent s) &&
  negb (bool_decide (StsReady s = 0%Z)).
Definition StatefulSetReady (statefulSetName namespace : string) : M bool :=
  '(s, err) ← kube_call zero_statefulset (sts_Get namespace statefulSetName);
  mret (match err with Some _ => false | None => statefulset_ready s end).

Definition e2e_contains (l : list string) (str : string) : bool := bool_decide (str ∈ l).

(** Those that are not part of the control plane are passed over. *)
Definition all_ready (skip : list string) (names : list string) (ready : string → M bool)
    (sofar : bool) : M bool :=
  r ← for_range names sofar (λ name acc,
        if e2e_contains skip name then mret (Next acc)
        else tmp ← ready name; mret (Next (acc && tmp)));
  no_return r.

Definition control_plane_look (sleepTime : Z) : M bool :=
  c ← Config;
  let ns := ProductNamespace (cfg_Product c) in
  let skip := [DataPlaneName (cfg_Product c); DataPlaneCsi (cfg_Product c);
               DataPlaneNats (cfg_Product c)] in
  '(deployments, err) ← kube_call [] (dep_List ns "");
  match err with
  | Some _ => time_Sleep (sleepTime * Second) ;; mret false
  | None =>
      '(daemonsets, err) ← kube_call [] (ds_List ns);
      match err with
      | Some _ => time_Sleep (sleepTime * Second) ;; mret false
      | None =>
          '(statefulsets, err) ← kube_call [] (sts_List ns "");
          match err with
          | Some _ => time_Sleep (sleepTime * Second) ;; mret false
          | None =>
              ready ← all_ready skip (map (Name ∘ dep_meta) deployments)
                        (λ n, DeploymentReady n ns) true;
              ready ← all_ready skip (map (Name ∘ ds_meta) daemonsets)
                        (λ n, DaemonSetReady n ns) ready;
              all_ready skip (map (Name ∘ sts_meta) statefulsets)
                (λ n, StatefulSetReady n ns) ready
          end
      end
  end.
Definition ControlPlaneReady (sleepTime duration : Z) : M bool :=
  _ ← poll_count sleepTime duration;
  v ← cp_MajorVersion;
  if decide (v = 1%Z) then await_ready sleepTime duration (control_plane_look sleepTime)
  else mret false.

(** The error of listing the nodes ends the wait. *)
Definition MayastorNodeReady (sleepTime duration : Z) : M (bool * error) :=
  count ← poll_count sleepTime duration;
  r ← for_upto 0 count false (λ _ ready,
        if ready : bool then mret (Break true)
        else
          time_Sleep (sleepTime * Second) ;;
          '(nodeList, err) ← e2e_ListMsns;
          match err with
          | Some e => mret (Return (false, Some e))
          | None =>
              r ← for_range nodeList 0%Z (λ node n,
                    online ← via_get (cpi_NodeStateOnline _);
                    mret (Next (if decide (cs_Status (cm_NodeState node) = online)
                                then n + 1 else n)%Z));
              readyCount ← no_return r;
              n ← mayastorReadyPodCount;
              mret (Next (bool_decide (n = Z.of_nat (length nodeList) ∧ readyCount = n)))
          end);
  match r with inl ready => mret (ready, None) | inr res => mret res end.

(** ** The daemons of Mayastor *)

Definition in_cluster {A} (zero : A) (f : list string → M (A * error)) : M (A * error) :=
  '(nodeAddrs, err) ← getClusterMayastorNodeIPAddrs;
  match err with
  | None => f nodeAddrs
  | Some e => mret (zero, Some e)
  end.
Definition e2e_ListPoolsInCluster : M (list PoolInfo * error) := in_cluster [] ListPools.
Definition ListNexusesInCluster : M (list MayastorNexus * error) := in_cluster [] ListNexuses.
Definition e2e_ListReplicasInCluster : M (list MayastorReplica * error) :=
  in_cluster [] ListReplicas.
Definition ListNvmeControllersInCluster : M (list NvmeController * error) :=
  in_cluster [] ListNvmeControllers.
Definition e2e_RmReplicasInCluster : M error :=
  '(nodeAddrs, err) ← getClusterMayastorNodeIPAddrs;
  match err with None => RmNodeReplicas nodeAddrs | Some e => mret (Some e) end.
Definition e2e_GetPoolUsageInCluster : M (Z * error) :=
  '(pools, err) ← e2e_ListPoolsInCluster;
  mret (match err with None => (sum_used pools, None) | Some e => (0%Z, Some e) end).

(** ** Pools *)

Definition e2e_CreateMsPool (poolName node : string) (disks : list string)
    : M (MayastorPool * error) :=
  ns ← e2e_NSMayastor;
  kube_call zero_msp (msp_Create
    (mkMsp (named poolName ns) (mkMspSpec disks node) (msp_status zero_msp))).

(** A pool on every node of Mayastor; the errors come together.  Their texts do not show the
    node and the disks. *)
Definition CreateConfiguredPools : M error :=
  c ← Config;
  if decide (strlen (PoolDevice c) = 0%Z)
  then mret (errorf ("pool device not configured, PoolDevice: " +:+ PoolDevice c))
  else
    '(nodes, err) ← e2e_GetNodeLocs;
    match err with
    | Some e => mret (errorf ("failed to get list of nodes, error: " +:+ err_text e))
    | None =>
        r ← for_range nodes [] (λ node errs,
              if MayastorNode_ node then
                '(_, err) ← e2e_CreateMsPool ("pool-on-" +:+ LocName node) (LocName node)
                              [PoolDevice c];
                mret (Next (match err with
                            | Some e => Accumulate (errorf ("failed to create pool, error: "
                                                            +:+ err_text e)) errs
                            | None => errs end))
              else mret (Next errs));
        errs ← no_return r;
        mret (GetError errs)
    end.

Definition WaitForPoolsToBeOnline (timeoutSeconds : Z) : M error :=
  r ← for_upto 1 ((timeoutSeconds + 5) `quot` 5) tt (λ _ _,
        time_Sleep (5 * Second) ;;
        err ← CheckAllMsPoolsAreOnline;
        match err with None => mret (Return tt) | Some _ => mret (Next tt) end);
  match r with inr _ => mret None | inl _ => CheckAllMsPoolsAreOnline end.

(** ** The end of a pod *)

(** A round of the wait: the time that passed is counted in sleeps. *)
Definition pod_round (podName : string) (sleepTimeSecs timeoutSecs i : Z) (podPhase : string)
    : M (ctl string error) :=
  if decide (timeoutSecs < i * sleepTimeSecs)%Z then mret (Break podPhase)
  else
    time_Sleep (sleepTimeSecs * Second) ;;
    '(podPhase, err) ← CheckPodCompleted podName NSDefault;
    match err with
    | Some e => mret (Return (errorf ("failed to access pod status " +:+ podName +:+ " " +:+
                                      err_text e)))
    | None =>
        if decide (podPhase = PodSucceeded) then mret (Return None)
        else if decide (podPhase = PodFailed) then mret (Break podPhase)
        else mret (Next podPhase)
    end.
(** A sleep of no length never ends the wait: [fuel] bounds the rounds here. *)
Definition WaitPodComplete (fuel : nat) (podName : string) (sleepTimeSecs timeoutSecs : Z)
    : M error :=
  r ← for_fuel fuel 0 "" (pod_round podName sleepTimeSecs timeoutSecs);
  match r with
  | inl podPhase => mret (errorf ("pod did not complete, phase " +:+ podPhase))
  | inr err => mret err
  end.

(** The first attachment that cannot be deleted ends the loop, with the error of the list:
    none. *)
Definition DeleteVolumeAttachments (nodeName : string) : M error :=
  '(volumeAttachments, err) ← kube_call [] va_List;
  match err with
  | Some e => mret (errorf ("failed to list volume attachments, error: " +:+ err_text e))
  | None =>
      r ← for_range volumeAttachments tt (λ va _,
            if decide (va_NodeName va ≠ nodeName) then mret (Next tt)
            else
              delErr ← kube_do (va_Delete (Name (va_meta va)));
              match delErr with
              | Some _ => mret (Return err)
              | None => mret (Next tt)
              end);
      match r with inl _ => mret None | inr err => mret err end
  end.

(** The core agents are a deployment in older releases and a stateful set in newer ones. *)
Definition CheckAndSetControlPlane : M error :=
  c ← Config;
  let ns := ProductNamespace (cfg_Product c) in
  let agent := ControlPlaneAgent (cfg_Product c) in
  '(_, err1) ← kube_call zero_deployment (dep_Get ns agent);
  '(_, err2) ← kube_call zero_statefulset (sts_Get ns agent);
  if decide (err1 ≠ None ∧ err2 ≠ None)
  then mret (errorf "restful Control plane components are absent")
  else
    set ← SetControlPlane "1.0.0";
    mret (if set : bool then None
          else errorf "failed to setup config control plane to 1.0.0").
End E2EUtil.
