(* ===== verification/E2EPvc.v ===== *)
(** * Volumes of the end-to-end tests (common/k8stest/util_pvc.go, mayastor_check.go,
    util_replica.go) *)

From stdpp Require Import base gmap strings list pretty.
From Stdlib Require Import Ascii.
From S2P Require Import Prelude GoLib Json Http Shell Kube MayastorClient GoTime.
From S2P Require Import K8sPods K8sLib K8sApps AgentClient AgentServer Session ControlPlane.
From S2P Require Import E2ENodes E2EPods E2EUtil.

(** ** strings *)

Definition HasSuffix (s suffix : string) : bool :=
  bool_decide (strlen suffix ≤ strlen s)%Z &&
  bool_decide (String.substring (String.length s - String.length suffix)
                 (String.length suffix) s = suffix).

(** Where a text begins in another, -1 when it does not occur. *)
Fixpoint index_from (i : Z) (s sub : string) : Z :=
  if String.prefix sub s then i
  else match s with EmptyString => (-1)%Z | String _ s' => index_from (i + 1) s' sub end.
Definition strings_Index : string → string → Z := index_from 0.

Definition is_space (c : ascii) : bool :=
  bool_decide (c ∈ [" "; "009"; "010"; "011"; "012"; "013"]%char).
Fixpoint trim_left (s : string) : string :=
  match s with
  | String c s' => if is_space c then trim_left s' else s
  | EmptyString => s
  end.
Fixpoint trim_right (s : string) : string :=
  match s with
  | String c s' => match trim_right s' with
                   | EmptyString => if is_space c then EmptyString else String c EmptyString
                   | t => String c t end
  | EmptyString => s
  end.
Definition TrimSpace (s : string) : string := trim_right (trim_left s).

(** ** nvme list --output-format=json

    [json.Unmarshal] into a map of lists of maps of texts: a value of another type leaves
    its place empty and is an error at the end. *)
Definition lax_map (v : json) : gmap string string * bool :=
  match v with
  | JNull => (∅, true)
  | JObj fs => (foldl (λ m kv, <[kv.1 := (lax_string kv.2 "").1]> m) ∅ fs,
                forallb (λ kv, (lax_string kv.2 "").2) fs)
  | _ => (∅, false)
  end.
Definition lax_maps (v : json) : list (gmap string string) * bool :=
  match v with
  | JNull => ([], true)
  | JArr l => (map (λ x, (lax_map x).1) l, forallb (λ x, (lax_map x).2) l)
  | _ => ([], false)
  end.
(** The list under "Devices", and whether the whole could be decoded. *)
Definition nvme_devices (output : string) : list (gmap string string) * bool :=
  match json_parse output with
  | Some (JObj fs) =>
      (foldl (λ cur kv, if decide (kv.1 = "Devices") then (lax_maps kv.2).1 else cur) [] fs,
       forallb (λ kv, (lax_maps kv.2).2) fs)
  | Some JNull => ([], true)
  | _ => ([], false)
  end.

Section E2EPvc.
Context {W : Type} `{Kube W} `{KubeApps W} `{Shell W} `{Http W} `{MapRange W} `{Clock W}
  `{Grpc W}.
Notation M := (prog (Session W)).

(** At most [n] looks with a pause after each that is not the last one wanted; the value of
    the last look comes out. *)
Definition poll {A} (n pause : Z) (init : A) (look : M (A * bool)) : M A :=
  r ← for_upto 0 n init (λ _ _,
        '(a, done) ← look;
        if done : bool then mret (Break a) else time_Sleep pause ;; mret (Next a));
  no_return r.

Definition e2e_defTimeoutSecs : Z := 360.

(** ** Has it gone? *)

Definition not_found_text (kind : string) (e : goerror) : bool :=
  HasPrefix (err_text e) kind && HasSuffix (err_text e) " not found".

Definition IsPVCDeleted (volName nameSpace : string) : M (bool * error) :=
  '(pvc, err) ← kube_call zero_pvc (pvc_Get nameSpace volName);
  match err with
  | Some e =>
      if not_found_text "persistentvolumeclaims" e then mret (true, None)
      else mret (false, errorf ("failed to get pvc " +:+ volName +:+ ", namespace: " +:+
                                nameSpace +:+ ", error: " +:+ err_text e))
  | None => mret (bool_decide (PvcPhase pvc ∉ [ClaimBound; "Pending"; "Lost"]), None)
  end.
Definition IsPVDeleted (volName : string) : M (bool * error) :=
  '(pv, err) ← kube_call zero_pv (pv_Get volName);
  match err with
  | Some e =>
      if not_found_text "persistentvolumes" e then mret (true, None)
      else mret (false, errorf ("failed to get pv " +:+ volName +:+ ", error: " +:+ err_text e))
  | None => mret (bool_decide (PvPhase pv ∉ [VolumeBound; "Available"; "Failed"; "Pending";
                                             "Released"]), None)
  end.

Definition e2e_GetPvcStatusPhase (volname nameSpace : string) : M (string * error) :=
  '(pvc, err) ← kube_call zero_pvc (pvc_Get nameSpace volname);
  match err with
  | Some e => mret ("", errorf ("failed to get pvc: " +:+ volname +:+ ", namespace: " +:+
                                nameSpace +:+ ", error: " +:+ err_text e))
  | None => mret (PvcPhase pvc, None)
  end.
Definition e2e_GetPvStatusPhase (volname : string) : M (string * error) :=
  '(pv, err) ← kube_call zero_pv (pv_Get volname);
  match err with
  | Some e => mret ("", errorf ("failed to get pv: " +:+ volname +:+ ", error: " +:+ err_text e))
  | None => mret (PvPhase pv, None)
  end.
Definition IsPvcBound (pvcName nameSpace : string) : M (bool * error) :=
  '(phase, err) ← e2e_GetPvcStatusPhase pvcName nameSpace;
  match err with
  | Some e => mret (false, Some e)
  | None => mret (bool_decide (phase = ClaimBound), None)
  end.

(** ** Consistency of a volume

    Only the old control plane is checked, and no implementation of it is left. *)
Definition check_grpc (uuid : string) (msv : CmVolume) : M error :=
  let size := uwrap64 (cv_Size (cv_Status msv)) in
  let count := cv_ReplicaCount (cv_Spec msv) in
  let fail what := mret (errorf ("MsvConsistencyCheck: " +:+ what)) in
  addrs ← GetMayastorNodeIPAddresses;
  '(gReplicas, err) ← FindReplicas uuid addrs;
  match err with
  | Some e => mret (errorf ("failed to find replicas using gRPC " +:+ err_text e))
  | None =>
      if negb (forallb (λ r, bool_decide (RiSize r = size)) gReplicas)
      then fail "replica size != msv status size"
      else if decide (count ≠ Z.of_nat (length gReplicas))
      then fail "msv spec replica count != list matching replicas found using gRPC"
      else
        let nexus := cv_Nexus (cv_Status msv) in
        if decide (cn_Node nexus = "") then mret None
        else if decide (count ≠ Z.of_nat (length (cn_Children nexus)))
        then fail "msv spec replica count != msv status nexus children"
        else
          '(nexusNodeIp, err) ← GetNodeIPAddress (cn_Node nexus);
          match err with
          | Some e => fail ("failed to resolve nexus node IP address, " +:+ err_text e)
          | None =>
              ip ← deref nexusNodeIp;
              '(grpcNexus, err) ← FindNexus uuid [ip];
              match err, grpcNexus with
              | Some e, _ => fail ("failed to list nexuses gRPC, " +:+ err_text e)
              | None, None => fail "failed to find nexus gRPC"
              | None, Some nx =>
                  if decide (NxSize nx ≠ size) then fail "nexus size mismatch msv and grpc"
                  else if decide (Z.of_nat (length (NxChildren nx)) ≠ count)
                  then fail "msv replica count != grpc nexus children"
                  else if decide (NexusState_String (NxState nx) ≠ cn_State nexus)
                  then fail "msv nexus state != grpc nexus state"
                  else mret None
              end
          end
  end.

(** The numbers are left out of the texts. *)
Definition MsvConsistencyCheck (uuid : string) : M error :=
  v ← cp_MajorVersion;
  if decide (v ≠ 0%Z) then mret None
  else
    '(msv, err) ← e2e_GetMSV uuid;
    match msv, err with
    | None, _ => mret (errorf ("MsvConsistencyCheck: GetMsv: " +:+ uuid +:+
                               ", got nil pointer to msv"))
    | Some _, Some e => mret (errorf ("MsvConsistencyCheck: GetMsv: " +:+ err_text e))
    | Some msv, None =>
        if decide (cv_RequiredBytes (cv_Spec msv) ≠ cv_Size (cv_Status msv))
        then mret (errorf "MsvConsistencyCheck: msv spec required bytes != msv status size")
        else if decide (cv_ReplicaCount (cv_Spec msv) ≠
                        Z.of_nat (length (cv_Replicas (cv_Status msv))))
        then mret (errorf "MsvConsistencyCheck: msv spec replica count != msv status replicas")
        else
          connect ← reads canConnect;
          if connect : bool then check_grpc uuid msv else mret None
    end.

(** ** Making a volume *)

(** The waits for the claim, its volume and the Mayastor volume: each ends after 360 looks,
    and only the error of the last look stops what follows. *)
Definition await_volume (volName nameSpace : string) : M (string * error) :=
  err ← poll e2e_defTimeoutSecs Second None
          ('(phase, err) ← e2e_GetPvcStatusPhase volName nameSpace;
           mret (err, bool_decide (err = None ∧ phase = ClaimBound)));
  match err with
  | Some e => mret ("", errorf ("failed to get pvc status, pvc: " +:+ volName +:+
                                ", namespace:  " +:+ nameSpace +:+ ", error: " +:+ err_text e))
  | None =>
      '(pvc, err) ← kube_call zero_pvc (pvc_Get nameSpace volName);
      match err with
      | Some e => mret ("", errorf ("failed to get pvc: " +:+ volName +:+ ", namespace: " +:+
                                    nameSpace +:+ ", error: " +:+ err_text e))
      | None =>
          let uid := UID (pvc_meta pvc) in
          '(pv, err) ← poll e2e_defTimeoutSecs Second (zero_pv, None)
                  (r ← kube_call zero_pv (pv_Get (PvcVolumeName pvc));
                   mret (r, bool_decide (r.2 = None)));
          match err with
          | Some e => mret ("", errorf ("failed to get pv, pv: " +:+ PvcVolumeName pvc +:+
                                        ", error: " +:+ err_text e))
          | None =>
              err ← poll e2e_defTimeoutSecs Second None
                      ('(phase, err) ← e2e_GetPvStatusPhase (Name (pv_meta pv));
                       mret (err, bool_decide (err = None ∧ phase = VolumeBound)));
              match err with
              | Some e => mret ("", errorf ("failed to get pv status, pv: " +:+
                                   PvcVolumeName pvc +:+ ", error: " +:+ err_text e))
              | None =>
                  err ← poll e2e_defTimeoutSecs Second None
                          ('(msv, err) ← e2e_GetMSV uid;
                           mret (err, bool_decide (err = None ∧ is_Some msv)));
                  match err with
                  | Some e => mret ("", errorf ("failed to get mayastor volume, uuid: " +:+ uid +:+
                                                ", error: " +:+ err_text e))
                  | None =>
                      err ← MsvConsistencyCheck uid;
                      match err with
                      | Some e => mret ("", errorf ("msv consistency check failed, msv uuid: " +:+
                                                    uid +:+ ", error: " +:+ err_text e))
                      | None => mret (uid, None)
                      end
                  end
              end
          end
      end
  end.

Definition e2e_MkPVC (volSizeMb : Z) (volName scName : string) (volType : VolumeType)
    (nameSpace : string) : M (string * error) :=
  '(_, createErr) ← kube_call zero_pvc
      (pvc_Create nameSpace (pvc_of volSizeMb volName scName volType nameSpace));
  match createErr with
  | Some e => mret ("", errorf ("failed to create pvc: " +:+ volName +:+ ", error: " +:+
                                err_text e))
  | None =>
      '(pvc, err) ← kube_call zero_pvc (pvc_Get nameSpace volName);
      match err with
      | Some e => mret ("", errorf ("failed to get pvc: " +:+ volName +:+ ", namespace: " +:+
                                    nameSpace +:+ ", error: " +:+ err_text e))
      | None =>
          '(sc, err) ← kube_call zero_sc (sc_Get scName);
          match err with
          | Some e => mret ("", errorf ("failed to get storageclass: " +:+ scName +:+
                                        ", error: " +:+ err_text e))
          | None =>
              mode ← deref (VolumeBindingMode sc);
              if decide (mode = VolumeBindingWaitForFirstConsumer)
              then mret (UID (pvc_meta pvc), None)
              else await_volume volName nameSpace
          end
      end
  end.

(** ** Removing a volume *)

(** The wait for the volume of a claim: a claim without one has nothing to wait for. *)
Definition await_pv_deleted (pv : string) (isDeleted : bool) : M (bool * error) :=
  poll e2e_defTimeoutSecs Second (isDeleted, None)
    (if decide (pv = "") then mret ((true, None), true)
     else r ← IsPVDeleted pv; mret (r, r.1)).

Definition RmPVC (volName scName nameSpace : string) : M error :=
  '(pvc, err) ← kube_call zero_pvc (pvc_Get nameSpace volName);
  match err with
  | Some e =>
      mret (if is_not_found err
            then errorf ("PVC " +:+ volName +:+ " not found error, namespace: " +:+ nameSpace)
            else errorf ("failed to get pvc " +:+ volName +:+ ", namespace: " +:+ nameSpace +:+
                         ", error: " +:+ err_text e))
  | None =>
      deleteErr ← kube_do (pvc_Delete nameSpace volName);
      match deleteErr with
      | Some e => mret (errorf ("failed to delete PVC " +:+ volName +:+ ", namespace: " +:+
                                nameSpace +:+ ", error: " +:+ err_text e))
      | None =>
          '(isDeleted, err) ← poll e2e_defTimeoutSecs Second (false, None)
                                (r ← IsPVCDeleted volName nameSpace; mret (r, r.1));
          match err, isDeleted with
          | Some e, _ => mret (Some e)
          | None, false => mret (errorf ("pvc not deleted, pvc: " +:+ volName +:+
                                         ", namespace: " +:+ nameSpace))
          | None, true =>
              '(isDeleted, err) ← await_pv_deleted (PvcVolumeName pvc) true;
              match err, isDeleted with
              | Some e, _ => mret (Some e)
              | None, false => mret (errorf ("PV not deleted, pv: " +:+ PvcVolumeName pvc))
              | None, true =>
                  isDeleted ← poll e2e_defTimeoutSecs Second true
                                (b ← e2e_IsMsvDeleted (UID (pvc_meta pvc)); mret (b, b));
                  mret (if isDeleted : bool then None
                        else errorf ("mayastor volume not deleted, msv: " +:+
                                     UID (pvc_meta pvc)))
              end
          end
      end
  end.

Definition e2e_CreatePVC (pvc : PVC) (nameSpace : string) : M (PVC * error) :=
  kube_call zero_pvc (pvc_Create nameSpace pvc).
Definition GetPVC (volName nameSpace : string) : M (PVC * error) :=
  kube_call zero_pvc (pvc_Get nameSpace volName).
Definition e2e_DeletePVC (volName nameSpace : string) : M error :=
  kube_do (pvc_Delete nameSpace volName).
Definition GetPV (volName : string) : M (PV * error) := kube_call zero_pv (pv_Get volName).

(** ** What is left over *)

(** The storage classes of Mayastor. *)
Definition getMayastorScMap : M (gset string * error) :=
  c ← Config;
  '(scs, err) ← kube_call [] sc_List;
  match err with
  | Some e => mret (∅, Some e)
  | None => mret (list_to_set (map (Name ∘ sc_meta)
              (filter (λ sc, Provisioner sc = CsiProvisioner (cfg_Product c)) scs)), None)
  end.

(** The claims of these classes; a claim without a class panics. *)
Definition mayastor_pvcs (classes : gset string) (pvcs : list PVC) : M (list PVC) :=
  r ← for_range pvcs [] (λ pvc acc,
        sc ← deref (StorageClassName pvc);
        mret (Next (if decide (sc ∈ classes) then acc ++ [pvc] else acc)%list));
  no_return r.
Definition mayastor_pvs (classes : gset string) (pvs : list PV) : list PV :=
  filter (λ pv, PvStorageClass pv ∈ classes) pvs.

Definition CheckForPVCs : M (bool * error) :=
  '(classes, err) ← getMayastorScMap;
  match err with
  | Some e => mret (false, Some e)
  | None =>
      '(nameSpaces, err) ← kube_call [] ns_List;
      match err with
      | Some e => mret (false, Some e)
      | None =>
          r ← for_range (filter (λ ns, test_namespace ns) nameSpaces) false (λ ns found,
                '(pvcs, err) ← kube_call [] (pvc_List ns);
                match err with
                | Some _ => mret (Next found)
                | None =>
                    l ← mayastor_pvcs classes pvcs;
                    mret (Next (found || bool_decide (l ≠ [])))
                end);
          found ← no_return r;
          mret (found, None)
      end
  end.

Definition CheckForPVs : M (bool * error) :=
  '(classes, err) ← getMayastorScMap;
  match err with
  | Some e => mret (false, Some e)
  | None =>
      '(pvs, err) ← kube_call [] pv_List;
      mret (bool_decide (err = None ∧ mayastor_pvs classes pvs ≠ []), err)
  end.

(** ** mayastor_check.go *)

Definition e2e_WaitForMCPPath (timeout : string) : M error :=
  match ParseDuration timeout with
  | None => mret (bad_timeout timeout)
  | Some timeoutSec =>
      err ← poll (int_Seconds timeoutSec `quot` 10) (10 * Second) None
              ('(_, err) ← e2e_ListMsvs; mret (err, bool_decide (err = None)));
      mret (match err with
            | Some e => errorf ("one of the rest, core agent or etcd pods are not in running state, error: "
                                +:+ err_text e)
            | None => None end)
  end.

Definition e2e_WaitForMayastorSockets : list string → string → M error :=
  WaitForMayastorSockets.

(** ** util_replica.go *)

(** One look at the devices of the initiator; a list that could be decoded is thrown away,
    and the one that could not is used. *)
Definition look_for_device (initiatorIP : string) : M (option string) :=
  '(output, err) ← Exec initiatorIP "nvme list --output-format=json";
  if decide (output = "" ∨ err ≠ None) then mret None
  else
    let '(devices, ok) := nvme_devices output in
    if ok : bool then mret None
    else
      lastConnectedDevice ← index devices (Z.of_nat (length devices) - 1);
      mret (Some (default "" (lastConnectedDevice !! "DevicePath"))).

(** The path of the device and its name. *)
Definition find_device (initiatorIP : string) (maxRetries : Z) : M (option (string * string)) :=
  r ← for_upto 0 maxRetries tt (λ _ _,
        time_Sleep (5 * Second) ;;
        found ← look_for_device initiatorIP;
        match found with
        | None => mret (Next tt)
        | Some devicePath =>
            deviceOnly ← slice_string devicePath 5 (strlen devicePath);
            mret (Return (devicePath, deviceOnly))
        end);
  match r with inl _ => mret None | inr d => mret (Some d) end.

Definition ChecksumReplica (initiatorIP targetIP uri : string) (maxRetries : Z)
    : M (string * error) :=
  nqnlong ← slice_string uri (strings_Index uri "nqn.") (strlen uri);
  nqn ← slice_string nqnlong 0 (strings_Index nqnlong "?");
  '(resp, err) ← Exec initiatorIP
      (Join ["nvme"; "connect"; "-a"; targetIP; "-t"; "tcp"; "-s"; "8420"; "-n"; nqn] " ");
  match err with
  | Some e => mret ("", Some e)
  | None =>
      if decide (TrimSpace resp ≠ "")
      then mret ("", errorf ("nvme connect returned with " +:+ TrimSpace resp))
      else
        device ← find_device initiatorIP maxRetries;
        match device with
        | None => mret ("", errorf "Failed to get device path")
        | Some (devicePath, deviceOnly) =>
            '(text, err) ← Exec initiatorIP ("cksum " +:+ devicePath);
            match err with
            | Some e => mret ("", Some e)
            | None =>
                let cksumText := TrimSpace text in
                if negb (Contains cksumText deviceOnly)
                then mret ("", errorf ("Unexpected result from cksum " +:+ cksumText))
                else
                  '(_, err) ← Exec initiatorIP ("nvme disconnect -n" +:+ nqn);
                  match err with
                  | Some e => mret ("", Some e)
                  | None =>
                      '(resp, err) ← Exec initiatorIP "ls /dev/";
                      match err with
                      | Some e => mret ("", Some e)
                      | None =>
                          if Contains resp deviceOnly
                          then mret ("", errorf ("Device " +:+ deviceOnly +:+ " still exists"))
                          else mret (cksumText, None)
                      end
                  end
            end
        end
  end.

(** The only local child of the nexus: [inl] ends the search with its result. *)
Definition local_child (nexusUuid : string) (nexusList : list MayastorNexus)
    : (bool * error) + string :=
  match list_find (λ nx, NxUuid nx = nexusUuid) nexusList with
  | None => inl (false, errorf "failed to find the nexus")
  | Some (_, nx) =>
      match filter (λ ch, HasPrefix (NcUri ch) "bdev:///") (NxChildren nx) with
      | [] => inl (false, None)
      | [ch] => inr (NcUri ch)
      | _ => inl (false, errorf "More than 1 nexus local replica found")
      end
  end.

Definition replica_gone (volUuid nxChild : string) : M (bool + error) :=
  for_upto 0 ((240 - 1) `quot` 10) false (λ _ _,
    '(replicas, err) ← e2e_GetMsvReplicas volUuid;
    match err with
    | Some e => mret (Return (errorf ("Failed to get replicas, err=" +:+ err_text e)))
    | None =>
        if existsb (λ r, bool_decide (cr_Uri r = nxChild)) replicas
        then time_Sleep (10 * Second) ;; mret (Next true)
        else mret (Break false)
    end).
Definition volume_healthy (volUuid : string) : M (string + error) :=
  for_upto 0 ((240 - 1) `quot` 10) "" (λ _ _,
    '(state, err) ← e2e_GetMsvState volUuid;
    match err with
    | Some e => mret (Return (errorf ("Failed to get state, err=" +:+ err_text e)))
    | None =>
        healthy ← via_get (cpi_VolStateHealthy _);
        if decide (state = healthy) then mret (Break state)
        else time_Sleep (10 * Second) ;; mret (Next state)
    end).

Definition ExcludeNexusReplica (nexusIP nexusUuid volUuid : string) : M (bool * error) :=
  connect ← reads canConnect;
  if negb connect then mret (false, errorf "gRPC calls not enabled")
  else
    '(nexusList, err) ← ListNexuses [nexusIP];
    match err with
    | Some e => mret (false, errorf ("Failed to list nexuses, err=" +:+ err_text e))
    | None =>
        if decide (length nexusList = 0%nat)
        then mret (false, errorf "Expected to find at least 1 nexus")
        else
          match local_child nexusUuid nexusList with
          | inl res => mret res
          | inr nxChild =>
              err ← FaultNexusChild nexusIP nexusUuid nxChild;
              match err with
              | Some e => mret (false, errorf ("Failed to fault child, err=" +:+ err_text e))
              | None =>
                  r ← replica_gone volUuid nxChild;
                  match r with
                  | inr err => mret (false, err)
                  | inl true =>
                      mret (true, errorf "timed out waiting for faulted replica to be removed")
                  | inl false =>
                      r ← volume_healthy volUuid;
                      match r with
                      | inr err => mret (false, err)
                      | inl state =>
                          healthy ← via_get (cpi_VolStateHealthy _);
                          mret (true, if decide (state = healthy) then None
                                else errorf "timed out waiting for volume to become healthy")
                      end
                  end
              end
          end
    end.
End E2EPvc.
