(* ===== verification/E2ECleanup.v ===== *)
(** * Cleaning up the cluster (common/k8stest/util_cleanup.go, RestoreConfiguredPools) *)

From stdpp Require Import base gmap strings list pretty.
From Stdlib Require Import Ascii.
From S2P Require Import Prelude GoLib Json Http Shell Kube MayastorClient GoTime.
From S2P Require Import K8sPods K8sLib K8sApps Session ControlPlane E2ENodes E2EPods E2EUtil.
From S2P Require Import E2EPvc.

(** A list that cannot be had is empty; a list the API answers with is never nil. *)

Section E2ECleanup.
Context {W : Type} `{Kube W} `{KubeApps W} `{Shell W} `{Http W} `{MapRange W} `{Clock W}
  `{Grpc W}.
Notation M := (prog (Session W)).

(** Delete everything of a list; what cannot be deleted is only logged. *)
Definition delete_each (names : list string) (delete : string → answer W unit) : M unit :=
  r ← for_range names tt (λ name _, _ ← kube_do (delete name); mret (Next tt));
  no_return r.

(** The number found, not the number deleted. *)
Definition DeleteAllDeployments (nameSpace : string) : M (Z * error) :=
  '(deployments, err) ← kube_call [] (dep_List nameSpace "");
  match err with
  | Some e => mret (0%Z, Some e)
  | None =>
      delete_each (map (Name ∘ dep_meta) deployments) (dep_Delete nameSpace) ;;
      mret (Z.of_nat (length deployments), None)
  end.
Definition DeleteAllPods (nameSpace : string) : M (Z * error) :=
  '(pods, err) ← kube_call [] (pods_List nameSpace);
  match err with
  | Some e => mret (0%Z, Some e)
  | None =>
      delete_each (map (Name ∘ pod_meta) pods) (pods_DeleteNow nameSpace) ;;
      mret (Z.of_nat (length pods), None)
  end.

(** Up to 120 looks, a second apart, for the count to become zero: the last count that could
    be taken, zero if none could. *)
Definition await_none (count : M (Z * error)) : M Z :=
  poll 120 Second 0%Z
    ('(n, err) ← count;
     mret (match err with Some _ => (0%Z, false) | None => (n, bool_decide (n = 0%Z)) end)).

Definition count_pvcs (classes : gset string) (nameSpace : string) : M (Z * error) :=
  '(pvcs, err) ← kube_call [] (pvc_List nameSpace);
  match err with
  | Some e => mret (0%Z, Some e)
  | None => l ← mayastor_pvcs classes pvcs; mret (Z.of_nat (length l), None)
  end.

(** The claims are deleted one by one as they are found; the error is that of the first
    list. *)
Definition DeleteAllPvcs (nameSpace : string) : M (Z * error) :=
  '(classes, err) ← getMayastorScMap;
  match err with
  | Some e => mret ((-1)%Z, Some e)
  | None =>
      '(pvcs, err) ← kube_call [] (pvc_List nameSpace);
      r ← for_range pvcs tt (λ pvc _,
            sc ← deref (StorageClassName pvc);
            if decide (sc ∈ classes)
            then (_ ← kube_do (pvc_DeleteNow nameSpace (Name (pvc_meta pvc))); mret (Next tt))
            else mret (Next tt));
      _ ← no_return r;
      numPvcs ← await_none (count_pvcs classes nameSpace);
      mret (numPvcs, err)
  end.

Definition without_finalizers (m : ObjectMeta) : ObjectMeta :=
  mkMeta (Name m) (GenerateName m) (Namespace m) (UID m) (Labels m) (Annotations m) (Some [])
    (CreationTimestamp m) (DeletionTimestamp m).
Definition has_finalizers (m : ObjectMeta) : bool :=
  bool_decide (default [] (Finalizers m) ≠ []).

Definition count_pvs (classes : gset string) : M (Z * error) :=
  '(pvs, err) ← kube_call [] pv_List;
  mret (match err with
        | Some e => (0%Z, Some e)
        | None => (Z.of_nat (length (mayastor_pvs classes pvs)), None) end).

(** The finalizers are removed, the volumes get two minutes to go, those that are left are
    deleted, and there are two more minutes.  The error is that of the second list. *)
Definition DeleteAllPvs : M (Z * error) :=
  '(classes, err) ← getMayastorScMap;
  match err with
  | Some e => mret ((-1)%Z, Some e)
  | None =>
      '(pvs, err) ← kube_call [] pv_List;
      r ← for_range (mayastor_pvs classes pvs) tt (λ pv _,
            if has_finalizers (pv_meta pv) then
              _ ← kube_call zero_pv (pv_Update (mkPV (without_finalizers (pv_meta pv))
                                                  (PvPhase pv) (PvStorageClass pv)));
              mret (Next tt)
            else mret (Next tt));
      _ ← no_return r;
      _ ← await_none (count_pvs classes);
      '(pvs, err) ← kube_call [] pv_List;
      delete_each (map (Name ∘ pv_meta) (mayastor_pvs classes pvs))
        pv_DeleteNow ;;
      numPvs ← await_none (count_pvs classes);
      mret (numPvs, err)
  end.

(** What comes after the second test is never reached, and is left out. *)
Definition DeleteAllMsvs : M (Z * error) :=
  v ← cp_MajorVersion;
  if decide (v = 1%Z) then mret (0%Z, None)
  else mret (1%Z, errorf ("unsupported control plane version " +:+ Itoa v +:+ "/n")).

(** ** Pools *)

Definition is_conflict (e : goerror) : bool := bool_decide (err_is e = Conflict).
Definition deletePoolFinalizer (poolName : string) : M (bool * error) :=
  r ← for_upto 0 (rounds 1 30 5) tt (λ _ _,
        '(msp, err) ← GetMsPool poolName;
        match err with
        | Some e => mret (Return (false, if is_not_found (Some e) then None else Some e))
        | None =>
            if negb (has_finalizers (msp_meta msp)) then mret (Return (false, None))
            else
              '(_, err) ← UpdateMsPool (mkMsp (without_finalizers (msp_meta msp)) (msp_spec msp)
                                          (msp_status msp));
              match err with
              | None => mret (Return (true, None))
              | Some e =>
                  if is_conflict e then time_Sleep (5 * Second) ;; mret (Next tt)
                  else mret (Return (false, if is_not_found (Some e) then None else Some e))
              end
        end);
  match r with
  | inl _ => mret (false, errorf "failed to remove pool finalizer (conflict)")
  | inr res => mret res
  end.

Definition DeleteAllPoolFinalizers : M (bool * error) :=
  '(pools, err) ← ListMsPools;
  match err with
  | Some e => mret (false, Some e)
  | None =>
      r ← for_range pools (false, []) (λ pool '(deletedFinalizer, errs),
            '(deleted, err) ← deletePoolFinalizer (Name (msp_meta pool));
            mret (Next (deletedFinalizer || deleted, Accumulate err errs)));
      '(deletedFinalizer, errs) ← no_return r;
      mret (deletedFinalizer, GetError errs)
  end.

(** The count starts at zero and stays what it was when the pools cannot be listed. *)
Definition DeleteAllPools : M bool :=
  '(pools, err) ← ListMsPools;
  delete_each (map (Name ∘ msp_meta) pools) msp_Delete ;;
  r ← for_upto 0 120 0%Z (λ _ numPools,
        '(pools, err) ← ListMsPools;
        let numPools := match err with Some _ => numPools | None => Z.of_nat (length pools) end in
        if decide (numPools = 0%Z) then mret (Break numPools)
        else time_Sleep (1 * Second) ;; mret (Next numPools));
  numPools ← no_return r;
  mret (bool_decide (numPools = 0%Z)).

(** Looks at the daemons until they have no pools: [inr] is the result of the caller. *)
Definition list_until_gone : M (list PoolInfo * error) :=
  r ← for_upto 1 (120 `quot` 5) ([], None) (λ _ _,
        addrs ← GetMayastorNodeIPAddresses;
        '(pools, err) ← ListPools addrs;
        if decide (length pools = 0%nat ∧ err = None) then mret (Break (pools, err))
        else time_Sleep (5 * Second) ;; mret (Next (pools, err)));
  no_return r.
Definition destroy_until_gone (pools : list PoolInfo) : M (list PoolInfo * error) :=
  r ← for_upto 1 (120 `quot` 5) (pools, None) (λ _ '(pools, err),
        if decide (length pools = 0%nat) then mret (Break (pools, err))
        else
          addrs ← GetMayastorNodeIPAddresses;
          _ ← DestroyAllPools addrs;
          addrs ← GetMayastorNodeIPAddresses;
          '(pools, err) ← ListPools addrs;
          time_Sleep (5 * Second) ;; mret (Next (pools, err)));
  no_return r.

(** The text of one error does not show the pools that are left. *)
Definition RestoreConfiguredPools : M error :=
  '(_, err) ← DeleteAllPoolFinalizers;
  match err with
  | Some e => mret (errorf ("failed to delete pool finalizers, error; " +:+ err_text e))
  | None =>
      deletedAllPools ← DeleteAllPools;
      if negb deletedAllPools then mret (errorf "failed to delete all pools")
      else
        '(pools, err) ← list_until_gone;
        match err with
        | Some e => mret (errorf ("failed to list pools, error; " +:+ err_text e))
        | None =>
            '(pools, err) ← destroy_until_gone pools;
            match err with
            | Some e => mret (errorf ("failed to destroy pools, error; " +:+ err_text e))
            | None =>
                if decide (length pools ≠ 0%nat)
                then mret (errorf "failed to destroy all pools")
                else
                  err ← CreateConfiguredPools;
                  match err with
                  | Some e => mret (Some e)
                  | None =>
                      r ← for_upto 1 (120 `quot` 5) tt (λ _ _,
                            time_Sleep (5 * Second) ;;
                            err ← CheckAllMsPoolsAreOnline;
                            match err with
                            | None => mret (Break tt)
                            | Some _ => mret (Next tt)
                            end);
                      _ ← no_return r;
                      CheckAllMsPoolsAreOnline
                  end
            end
        end
  end.

(** ** Mayastor itself *)

(** The number of pods, or less than zero when it is not known. *)
Definition MayastorUndeletedPodCount : M Z :=
  ns ← e2e_NSMayastor;
  err ← kube_do (ns_Get ns);
  match err with
  | Some _ => mret (-1)%Z
  | None =>
      '(pods, err) ← kube_call [] (pods_List ns);
      mret (match err with Some _ => (-1)%Z | None => Z.of_nat (length pods) end)
  end.

Definition force_delete (ns : string) (podName : string) : M bool :=
  '(_, err) ← exec_cmd ["kubectl"; "-n"; ns; "delete"; "pod"; podName; "--grace-period"; "0";
                        "--force"];
  mret (bool_decide (err = None)).
Definition ForceDeleteMayastorPods : M (bool * Z * error) :=
  ns ← e2e_NSMayastor;
  '(pods, err) ← kube_call [] (pods_List ns);
  match err with
  | Some e => mret (false, 0%Z, Some e)
  | None =>
      if decide (length pods = 0%nat) then mret (false, 0%Z, None)
      else
        r ← for_range pods false (λ pod podsDeleted,
              ok ← force_delete ns (Name (pod_meta pod));
              mret (Next (podsDeleted || ok)));
        podsDeleted ← no_return r;
        r ← for_upto 0 60 (0%Z, None) (λ _ '(podCount, err),
              n ← MayastorUndeletedPodCount;
              if decide (n = 0%Z) then mret (Break (podCount, err))
              else
                '(pods, err) ← kube_call [] (pods_List ns);
                let podCount := match err with Some _ => podCount | None => Z.of_nat (length pods) end in
                if decide (err = None ∧ podCount = 0%Z) then mret (Break (podCount, err))
                else time_Sleep (2 * Second) ;; mret (Next (podCount, err)));
        '(podCount, err) ← no_return r;
        mret (podsDeleted, podCount, err)
  end.

(** ** The big sweep *)

(** One of the test namespaces; the errors of the lists are noted. *)
Definition clean_namespace (ns : string) (errs : list goerror) (pvcCount : Z)
    : M (list goerror * Z) :=
  '(_, err1) ← DeleteAllDeployments ns;
  '(_, err2) ← DeleteAllPods ns;
  '(n, err3) ← DeleteAllPvcs ns;
  mret (Accumulate err3 (Accumulate err2 (Accumulate err1 errs)), pvcCount + n)%Z.

(** Whether there were errors; what is left over is not asked. *)
Definition CleanUp : M bool :=
  '(nameSpaces, err) ← kube_call [] ns_List;
  r ← for_range (filter (λ ns, test_namespace ns) nameSpaces)
        (Accumulate err [], 0%Z) (λ ns '(errs, pvcCount),
          x ← clean_namespace ns errs pvcCount; mret (Next x));
  '(errs, pvcCount) ← no_return r;
  time_Sleep (2 * pvcCount * Minute) ;;
  '(_, err) ← DeleteAllPvs;
  let errs := Accumulate err errs in
  '(_, err) ← DeleteAllMsvs;
  let errs := Accumulate err errs in
  _ ← DeleteAllPoolFinalizers;
  '(scs, err) ← kube_call [] sc_List;
  delete_each (map (Name ∘ sc_meta)
     (filter (λ sc, Provisioner sc = "io.openebs.csi-mayastor") scs))
    sc_DeleteNow ;;
  let errs := Accumulate err errs in
  r ← for_range (filter (λ ns, HasPrefix ns NSE2EPrefix) nameSpaces) errs (λ ns errs,
        err ← RmNamespace ns; mret (Next (Accumulate err errs)));
  errs ← no_return r;
  err ← EnsureNodeLabels;
  let errs := Accumulate err errs in
  connect ← reads canConnect;
  (if connect : bool then (_ ← e2e_RmReplicasInCluster; mret tt) else mret tt) ;;
  mret (bool_decide (errs = [])).
End E2ECleanup.
