(* ===== verification/E2ETest.v ===== *)
(** * The checks around every test (common/k8stest/test.go) and the restart of Mayastor *)

From stdpp Require Import base gmap strings list pretty.
From Stdlib Require Import Ascii.
From S2P Require Import Prelude GoLib Json Http Shell Kube MayastorClient GoTime.
From S2P Require Import K8sPods K8sLib K8sApps Session ControlPlane E2ENodes E2EPods E2EUtil.
From S2P Require Import E2EPvc E2ECleanup.

Section E2ETest.
Context {W : Type} `{Kube W} `{KubeApps W} `{Shell W} `{Http W} `{MapRange W} `{Clock W}
  `{Grpc W} `{Files W} `{System W} `{ConfigFiles W}.
Notation M := (prog (Session W)).

(** ** Setting up

    The clients of the cluster are the environment; what is left is what the setup learns
    from it. *)
Definition setup_connect : M unit :=
  nodes ← GetMayastorNodeIPAddresses;
  c ← reads canConnect;
  b ← CheckAndSetConnect c nodes;
  updates (set_connect b).
Definition SetupTestEnv : M error :=
  setup_connect ;;
  err ← CheckAndSetControlPlane;
  match err with
  | Some e => mret (errorf ("failed to setup control plane version : CheckAndSetControlPlane: "
                            +:+ err_text e))
  | None =>
      c ← Config;
      connect ← reads canConnect;
      mret (if GrpcMandated c && negb connect
            then errorf "gRPC calls to mayastor are disabled, but mandated by configuration : CanConnect: false"
            else None)
  end.

(** ** The resources left in the cluster *)

Definition getMspUsage : M (Z * error) :=
  '(msPools, err) ← e2e_ListMsPools;
  mret (match err with
        | Some e => (0%Z, Some e)
        | None => (foldl (λ acc p, uwrap64 (acc + cp_Used (cp_Status p))) 0%Z msPools, None)
        end).

(** [n] more looks at the usage while it is not zero; the last answer comes out. *)
Definition await_unused (n pause : Z) (usage : M (Z * error)) (now : Z * error)
    : M (Z * error) :=
  r ← for_upto 0 n now (λ _ now,
        if decide (now.1 = 0%Z) then mret (Break now)
        else time_Sleep pause ;; now ← usage; mret (Next now));
  no_return r.

Definition found (what : string) (b : bool) (errs : list goerror) : list goerror :=
  if b then Accumulate (errorf ("found " +:+ what)) errs else errs.

(** Pods, claims, volumes, Mayastor volumes, storage classes and pools. *)
Definition check_objects : M (list goerror) :=
  c ← Config;
  let ns := ProductNamespace (cfg_Product c) in
  err ← CheckTestPodsHealth ns;
  let errs := if SelfTest c then [] else Accumulate err [] in
  '(pods, err) ← CheckForTestPods;
  let errs := found "Pods" pods (Accumulate err errs) in
  '(pvcs, err) ← CheckForPVCs;
  let errs := found "PersistentVolumeClaims" pvcs (Accumulate err errs) in
  '(pvs, err) ← CheckForPVs;
  let errs := found "PersistentVolumes" pvs (Accumulate err errs) in
  '(msvs, err) ← e2e_ListMsvs;
  let errs := found "MayastorVolumes" (bool_decide (err = None ∧ msvs ≠ [])) (Accumulate err errs) in
  '(scs, err) ← CheckForStorageClasses;
  let errs := found "storage classes using mayastor" scs (Accumulate err errs) in
  err ← CheckAllMsPoolsAreOnline;
  mret (Accumulate err errs).

Definition used_error (what : string) (usage : Z) (errs : list goerror) : list goerror :=
  if decide (usage = 0%Z) then errs
  else Accumulate (errorf (what +:+ "pool usage reported via custom resources " +:+ Itoa usage))
         errs.

(** Whether to wait for usage to go: not when the test is to fail anyway. *)
Definition should_wait (waitForPools failQuick : bool) (usage : Z * error)
    (errs : list goerror) : bool :=
  bool_decide (usage.2 ≠ None ∨ usage.1 ≠ 0%Z) && waitForPools &&
  negb (failQuick && bool_decide (GetError errs ≠ None)).

(** The error of the pools counts only when it was waited for them. *)
Definition check_usage (waitForPools : bool) (errs : list goerror) : M (list goerror) :=
  c ← Config;
  usage ← getMspUsage;
  if should_wait waitForPools (FailQuick c) usage errs then
    usage ← await_unused 60 (10 * Second) getMspUsage usage;
    mret (used_error "" usage.1 (Accumulate usage.2 errs))
  else mret (used_error "" usage.1 errs).

Definition check_count {A} (what : string) (l : list A * error) (errs : list goerror)
    : list goerror :=
  let errs := Accumulate l.2 errs in
  if decide (length l.1 = 0%nat) then errs
  else Accumulate (errorf ("gRPC: count of " +:+ what +:+ " reported via mayastor client is " +:+
                           Itoa (Z.of_nat (length l.1)))) errs.

(** What the daemons say, when they can be asked. *)
Definition check_grpc_resources (waitForPools : bool) (errs : list goerror)
    : M (list goerror) :=
  connect ← reads canConnect;
  if negb connect then mret errs
  else
    c ← Config;
    usage ← e2e_GetPoolUsageInCluster;
    usage ← (if should_wait waitForPools (FailQuick c) usage errs
             then await_unused 60 (2 * Second) e2e_GetPoolUsageInCluster usage
             else mret usage);
    let errs := used_error "gRPC: " usage.1 (Accumulate usage.2 errs) in
    nexuses ← ListNexusesInCluster;
    let errs := check_count "nexuses" nexuses errs in
    replicas ← e2e_ListReplicasInCluster;
    let errs := check_count "replicas" replicas errs in
    nvmeControllers ← ListNvmeControllersInCluster;
    mret (check_count "replicas" nvmeControllers errs).

Definition resourceCheck (waitForPools : bool) : M error :=
  errs ← check_objects;
  errs ← check_usage waitForPools errs;
  errs ← check_grpc_resources waitForPools errs;
  mret (GetError errs).
Definition ResourceCheck : M error := resourceCheck true.

(** ** Restarting Mayastor (util_testpods.go) *)

Definition await_online (poolsTOSecs : Z) : M unit :=
  r ← for_upto 0 ((poolsTOSecs + 10 - 1) `quot` 10) tt (λ _ _,
        time_Sleep (10 * Second) ;;
        err ← CheckAllMsPoolsAreOnline;
        match err with None => mret (Break tt) | Some _ => mret (Next tt) end);
  no_return r.

Definition pools_restored (poolsTOSecs : Z) : M error :=
  await_online poolsTOSecs ;;
  err ← CheckAllMsPoolsAreOnline;
  match err with
  | Some e => mret (errorf ("not all pools are online " +:+ err_text e))
  | None =>
      connect ← reads canConnect;
      if connect : bool then
        err ← e2e_RmReplicasInCluster;
        mret (match err with
              | Some e => errorf ("RmReplicasInCluster failed " +:+ err_text e)
              | None => None end)
      else mret None
  end.

Definition restartMayastor (restartTOSecs readyTOSecs poolsTOSecs : Z) : M error :=
  _ ← CleanUp;
  _ ← DeleteAllPoolFinalizers;
  _ ← DeleteAllPools;
  err ← e2e_RestartMayastorPods restartTOSecs;
  match err with
  | Some e => mret (errorf ("RestartMayastorPods failed " +:+ err_text e))
  | None =>
      '(ready, err) ← MayastorReady 5 readyTOSecs;
      match err with
      | Some e => mret (errorf ("failure waiting for mayastor to be ready " +:+ err_text e))
      | None =>
          if negb ready then mret (errorf "mayastor is not ready after deleting all pods")
          else
            time_Sleep (30 * Second) ;;
            _ ← DeleteAllPoolFinalizers;
            c ← Config;
            if decide (strlen (PoolDevice c) = 0%Z) then pools_restored poolsTOSecs
            else
              _ ← DeleteAllPools;
              err ← CreateConfiguredPools;
              match err with
              | Some e => mret (Some e)
              | None => pools_restored poolsTOSecs
              end
      end
  end.

(** Three attempts, each checked; the last error comes out.  The time to be ready is the
    time to restart. *)
Definition RestartMayastor (restartTOSecs readyTOSecs poolsTOSecs : Z) : M error :=
  ns ← e2e_NSMayastor;
  r ← for_upto 1 (3 + 1) (None : error) (λ _ _,
        err ← restartMayastor restartTOSecs restartTOSecs poolsTOSecs;
        match err with
        | Some e => time_Sleep (10 * Second) ;; mret (Next (Some e))
        | None =>
            err ← CheckTestPodsHealth ns;
            match err with
            | Some e => time_Sleep (10 * Second) ;; mret (Next (Some e))
            | None =>
                err ← ResourceCheck;
                match err with
                | Some e => time_Sleep (10 * Second) ;; mret (Next (Some e))
                | None => mret (Break None)
                end
            end
        end);
  no_return r.

(** ** Before and after each test *)

Definition e2e_wrap_error (e : goerror) (text : string) : error :=
  Some (GoError (err_text e +:+ text) (err_is e)).

Definition check_and_count : M error :=
  err ← resourceCheck false;
  match err with
  | Some e =>
      let err := e2e_wrap_error e ("; not running test case, k8s cluster is not " +:+
                               quoted "clean" +:+ "!!! ") in
      updates (set_check_error err) ;; mret err
  | None =>
      updates (set_check_error None) ;;
      '(podNames, err) ← e2e_listMayastorPods None;
      match err with
      | Some e => mret (e2e_wrap_error e "; not running test case, not able to get pod list")
      | None => updates (set_pod_count (Z.of_nat (length podNames))) ;; mret None
      end
  end.

Definition BeforeEachCheck : M error :=
  c ← Config;
  prior ← reads resourceCheckError;
  if FailQuick c && bool_decide (prior ≠ None) then mret (errorf "prior ResourceCheck failed")
  else if BeforeEachCheckAndRestart c then
    (match prior with
     | None => err ← resourceCheck false; updates (set_check_error err)
     | Some _ => mret tt
     end) ;;
    err ← reads resourceCheckError;
    match err with
    | None => mret None
    | Some _ =>
        _ ← RestartMayastor 120 120 120;
        _ ← RestoreConfiguredPools;
        check_and_count
    end
  else check_and_count.

Definition AfterEachCheck : M error :=
  c ← Config;
  prior ← reads resourceCheckError;
  if FailQuick c && bool_decide (prior ≠ None) then mret (errorf "prior ResourceCheck failed")
  else
    err ← ResourceCheck;
    updates (set_check_error err) ;;
    mret err.
End E2ETest.
