(* ===== verification/E2EDemo.v ===== *)
(** * A scripted cluster for the end-to-end helpers

    Instances of the interfaces with which the theorems of E2ETheorems.v are tried. *)

From stdpp Require Import base gmap strings list.
From S2P Require Import Prelude GoLib Json Http Shell Kube K8sPods MayastorClient.
From S2P Require Import K8sLib ScriptedCluster Session ControlPlane CpTheorems.

(** The core agents run as a deployment that can be read and never be updated; besides it there
    are at most a daemon set and the namespaces. *)
Definition apps_with (daemon : answer Cluster DaemonSet) (namespace : answer Cluster unit)
    : KubeApps Cluster := {|
  dep_Get _ name := if decide (name = "core-agents") then ok zero_deployment else no;
  dep_List _ _ := ok [];
  dep_Update _ _ := no;
  dep_Delete _ _ := no;
  sts_Get _ _ := no;
  sts_List _ _ := ok [];
  sts_Update _ _ := no;
  ds_Get _ _ := daemon;
  ds_List _ := ok [];
  pods_Select _ _ := ok [];
  pods_DeleteNow _ _ := no;
  nodes_Get _ := no;
  ns_Get _ := namespace;
  ns_List := ok [];
  ns_Delete _ := no;
  sc_List := ok [];
  sc_DeleteNow _ := no;
  pvc_DeleteNow _ _ := no;
  pv_List := ok [];
  pv_Update _ := no;
  pv_DeleteNow _ := no;
  va_List := ok [];
  va_Delete _ := no;
|}.
Definition demo_apps : KubeApps Cluster := apps_with no no.

(** A claim and its volume that stay pending. *)
Definition stuck_claim : PVC :=
  mkPVC (mkMeta "vol" "" "default" "v1" ∅ ∅ None 0 None) None [] "" None "pvc-v1" "Pending".
Definition stuck_pv : PV := zero_pv.
Definition immediate_sc : StorageClass :=
  mkSC zero_meta "io.openebs.csi-mayastor" None (Some VolumeBindingImmediate).

(** The requests of the scripted cluster, but for those to claims, volumes, classes, nodes
    and pools. *)
Definition kube_with (claims : list PVC) (nodes : answer Cluster (list Node))
    (pools : answer Cluster (list MayastorPool)) : Kube Cluster := {|
  pods_List := pods_List; pods_Get := pods_Get; pods_Create := pods_Create;
  pods_Delete := pods_Delete; nodes_List := nodes;
  pvc_Create _ _ := ok stuck_claim; pvc_Get _ _ := ok stuck_claim; pvc_Delete _ _ := ok tt;
  pvc_List _ := ok claims; pv_Get _ := ok stuck_pv; sc_Create := sc_Create;
  sc_Get _ := ok immediate_sc; sc_Delete := sc_Delete; ns_Create := ns_Create;
  msp_Create := msp_Create; msp_Get := msp_Get; msp_Update := msp_Update;
  msp_Delete := msp_Delete; msp_List := pools; msn_Get := msn_Get; msn_Delete := msn_Delete;
  msn_List := msn_List; msv_Get := msv_Get; msv_Update := msv_Update;
  msv_Delete := msv_Delete; msv_List := msv_List |}.
Definition calm_kube : Kube Cluster := kube_with [] (ok []) (ok []).
Definition blind_kube : Kube Cluster := kube_with [] no no.

(** An agent that prints a text for the list of devices and nothing for the rest. *)
Definition agent_lists (text : string) : Http Cluster := {|
  http_NewRequest _ _ := None;
  http_Do r c :=
    (inr (mkResponse 200 (inr (match rq_body r with
       | Some (JObj [(_, JStr cmd)]) => if HasPrefix cmd "nvme list" then text else ""
       | _ => "" end))), c) |}.
