(* ===== verification/E2ETheorems.v ===== *)
(** * Theorems about the helpers of the end-to-end tests *)

From stdpp Require Import base gmap strings list pretty.
From Stdlib Require Import Ascii.
From S2P Require Import Prelude GoLib Json Http Shell Kube Total MayastorClient GoTime.
From S2P Require Import K8sPods K8sLib K8sApps AgentClient AgentServer Session ControlPlane.
From S2P Require Import E2ENodes E2EPods E2EUtil E2EPvc E2ECleanup E2ETest ScriptedCluster.
From S2P Require Import CpTheorems E2EDemo.

(** ** Rules for the loops of these helpers *)

Section Loops.
Context {S : Type}.

(** A loop whose every round, from a state in [I], goes on to a state in [I] or returns [r],
    ends in [I]: with its own end or with [r]. *)
Lemma run_for_range_or {A B R} (I : S → Prop) (P : B → Prop) (r0 : R) (l : list A) (b : B)
    (body : A → B → prog S (ctl B R)) s :
  (∀ x b s, I s → P b → ∃ c s', run (body x b) s = (Ret c, s') ∧ I s' ∧
     match c with Next b' | Break b' => P b' | Return r => r = r0 end) →
  I s → P b →
  ∃ v s', run (for_range l b body) s = (Ret v, s') ∧ I s' ∧
    match v with inl b' => P b' | inr r => r = r0 end.
Proof.
  intros Hbody. revert b s. induction l as [|x l IH]; intros b s Hs Hb.
  - by exists (inl b), s.
  - rewrite run_for_range_cons. destruct (Hbody x b s Hs Hb) as (c & s1 & E & H1 & Hc).
    rewrite E. cbn [seq_run]. destruct c as [b'|b'|r].
    + by apply IH.
    + by exists (inl b'), s1.
    + by exists (inr r), s1.
Qed.

End Loops.

(** A loop that has stopped before its first round stays where it is. *)
Lemma run_for_range_break {S A B R} (x : A) l (b b' : B)
    (body : A → B → prog S (ctl B R)) s s' :
  run (body x b) s = (Ret (Break b'), s') →
  run (for_range (x :: l) b body) s = (Ret (inl b'), s').
Proof. intros E. by rewrite run_for_range_cons, E. Qed.

Lemma seqZ_pos n : (0 < n)%Z → seqZ 0 n = 0%Z :: seqZ 1 (n - 1).
Proof. intros. rewrite seqZ_cons by lia. repeat f_equal; lia. Qed.

(** ** Polls *)

Section Poll.
Context {W : Type} `{Clock W}.
Notation M := (prog (Session W)).

(** A look that always sees the same: that is what the poll brings back. *)
Lemma run_poll_const {A} (s0 : Session W) (n pause : Z) (init a : A) (done : bool)
    (look : M (A * bool)) :
  (∀ s, same_but_world s0 s → ∃ s', run look s = (Ret (a, done), s') ∧ same_but_world s0 s') →
  (0 < n)%Z →
  ∀ s, same_but_world s0 s →
  ∃ s', run (poll n pause init look) s = (Ret a, s') ∧ same_but_world s0 s'.
Proof.
  intros Hlook Hn s Hs. unfold poll, for_upto. rewrite Z.sub_0_r.
  assert (Hloop : ∀ (l : list Z) (b : A) s, same_but_world s0 s → (l ≠ [] ∨ b = a) → ∃ s',
    run (for_range (R:=Empty_set) l b (λ _ _, '(a, done) ← look;
        if done : bool then mret (Break a) else time_Sleep pause ;; mret (Next a))) s =
      (Ret (inl a), s') ∧ same_but_world s0 s').
  { clear s Hs. induction l as [|x l IH]; intros b s Hs Hb.
    - destruct Hb as [Hb| ->]; [done|]. by exists s.
    - rewrite run_for_range_cons, run_bind.
      destruct (Hlook s Hs) as (s1 & E & H1). rewrite E. cbn [seq_run].
      destruct done; [by exists s1|]. unfold time_Sleep.
      rewrite run_bind, run_outside. cbn [seq_run]. rewrite run_done. cbn [seq_run].
      apply IH; [|by right]. by apply same_but_world_free. }
  destruct (Hloop (seqZ 0 n) init s Hs) as (s' & E & Hs').
  { left. by rewrite seqZ_pos. }
  rewrite run_bind, E. cbn [seq_run no_return]. by exists s'.
Qed.
End Poll.

(** ** Errors that do not come out *)

Section Unreported.
Context {W : Type} `{Kube W} `{KubeApps W} `{Clock W} `{Http W}.
Notation M := (prog (Session W)).

Lemma run_set_replication {A} what name ns (zero : A) get update scale :
  (∀ w : W, ∃ a w', get w = (inr a, w')) →
  ∀ s : Session W, ∃ s',
    run (set_replication what name ns zero get update scale) s = (Ret None, s').
Proof.
  intros Hget s. unfold set_replication. rewrite run_bind. unfold for_upto.
  edestruct (run_for_range_or (λ _ : Session W, True) (λ _ : (), True) (None : error)
    (seqZ 0 (10 - 0)) tt) with (s := s) as (v & s' & E & _ & Hv); [|done|done|].
  2: { rewrite E. cbn [seq_run]. destruct v; subst; by eexists. }
  intros x b s1 _ _. cbv beta. rewrite run_bind, run_kube_call. cbn [seq_run].
  destruct (Hget (world s1)) as (a & w' & Ea). rewrite Ea. cbn [fst snd].
  rewrite run_bind, run_kube_call. cbn [seq_run].
  destruct (update (scale a) _) as [[e|a'] w2]; cbn [fst snd].
  - unfold time_Sleep. rewrite run_bind, run_outside. cbn [seq_run].
    by eexists (Next tt), _.
  - by eexists (Break tt), _.
Qed.

(** Changing the number of replicas of a deployment: the ten attempts keep their errors
    to themselves, so that the call reports success whenever the deployment can be read,
    also when no update of it succeeds. *)
Theorem replication_failure_unreported deploymentName namespace replicas :
  (∀ w : W, ∃ d w', dep_Get namespace deploymentName w = (inr d, w')) →
  ∀ s : Session W, ∃ s',
    run (SetDeploymentReplication deploymentName namespace replicas) s = (Ret None, s').
Proof. apply run_set_replication. Qed.

(** The pools are reported deleted when they cannot be listed: nothing is deleted, and
    the count that decides never leaves zero. *)
Theorem pools_deleted_unseen :
  (∀ w : W, ∃ e w', msp_List w = (inl e, w')) →
  ∀ s : Session W, ∃ s', run DeleteAllPools s = (Ret true, s').
Proof.
  intros Hl s. unfold DeleteAllPools, ListMsPools. rewrite run_bind, run_kube_call.
  cbn [seq_run]. destruct (Hl (world s)) as (e & w & E). rewrite E. cbn [fst snd].
  rewrite run_bind. unfold delete_each. rewrite run_bind. cbn [map for_range].
  rewrite run_done. cbn [seq_run no_return]. rewrite run_done. cbn [seq_run].
  rewrite run_bind. unfold for_upto. rewrite seqZ_pos by lia.
  destruct (Hl (world (set_world w s))) as (e' & w' & E').
  rewrite (run_for_range_break _ _ _ 0%Z _ _ (set_world w' (set_world w s))).
  - cbn [seq_run]. rewrite run_bind. by eexists.
  - rewrite run_bind, run_kube_call, E'. done.
Qed.

(** ** The checksum of a replica *)

Lemma run_find_device ip n :
  (∀ s : Session W, ∃ out err s', run (Exec ip "nvme list --output-format=json") s =
     (Ret (out, err), s') ∧ (out = "" ∨ err ≠ None ∨ (nvme_devices out).2 = true)) →
  ∀ s : Session W, ∃ s', run (find_device ip n) s = (Ret None, s').
Proof.
  intros Hx s. unfold find_device, for_upto. rewrite run_bind.
  enough (Hl : ∀ (l : list Z) (s : Session W), ∃ s', run (for_range (B:=()) l tt (λ _ _,
      time_Sleep (5 * Second) ;; found ← look_for_device ip;
      match found with
      | None => mret (Next tt)
      | Some devicePath =>
          deviceOnly ← slice_string devicePath 5 (strlen devicePath);
          mret (Return (devicePath, deviceOnly))
      end)) s = (Ret (inl tt), s')).
  { destruct (Hl (seqZ 0 (n - 0)) s) as (s' & ->). by eexists. }
  clear s. induction l as [|x l IH]; intros s; [by eexists|].
  rewrite run_for_range_cons, run_bind. unfold time_Sleep. rewrite run_outside. cbn [seq_run].
  rewrite run_bind. unfold look_for_device. rewrite run_bind.
  destruct (Hx (set_world (clock_sleep (5 * Second) (world s)) s)) as (out & err & s1 & E & Ho).
  cbn [fst snd]. rewrite E. cbn [seq_run].
  case_decide; [rewrite run_done; cbn [seq_run]; apply IH|].
  destruct (nvme_devices out) as [ds []] eqn:Ed; [rewrite run_done; cbn [seq_run]; apply IH|].
  cbn [snd] in Ho. naive_solver.
Qed.

(** The checksum of a replica is never computed from a list of devices that can be
    decoded: such a list is thrown away (the test of the decoder's error is the wrong way
    round), so that as long as the agent prints lists of texts only, no call comes back with
    a checksum, whatever else the agent answers. *)
Theorem no_checksum_from_good_list initiatorIP targetIP uri maxRetries :
  (∀ s : Session W, ∃ out err s', run (Exec initiatorIP "nvme list --output-format=json") s =
     (Ret (out, err), s') ∧ (out = "" ∨ err ≠ None ∨ (nvme_devices out).2 = true)) →
  ∀ (s s' : Session W) t err,
    run (ChecksumReplica initiatorIP targetIP uri maxRetries) s = (Ret (t, err), s') →
    t = "" ∧ err ≠ None.
Proof.
  intros Hx s s' t err. unfold ChecksumReplica. rewrite run_bind.
  destruct (run (slice_string _ _ _) s) as [[nqnlong| | |] s1]; cbn [seq_run]; try done.
  rewrite run_bind.
  destruct (run (slice_string _ _ _) s1) as [[nqn| | |] s2]; cbn [seq_run]; try done.
  rewrite run_bind.
  destruct (run (Exec _ _) s2) as [[[resp e]| | |] s3]; cbn [seq_run]; try done.
  destruct e as [e|]; [rewrite run_done; naive_solver|].
  case_decide; [rewrite run_done; naive_solver|].
  rewrite run_bind. destruct (run_find_device initiatorIP maxRetries Hx s3) as (s4 & ->).
  cbn [seq_run]. rewrite run_done. naive_solver.
Qed.
End Unreported.

(** ** Waiting for a pod to complete *)

Section Complete.
Context {W : Type} `{Kube W} `{Clock W}.

Lemma run_CheckPodCompleted podName ns (s : Session W) :
  run (CheckPodCompleted podName ns) s =
  (let r := pods_Get ns podName (se_world s) in
   (Ret (match r.1 with
         | inl e => (PodUnknown, Some e)
         | inr pod => (completed_phase podName pod, None) end), set_world r.2 s)).
Proof.
  unfold CheckPodCompleted, CheckPodContainerCompleted. rewrite run_bind, run_kube_call.
  cbn [seq_run world session_world]. by destruct (pods_Get _ _ _) as [[] ?].
Qed.

(** A round comes back, and goes on only while there is time. *)
Lemma run_pod_round podName (sleep timeout i : Z) phase (s : Session W) :
  ∃ c s', run (pod_round podName sleep timeout i phase) s = (Ret c, s') ∧
    match c with Next _ => (i * sleep ≤ timeout)%Z | _ => True end.
Proof.
  unfold pod_round. destruct (decide _) as [Hlt|Hge]; [by eexists (Break phase), s|].
  unfold time_Sleep. rewrite run_bind, run_outside. cbn [seq_run].
  rewrite run_bind, run_CheckPodCompleted. cbn [seq_run].
  destruct (pods_Get _ _ _) as [[e|pod] w]; cbn [fst snd]; [by eexists (Return _), _|].
  case_decide; [by eexists (Return _), _|]. case_decide; [by eexists (Break _), _|].
  eexists (Next _), _. split; [done|]. lia.
Qed.

(** A round without a pause, with a pod that is running. *)
Lemma run_pod_round_running podName (timeout i : Z) phase (s : Session W) pod w' :
  (0 ≤ timeout)%Z →
  pods_Get NSDefault podName (clock_sleep (0 * Second) (se_world s)) = (inr pod, w') →
  completed_phase podName pod = PodRunning →
  ∃ s', run (pod_round podName 0 timeout i phase) s = (Ret (Next PodRunning), s').
Proof.
  intros Ht Hg Hp. unfold pod_round. rewrite decide_False by lia.
  unfold time_Sleep. rewrite run_bind, run_outside. cbn [seq_run].
  rewrite run_bind, run_CheckPodCompleted. cbn [seq_run se_world set_world session_world].
  cbn [fst snd world session_world]. rewrite Hg. cbn [fst snd]. rewrite Hp. by eexists.
Qed.

(** (C16) The wait for a pod to complete ends after [timeout / sleep + 1] sleeps at most,
    whatever the cluster answers, when the sleeps have a length; when they have none and the
    pod goes on running, it does not end: no number of rounds is enough. *)
Theorem pod_wait_terminates podName (sleep timeout : Z) :
  ((0 < sleep)%Z → ∀ fuel (s : Session W), (Z.to_nat (timeout / sleep) + 2 ≤ fuel)%nat →
     ∃ err s', run (WaitPodComplete fuel podName sleep timeout) s = (Ret err, s')) ∧
  (sleep = 0%Z → (0 ≤ timeout)%Z →
     (∀ w : W, ∃ pod w', pods_Get NSDefault podName w = (inr pod, w') ∧
        completed_phase podName pod = PodRunning) →
     ∀ fuel (s : Session W), ∃ s',
       run (WaitPodComplete fuel podName sleep timeout) s = (Exhausted, s')).
Proof.
  split.
  - intros Hs fuel s Hf. unfold WaitPodComplete. rewrite run_bind.
    enough (Hloop : returns (for_fuel fuel 0 "" (pod_round (W:=W) podName sleep timeout))).
    { destruct (Hloop s) as (v & s' & ->). destruct v; by eexists _, _. }
    apply returns_for_fuel; [lia|]. intros i phase Hi s0 _.
    destruct (run_pod_round podName sleep timeout i phase s0) as (c & s' & E & Hc).
    exists c, s'. split; [exact E|]. destruct c; [|done..].
    assert (i ≤ timeout / sleep)%Z by (apply Z.div_le_lower_bound; lia). lia.
  - intros -> Ht Hp fuel s. unfold WaitPodComplete. rewrite run_bind.
    enough (Hloop : ∀ i phase s, ∃ s',
      run (for_fuel fuel i phase (pod_round (W:=W) podName 0 timeout)) s = (Exhausted, s')).
    { destruct (Hloop 0%Z "" s) as (s' & ->). by eexists. }
    clear s. induction fuel as [|fuel IH]; intros i phase s; [by eexists|].
    destruct (Hp (clock_sleep (0 * Second) (se_world s))) as (pod & w' & Hg & Hph).
    destruct (run_pod_round_running podName timeout i phase s pod w' Ht Hg Hph) as (s1 & E).
    cbn [for_fuel]. rewrite run_bind, E. cbn [seq_run]. apply IH.
Qed.
End Complete.

(** ** The checks around the tests *)

Section Checks.
Context {W : Type} `{Kube W} `{KubeApps W} `{Shell W} `{Http W} `{MapRange W} `{Clock W}
  `{Grpc W} `{Files W} `{System W} `{ConfigFiles W}.
Notation M := (prog (Session W)).

Inductive each_check := Before | After.
Definition do_check (c : each_check) : M error :=
  match c with Before => BeforeEachCheck | After => AfterEachCheck end.
Fixpoint do_checks (cs : list each_check) : M (list error) :=
  match cs with
  | [] => mret []
  | c :: cs' => e ← do_check c; es ← do_checks cs'; mret (e :: es)
  end.

(** Failing quickly: once a check has found the cluster dirty, every check before or
    after a test fails for that reason, in any number and order, without a request to the
    cluster and without a change of what is known. *)
Theorem fail_quick_latches cs (s : Session W) :
  FailQuick (e2eConfig s) = true → resourceCheckError s ≠ None →
  run (do_checks cs) s = (Ret (map (λ _, errorf "prior ResourceCheck failed") cs), s).
Proof.
  intros Hq He. induction cs as [|c cs IH]; [done|]. cbn [do_checks map]. rewrite run_bind.
  assert (E : run (do_check c) s = (Ret (errorf "prior ResourceCheck failed"), s)).
  { destruct c; cbn [do_check]; unfold BeforeEachCheck, AfterEachCheck, Config;
      rewrite !run_bind, run_reads; cbn [seq_run]; rewrite !run_bind, run_reads; cbn [seq_run];
      rewrite Hq, bool_decide_eq_true_2 by done; done. }
  rewrite E. cbn [seq_run]. rewrite run_bind, IH. done.
Qed.

Lemma GetError_none errs : GetError errs = None → errs = [].
Proof.
  destruct errs as [|e errs]; [done|]. unfold GetError. cbn [foldl].
  assert (Hs : ∀ (l : list goerror) a, foldl (λ (err : error) e, match err with
     | Some a => Some (GoError (err_text a +:+ "; " +:+ err_text e) (err_is a))
     | None => Some e end) (Some a) l ≠ None).
  { induction l as [|x l IH]; intros a; [done|]. apply IH. }
  intros E. by destruct (Hs errs e).
Qed.
Lemma Accumulate_nil err errs : Accumulate err errs = [] → err = None ∧ errs = [].
Proof. destruct err; simpl; [|done]. intros E. by apply app_nil in E as [_ ?]. Qed.
Lemma found_nil what b errs : found what b errs = [] → b = false ∧ errs = [].
Proof. destruct b; simpl; [|done]. intros E. by apply app_nil in E as [_ ?]. Qed.

(** Running the first part of a program that came back. *)
Lemma run_bind_ret {A B} (p : M A) (k : A → M B) (s s' : Session W) b :
  run (p ≫= k) s = (Ret b, s') →
  ∃ a s1, run p s = (Ret a, s1) ∧ run (k a) s1 = (Ret b, s').
Proof. rewrite run_bind. destruct (run p s) as [[a| | |] s1]; simpl; naive_solver. Qed.

Lemma check_objects_clean (s s' : Session W) :
  SelfTest (e2eConfig s) = false →
  run check_objects s = (Ret [], s') →
  ∃ s1 s2 s3 s4 s5 s6 l,
    run (CheckTestPodsHealth (ProductNamespace (cfg_Product (e2eConfig s)))) s = (Ret None, s1) ∧
    run CheckForTestPods s1 = (Ret (false, None), s2) ∧
    run CheckForPVCs s2 = (Ret (false, None), s3) ∧
    run CheckForPVs s3 = (Ret (false, None), s4) ∧
    run e2e_ListMsvs s4 = (Ret (l, None), s5) ∧ l = [] ∧
    run CheckForStorageClasses s5 = (Ret (false, None), s6) ∧
    run CheckAllMsPoolsAreOnline s6 = (Ret None, s').
Proof.
  intros Hself E. unfold check_objects, Config in E. rewrite run_bind, run_reads in E.
  cbn [seq_run] in E. rewrite Hself in E.
  apply run_bind_ret in E as (e0 & s1 & E0 & E).
  apply run_bind_ret in E as ([b1 e1] & s2 & E1 & E).
  apply run_bind_ret in E as ([b2 e2] & s3 & E2 & E).
  apply run_bind_ret in E as ([b3 e3] & s4 & E3 & E).
  apply run_bind_ret in E as ([l e4] & s5 & E4 & E).
  apply run_bind_ret in E as ([b5 e5] & s6 & E5 & E).
  apply run_bind_ret in E as (e6 & s7 & E6 & E).
  rewrite run_done in E. injection E as Hnil <-.
  apply Accumulate_nil in Hnil as [-> Hnil].
  repeat (apply found_nil in Hnil as [? Hnil]; apply Accumulate_nil in Hnil as [? Hnil]).
  apply Accumulate_nil in Hnil as [? _]. subst.
  exists s1, s2, s3, s4, s5, s6, l. repeat split; try done.
  match goal with Hl : bool_decide _ = false |- _ => apply bool_decide_eq_false in Hl end.
  destruct l; naive_solver.
Qed.

Lemma used_error_nil what usage errs :
  used_error what usage errs = [] → usage = 0%Z ∧ errs = [].
Proof.
  unfold used_error. case_decide as Hu; [done|]. intros E. simpl in E.
  by apply app_nil in E as [_ ?].
Qed.
Lemma check_count_nil {A} what (l : list A * error) errs :
  check_count what l errs = [] → l = ([], None) ∧ errs = [].
Proof.
  unfold check_count. destruct l as [l e]. cbn [fst snd].
  case_decide as Hl.
  - intros E. apply Accumulate_nil in E as [-> ?]. by destruct l.
  - intros E. simpl in E. by apply app_nil in E as [_ ?].
Qed.

(** The usage that was seen last. *)
Lemma check_usage_clean b errs (s s' : Session W) :
  run (check_usage b errs) s = (Ret [], s') →
  errs = [] ∧ ∃ e, run getMspUsage s = (Ret (0%Z, e), s') ∨
    ∃ u s1, run getMspUsage s = (Ret u, s1) ∧
      run (await_unused 60 (10 * Second) getMspUsage u) s1 = (Ret (0%Z, None), s').
Proof.
  unfold check_usage, Config. rewrite run_bind, run_reads. cbn [seq_run]. intros E.
  apply run_bind_ret in E as (u & s1 & E1 & E).
  destruct (should_wait _ _ _ _).
  - apply run_bind_ret in E as ([v e] & s2 & E2 & E). rewrite run_done in E.
    injection E as E <-. cbn [fst snd] in E.
    apply used_error_nil in E as [-> E]. apply Accumulate_nil in E as [-> ->].
    split; [done|]. exists None. right. by exists u, s1.
  - rewrite run_done in E. injection E as E <-. destruct u as [v e].
    apply used_error_nil in E as [Hv ->]. cbn [fst] in Hv. subst.
    split; [done|]. exists e. by left.
Qed.

Lemma check_grpc_clean b errs (s s' : Session W) :
  run (check_grpc_resources b errs) s = (Ret [], s') →
  errs = [] ∧ (canConnect s = true → ∃ s1 s2 s3,
    run ListNexusesInCluster s1 = (Ret ([], None), s2) ∧
    run e2e_ListReplicasInCluster s2 = (Ret ([], None), s3) ∧
    run ListNvmeControllersInCluster s3 = (Ret ([], None), s')).
Proof.
  unfold check_grpc_resources. rewrite run_bind, run_reads. cbn [seq_run]. intros E.
  destruct (canConnect s); cbn [negb] in E; [|rewrite run_done in E; naive_solver].
  unfold Config in E. rewrite run_bind, run_reads in E. cbn [seq_run] in E.
  apply run_bind_ret in E as (u & s1 & _ & E).
  apply run_bind_ret in E as (u' & s2 & _ & E).
  apply run_bind_ret in E as (nx & s3 & E3 & E).
  apply run_bind_ret in E as (rp & s4 & E4 & E).
  apply run_bind_ret in E as (nv & s5 & E5 & E). rewrite run_done in E. injection E as E <-.
  apply check_count_nil in E as [-> E]. apply check_count_nil in E as [-> E].
  apply check_count_nil in E as [-> E]. apply used_error_nil in E as [_ E].
  apply Accumulate_nil in E as [_ ->]. split; [done|]. intros _. by exists s2, s3, s4.
Qed.

(** (C14) A resource check that finds nothing, outside the framework's tests of itself, has
    asked for everything and seen nothing: the pods of Mayastor are healthy, there are no test
    pods, claims, volumes, Mayastor volumes or storage classes, the pools are online, and,
    where the daemons can be asked, there is no nexus, replica or controller.  The usage of the
    pools that was read last is zero; where the check waits for it (it does when the first
    reading is not zero), it was read without an error; where it does not, a listing of the
    pools that failed counts as zero too. *)
Theorem clean_check_saw_nothing b (s s' : Session W) :
  SelfTest (e2eConfig s) = false →
  run (resourceCheck b) s = (Ret None, s') →
  ∃ s1 s2 s3 s4 s5 s6 s7 s8,
    run (CheckTestPodsHealth (ProductNamespace (cfg_Product (e2eConfig s)))) s = (Ret None, s1) ∧
    run CheckForTestPods s1 = (Ret (false, None), s2) ∧
    run CheckForPVCs s2 = (Ret (false, None), s3) ∧
    run CheckForPVs s3 = (Ret (false, None), s4) ∧
    run e2e_ListMsvs s4 = (Ret ([], None), s5) ∧
    run CheckForStorageClasses s5 = (Ret (false, None), s6) ∧
    run CheckAllMsPoolsAreOnline s6 = (Ret None, s7) ∧
    (∃ e, run getMspUsage s7 = (Ret (0%Z, e), s8) ∨
       ∃ u s', run getMspUsage s7 = (Ret u, s') ∧
         run (await_unused 60 (10 * Second) getMspUsage u) s' = (Ret (0%Z, None), s8)) ∧
    (canConnect s8 = true → ∃ t1 t2 t3,
       run ListNexusesInCluster t1 = (Ret ([], None), t2) ∧
       run e2e_ListReplicasInCluster t2 = (Ret ([], None), t3) ∧
       run ListNvmeControllersInCluster t3 = (Ret ([], None), s')).
Proof.
  intros Hself E. unfold resourceCheck in E.
  apply run_bind_ret in E as (errs & s7 & E1 & E).
  apply run_bind_ret in E as (errs2 & s8 & E2 & E).
  apply run_bind_ret in E as (errs3 & s9 & E3 & E). rewrite run_done in E.
  injection E as E <-. apply GetError_none in E as ->.
  apply check_grpc_clean in E3 as [-> Hgrpc]. apply check_usage_clean in E2 as [-> Husage].
  apply check_objects_clean in E1 as (s1 & s2 & s3 & s4 & s5 & s6 & l & ? & ? & ? & ? & ? & ->
    & ? & ?); [|done].
  by exists s1, s2, s3, s4, s5, s6, s7, s8.
Qed.

(** ** Setting up the control plane *)

Lemma run_CheckAndSetControlPlane (s : Session W) d_ok t_ok w1 w2 :
  let product := cfg_Product (e2eConfig s) in
  dep_Get (ProductNamespace product) (ControlPlaneAgent product) (se_world s) = (d_ok, w1) →
  sts_Get (ProductNamespace product) (ControlPlaneAgent product) w1 = (t_ok, w2) →
  (∃ d, d_ok = inr d) ∨ (∃ t, t_ok = inr t) →
  run CheckAndSetControlPlane s =
  run (set ← SetControlPlane "1.0.0";
       mret (if set : bool then None
             else errorf "failed to setup config control plane to 1.0.0")) (set_world w2 s).
Proof.
  intros product Hd Ht Hok. unfold CheckAndSetControlPlane, Config.
  rewrite run_bind, run_reads. cbn [seq_run]. fold product.
  rewrite run_bind, run_kube_call. cbn [seq_run world session_world]. rewrite Hd. cbn [fst snd].
  destruct d_ok as [e|d]; rewrite run_bind, run_kube_call;
    cbn [seq_run world session_world set_world se_world]; rewrite Ht; cbn [fst snd];
    destruct t_ok as [e'|t]; try done; naive_solver.
Qed.

(** (C15) The setup makes the control plane usable: when the core agents run, as a deployment
    or as a stateful set, and no other version was agreed before, the check succeeds, the
    version is 1.0.0, and the first use of the control plane finds the implementation for
    version 1. *)
Theorem setup_selects_control_plane (s : Session W) d_ok t_ok w1 w2 :
  config_once s = true → cp_once s = false →
  MayastorVersion (e2eConfig s) = "" ∨ MayastorVersion (e2eConfig s) = "1.0.0" →
  let product := cfg_Product (e2eConfig s) in
  dep_Get (ProductNamespace product) (ControlPlaneAgent product) (se_world s) = (d_ok, w1) →
  sts_Get (ProductNamespace product) (ControlPlaneAgent product) w1 = (t_ok, w2) →
  (∃ d, d_ok = inr d) ∨ (∃ t, t_ok = inr t) →
  ∃ s1 s2, run CheckAndSetControlPlane s = (Ret None, s1) ∧
    MayastorVersion (e2eConfig s1) = "1.0.0" ∧
    run cp_MajorVersion s1 = (Ret 1%Z, s2) ∧ ifc s2 = Some CPv1.
Proof.
  intros Hc Hcp Hv product Hd Ht Hok.
  rewrite (run_CheckAndSetControlPlane s d_ok t_ok w1 w2) by done. rewrite run_bind.
  destruct (run_SetControlPlane "1.0.0" (set_world w2 s)) as (w & E); [done|].
  rewrite E. clear E.
  assert (Ha : agreed "1.0.0" (MayastorVersion (e2eConfig (set_world w2 s))) = true)
    by (apply bool_decide_eq_true_2; exact Hv).
  rewrite Ha. cbn [seq_run]. rewrite run_done.
  eexists _, _. split; [done|]. split; [done|].
  unfold cp_MajorVersion, via_get. rewrite run_bind. unfold getControlPlane.
  rewrite run_bind, run_once_Do_first by done. rewrite run_choose.
  rewrite decide_True by done. cbn [seq_run]. rewrite run_bind, run_reads. cbn [seq_run].
  done.
Qed.
End Checks.

(** ** Volumes *)

Section Volumes.
Context {W : Type} `{Kube W} `{KubeApps W} `{Shell W} `{Http W} `{MapRange W} `{Clock W}
  `{Grpc W}.
Notation M := (prog (Session W)).

(** A session that has looked up its addresses and chosen its control plane. *)
Definition settled (s : Session W) : Prop :=
  addrs_once s = true ∧ cp_once s = true ∧ ifc s = Some CPv1.

Lemma run_via_settled {A} (m : ControlPlaneInterface M → M A) (s : Session W) :
  settled s → run (EnsureNodeAddressesAreSet ;; via m) s = run (m CPv1_methods) s.
Proof.
  intros (Ha & Hc & Hi). unfold EnsureNodeAddressesAreSet.
  rewrite run_bind, run_once_Do_done by done. cbn [seq_run].
  unfold via. rewrite run_bind, run_getControlPlane_done by done. by rewrite Hi.
Qed.

Lemma run_cpVolumeToMsv_no_nodes v (s : Session W) :
  Replica_topology (vol_State v) ≠ ∅ →
  ∃ w, run (cpVolumeToMsv v []) s = (Ret zero_cm_volume, set_world w s).
Proof.
  intros Hne. unfold cpVolumeToMsv. rewrite run_bind. unfold range_map.
  rewrite run_outside. cbn [seq_run].
  pose proof (map_order_perm (Replica_topology (vol_State v)) (world s)) as Hp.
  destruct (map_order _ (world s)) as [l w]. cbn [fst snd] in *. exists w.
  destruct l as [|[uuid rt] l].
  - exfalso. apply Permutation_nil_l in Hp. symmetry in Hp.
    by apply map_to_list_empty_iff in Hp.
  - rewrite run_bind, run_for_range_cons. unfold getMayastorCpReplica.
    by rewrite decide_True by done.
Qed.

(** When the nodes cannot be listed at the first call that needs them, the addresses of
    the masters stay unknown for good; from then on every volume that has replicas comes
    back without its name, its state and its replicas, and without an error. *)
Theorem lost_addresses_empty_volumes (s : Session W) e w :
  addrs_once s = false → nodes_List (se_world s) = (inl e, w) →
  (∃ s1, run EnsureNodeAddressesAreSet s = (Ret tt, s1) ∧
     addrs_once s1 = true ∧ nodeIpAddresses s1 = []) ∧
  ∀ uuid s2 o s3 v, settled s2 → nodeIpAddresses s2 = [] →
    plugin_run ["-ojson"; "get"; "volume"; uuid] s2 = (o, s3) →
    get_object MayastorCpVolume_of_json o.1 (output_error o.1 o.2) = (Some v, None) →
    vs_Uuid (vol_Spec v) ≠ "" → ms_Status (vol_State v) ∉ ["pending"; ""] →
    (1 ≤ vs_Num_replicas (vol_Spec v))%Z → Replica_topology (vol_State v) ≠ ∅ →
    ∃ s4, run (e2e_GetMSV uuid) s2 = (Ret (Some zero_cm_volume, None), s4).
Proof.
  intros Ho Hl. split.
  - unfold EnsureNodeAddressesAreSet. rewrite run_once_Do_first by done.
    unfold e2e_GetNodeLocs. rewrite !run_bind, run_kube_call.
    cbn [seq_run world session_world set_addrs_once se_world]. rewrite Hl. cbn [fst snd].
    rewrite run_done. cbn [seq_run]. eexists. split; [done|]. done.
  - intros uuid s2 o s3 v Hs Ha Hp Hv Hu Hst Hn Hr.
    unfold e2e_GetMSV, cp_GetMSV. rewrite run_via_settled by done. cbn [cpi_GetMSV CPv1_methods].
    unfold v1_GetMSV. rewrite run_bind, run_GetMayastorCpVolume, Hp, Hv. cbn [seq_run].
    rewrite run_bind, run_deref_Some. cbn [seq_run].
    rewrite decide_False by done. rewrite !decide_False by set_solver.
    rewrite decide_False by lia. rewrite run_bind, run_reads. cbn [seq_run].
    assert (E : nodeIpAddresses s3 = []).
    { unfold plugin_run in Hp. injection Hp as _ <-. exact Ha. }
    rewrite E, run_bind. destruct (run_cpVolumeToMsv_no_nodes v s3 Hr) as (w4 & ->).
    cbn [seq_run]. by eexists.
Qed.

(** ** Making a volume *)

(** A cluster that answers always the same. *)
Record steady (volName nameSpace scName : string) (created pvc : PVC) (pv : PV)
    (sc : StorageClass) (o : string * error) : Prop := {
  st_create : ∀ p (w : W), ∃ w', pvc_Create nameSpace p w = (inr created, w');
  st_pvc : ∀ w : W, ∃ w', pvc_Get nameSpace volName w = (inr pvc, w');
  st_sc : ∀ w : W, ∃ w', sc_Get scName w = (inr sc, w');
  st_pv : ∀ n (w : W), ∃ w', pv_Get n w = (inr pv, w');
  st_plugin : ∀ dir cmd (w : W), ∃ w', sh_CombinedOutput dir cmd w = (o, w');
}.

Context {volName nameSpace scName : string} {created pvc : PVC} {pv : PV}
  {sc : StorageClass} {o : string * error}.

Lemma poll_steady {A} (s0 : Session W) (init a : A) done (look : M (A * bool)) (s : Session W) :
  (∀ s, same_but_world s0 s → ∃ w, run look s = (Ret (a, done), set_world w s)) →
  same_but_world s0 s →
  ∃ s', run (poll e2e_defTimeoutSecs Second init look) s = (Ret a, s') ∧ same_but_world s0 s'.
Proof.
  intros Hl Hs. apply (run_poll_const s0 _ _ _ a done); [|done|done].
  intros s1 Hs1. destruct (Hl s1 Hs1) as (w & E). exists (set_world w s1). split; [done|].
  by apply same_but_world_free.
Qed.

Lemma run_steady_call {A} (zero a : A) (f : answer W A) (s : Session W) :
  (∀ w : W, ∃ w', f w = (inr a, w')) →
  ∃ w', run (kube_call zero f) s = (Ret (a, None), set_world w' s).
Proof.
  intros Hf. rewrite run_kube_call. destruct (Hf (world s)) as (w' & E). rewrite E.
  by exists w'.
Qed.

Lemma settled_same (s0 s : Session W) : settled s0 → same_but_world s0 s → settled s.
Proof. intros Hs [w ->]. exact Hs. Qed.

Lemma run_consistency uuid (s : Session W) :
  settled s → run (MsvConsistencyCheck uuid) s = (Ret None, s).
Proof.
  intros (_ & Hc & Hi). unfold MsvConsistencyCheck, cp_MajorVersion, via_get.
  rewrite !run_bind, run_getControlPlane_done by done. rewrite Hi. done.
Qed.

Lemma run_pending_GetMSV uuid v (s : Session W) :
  steady volName nameSpace scName created pvc pv sc o → settled s →
  get_object MayastorCpVolume_of_json o.1 (output_error o.1 o.2) = (Some v, None) →
  ms_Status (vol_State v) = "pending" →
  ∃ w, run (e2e_GetMSV uuid) s = (Ret (None, None), set_world w s).
Proof.
  intros Hst Hs Hv Hp. unfold e2e_GetMSV, cp_GetMSV. rewrite run_via_settled by done.
  cbn [cpi_GetMSV CPv1_methods].
  destruct (plugin_run ["-ojson"; "get"; "volume"; uuid] s) as [o' s1] eqn:E.
  assert (Ho : o' = o ∧ ∃ w, s1 = set_world w s).
  { unfold plugin_run in E. injection E as <- <-.
    match goal with |- context [sh_CombinedOutput ?d ?c ?w] =>
      destruct (st_plugin _ _ _ _ _ _ _ _ Hst d c w) as (w' & ->) end. eauto. }
  destruct Ho as [-> [w ->]]. exists w.
  apply (run_v1_GetMSV_pending uuid s o (set_world w s) v E Hv). by right.
Qed.

(** What each look of the waits sees. *)
Section Looks.
Context (Hst : steady volName nameSpace scName created pvc pv sc o).

Lemma look_pvc_phase (s : Session W) :
  ∃ w, run ('(phase, err) ← e2e_GetPvcStatusPhase volName nameSpace;
            mret (err, bool_decide (err = None ∧ phase = ClaimBound))) s =
    (Ret (None, bool_decide (None (A:=goerror) = None ∧ PvcPhase pvc = ClaimBound)),
     set_world w s).
Proof.
  unfold e2e_GetPvcStatusPhase. rewrite !run_bind.
  destruct (run_steady_call zero_pvc pvc _ s (st_pvc _ _ _ _ _ _ _ _ Hst)) as (w & ->).
  cbn [seq_run]. by exists w.
Qed.
Lemma look_pv (s : Session W) :
  ∃ w, run (r ← kube_call zero_pv (pv_Get (PvcVolumeName pvc));
            mret (r, bool_decide (r.2 = None))) s = (Ret ((pv, None), true), set_world w s).
Proof.
  rewrite run_bind.
  destruct (run_steady_call zero_pv pv _ s (st_pv _ _ _ _ _ _ _ _ Hst (PvcVolumeName pvc)))
    as (w & ->). cbn [seq_run]. by exists w.
Qed.
Lemma look_pv_phase (s : Session W) :
  ∃ w, run ('(phase, err) ← e2e_GetPvStatusPhase (Name (pv_meta pv));
            mret (err, bool_decide (err = None ∧ phase = VolumeBound))) s =
    (Ret (None, bool_decide (None (A:=goerror) = None ∧ PvPhase pv = VolumeBound)),
     set_world w s).
Proof.
  unfold e2e_GetPvStatusPhase. rewrite !run_bind.
  destruct (run_steady_call zero_pv pv _ s (st_pv _ _ _ _ _ _ _ _ Hst (Name (pv_meta pv))))
    as (w & ->). cbn [seq_run]. by exists w.
Qed.
Lemma look_msv uuid v (s : Session W) :
  settled s →
  get_object MayastorCpVolume_of_json o.1 (output_error o.1 o.2) = (Some v, None) →
  ms_Status (vol_State v) = "pending" →
  ∃ w, run ('(msv, err) ← e2e_GetMSV uuid;
            mret (err, bool_decide (err = None ∧ is_Some msv))) s =
    (Ret (None, false), set_world w s).
Proof.
  intros Hs Hv Hp. rewrite run_bind.
  destruct (run_pending_GetMSV uuid v s Hst Hs Hv Hp) as (w & ->). cbn [seq_run].
  rewrite run_done. by exists w.
Qed.

Lemma run_await_volume v (s : Session W) :
  settled s →
  get_object MayastorCpVolume_of_json o.1 (output_error o.1 o.2) = (Some v, None) →
  ms_Status (vol_State v) = "pending" →
  ∃ s', run (await_volume volName nameSpace) s = (Ret (UID (pvc_meta pvc), None), s').
Proof.
  intros Hs Hv Hp. unfold await_volume.
  assert (Hrefl : same_but_world s s) by (exists (world s); by rewrite set_world_world).
  rewrite run_bind.
  destruct (poll_steady s None None
    (bool_decide (None (A:=goerror) = None ∧ PvcPhase pvc = ClaimBound))
    ('(phase, err) ← e2e_GetPvcStatusPhase volName nameSpace;
     mret (err, bool_decide (err = None ∧ phase = ClaimBound))) s
    (λ t _, look_pvc_phase t) Hrefl) as (s1 & E1 & Hs1).
  rewrite E1. cbn [seq_run]. rewrite run_bind.
  destruct (run_steady_call zero_pvc pvc _ s1 (st_pvc _ _ _ _ _ _ _ _ Hst)) as (w2 & ->).
  cbn [seq_run]. rewrite run_bind.
  destruct (poll_steady s (zero_pv, None) (pv, None) true
    (r ← kube_call zero_pv (pv_Get (PvcVolumeName pvc)); mret (r, bool_decide (r.2 = None)))
    (set_world w2 s1) (λ t _, look_pv t) (same_but_world_free s s1 w2 Hs1)) as (s3 & E3 & Hs3).
  rewrite E3. cbn [seq_run]. rewrite run_bind.
  destruct (poll_steady s None None
    (bool_decide (None (A:=goerror) = None ∧ PvPhase pv = VolumeBound))
    ('(phase, err) ← e2e_GetPvStatusPhase (Name (pv_meta pv));
     mret (err, bool_decide (err = None ∧ phase = VolumeBound))) s3
    (λ t _, look_pv_phase t) Hs3) as (s4 & E4 & Hs4).
  rewrite E4. cbn [seq_run]. rewrite run_bind.
  destruct (poll_steady s None None false
    ('(msv, err) ← e2e_GetMSV (UID (pvc_meta pvc));
     mret (err, bool_decide (err = None ∧ is_Some msv))) s4
    (λ t Ht, look_msv (UID (pvc_meta pvc)) v t (settled_same s t Hs Ht) Hv Hp) Hs4)
    as (s5 & E5 & Hs5).
  rewrite E5. cbn [seq_run].
  rewrite run_bind, run_consistency by exact (settled_same s s5 Hs Hs5).
  cbn [seq_run]. by eexists.
Qed.
End Looks.

(** Making a volume does not verify what its comment says: with a cluster that answers
    every request and always alike, the call comes back with the volume and no error
    whatever the phases of the claim and of its volume are, and while the Mayastor volume is
    still pending. *)
Theorem volume_reported_unbound volSizeMb volType v (s : Session W) :
  steady volName nameSpace scName created pvc pv sc o → settled s →
  VolumeBindingMode sc = Some VolumeBindingImmediate →
  get_object MayastorCpVolume_of_json o.1 (output_error o.1 o.2) = (Some v, None) →
  ms_Status (vol_State v) = "pending" →
  ∃ s', run (e2e_MkPVC volSizeMb volName scName volType nameSpace) s =
    (Ret (UID (pvc_meta pvc), None), s').
Proof.
  intros Hst Hs Hm Hv Hp. unfold e2e_MkPVC. rewrite run_bind.
  edestruct (run_steady_call zero_pvc created) as (w1 & ->);
    [apply (st_create _ _ _ _ _ _ _ _ Hst)|]. cbn [seq_run]. rewrite run_bind.
  edestruct (run_steady_call zero_pvc pvc) as (w2 & ->);
    [apply (st_pvc _ _ _ _ _ _ _ _ Hst)|]. cbn [seq_run]. rewrite run_bind.
  edestruct (run_steady_call zero_sc sc) as (w3 & ->);
    [apply (st_sc _ _ _ _ _ _ _ _ Hst)|]. cbn [seq_run].
  rewrite Hm, run_bind, run_deref_Some. cbn [seq_run].
  rewrite decide_False by done. by apply (run_await_volume Hst v).
Qed.
End Volumes.

(** ** The theorems on a scripted cluster *)

Lemma replication_failure_unreported_witness :
  let Ha := demo_apps in
  ∃ s', run (SetDeploymentReplication "core-agents" "mayastor" (Some 2%Z))
    (demo_session [] empty_cluster) = (Ret None, s').
Proof.
  intros Ha. subst Ha.
  apply (replication_failure_unreported (H0:=demo_apps)).
  intros w. by exists zero_deployment, w.
Defined.

Lemma pools_deleted_unseen_witness :
  let Hk := blind_kube in
  ∃ s', run DeleteAllPools (demo_session [] empty_cluster) = (Ret true, s').
Proof.
  intros Hk. subst Hk.
  apply (pools_deleted_unseen (H:=blind_kube)). intros w. by exists missing, w.
Defined.

Definition nvme_text : string := json_text "{'Devices':[{'DevicePath':'/dev/nvme0n1'}]}".
Definition replica_uri : string := "nvmf://10.0.0.1:8420/nqn.2019-05.io.openebs:r1?uuid=r1".

Lemma no_checksum_from_good_list_witness :
  let Hh := agent_lists nvme_text in
  let r := run (ChecksumReplica "10.0.0.1" "10.0.0.2" replica_uri 3)
             (demo_session [] empty_cluster) in
  ∃ t e s', r = (Ret (t, e), s') ∧ t = "" ∧ e ≠ None.
Proof.
  intros Hh r.
  assert (E : r = (Ret ("", errorf "Failed to get device path"), r.2)) by (vm_compute; reflexivity).
  exists "", (errorf "Failed to get device path"), r.2. split; [exact E|]. subst Hh.
  apply (no_checksum_from_good_list (H2:=agent_lists nvme_text) "10.0.0.1" "10.0.0.2"
           replica_uri 3) with (s := demo_session [] empty_cluster) (s' := r.2); [|exact E].
  intros s. exists nvme_text, None, s. split; [by destruct s|].
  right. right. vm_compute. reflexivity.
Defined.

Definition dirty_session : Session Cluster :=
  mkSession empty_cluster
    (mkConfig "default" "" "" (mkPlatform "default" false "mayastor" 0) demo_product false "" ""
       "/tmp/s" "1.0.0" "/bin" "registry" "" "/dev/sdb" "mayadata/e2e-fio" "mayadata/e2e-fsx"
       false 2 false true "" false default_duty 0 0)
    true true (Some CPv1) [] true true (errorf "found PVCs") 0.
Lemma fail_quick_latches_witness :
  let Ha := demo_apps in let Hs := says "" in
  run (do_checks [After; Before; After]) dirty_session =
  (Ret (replicate 3 (errorf "prior ResourceCheck failed")), dirty_session).
Proof.
  intros Ha Hs. subst Ha Hs.
  apply (fail_quick_latches (H0:=demo_apps) (H1:=says "") [After; Before; After] dirty_session);
    [reflexivity|discriminate].
Defined.

Lemma setup_selects_control_plane_witness :
  let Ha := demo_apps in let Hs := says "" in let Hf := quiet_files in
  let Hy := bare_system in let Hc := plain_config in
  ∃ s1 s2, run CheckAndSetControlPlane (new_session "") = (Ret None, s1) ∧
    MayastorVersion (e2eConfig s1) = "1.0.0" ∧
    run cp_MajorVersion s1 = (Ret 1%Z, s2) ∧ ifc s2 = Some CPv1.
Proof.
  intros Ha Hs Hf Hy Hc. subst Ha Hs Hf Hy Hc.
  apply (setup_selects_control_plane (H0:=demo_apps) (H1:=says "") (H6:=quiet_files)
           (H7:=bare_system) (H8:=plain_config) (new_session "") (inr zero_deployment)
           (inl missing) empty_cluster empty_cluster);
    [reflexivity|reflexivity|by left|reflexivity|reflexivity|left; by eexists].
Defined.

(** A cluster without anything: the plugin lists no volume. *)
Lemma clean_check_saw_nothing_witness :
  let Hk := calm_kube in let Ha := demo_apps in let Hs := says "[]" in
  let s := demo_session [] empty_cluster in
  let s' := (run (resourceCheck false) s).2 in
  run (resourceCheck false) s = (Ret None, s') ∧
  ∃ s4 s5, run e2e_ListMsvs s4 = (Ret ([], None), s5).
Proof.
  intros Hk Ha Hs s s'.
  assert (E : run (resourceCheck false) s = (Ret None, s')) by (vm_compute; reflexivity).
  split; [exact E|].
  destruct (clean_check_saw_nothing (H:=calm_kube) (H0:=demo_apps) (H1:=says "[]") false s s'
    eq_refl E) as (s1 & s2 & s3 & s4 & s5 & ? & ? & ? & ? & ? & ? & ? & Hl & ?).
  by exists s4, s5.
Defined.

(** A volume with a replica, in a session whose nodes could not be listed. *)
Definition lonely_text : string := json_text
  "{'spec':{'uuid':'v1','num_replicas':1},'state':{'status':'Online','target':{'node':'n1'},'replica_topology':{'r1':{}}}}".
Lemma lost_addresses_empty_volumes_witness :
  let Hk := blind_kube in let Hs := says lonely_text in
  (∃ s1, run EnsureNodeAddressesAreSet
           (mkSession empty_cluster (demo_config "1.0.0") true true (Some CPv1) [] true
              false None 0) = (Ret tt, s1) ∧ addrs_once s1 = true ∧ nodeIpAddresses s1 = []) ∧
  ∃ s4, run (e2e_GetMSV "v1") (demo_session [] empty_cluster) =
    (Ret (Some zero_cm_volume, None), s4).
Proof.
  intros Hk Hs. subst Hk Hs.
  destruct (lost_addresses_empty_volumes (H:=blind_kube) (H1:=says lonely_text)
    (mkSession empty_cluster (demo_config "1.0.0") true true (Some CPv1) [] true false None 0)
    missing empty_cluster) as [Hfirst Hlater]; [reflexivity..|].
  split; [exact Hfirst|].
  apply (Hlater "v1" (demo_session [] empty_cluster) (lonely_text, None)
           (demo_session [] empty_cluster) (volume_of lonely_text)).
  - by repeat split.
  - reflexivity.
  - reflexivity.
  - vm_compute. reflexivity.
  - vm_compute. discriminate.
  - vm_compute. intros Hin.
    apply list_elem_of_In in Hin. by destruct Hin as [?|[?|[]]].
  - vm_compute. discriminate.
  - intros E. apply (f_equal (lookup "r1")) in E. vm_compute in E. discriminate.
Defined.

Lemma volume_reported_unbound_witness :
  let Hk := calm_kube in let Hs := says pending_text in
  PvcPhase stuck_claim = "Pending" ∧
  ∃ s', run (e2e_MkPVC 64 "vol" "sc" VolFileSystem "default") (demo_session [] empty_cluster) =
    (Ret ("v1", None), s').
Proof.
  intros Hk Hs. subst Hk Hs. split; [reflexivity|].
  apply (volume_reported_unbound (H:=calm_kube) (H1:=says pending_text) (created := stuck_claim)
           (pvc := stuck_claim) (pv := stuck_pv) (sc := immediate_sc) (o := (pending_text, None))
           64 VolFileSystem (volume_of pending_text)).
  - split; intros; by eexists.
  - by repeat split.
  - reflexivity.
  - vm_compute. reflexivity.
  - vm_compute. reflexivity.
Defined.
