(* ===== verification/E2EBuilders.v ===== *)
(** * Builders of containers, volumes, pod templates and deployments

    common/k8stest: util_container.go, util_volume.go, util_podtemplatespec.go and
    util_deploy.go.  A builder notes what is wrong with a call and goes on; only [Build]
    refuses.  Labels and selectors are Go maps: they are kept in a store, so that a map that
    two objects share is one map here as well. *)

From stdpp Require Import base gmap sets strings list pretty.
From S2P Require Import Prelude GoLib Kube.

(** The types of the Kubernetes API that the builders only pass on. *)
Class Corev1 := {
  ContainerPort : Type;
  EnvVar : Type;
  ResourceRequirements : Type;
  no_resources : ResourceRequirements;
  Probe : Type;
  Lifecycle : Type;
  Affinity : Type;
  EmptyDirVolumeSource : Type;
}.

(** ** A builder: what is built and what was wrong with it *)

Record builder (A : Type) := mkBuilder { built : A; errs : list string }.
Arguments mkBuilder {A}.
Arguments built {A}.
Arguments errs {A}.

Section Builder.
Context {A : Type}.
Definition reject (why : string) (b : builder A) : builder A :=
  mkBuilder (built b) (errs b ++ [why]).
Definition accept (f : A → A) (b : builder A) : builder A := mkBuilder (f (built b)) (errs b).
Definition accept_unless (problem : option string) (f : A → A) (b : builder A) : builder A :=
  match problem with Some why => reject why b | None => accept f b end.

Definition empty_string (s what : string) : option string :=
  if decide (strlen s = 0%Z) then Some what else None.
(** A slice: nil and the empty one are told apart. *)
Definition nil_or_empty {X} (l : option (list X)) (nil empty : string) : option string :=
  match l with None => Some nil | Some [] => Some empty | Some _ => None end.
Definition is_nil {X} (x : option X) (nil : string) : option string :=
  match x with None => Some nil | Some _ => None end.

(** The errors as they are printed. *)
Definition print_errs (l : list string) : string := "[" +:+ Join l " " +:+ "]".
End Builder.

Section Builders.
Context {K : Corev1}.

(** ** Containers (util_container.go) *)

Record container := mkCtr {
  ctr_Name : string;
  ctr_Image : string;
  ctr_Command : list string;
  ctr_Args : list string;
  ctr_Ports : list ContainerPort;
  ctr_Env : option (list EnvVar);
  ctr_Resources : ResourceRequirements;
  ctr_VolumeMounts : list VolumeMount;
  ctr_VolumeDevices : list VolumeDevice;
  ctr_LivenessProbe : option Probe;
  ctr_Lifecycle : option Lifecycle;
  ctr_ImagePullPolicy : string;
  ctr_Privileged : option bool;
}.
Definition zero_container : container :=
  mkCtr "" "" [] [] [] None no_resources [] [] None None "" None.
Definition set_ctr_Name (x : string) (c : container) : container :=
  mkCtr x (ctr_Image c) (ctr_Command c) (ctr_Args c) (ctr_Ports c) (ctr_Env c) (ctr_Resources c)
    (ctr_VolumeMounts c) (ctr_VolumeDevices c) (ctr_LivenessProbe c) (ctr_Lifecycle c)
    (ctr_ImagePullPolicy c) (ctr_Privileged c).
Definition set_ctr_Image (x : string) (c : container) : container :=
  mkCtr (ctr_Name c) x (ctr_Command c) (ctr_Args c) (ctr_Ports c) (ctr_Env c) (ctr_Resources c)
    (ctr_VolumeMounts c) (ctr_VolumeDevices c) (ctr_LivenessProbe c) (ctr_Lifecycle c)
    (ctr_ImagePullPolicy c) (ctr_Privileged c).
Definition set_ctr_Command (x : list string) (c : container) : container :=
  mkCtr (ctr_Name c) (ctr_Image c) x (ctr_Args c) (ctr_Ports c) (ctr_Env c) (ctr_Resources c)
    (ctr_VolumeMounts c) (ctr_VolumeDevices c) (ctr_LivenessProbe c) (ctr_Lifecycle c)
    (ctr_ImagePullPolicy c) (ctr_Privileged c).
Definition set_ctr_Args (x : list string) (c : container) : container :=
  mkCtr (ctr_Name c) (ctr_Image c) (ctr_Command c) x (ctr_Ports c) (ctr_Env c) (ctr_Resources c)
    (ctr_VolumeMounts c) (ctr_VolumeDevices c) (ctr_LivenessProbe c) (ctr_Lifecycle c)
    (ctr_ImagePullPolicy c) (ctr_Privileged c).
Definition set_ctr_Ports (x : list ContainerPort) (c : container) : container :=
  mkCtr (ctr_Name c) (ctr_Image c) (ctr_Command c) (ctr_Args c) x (ctr_Env c) (ctr_Resources c)
    (ctr_VolumeMounts c) (ctr_VolumeDevices c) (ctr_LivenessProbe c) (ctr_Lifecycle c)
    (ctr_ImagePullPolicy c) (ctr_Privileged c).
Definition set_ctr_Env (x : option (list EnvVar)) (c : container) : container :=
  mkCtr (ctr_Name c) (ctr_Image c) (ctr_Command c) (ctr_Args c) (ctr_Ports c) x (ctr_Resources
    c) (ctr_VolumeMounts c) (ctr_VolumeDevices c) (ctr_LivenessProbe c) (ctr_Lifecycle c)
    (ctr_ImagePullPolicy c) (ctr_Privileged c).
Definition set_ctr_Resources (x : ResourceRequirements) (c : container) : container :=
  mkCtr (ctr_Name c) (ctr_Image c) (ctr_Command c) (ctr_Args c) (ctr_Ports c) (ctr_Env c) x
    (ctr_VolumeMounts c) (ctr_VolumeDevices c) (ctr_LivenessProbe c) (ctr_Lifecycle c)
    (ctr_ImagePullPolicy c) (ctr_Privileged c).
Definition set_ctr_VolumeMounts (x : list VolumeMount) (c : container) : container :=
  mkCtr (ctr_Name c) (ctr_Image c) (ctr_Command c) (ctr_Args c) (ctr_Ports c) (ctr_Env c)
    (ctr_Resources c) x (ctr_VolumeDevices c) (ctr_LivenessProbe c) (ctr_Lifecycle c)
    (ctr_ImagePullPolicy c) (ctr_Privileged c).
Definition set_ctr_VolumeDevices (x : list VolumeDevice) (c : container) : container :=
  mkCtr (ctr_Name c) (ctr_Image c) (ctr_Command c) (ctr_Args c) (ctr_Ports c) (ctr_Env c)
    (ctr_Resources c) (ctr_VolumeMounts c) x (ctr_LivenessProbe c) (ctr_Lifecycle c)
    (ctr_ImagePullPolicy c) (ctr_Privileged c).
Definition set_ctr_LivenessProbe (x : option Probe) (c : container) : container :=
  mkCtr (ctr_Name c) (ctr_Image c) (ctr_Command c) (ctr_Args c) (ctr_Ports c) (ctr_Env c)
    (ctr_Resources c) (ctr_VolumeMounts c) (ctr_VolumeDevices c) x (ctr_Lifecycle c)
    (ctr_ImagePullPolicy c) (ctr_Privileged c).
Definition set_ctr_Lifecycle (x : option Lifecycle) (c : container) : container :=
  mkCtr (ctr_Name c) (ctr_Image c) (ctr_Command c) (ctr_Args c) (ctr_Ports c) (ctr_Env c)
    (ctr_Resources c) (ctr_VolumeMounts c) (ctr_VolumeDevices c) (ctr_LivenessProbe c) x
    (ctr_ImagePullPolicy c) (ctr_Privileged c).
Definition set_ctr_ImagePullPolicy (x : string) (c : container) : container :=
  mkCtr (ctr_Name c) (ctr_Image c) (ctr_Command c) (ctr_Args c) (ctr_Ports c) (ctr_Env c)
    (ctr_Resources c) (ctr_VolumeMounts c) (ctr_VolumeDevices c) (ctr_LivenessProbe c)
    (ctr_Lifecycle c) x (ctr_Privileged c).
Definition set_ctr_Privileged (x : option bool) (c : container) : container :=
  mkCtr (ctr_Name c) (ctr_Image c) (ctr_Command c) (ctr_Args c) (ctr_Ports c) (ctr_Env c)
    (ctr_Resources c) (ctr_VolumeMounts c) (ctr_VolumeDevices c) (ctr_LivenessProbe c)
    (ctr_Lifecycle c) (ctr_ImagePullPolicy c) x.

Definition ContainerBuilder := builder container.
Definition NewContainerBuilder : ContainerBuilder := mkBuilder zero_container [].

Definition con_problem (what : string) : string :=
  "failed to build container object: " +:+ what.

Definition con_WithName (name : string) : ContainerBuilder → ContainerBuilder :=
  accept_unless (empty_string name (con_problem "missing name")) (set_ctr_Name name).
Definition con_WithImage (img : string) : ContainerBuilder → ContainerBuilder :=
  accept_unless (empty_string img (con_problem "missing image")) (set_ctr_Image img).

(** The argument is copied. *)
Definition con_list {X} (what : string) (l : option (list X)) (set : list X → container → container)
    : ContainerBuilder → ContainerBuilder :=
  accept_unless
    (nil_or_empty l (con_problem ("nil " +:+ what)) (con_problem ("missing " +:+ what)))
    (set (default [] l)).
Definition con_WithCommandNew (cmd : option (list string)) := con_list "command" cmd set_ctr_Command.
Definition con_WithArgumentsNew (args : option (list string)) := con_list "arguments" args set_ctr_Args.
Definition con_WithVolumeMountsNew (l : option (list VolumeMount)) :=
  con_list "volumemounts" l set_ctr_VolumeMounts.
Definition con_WithVolumeDevices (l : option (list VolumeDevice)) :=
  con_list "volumedevices" l set_ctr_VolumeDevices.
Definition con_WithPortsNew (ports : option (list ContainerPort)) :=
  con_list "ports" ports set_ctr_Ports.
Definition con_WithEnvsNew (envs : option (list EnvVar)) :=
  con_list "envs" envs (set_ctr_Env ∘ Some).
(** Variables are added to those there are. *)
Definition con_WithEnvs (envs : option (list EnvVar)) :=
  con_list "envs" envs (λ l c, set_ctr_Env (Some (default [] (ctr_Env c) ++ l)%list) c).

Definition con_WithImagePullPolicy (policy : string) : ContainerBuilder → ContainerBuilder :=
  accept_unless (empty_string policy (con_problem "missing imagepullpolicy"))
    (set_ctr_ImagePullPolicy policy).
Definition con_WithPrivilegedSecurityContext (privileged : option bool)
    : ContainerBuilder → ContainerBuilder :=
  accept_unless (is_nil privileged (con_problem "missing securitycontext"))
    (set_ctr_Privileged privileged).
Definition con_WithResources (resources : option ResourceRequirements)
    : ContainerBuilder → ContainerBuilder :=
  accept_unless (is_nil resources (con_problem "missing resources"))
    (set_ctr_Resources (default no_resources resources)).
Definition con_WithResourcesByValue (resources : ResourceRequirements)
    : ContainerBuilder → ContainerBuilder := accept (set_ctr_Resources resources).
Definition con_WithLivenessProbe (liveness : option Probe)
    : ContainerBuilder → ContainerBuilder :=
  accept_unless (is_nil liveness (con_problem "nil liveness probe"))
    (set_ctr_LivenessProbe liveness).
Definition con_WithLifeCycle (lc : option Lifecycle) : ContainerBuilder → ContainerBuilder :=
  accept_unless (is_nil lc (con_problem "nil lifecycle")) (set_ctr_Lifecycle lc).

Definition con_validate (b : ContainerBuilder) : error :=
  match errs b with
  | [] => None
  | l => errorf ("failed to validate: build errors were found: " +:+ print_errs l)
  end.
Definition con_Build (b : ContainerBuilder) : container * error :=
  match con_validate b with
  | Some e => (zero_container, Some e)
  | None => (built b, None)
  end.

(** ** Volumes (util_volume.go) *)

(** [VolumeSource]: the API wants one of them. *)
Record source := mkSource {
  HostPath : option (string * option string);
  SecretSource : option (Z * string);
  ConfigMapSource : option (Z * string);
  PVCSource : option string;
  EmptyDir : option EmptyDirVolumeSource;
}.
Definition no_source : source := mkSource None None None None None.
Record volume := mkVol { v_Name : string; v_Source : source }.

Definition VolumeBuilder := builder volume.
Definition NewVolumeBuilder : VolumeBuilder := mkBuilder (mkVol "" no_source) [].

Definition vol_source (s : source) (v : volume) : volume := mkVol (v_Name v) s.
Definition vol_problem (what : string) : string := "failed to build volume object: " +:+ what.

Definition vol_WithName (name : string) : VolumeBuilder → VolumeBuilder :=
  accept_unless (empty_string name "failed to build Volume object: missing Volume name")
    (λ v, mkVol name (v_Source v)).
Definition vol_WithHostDirectory (path : string) : VolumeBuilder → VolumeBuilder :=
  accept_unless (empty_string path (vol_problem "missing volume path"))
    (vol_source (mkSource (Some (path, None)) None None None None)).
(** A mode of zero is noted and used all the same. *)
Definition vol_named_source (name : option string) (defaultMode : Z)
    (src : Z * string → source) (b : VolumeBuilder) : VolumeBuilder :=
  match name with
  | None => reject (vol_problem "nil ConfigMap") b
  | Some name =>
      let b := if decide (defaultMode = 0%Z) then reject (vol_problem "missing defaultmode") b
               else b in
      accept (λ _, mkVol name (src (defaultMode, name))) b
  end.
(** The secret and the configuration map are known by their names. *)
Definition vol_WithSecret (secret : option string) (defaultMode : Z) :=
  vol_named_source secret defaultMode (λ s, mkSource None (Some s) None None None).
Definition vol_WithConfigMap (configMap : option string) (defaultMode : Z) :=
  vol_named_source configMap defaultMode (λ s, mkSource None None (Some s) None None).
Definition vol_WithHostPathAndType (dirpath : string) (dirtype : option string)
    (b : VolumeBuilder) : VolumeBuilder :=
  match dirtype with
  | None => reject (vol_problem "nil volume type") b
  | Some t =>
      accept_unless (empty_string dirpath (vol_problem "missing volume path"))
        (vol_source (mkSource (Some (dirpath, Some t)) None None None None)) b
  end.
Definition vol_WithPVCSource (pvcName : string) : VolumeBuilder → VolumeBuilder :=
  accept_unless (empty_string pvcName (vol_problem "missing pvc name"))
    (vol_source (mkSource None None None (Some pvcName) None)).
(** The other sources stay. *)
Definition vol_WithEmptyDir (dir : option EmptyDirVolumeSource) : VolumeBuilder → VolumeBuilder :=
  accept_unless (is_nil dir (vol_problem "nil dir"))
    (λ v, let s := v_Source v in
          vol_source (mkSource (HostPath s) (SecretSource s) (ConfigMapSource s) (PVCSource s) dir) v).
Definition vol_Build (b : VolumeBuilder) : option volume * error :=
  match errs b with
  | [] => (Some (built b), None)
  | l => (None, errorf (print_errs l))
  end.

(** ** Maps *)

Definition Maps := gmap nat (gmap string string).
Notation M := (prog Maps).

(** What a map reference holds; nil holds nothing. *)
Definition map_at (h : Maps) (m : option nat) : gmap string string :=
  match m with None => ∅ | Some l => default ∅ (h !! l) end.
Definition map_len (m : option nat) : M nat := reads (λ h, size (map_at h m)).
(** A new map with what [m] holds. *)
Definition copy_map (m : option nat) : M nat :=
  l ← reads (λ h, fresh (dom h));
  updates (λ h, <[l := map_at h m]> h) ;;
  mret l.
(** [for key, value := range m { dst[key] = value }]. *)
Definition merge_map (dst : nat) (m : option nat) : M unit :=
  updates (λ h, <[dst := map_at h m ∪ map_at h (Some dst)]> h).

Section MapMembers.
Context {A : Type}.
(** Replace a member by a copy of [m]. *)
Definition with_new_map (why : string) (set : option nat → A → A) (m : option nat)
    (b : builder A) : M (builder A) :=
  n ← map_len m;
  if decide (n = 0) then mret (reject why b)
  else l ← copy_map m; mret (accept (set (Some l)) b).
(** Add to the member, or make it. *)
Definition with_merged_map (why : string) (get : A → option nat)
    (new : option nat → builder A → M (builder A)) (m : option nat) (b : builder A)
    : M (builder A) :=
  n ← map_len m;
  if decide (n = 0) then mret (reject why b)
  else match get (built b) with
       | None => new m b
       | Some l => merge_map l m ;; mret b
       end.
End MapMembers.

(** ** Pod templates (util_podtemplatespec.go) *)

Record template := mkTemplate {
  tm_Name : string;
  tm_Namespace : string;
  tm_Annotations : option nat;
  tm_Labels : option nat;
  tm_NodeSelector : option nat;
  tm_PriorityClassName : string;
  tm_ServiceAccountName : string;
  tm_Affinity : option Affinity;
  tm_Tolerations : list Toleration;
  tm_Containers : list container;
  tm_Volumes : list volume;
}.
Definition zero_template : template := mkTemplate "" "" None None None "" "" None [] [] [].
Definition set_tm_Name (x : string) (t : template) : template :=
  mkTemplate x (tm_Namespace t) (tm_Annotations t) (tm_Labels t) (tm_NodeSelector t)
    (tm_PriorityClassName t) (tm_ServiceAccountName t) (tm_Affinity t) (tm_Tolerations t)
    (tm_Containers t) (tm_Volumes t).
Definition set_tm_Namespace (x : string) (t : template) : template :=
  mkTemplate (tm_Name t) x (tm_Annotations t) (tm_Labels t) (tm_NodeSelector t)
    (tm_PriorityClassName t) (tm_ServiceAccountName t) (tm_Affinity t) (tm_Tolerations t)
    (tm_Containers t) (tm_Volumes t).
Definition set_tm_Annotations (x : option nat) (t : template) : template :=
  mkTemplate (tm_Name t) (tm_Namespace t) x (tm_Labels t) (tm_NodeSelector t)
    (tm_PriorityClassName t) (tm_ServiceAccountName t) (tm_Affinity t) (tm_Tolerations t)
    (tm_Containers t) (tm_Volumes t).
Definition set_tm_Labels (x : option nat) (t : template) : template :=
  mkTemplate (tm_Name t) (tm_Namespace t) (tm_Annotations t) x (tm_NodeSelector t)
    (tm_PriorityClassName t) (tm_ServiceAccountName t) (tm_Affinity t) (tm_Tolerations t)
    (tm_Containers t) (tm_Volumes t).
Definition set_tm_NodeSelector (x : option nat) (t : template) : template :=
  mkTemplate (tm_Name t) (tm_Namespace t) (tm_Annotations t) (tm_Labels t) x
    (tm_PriorityClassName t) (tm_ServiceAccountName t) (tm_Affinity t) (tm_Tolerations t)
    (tm_Containers t) (tm_Volumes t).
Definition set_tm_PriorityClassName (x : string) (t : template) : template :=
  mkTemplate (tm_Name t) (tm_Namespace t) (tm_Annotations t) (tm_Labels t) (tm_NodeSelector t) x
    (tm_ServiceAccountName t) (tm_Affinity t) (tm_Tolerations t) (tm_Containers t) (tm_Volumes
    t).
Definition set_tm_ServiceAccountName (x : string) (t : template) : template :=
  mkTemplate (tm_Name t) (tm_Namespace t) (tm_Annotations t) (tm_Labels t) (tm_NodeSelector t)
    (tm_PriorityClassName t) x (tm_Affinity t) (tm_Tolerations t) (tm_Containers t) (tm_Volumes
    t).
Definition set_tm_Affinity (x : option Affinity) (t : template) : template :=
  mkTemplate (tm_Name t) (tm_Namespace t) (tm_Annotations t) (tm_Labels t) (tm_NodeSelector t)
    (tm_PriorityClassName t) (tm_ServiceAccountName t) x (tm_Tolerations t) (tm_Containers t)
    (tm_Volumes t).
Definition set_tm_Tolerations (x : list Toleration) (t : template) : template :=
  mkTemplate (tm_Name t) (tm_Namespace t) (tm_Annotations t) (tm_Labels t) (tm_NodeSelector t)
    (tm_PriorityClassName t) (tm_ServiceAccountName t) (tm_Affinity t) x (tm_Containers t)
    (tm_Volumes t).
Definition set_tm_Containers (x : list container) (t : template) : template :=
  mkTemplate (tm_Name t) (tm_Namespace t) (tm_Annotations t) (tm_Labels t) (tm_NodeSelector t)
    (tm_PriorityClassName t) (tm_ServiceAccountName t) (tm_Affinity t) (tm_Tolerations t) x
    (tm_Volumes t).
Definition set_tm_Volumes (x : list volume) (t : template) : template :=
  mkTemplate (tm_Name t) (tm_Namespace t) (tm_Annotations t) (tm_Labels t) (tm_NodeSelector t)
    (tm_PriorityClassName t) (tm_ServiceAccountName t) (tm_Affinity t) (tm_Tolerations t)
    (tm_Containers t) x.

Definition TemplateBuilder := builder template.
Definition NewPodtemplatespecBuilder : TemplateBuilder := mkBuilder zero_template [].
Definition tmpl_problem (what : string) : string :=
  "failed to build podtemplatespec object: " +:+ what.

Definition tmpl_WithName (name : string) : TemplateBuilder → TemplateBuilder :=
  accept_unless (empty_string name (tmpl_problem "missing name")) (set_tm_Name name).
Definition tmpl_WithNamespace (namespace : string) : TemplateBuilder → TemplateBuilder :=
  accept_unless (empty_string namespace (tmpl_problem "missing namespace"))
    (set_tm_Namespace namespace).

Definition tmpl_WithAnnotationsNew : option nat → TemplateBuilder → M TemplateBuilder :=
  with_new_map (tmpl_problem "missing annotations") set_tm_Annotations.
Definition tmpl_WithAnnotations : option nat → TemplateBuilder → M TemplateBuilder :=
  with_merged_map "failed to build deployment object: missing annotations" tm_Annotations
    tmpl_WithAnnotationsNew.
Definition tmpl_WithLabelsNew : option nat → TemplateBuilder → M TemplateBuilder :=
  with_new_map (tmpl_problem "missing labels") set_tm_Labels.
Definition tmpl_WithLabels : option nat → TemplateBuilder → M TemplateBuilder :=
  with_merged_map (tmpl_problem "missing labels") tm_Labels tmpl_WithLabelsNew.
Definition tmpl_WithNodeSelectorNew : option nat → TemplateBuilder → M TemplateBuilder :=
  with_new_map (tmpl_problem "missing nodeselectors") set_tm_NodeSelector.
Definition tmpl_WithNodeSelector : option nat → TemplateBuilder → M TemplateBuilder :=
  with_merged_map (tmpl_problem "missing nodeselectors") tm_NodeSelector
    tmpl_WithNodeSelectorNew.
(** An empty selector is no error here. *)
Definition tmpl_WithNodeSelectorByValue (m : option nat) (b : TemplateBuilder)
    : M TemplateBuilder :=
  l ← copy_map m; mret (accept (set_tm_NodeSelector (Some l)) b).

Definition tmpl_WithPriorityClassName (name : string) : TemplateBuilder → TemplateBuilder :=
  accept (set_tm_PriorityClassName name).
Definition tmpl_WithServiceAccountName (name : string) : TemplateBuilder → TemplateBuilder :=
  accept_unless (empty_string name (tmpl_problem "missing serviceaccountname"))
    (set_tm_ServiceAccountName name).
Definition tmpl_WithAffinity (affinity : option Affinity) : TemplateBuilder → TemplateBuilder :=
  accept_unless (is_nil affinity (tmpl_problem "missing affinity")) (set_tm_Affinity affinity).

Definition add_tolerations (l : list Toleration) (t : template) : template :=
  set_tm_Tolerations (tm_Tolerations t ++ l)%list t.
Definition tmpl_WithTolerationsByValue (l : list Toleration) : TemplateBuilder → TemplateBuilder :=
  accept (add_tolerations l).
Definition no_tolerations (l : option (list Toleration)) : option string :=
  nil_or_empty l (tmpl_problem "nil tolerations") (tmpl_problem "missing tolerations").
Definition tmpl_WithTolerationsNew (l : option (list Toleration))
    : TemplateBuilder → TemplateBuilder :=
  accept_unless (no_tolerations l) (set_tm_Tolerations (default [] l)).
Definition tmpl_WithTolerations (l : option (list Toleration))
    : TemplateBuilder → TemplateBuilder :=
  accept_unless (no_tolerations l) (add_tolerations (default [] l)).

Definition wrap_err (e : goerror) (what : string) : string := what +:+ ": " +:+ err_text e.
(** Parts are added until one cannot be built. *)
Fixpoint add_parts {P X} (build : P → option X * error) (add : X → template → template)
    (parts : list P) (b : TemplateBuilder) : TemplateBuilder :=
  match parts with
  | [] => b
  | p :: rest =>
      match build p with
      | (_, Some e) => reject (wrap_err e "failed to build podtemplatespec") b
      | (None, None) => add_parts build add rest b
      | (Some x, None) => add_parts build add rest (accept (add x) b)
      end
  end.
(** All parts, or the error of the first that cannot be built. *)
Fixpoint build_all {P X} (build : P → option X * error) (parts : list P)
    : goerror + list X :=
  match parts with
  | [] => inr []
  | p :: rest =>
      match build p with
      | (_, Some e) => inl e
      | (x, None) =>
          match build_all build rest with
          | inl e => inl e
          | inr l => inr (match x with Some x => x :: l | None => l end)
          end
      end
  end.
Definition built_container (b : ContainerBuilder) : option container * error :=
  let '(c, err) := con_Build b in (Some c, err).

Definition tmpl_WithContainerBuilders (l : option (list ContainerBuilder)) (b : TemplateBuilder)
    : TemplateBuilder :=
  match l with
  | None => reject "failed to build podtemplatespec: nil containerbuilder" b
  | Some l =>
      add_parts built_container (λ c t, set_tm_Containers (tm_Containers t ++ [c])%list t) l b
  end.
Definition tmpl_WithVolumeBuilders (l : option (list VolumeBuilder)) (b : TemplateBuilder)
    : TemplateBuilder :=
  match l with
  | None => reject "failed to build podtemplatespec: nil volumeBuilderList" b
  | Some l => add_parts vol_Build (λ v t, set_tm_Volumes (tm_Volumes t ++ [v])%list t) l b
  end.
Definition set_parts {P X} (nil empty : string) (build : P → option X * error)
    (set : list X → template → template) (l : option (list P)) (b : TemplateBuilder)
    : TemplateBuilder :=
  match nil_or_empty l nil empty with
  | Some why => reject why b
  | None =>
      match build_all build (default [] l) with
      | inl e => reject (wrap_err e "failed to build podtemplatespec") b
      | inr xs => accept (set xs) b
      end
  end.
Definition tmpl_WithContainerBuildersNew :=
  set_parts "failed to build podtemplatespec: nil containerbuilder"
    "failed to build podtemplatespec: missing containerbuilder" built_container
    set_tm_Containers.
Definition tmpl_WithVolumeBuildersNew :=
  set_parts "failed to build podtemplatespec: nil volumeBuilderList"
    "failed to build podtemplatespec: missing volumeBuilderList" vol_Build set_tm_Volumes.

Definition tmpl_validate (b : TemplateBuilder) : error :=
  match errs b with
  | [] => None
  | l => errorf ("failed to validate: build errors were found: " +:+ print_errs l)
  end.
(** The text of the error does not show the object. *)
Definition tmpl_Build (b : TemplateBuilder) : option template * error :=
  match tmpl_validate b with
  | Some e => (None, errorf (wrap_err e "failed to build a podtemplatespec"))
  | None => (Some (built b), None)
  end.

(** ** Deployments (util_deploy.go) *)

Record deployment := mkDpl {
  dp_Name : string;
  dp_Namespace : string;
  dp_Labels : option nat;
  dp_Selector : option nat;
  dp_Replicas : option Z;
  dp_Template : template;
}.
Definition new_deployment : deployment := mkDpl "" "" None None None zero_template.
Definition set_dp_Name (x : string) (d : deployment) : deployment :=
  mkDpl x (dp_Namespace d) (dp_Labels d) (dp_Selector d) (dp_Replicas d) (dp_Template d).
Definition set_dp_Namespace (x : string) (d : deployment) : deployment :=
  mkDpl (dp_Name d) x (dp_Labels d) (dp_Selector d) (dp_Replicas d) (dp_Template d).
Definition set_dp_Labels (x : option nat) (d : deployment) : deployment :=
  mkDpl (dp_Name d) (dp_Namespace d) x (dp_Selector d) (dp_Replicas d) (dp_Template d).
Definition set_dp_Selector (x : option nat) (d : deployment) : deployment :=
  mkDpl (dp_Name d) (dp_Namespace d) (dp_Labels d) x (dp_Replicas d) (dp_Template d).
Definition set_dp_Replicas (x : option Z) (d : deployment) : deployment :=
  mkDpl (dp_Name d) (dp_Namespace d) (dp_Labels d) (dp_Selector d) x (dp_Template d).
Definition set_dp_Template (x : template) (d : deployment) : deployment :=
  mkDpl (dp_Name d) (dp_Namespace d) (dp_Labels d) (dp_Selector d) (dp_Replicas d) x.

Definition DeploymentBuilder := builder deployment.
Definition NewDeploymentBuilder : DeploymentBuilder := mkBuilder new_deployment [].

Definition dpl_problem (what : string) : string := "failed to build deployment object: " +:+ what.
Definition dpl_WithName (name : string) : DeploymentBuilder → DeploymentBuilder :=
  accept_unless (empty_string name "failed to build deployment: missing name") (set_dp_Name name).
Definition dpl_WithNamespace (namespace : string) : DeploymentBuilder → DeploymentBuilder :=
  accept_unless (empty_string namespace "failed to build deployment: missing namespace")
    (set_dp_Namespace namespace).
Definition dpl_WithLabelsNew : option nat → DeploymentBuilder → M DeploymentBuilder :=
  with_new_map (dpl_problem "no new labels") set_dp_Labels.
Definition dpl_WithSelectorMatchLabelsNew : option nat → DeploymentBuilder → M DeploymentBuilder :=
  with_new_map (dpl_problem "no new matchlabels") set_dp_Selector.
Definition dpl_WithSelectorMatchLabels : option nat → DeploymentBuilder → M DeploymentBuilder :=
  with_merged_map (dpl_problem "missing matchlabels") dp_Selector dpl_WithSelectorMatchLabelsNew.

Definition dp_selector (d : deployment) : option nat := tm_NodeSelector (dp_Template d).
Definition set_dp_selector (m : option nat) (d : deployment) : deployment :=
  set_dp_Template (set_tm_NodeSelector m (dp_Template d)) d.
(** The map itself, not a copy of it. *)
Definition dpl_WithNodeSelectorNew (m : option nat) (b : DeploymentBuilder)
    : M DeploymentBuilder :=
  n ← map_len m;
  mret (if decide (n = 0) then reject (dpl_problem "no new node selector") b
        else accept (set_dp_selector m) b).
Definition dpl_WithNodeSelector : option nat → DeploymentBuilder → M DeploymentBuilder :=
  with_merged_map (dpl_problem "no node selector") dp_selector dpl_WithNodeSelectorNew.

Definition dpl_WithReplicas (replicas : option Z) (b : DeploymentBuilder) : DeploymentBuilder :=
  match replicas with
  | None => reject (dpl_problem "nil replicas") b
  | Some n =>
      if decide (n < 0)%Z
      then reject (dpl_problem ("invalid replicas {" +:+ Itoa n +:+ "}")) b
      else accept (set_dp_Replicas (Some n)) b
  end.
(** The template is copied; the maps it refers to are not. *)
Definition dpl_WithPodTemplateSpecBuilder (t : option TemplateBuilder) (b : DeploymentBuilder)
    : DeploymentBuilder :=
  match t with
  | None => reject "failed to build deployment: nil templatespecbuilder" b
  | Some t =>
      match tmpl_Build t with
      | (Some tm, None) => accept (set_dp_Template tm) b
      | (_, Some e) => reject (wrap_err e "failed to build deployment") b
      | (None, None) => b
      end
  end.

Definition dpl_validate (b : DeploymentBuilder) : error :=
  match errs b with
  | [] => None
  | l => errorf ("failed to validate: build errors were found: " +:+ print_errs l)
  end.
Definition dpl_Build (b : DeploymentBuilder) : option deployment * error :=
  match dpl_validate b with
  | Some e => (None, errorf (wrap_err e "failed to build a deployment"))
  | None => (Some (built b), None)
  end.
End Builders.

(** ** The state of a deployment (util_deploy.go) *)

(** The members that the questions below read. *)
Record rollout := mkRollout {
  ro_Name : string;
  ro_Replicas : option Z;              (* wanted *)
  ro_Generation : Z;
  ObservedGeneration : Z;              (* status *)
  StatusReplicas : Z; UpdatedReplicas : Z; ReadyReplicas : Z; AvailableReplicas : Z;
}.
Definition IsTerminationInProgress (d : rollout) : bool :=
  bool_decide (UpdatedReplicas d < StatusReplicas d)%Z.
Definition VerifyReplicaStatus (d : rollout) : error :=
  match ro_Replicas d with
  | None => errorf "failed to verify replica status for deployment: nil replicas"
  | Some n =>
      if decide (ReadyReplicas d ≠ n)
      then errorf (ro_Name d +:+ " deployment pods are not in running state expected: " +:+
                   Itoa n +:+ " got: " +:+ Itoa (ReadyReplicas d))
      else None
  end.
Definition IsNotSyncSpec (d : rollout) : bool :=
  bool_decide (ObservedGeneration d < ro_Generation d)%Z.
Definition IsUpdateInProgress (d : rollout) : bool :=
  bool_decide (AvailableReplicas d < UpdatedReplicas d)%Z.
