(* ===== verification/BuilderTheorems.v ===== *)
(** * Theorems about the builders *)

From stdpp Require Import base gmap sets strings list.
From S2P Require Import Prelude GoLib Kube E2EBuilders.

Create HintDb builders.

Section Builders.
Context {K : Corev1}.
Notation M := (prog Maps).

(** ** The calls *)

Inductive con_call :=
  | CName (s : string) | CImage (s : string) | CCommand (l : option (list string))
  | CArguments (l : option (list string)) | CVolumeMounts (l : option (list VolumeMount))
  | CVolumeDevices (l : option (list VolumeDevice)) | CPorts (l : option (list ContainerPort))
  | CEnvsNew (l : option (list EnvVar)) | CEnvs (l : option (list EnvVar))
  | CImagePullPolicy (s : string) | CPrivileged (p : option bool)
  | CResources (r : option ResourceRequirements) | CResourcesByValue (r : ResourceRequirements)
  | CLivenessProbe (p : option Probe) | CLifeCycle (p : option Lifecycle).
Definition con_apply (b : ContainerBuilder) (c : con_call) : ContainerBuilder :=
  match c with
  | CName s => con_WithName s b | CImage s => con_WithImage s b
  | CCommand l => con_WithCommandNew l b | CArguments l => con_WithArgumentsNew l b
  | CVolumeMounts l => con_WithVolumeMountsNew l b
  | CVolumeDevices l => con_WithVolumeDevices l b | CPorts l => con_WithPortsNew l b
  | CEnvsNew l => con_WithEnvsNew l b | CEnvs l => con_WithEnvs l b
  | CImagePullPolicy s => con_WithImagePullPolicy s b
  | CPrivileged p => con_WithPrivilegedSecurityContext p b
  | CResources r => con_WithResources r b | CResourcesByValue r => con_WithResourcesByValue r b
  | CLivenessProbe p => con_WithLivenessProbe p b | CLifeCycle p => con_WithLifeCycle p b
  end.
Definition con_calls (cs : list con_call) : ContainerBuilder :=
  foldl con_apply NewContainerBuilder cs.

Definition given {X} (l : option (list X)) : bool :=
  match l with Some (_ :: _) => true | _ => false end.
Definition some {X} (x : option X) : bool := match x with Some _ => true | None => false end.
(** What a call must be given. *)
Definition con_ok (c : con_call) : bool :=
  match c with
  | CName s | CImage s | CImagePullPolicy s => bool_decide (s ≠ "")
  | CCommand l | CArguments l => given l
  | CVolumeMounts l => given l | CVolumeDevices l => given l | CPorts l => given l
  | CEnvsNew l | CEnvs l => given l
  | CPrivileged p => some p | CResources r => some r | CResourcesByValue _ => true
  | CLivenessProbe p => some p | CLifeCycle p => some p
  end.

Inductive tmpl_call :=
  | TName (s : string) | TNamespace (s : string) | TAnnotations (m : option nat)
  | TAnnotationsNew (m : option nat) | TLabels (m : option nat) | TLabelsNew (m : option nat)
  | TNodeSelector (m : option nat) | TNodeSelectorNew (m : option nat)
  | TNodeSelectorByValue (m : option nat) | TPriorityClassName (s : string)
  | TServiceAccountName (s : string) | TAffinity (a : option Affinity)
  | TTolerationsByValue (l : list Toleration) | TTolerations (l : option (list Toleration))
  | TTolerationsNew (l : option (list Toleration))
  | TContainers (l : option (list ContainerBuilder)) | TVolumes (l : option (list VolumeBuilder))
  | TContainersNew (l : option (list ContainerBuilder))
  | TVolumesNew (l : option (list VolumeBuilder)).
Definition tmpl_apply (c : tmpl_call) (b : TemplateBuilder) : M TemplateBuilder :=
  match c with
  | TName s => mret (tmpl_WithName s b) | TNamespace s => mret (tmpl_WithNamespace s b)
  | TAnnotations m => tmpl_WithAnnotations m b | TAnnotationsNew m => tmpl_WithAnnotationsNew m b
  | TLabels m => tmpl_WithLabels m b | TLabelsNew m => tmpl_WithLabelsNew m b
  | TNodeSelector m => tmpl_WithNodeSelector m b
  | TNodeSelectorNew m => tmpl_WithNodeSelectorNew m b
  | TNodeSelectorByValue m => tmpl_WithNodeSelectorByValue m b
  | TPriorityClassName s => mret (tmpl_WithPriorityClassName s b)
  | TServiceAccountName s => mret (tmpl_WithServiceAccountName s b)
  | TAffinity a => mret (tmpl_WithAffinity a b)
  | TTolerationsByValue l => mret (tmpl_WithTolerationsByValue l b)
  | TTolerations l => mret (tmpl_WithTolerations l b)
  | TTolerationsNew l => mret (tmpl_WithTolerationsNew l b)
  | TContainers l => mret (tmpl_WithContainerBuilders l b)
  | TVolumes l => mret (tmpl_WithVolumeBuilders l b)
  | TContainersNew l => mret (tmpl_WithContainerBuildersNew l b)
  | TVolumesNew l => mret (tmpl_WithVolumeBuildersNew l b)
  end.

Inductive dpl_call :=
  | DName (s : string) | DNamespace (s : string) | DLabels (m : option nat)
  | DMatchLabels (m : option nat) | DMatchLabelsNew (m : option nat)
  | DNodeSelector (m : option nat) | DNodeSelectorNew (m : option nat)
  | DReplicas (n : option Z) | DTemplate (t : option TemplateBuilder).
Definition dpl_apply (c : dpl_call) (b : DeploymentBuilder) : M DeploymentBuilder :=
  match c with
  | DName s => mret (dpl_WithName s b) | DNamespace s => mret (dpl_WithNamespace s b)
  | DLabels m => dpl_WithLabelsNew m b | DMatchLabels m => dpl_WithSelectorMatchLabels m b
  | DMatchLabelsNew m => dpl_WithSelectorMatchLabelsNew m b
  | DNodeSelector m => dpl_WithNodeSelector m b
  | DNodeSelectorNew m => dpl_WithNodeSelectorNew m b
  | DReplicas n => mret (dpl_WithReplicas n b)
  | DTemplate t => mret (dpl_WithPodTemplateSpecBuilder t b)
  end.

Fixpoint calls {A C} (apply : C → builder A → M (builder A)) (cs : list C) (b : builder A)
    : M (builder A) :=
  match cs with [] => mret b | c :: cs' => b ← apply c b; calls apply cs' b end.
Definition tmpl_calls := calls tmpl_apply.
Definition dpl_calls := calls dpl_apply.
(** ** Errors are never forgotten *)

Definition keeps_errs {A} (b b' : builder A) : Prop := errs b `prefix_of` errs b'.

Lemma keeps_errs_reject {A} why (b : builder A) : keeps_errs b (reject why b).
Proof. by exists [why]. Qed.
Lemma keeps_errs_accept {A} f (b : builder A) : keeps_errs b (accept f b).
Proof. by exists []; rewrite app_nil_r. Qed.
Lemma keeps_errs_refl {A} (b : builder A) : keeps_errs b b.
Proof. by exists []; rewrite app_nil_r. Qed.
Lemma keeps_errs_unless {A} p f (b : builder A) : keeps_errs b (accept_unless p f b).
Proof. destruct p; [apply keeps_errs_reject|apply keeps_errs_accept]. Qed.
Hint Resolve keeps_errs_reject keeps_errs_accept keeps_errs_refl keeps_errs_unless : builders.

Lemma keeps_errs_trans {A} (b1 b2 b3 : builder A) :
  keeps_errs b1 b2 → keeps_errs b2 b3 → keeps_errs b1 b3.
Proof. unfold keeps_errs. by intros ? ?; etrans. Qed.
Lemma keeps_errs_nonempty {A} (b b' : builder A) :
  keeps_errs b b' → errs b ≠ [] → errs b' ≠ [].
Proof. intros [l E]. rewrite E. by destruct (errs b). Qed.

Lemma keeps_errs_add_parts {P X} (build : P → option X * error) add parts b :
  keeps_errs b (add_parts build add parts b).
Proof.
  revert b. induction parts as [|p rest IH]; intros b; simpl; [auto with builders|].
  destruct (build p) as [[x|] [e|]]; auto with builders.
  eapply keeps_errs_trans; [|apply IH]. auto with builders.
Qed.
Lemma keeps_errs_set_parts {P X} nil empty (build : P → option X * error) set l b :
  keeps_errs b (set_parts nil empty build set l b).
Proof.
  unfold set_parts. destruct (nil_or_empty _ _ _); [auto with builders|].
  destruct (build_all _ _); auto with builders.
Qed.
Hint Resolve keeps_errs_add_parts keeps_errs_set_parts : builders.

(** A part that cannot be built is an error of the whole. *)
Lemma refused_part_added {P X} (build : P → option X * error) add parts p b :
  p ∈ parts → (build p).2 ≠ None → errs (add_parts build add parts b) ≠ [].
Proof.
  intros Hin Hp. revert b. induction parts as [|q rest IH]; intros b; [by apply not_elem_of_nil in Hin|].
  simpl. destruct (build q) as [x [e|]] eqn:E.
  - destruct x; simpl; by destruct (errs b).
  - apply elem_of_cons in Hin as [->|Hin]; [by rewrite E in Hp|].
    destruct x; by apply IH.
Qed.
Lemma refused_part_built {P X} (build : P → option X * error) parts p :
  p ∈ parts → (build p).2 ≠ None → ∃ e, build_all build parts = inl e.
Proof.
  intros Hin Hp. induction parts as [|q rest IH]; [by apply not_elem_of_nil in Hin|].
  simpl. destruct (build q) as [x [e|]] eqn:E; [by exists e|].
  apply elem_of_cons in Hin as [->|Hin]; [by rewrite E in Hp|].
  destruct (IH Hin) as [e ->]. by exists e.
Qed.

Lemma con_Build_refuses (b : ContainerBuilder) : errs b ≠ [] → (built_container b).2 ≠ None.
Proof. unfold built_container, con_Build, con_validate. by destruct (errs b). Qed.
Lemma vol_Build_refuses (b : VolumeBuilder) : errs b ≠ [] → (vol_Build b).2 ≠ None.
Proof. unfold vol_Build. by destruct (errs b). Qed.
Lemma tmpl_Build_refuses (b : TemplateBuilder) :
  errs b ≠ [] → ∃ e, tmpl_Build b = (None, Some e).
Proof. unfold tmpl_Build, tmpl_validate. destruct (errs b); [done|]. by eexists. Qed.
Lemma dpl_Build_refuses (b : DeploymentBuilder) :
  errs b ≠ [] → ∃ e, dpl_Build b = (None, Some e).
Proof. unfold dpl_Build, dpl_validate. destruct (errs b); [done|]. by eexists. Qed.

(** ** Sequences of calls *)

Lemma calls_invariant {A C} (apply : C → builder A → M (builder A))
    (I : builder A → Maps → Prop) :
  (∀ c b h, I b h → ∃ b' h', run (apply c b) h = (Ret b', h') ∧ I b' h') →
  ∀ cs b h, I b h → ∃ b' h', run (calls apply cs b) h = (Ret b', h') ∧ I b' h'.
Proof.
  intros Hstep cs. induction cs as [|c cs IH]; intros b h Hb; [by exists b, h|].
  destruct (Hstep c b h Hb) as (b1 & h1 & E & H1). simpl. rewrite run_bind, E. cbn [seq_run].
  by apply IH.
Qed.
Lemma run_calls_app {A C} (apply : C → builder A → M (builder A)) cs1 cs2 b h :
  run (calls apply (cs1 ++ cs2) b) h =
  seq_run (run (calls apply cs1 b) h) (λ b1, calls apply cs2 b1).
Proof.
  revert b h. induction cs1 as [|c cs1 IH]; intros b h; [done|]. simpl.
  rewrite !run_bind. destruct (run (apply c b) h) as [[b1| | |] h1]; simpl; auto.
Qed.

(** A map member: what the two ways of setting it do. *)
Definition foreign (h0 : Maps) (m : option nat) : Prop := ∀ l, m = Some l → l ∉ dom h0.
Definition untouched (h0 h : Maps) : Prop := ∀ l, l ∈ dom h0 → h !! l = h0 !! l.

Lemma untouched_insert h0 h l x : untouched h0 h → l ∉ dom h0 → untouched h0 (<[l := x]> h).
Proof.
  intros Hu Hl l' Hl'. unfold Maps in *.
  rewrite lookup_insert_ne by (intros ->; done). by apply Hu.
Qed.
Lemma untouched_fresh h0 h : untouched h0 h → fresh (dom h) ∉ dom h0.
Proof.
  intros Hu Hin. unfold Maps in *. pose proof (Hu _ Hin) as E.
  apply elem_of_dom in Hin as [x Hx]. apply (is_fresh (dom h)).
  apply elem_of_dom. exists x. etrans; [exact E|exact Hx].
Qed.

Lemma run_copy_map h0 m h :
  untouched h0 h → ∃ l h', run (copy_map m) h = (Ret l, h') ∧ untouched h0 h' ∧ l ∉ dom h0.
Proof.
  intros Hu. unfold copy_map. rewrite run_bind, run_reads. cbn [seq_run].
  rewrite run_bind, run_updates. cbn [seq_run]. rewrite run_done.
  eexists _, _. split; [done|]. pose proof (untouched_fresh h0 h Hu).
  split; [by apply untouched_insert|done].
Qed.

Section Member.
Context {A : Type} (h0 : Maps) (set : option nat → A → A).

(** How a call may change what is built, as far as the caller's maps matter. *)
Definition sets_own (b b' : builder A) : Prop :=
  built b' = built b ∨ ∃ l, l ∉ dom h0 ∧ built b' = set (Some l) (built b).

Lemma run_with_new_map why m b h :
  untouched h0 h → ∃ b' h', run (with_new_map why set m b) h = (Ret b', h') ∧
    untouched h0 h' ∧ sets_own b b' ∧ keeps_errs b b'.
Proof.
  intros Hu. unfold with_new_map, map_len. rewrite run_bind, run_reads. cbn [seq_run].
  case_decide.
  - eexists _, h. split; [done|]. split; [done|]. split; [by left|]. apply keeps_errs_reject.
  - rewrite run_bind. destruct (run_copy_map h0 m h Hu) as (l & h' & -> & Hu' & Hl).
    cbn [seq_run]. rewrite run_done. eexists _, h'. split; [done|]. split; [done|].
    split; [right; by exists l|]. apply keeps_errs_accept.
Qed.

Lemma run_with_merged_map why get new m b h :
  (∀ m b h, untouched h0 h → ∃ b' h', run (new m b) h = (Ret b', h') ∧ untouched h0 h' ∧
     sets_own b b' ∧ keeps_errs b b') →
  untouched h0 h → foreign h0 (get (built b)) →
  ∃ b' h', run (with_merged_map why get new m b) h = (Ret b', h') ∧ untouched h0 h' ∧
    sets_own b b' ∧ keeps_errs b b'.
Proof.
  intros Hnew Hu Hf. unfold with_merged_map, map_len. rewrite run_bind, run_reads.
  cbn [seq_run]. case_decide.
  - eexists _, h. split; [done|]. split; [done|]. split; [by left|]. apply keeps_errs_reject.
  - destruct (get (built b)) as [l|] eqn:Eg; [|by apply Hnew].
    unfold merge_map. rewrite run_bind, run_updates. cbn [seq_run]. rewrite run_done.
    eexists b, _. split; [done|]. split; [apply untouched_insert; auto|].
    split; [by left|apply keeps_errs_refl].
Qed.
End Member.

(** ** Pod templates *)

Definition maps_of (t : template) : list (option nat) :=
  [tm_Annotations t; tm_Labels t; tm_NodeSelector t].

Lemma maps_unless p f (b : TemplateBuilder) :
  (∀ t, maps_of (f t) = maps_of t) →
  maps_of (built (accept_unless p f b)) = maps_of (built b).
Proof. destruct p; simpl; auto. Qed.
Lemma maps_add_parts {P X} (build : P → option X * error) add parts b :
  (∀ x t, maps_of (add x t) = maps_of t) →
  maps_of (built (add_parts build add parts b)) = maps_of (built b).
Proof.
  intros Ha. revert b. induction parts as [|p rest IH]; intros b; [done|]. simpl.
  destruct (build p) as [[x|] [e|]]; simpl; rewrite ?IH; simpl; auto.
Qed.
Lemma maps_set_parts {P X} nil empty (build : P → option X * error) set l b :
  (∀ x t, maps_of (set x t) = maps_of t) →
  maps_of (built (set_parts nil empty build set l b)) = maps_of (built b).
Proof.
  intros Hs. unfold set_parts. destruct (nil_or_empty _ _ _); [done|].
  destruct (build_all _ _); [done|]. apply Hs.
Qed.

(** What a call on a template keeps: the errors, the maps that are not the builder's own,
    and that its members are its own. *)
Definition own_maps (h0 : Maps) (b : TemplateBuilder) : Prop :=
  Forall (foreign h0) (maps_of (built b)).

Lemma tmpl_own_member h0 set (b b' : TemplateBuilder) :
  (∀ m t, maps_of (set m t) = <[0 := m]> (maps_of t) ∨ maps_of (set m t) = <[1 := m]> (maps_of t)
     ∨ maps_of (set m t) = <[2 := m]> (maps_of t)) →
  sets_own h0 set b b' → own_maps h0 b → own_maps h0 b'.
Proof.
  unfold own_maps. intros Hset [E|(l & Hl & E)] Hb; rewrite E; [done|].
  assert (Hf : foreign h0 (Some l)) by (by intros ? [= <-]).
  destruct (Hset (Some l) (built b)) as [->|[->| ->]]; by apply Forall_insert.
Qed.

Definition step_ok (h0 : Maps) (b : TemplateBuilder) (h : Maps) (p : M TemplateBuilder) : Prop :=
  ∃ b' h', run p h = (Ret b', h') ∧ untouched h0 h' ∧ own_maps h0 b' ∧ keeps_errs b b'.

Lemma step_pure h0 b h b' :
  untouched h0 h → own_maps h0 b → maps_of (built b') = maps_of (built b) → keeps_errs b b' →
  step_ok h0 b h (mret b').
Proof.
  intros Hu Ho Hm Hk. exists b', h. split; [done|]. split; [done|]. split; [|done].
  unfold own_maps. by rewrite Hm.
Qed.
Lemma step_member h0 b h p set :
  own_maps h0 b →
  (∀ m t, maps_of (set m t) = <[0 := m]> (maps_of t) ∨ maps_of (set m t) = <[1 := m]> (maps_of t)
     ∨ maps_of (set m t) = <[2 := m]> (maps_of t)) →
  (∃ b' h', run p h = (Ret b', h') ∧ untouched h0 h' ∧ sets_own h0 set b b' ∧ keeps_errs b b') →
  step_ok h0 b h p.
Proof.
  intros Ho Hs (b' & h' & E & Hu & Hset & Hk). exists b', h'. split; [done|]. split; [done|].
  split; [|done]. by eapply tmpl_own_member.
Qed.

Lemma own_foreign h0 b i m :
  own_maps h0 b → maps_of (built b) !! i = Some m → foreign h0 m.
Proof. intros Ho. by apply Forall_lookup_1. Qed.

Lemma tmpl_apply_step h0 c b h :
  untouched h0 h → own_maps h0 b → step_ok h0 b h (tmpl_apply c b).
Proof.
  intros Hu Ho.
  assert (Hsel : ∀ m b h, untouched h0 h → ∃ b' h',
    run (tmpl_WithNodeSelectorNew m b) h = (Ret b', h') ∧ untouched h0 h' ∧
    sets_own h0 set_tm_NodeSelector b b' ∧ keeps_errs b b') by (intros; by apply run_with_new_map).
  destruct c; simpl.
  all: try (apply step_pure; [done..| |];
    first [apply maps_unless|apply maps_set_parts|apply keeps_errs_unless|apply keeps_errs_accept
          |apply keeps_errs_set_parts|done]; done).
  - apply (step_member _ _ _ _ set_tm_Annotations); [done|by left|].
    apply run_with_merged_map; [intros; by apply run_with_new_map|done|].
    by apply (own_foreign _ _ 0 _ Ho).
  - apply (step_member _ _ _ _ set_tm_Annotations); [done|by left|]. by apply run_with_new_map.
  - apply (step_member _ _ _ _ set_tm_Labels); [done|right; by left|].
    apply run_with_merged_map; [intros; by apply run_with_new_map|done|].
    by apply (own_foreign _ _ 1 _ Ho).
  - apply (step_member _ _ _ _ set_tm_Labels); [done|right; by left|]. by apply run_with_new_map.
  - apply (step_member _ _ _ _ set_tm_NodeSelector); [done|by right; right|].
    apply run_with_merged_map; [done..|]. by apply (own_foreign _ _ 2 _ Ho).
  - apply (step_member _ _ _ _ set_tm_NodeSelector); [done|by right; right|]. by apply Hsel.
  - apply (step_member _ _ _ _ set_tm_NodeSelector); [done|by right; right|].
    unfold tmpl_WithNodeSelectorByValue. rewrite run_bind.
    destruct (run_copy_map h0 m h Hu) as (l & h' & -> & Hu' & Hl). cbn [seq_run].
    rewrite run_done. eexists _, h'. split; [done|]. split; [done|].
    split; [right; by exists l|]. apply keeps_errs_accept.
  - apply step_pure; [done..| |]; destruct l; simpl; auto with builders.
    by apply maps_add_parts.
  - apply step_pure; [done..| |]; destruct l; simpl; auto with builders.
    by apply maps_add_parts.
Qed.

(** (C18) The builder of pod templates keeps its maps to itself: whatever calls are made, with
    whatever maps, in whatever order, every map the caller has holds afterwards what it held
    before. *)
Theorem template_builder_copies (cs : list tmpl_call) (h : Maps) :
  ∃ b h', run (tmpl_calls cs NewPodtemplatespecBuilder) h = (Ret b, h') ∧
    ∀ l, l ∈ dom h → h' !! l = h !! l.
Proof.
  destruct (calls_invariant tmpl_apply (λ b h', untouched h h' ∧ own_maps h b))
    with (cs := cs) (b := NewPodtemplatespecBuilder) (h := h) as (b & h' & E & Hu & _).
  - intros c b h' [Hu Ho]. destruct (tmpl_apply_step h c b h' Hu Ho) as (b' & h2 & E & ? & ? & _).
    by exists b', h2.
  - split; [done|]. by repeat constructor.
  - by exists b, h'.
Qed.

(** ** Deployments *)

Lemma map_at_insert (h : Maps) l x : map_at (<[l := x]> h) (Some l) = x.
Proof. unfold map_at, Maps in *. by rewrite lookup_insert_eq. Qed.
Lemma run_dpl_WithNodeSelector m (b : DeploymentBuilder) (h : Maps) l :
  map_at h m ≠ ∅ → dp_selector (built b) = Some l →
  run (dpl_WithNodeSelector m b) h =
  (Ret b, <[l := map_at h m ∪ map_at h (Some l)]> h).
Proof.
  intros Hm Hl. unfold dpl_WithNodeSelector, with_merged_map, map_len.
  rewrite run_bind, run_reads. cbn [seq_run].
  rewrite decide_False by (intros E%map_size_empty_iff; done).
  rewrite Hl. done.
Qed.
Lemma built_with_template (t : TemplateBuilder) b :
  errs t = [] → built (dpl_WithPodTemplateSpecBuilder (Some t) b) = set_dp_Template (built t) (built b).
Proof. intros Ht. unfold dpl_WithPodTemplateSpecBuilder, tmpl_Build, tmpl_validate. by rewrite Ht. Qed.

(** Deployments built from the same template share its node selector: a selector added
    to one of them is in the other and in the template from then on.  A selector that is
    set is the caller's map itself, and what is added later is added to that map. *)
Theorem node_selector_shared (t : TemplateBuilder) (l : nat) (b1 b2 : DeploymentBuilder)
    (m : option nat) (h : Maps) :
  errs t = [] → tm_NodeSelector (built t) = Some l → map_at h m ≠ ∅ →
  let d1 := dpl_WithPodTemplateSpecBuilder (Some t) b1 in
  let d2 := dpl_WithPodTemplateSpecBuilder (Some t) b2 in
  (∃ h', run (dpl_WithNodeSelector m d1) h = (Ret d1, h') ∧
     map_at h' (dp_selector (built d2)) = map_at h m ∪ map_at h (dp_selector (built d2)) ∧
     map_at h' (tm_NodeSelector (built t)) = map_at h m ∪ map_at h (tm_NodeSelector (built t))) ∧
  ∀ own, own ∈ dom h → map_at h (Some own) ≠ ∅ →
    ∃ d h', run (b ← dpl_WithNodeSelectorNew (Some own) d1; dpl_WithNodeSelector m b) h =
      (Ret d, h') ∧ h' !! own = Some (map_at h m ∪ map_at h (Some own)).
Proof.
  intros Ht Hl Hm d1 d2.
  assert (Hd : ∀ b, dp_selector (built (dpl_WithPodTemplateSpecBuilder (Some t) b)) = Some l).
  { intros b. rewrite built_with_template by done. exact Hl. }
  split.
  - eexists. split; [apply run_dpl_WithNodeSelector; [done|apply Hd]|].
    unfold d2. by rewrite Hd, Hl, map_at_insert.
  - intros own Hown Hne.
    unfold dpl_WithNodeSelectorNew at 1, map_len. rewrite !run_bind, run_reads. cbn [seq_run].
    rewrite decide_False by (intros E%map_size_empty_iff; done). rewrite run_done. cbn [seq_run].
    erewrite run_dpl_WithNodeSelector by done.
    eexists _, _. split; [done|]. unfold Maps in *. by rewrite lookup_insert_eq.
Qed.

Lemma dpl_step_keeps_errs c (b b' : DeploymentBuilder) (h h' : Maps) :
  run (dpl_apply c b) h = (Ret b', h') → keeps_errs b b'.
Proof.
  assert (Hnew : ∀ h0 set why m b h b' h', untouched h0 h →
    run (with_new_map why set m b) h = (Ret b', h') → @keeps_errs deployment b b').
  { intros h0 set why m b0 h1 b1 h2 Hu E.
    destruct (run_with_new_map h0 set why m b0 h1 Hu) as (? & ? & E' & _ & _ & Hk). congruence. }
  assert (H0 : untouched ∅ h) by (intros l Hl; set_solver).
  destruct c; cbn [dpl_apply]; intros E; try (injection E as <- <-; apply keeps_errs_unless).
  - exact (Hnew _ _ _ _ _ _ _ _ H0 E).
  - unfold dpl_WithSelectorMatchLabels, with_merged_map, map_len in E.
    rewrite run_bind, run_reads in E. cbn [seq_run] in E.
    case_decide; [injection E as <- <-; auto with builders|].
    destruct (dp_Selector _); [injection E as <- <-; auto with builders|].
    exact (Hnew _ _ _ _ _ _ _ _ H0 E).
  - exact (Hnew _ _ _ _ _ _ _ _ H0 E).
  - unfold dpl_WithNodeSelector, with_merged_map, dpl_WithNodeSelectorNew, map_len in E.
    rewrite run_bind, run_reads in E. cbn [seq_run] in E.
    case_decide; [injection E as <- <-; auto with builders|].
    destruct (dp_selector _); [injection E as <- <-; auto with builders|].
    rewrite run_bind, run_reads in E. cbn [seq_run] in E. rewrite run_done in E.
    injection E as <- <-. case_decide; auto with builders.
  - unfold dpl_WithNodeSelectorNew, map_len in E.
    rewrite run_bind, run_reads in E. cbn [seq_run] in E. rewrite run_done in E.
    injection E as <- <-. case_decide; auto with builders.
  - injection E as <- <-. destruct n; simpl; [case_decide|]; auto with builders.
  - injection E as <- <-. destruct t as [t|]; simpl; [|auto with builders].
    destruct (tmpl_Build t) as [[tm|] [e|]]; auto with builders.
Qed.
Lemma tmpl_step_keeps_errs c (b b' : TemplateBuilder) (h h' : Maps) :
  run (tmpl_apply c b) h = (Ret b', h') → keeps_errs b b'.
Proof.
  intros E. destruct (tmpl_apply_step ∅ c b h) as (b1 & h1 & E1 & _ & _ & Hk).
  - intros l Hl. set_solver.
  - repeat constructor; intros l _; set_solver.
  - congruence.
Qed.

Lemma calls_keep_errs {A C} (apply : C → builder A → M (builder A)) :
  (∀ c b b' h h', run (apply c b) h = (Ret b', h') → keeps_errs b b') →
  ∀ cs b b' h h', run (calls apply cs b) h = (Ret b', h') → keeps_errs b b'.
Proof.
  intros Hs cs. induction cs as [|c cs IH]; intros b b' h h'; cbn [calls].
  - rewrite run_done. intros [= <- <-]. apply keeps_errs_refl.
  - rewrite run_bind. destruct (run (apply c b) h) as [[b1| | |] h1] eqn:E1; simpl; try done.
    intros E. eapply keeps_errs_trans; [by eapply Hs|by eapply IH].
Qed.

(** A sequence of calls with one in it after which there are errors. *)
Lemma calls_end_with_errors {A C} (apply : C → builder A → M (builder A)) c cs1 cs2 b b' h h' :
  (∀ c b b' h h', run (apply c b) h = (Ret b', h') → keeps_errs b b') →
  (∀ b, ∃ b1, apply c b = mret b1 ∧ errs b1 ≠ []) →
  run (calls apply (cs1 ++ c :: cs2) b) h = (Ret b', h') → errs b' ≠ [].
Proof.
  intros Hs Hc. rewrite run_calls_app.
  destruct (run (calls apply cs1 b) h) as [[b1| | |] h1]; cbn [seq_run]; try done.
  cbn [calls]. destruct (Hc b1) as (b2 & -> & Hne). rewrite run_bind, run_done. cbn [seq_run].
  intros E. eapply keeps_errs_nonempty; [by eapply calls_keep_errs|done].
Qed.

(** (C19) No deployment is built from a part that was refused: if a container or a volume
    builder has noted an error, then every template that was given it, whatever else was
    called before or after, and every deployment that was given that template, is refused
    by its [Build]. *)
Theorem refused_part_refuses (ts1 ts2 : list tmpl_call) (part : tmpl_call)
    (ds1 ds2 : list dpl_call) (t : TemplateBuilder) (d : DeploymentBuilder) (h h1 h2 : Maps) :
  (∃ c l, errs c ≠ [] ∧ c ∈ l ∧ (part = TContainers (Some l) ∨ part = TContainersNew (Some l))) ∨
  (∃ v l, errs v ≠ [] ∧ v ∈ l ∧ (part = TVolumes (Some l) ∨ part = TVolumesNew (Some l))) →
  run (tmpl_calls (ts1 ++ part :: ts2) NewPodtemplatespecBuilder) h = (Ret t, h1) →
  run (dpl_calls (ds1 ++ DTemplate (Some t) :: ds2) NewDeploymentBuilder) h1 = (Ret d, h2) →
  (∃ e, tmpl_Build t = (None, Some e)) ∧ ∃ e, dpl_Build d = (None, Some e).
Proof.
  intros Hpart Ht Hd.
  assert (Hset : ∀ {P X} nil empty (build : P → option X * error) set l p b,
    p ∈ l → (build p).2 ≠ None → errs (set_parts nil empty build set (Some l) b) ≠ []).
  { intros P X nil empty build set l p b Hin Hp. unfold set_parts, nil_or_empty.
    destruct (refused_part_built build l p Hin Hp) as (e & E).
    destruct l; simpl in *; [|rewrite E]; simpl; by destruct (errs b). }
  assert (Hte : errs t ≠ []).
  { eapply (calls_end_with_errors tmpl_apply part); [apply tmpl_step_keeps_errs| |exact Ht].
    intros b. destruct Hpart as [(c & l & Hc & Hin & Hp)|(v & l & Hv & Hin & Hp)].
    - apply con_Build_refuses in Hc. destruct Hp as [-> | ->]; eexists; (split; [done|]).
      + by eapply refused_part_added.
      + by eapply Hset.
    - apply vol_Build_refuses in Hv. destruct Hp as [-> | ->]; eexists; (split; [done|]).
      + by eapply refused_part_added.
      + by eapply Hset. }
  destruct (tmpl_Build_refuses t Hte) as (e & Et). split; [by exists e|].
  apply dpl_Build_refuses.
  eapply (calls_end_with_errors dpl_apply); [apply dpl_step_keeps_errs| |exact Hd].
  intros b. eexists. split; [done|]. simpl. rewrite Et. simpl. by destruct (errs b).
Qed.

(** ** Containers *)

(** What a call does, from whether it was given what it needs. *)
Definition con_spec (b : ContainerBuilder) (c : con_call) (b' : ContainerBuilder) : Prop :=
  if con_ok c
  then errs b' = errs b ∧ built b' = built (con_apply (mkBuilder (built b) []) c)
  else errs b' ≠ [] ∧ built b' = built b.

Lemma con_apply_spec b c : con_spec b c (con_apply b c).
Proof.
  assert (Hrej : ∀ why, errs (reject why b) ≠ [] ∧ built (reject why b) = built b).
  { intros why. split; [|done]. simpl. by destruct (errs b). }
  assert (Hstr : ∀ s what, if bool_decide (s ≠ "") then empty_string s what = None
                           else empty_string s what = Some what).
  { intros s what. unfold empty_string. destruct s as [|a s]; [done|].
    rewrite bool_decide_eq_true_2 by done. rewrite decide_False; [done|].
    unfold strlen. simpl. lia. }
  unfold con_spec. destruct c; simpl.
  all: unfold con_WithName, con_WithImage, con_WithImagePullPolicy, con_WithCommandNew,
    con_WithArgumentsNew, con_WithVolumeMountsNew, con_WithVolumeDevices, con_WithPortsNew,
    con_WithEnvsNew, con_WithEnvs, con_WithPrivilegedSecurityContext, con_WithResources,
    con_WithResourcesByValue, con_WithLivenessProbe, con_WithLifeCycle, con_list.
  all: try match goal with
    | |- context [empty_string ?s ?w] =>
        specialize (Hstr s w); destruct (bool_decide _); rewrite Hstr
    | l : option (list _) |- _ => destruct l as [[|x l]|]
    | x : option _ |- _ => destruct x
    end; simpl accept_unless; first [apply Hrej|done].
Qed.

Lemma con_calls_spec cs b :
  (errs (foldl con_apply b cs) = [] ↔ errs b = [] ∧ Forall (λ c, con_ok c = true) cs) ∧
  (Forall (λ c, con_ok c = true) cs →
   built (foldl con_apply b cs) =
   foldl (λ c call, built (con_apply (mkBuilder c []) call)) (built b) cs).
Proof.
  revert b. induction cs as [|c cs IH]; intros b; simpl.
  - split; [|done]. split; [done|by intros [? _]].
  - rewrite Forall_cons. destruct (IH (con_apply b c)) as [IH1 IH2].
    pose proof (con_apply_spec b c) as Hc. unfold con_spec in Hc.
    destruct (con_ok c); destruct Hc as [He Hb].
    + rewrite IH1, He. split; [tauto|]. intros [_ Hcs]. by rewrite IH2, Hb.
    + rewrite IH1. split; [naive_solver|]. by intros [? _].
Qed.

(** A container is built exactly when every call was given what it needs: a name, an
    image or a policy that is not empty, a list with something in it, a pointer that is not
    nil.  It is then what the calls made of the empty container one after the other; a call
    that was not given what it needs changes nothing, and no later one makes it good. *)
Theorem container_built_iff (cs : list con_call) :
  ((con_Build (con_calls cs)).2 = None ↔ Forall (λ c, con_ok c = true) cs) ∧
  (Forall (λ c, con_ok c = true) cs →
     con_Build (con_calls cs) =
     (foldl (λ c call, built (con_apply (mkBuilder c []) call)) zero_container cs, None)) ∧
  ∀ b c, con_ok c = false → built (con_apply b c) = built b.
Proof.
  destruct (con_calls_spec cs NewContainerBuilder) as [He Hb]. fold (con_calls cs) in He, Hb.
  unfold con_Build, con_validate. split; [|split].
  - destruct (errs (con_calls cs)); simpl; [tauto|]. split; [done|]. naive_solver.
  - intros Hcs. by rewrite (proj2 He), Hb.
  - intros b c Hc. pose proof (con_apply_spec b c) as H. unfold con_spec in H.
    rewrite Hc in H. tauto.
Qed.
End Builders.

(** ** The theorems at work *)

#[local] Instance demo_corev1 : Corev1 := {
  ContainerPort := Z; EnvVar := string; ResourceRequirements := unit; no_resources := tt;
  Probe := unit; Lifecycle := unit; Affinity := unit; EmptyDirVolumeSource := unit;
}.

(** A template that runs on one zone, and two deployments of it. *)
Definition demo_template : TemplateBuilder :=
  accept (set_tm_NodeSelector (Some 0)) (tmpl_WithName "fio" NewPodtemplatespecBuilder).
Definition demo_maps : Maps :=
  {[ 0 := {[ "zone" := "a" ]}; 1 := {[ "host" := "n1" ]}; 2 := {[ "disk" := "ssd" ]} ]}.

Lemma node_selector_shared_witness :
  ∃ h', run (dpl_WithNodeSelector (Some 1)
          (dpl_WithPodTemplateSpecBuilder (Some demo_template) NewDeploymentBuilder)) demo_maps =
    (Ret (dpl_WithPodTemplateSpecBuilder (Some demo_template) NewDeploymentBuilder), h') ∧
  map_at h' (tm_NodeSelector (built demo_template)) !! "host" = Some "n1".
Proof.
  destruct (node_selector_shared demo_template 0 NewDeploymentBuilder
    (dpl_WithName "second" NewDeploymentBuilder) (Some 1) demo_maps) as [(h' & E & _ & Hm) _].
  - reflexivity.
  - reflexivity.
  - intros E. apply (f_equal (lookup "host")) in E. vm_compute in E. discriminate.
  - exists h'. split; [exact E|]. rewrite Hm. reflexivity.
Defined.

(** A container without an image, in a template, in a deployment. *)
Definition bad_container : ContainerBuilder := con_calls [CName "fio"; CImage ""].
Definition bad_template : TemplateBuilder :=
  tmpl_WithContainerBuilders (Some [bad_container]) (tmpl_WithName "fio" NewPodtemplatespecBuilder).
Definition bad_deployment : DeploymentBuilder :=
  dpl_WithName "fio" (dpl_WithPodTemplateSpecBuilder (Some bad_template) NewDeploymentBuilder).
Lemma refused_part_refuses_witness :
  built bad_deployment = set_dp_Name "fio" new_deployment ∧
  ∃ e, dpl_Build bad_deployment = (None, Some e).
Proof.
  split; [vm_compute; reflexivity|].
  apply (refused_part_refuses [TName "fio"] [] (TContainers (Some [bad_container]))
           [] [DName "fio"] bad_template bad_deployment ∅ ∅ ∅).
  - left. exists bad_container, [bad_container].
    split; [vm_compute; discriminate|]. split; [by apply list_elem_of_singleton|by left].
  - vm_compute. reflexivity.
  - vm_compute. reflexivity.
Defined.
