(* ===== verification/K8sInstall.v ===== *)
(** * Installing and removing Mayastor

    common/k8sinstall/util.go, with common/locations/util_locations.go, the deployment of the
    agents (common/k8stest/util_e2e_agent.go), and the goroutines that delete yaml files and
    share one error variable. *)

From stdpp Require Import base gmap strings list sorting.
From Stdlib Require Import Ascii.
From S2P Require Import Prelude GoLib Json Http Shell Kube MayastorClient GoTime.
From S2P Require Import K8sPods K8sLib K8sApps Session ControlPlane E2ENodes E2EPods E2EUtil.
From S2P Require Import E2EPvc E2ECleanup.

(** [ioutil.ReadDir]: the names, with whether each is a directory. *)
Class Directories (W : Type) := {
  ioutil_ReadDir : string → answer W (list (string * bool));
}.

(** [sort.Sort]: the order of elements of which neither is less is not promised. *)
Class Sorts := {
  sort_Sort : (string → string → bool) → list string → list string;
  sort_Sort_perm : ∀ less l, sort_Sort less l ≡ₚ l;
  sort_Sort_sorted : ∀ less l,
    (∀ a b c, less b a = false → less c b = false → less c a = false) →
    (∀ a b, less a b = true → less b a = false) →
    StronglySorted (λ a b, less b a = false) (sort_Sort less l);
}.
Definition sort_Strings (l : list string) : list string :=
  merge_sort (λ a b, Is_true (String.leb a b)) l.

(** ** Goroutines that share an error variable

    The state of the process, the variable [err] of the function that started them, and the
    channel with what was sent on it. *)
Record Gang (S : Type) := mkGang {
  gang_state : S; gang_err : error; gang_ch : list error }.
Arguments mkGang {S}.
Arguments gang_state {S}.
Arguments gang_err {S}.
Arguments gang_ch {S}.

#[export] Program Instance gang_world {S} : HasWorld (Gang S) S := {
  world := gang_state;
  set_world s g := mkGang s (gang_err g) (gang_ch g);
}.
Solve All Obligations with by intros; repeat match goal with g : Gang _ |- _ => destruct g end.

(** A program of the process, run by one of them: its steps are those of the process. *)
Definition zoom {S A} (p : prog S A) : prog (Gang S) A := lift p.

Section Gangs.
Context {S : Type}.
Notation T := (prog (Gang S)).

Definition assign_err (err : error) : T unit :=
  updates (λ g, mkGang (gang_state g) err (gang_ch g)).
Definition send_on (capacity : nat) (err : error) : T unit :=
  guarded (λ g, if decide (length (gang_ch g) < capacity)%nat
                then Some (tt, mkGang (gang_state g) (gang_err g) (gang_ch g ++ [err])%list)
                else None).

(** [if err != nil { errorsCh <- err }]: the shared variable is read twice. *)
Definition send_shared (capacity : nat) : T unit :=
  err ← reads gang_err;
  match err with
  | None => mret tt
  | Some _ => err ← reads gang_err; send_on capacity err
  end.

Definition has_ended (p : T unit) : bool := match p with Done _ => true | _ => false end.

(** They run as the schedule says until all are done; then the channel is read. *)
Definition run_gang (sched : list nat) (threads : list (T unit)) : prog S (list goerror) :=
  guarded (λ s,
    match pool_run sched threads (mkGang s None []) with
    | Some (ts, g) =>
        if forallb has_ended ts
        then Some (foldl (λ errs err, Accumulate err errs) [] (gang_ch g), gang_state g)
        else None
    | None => None
    end).
End Gangs.

Definition filepath_Join (dir file : string) : string := path_Clean (dir +:+ "/" +:+ file).

Section Locations.
Context {W : Type} `{System W}.
Notation M := (prog (Session W)).

Definition locationExists (path : string) : M (string * error) :=
  '(_, err) ← Stat path;
  mret (match err with Some e => ("", Some e) | None => (path, None) end).
Definition GetBuildInfoFile : M (string * error) :=
  c ← Config;
  locationExists (path_Clean (MayastorRootDir c +:+ "/scripts/../build_info.json")).
Definition GetMayastorScriptsDir : M (string * error) :=
  c ← Config; locationExists (path_Clean (MayastorRootDir c +:+ "/scripts")).
Definition GetControlPlaneScriptsDir : M (string * error) :=
  c ← Config; locationExists (path_Clean (MayastorRootDir c +:+ "/mcp/scripts")).
Definition GetGeneratedYamlsDir : M string :=
  c ← Config; mret (path_Clean (SessionDir c +:+ "/install-yamls")).
Definition GetControlPlaneGeneratedYamlsDir : M string :=
  c ← Config; mret (path_Clean (SessionDir c +:+ "/install-yamls-control-plane")).
Definition GetE2EAgentPath : M string :=
  c ← Config; mret (path_Clean (E2eRootDir c +:+ "/tools/e2e-agent")).
Definition GetE2EScriptsPath : M string :=
  c ← Config; mret (path_Clean (E2eRootDir c +:+ "/scripts")).
End Locations.

Section K8sInstall.
Context {W : Type} `{Kube W} `{KubeApps W} `{Shell W} `{Http W} `{MapRange W} `{Clock W}
  `{Grpc W} `{Files W} `{System W} `{ConfigFiles W} `{Directories W} `{Sorts}.
Notation M := (prog (Session W)).

(** ** The agents *)

Definition e2eReadyPodCount : M Z :=
  d ← kube_call zero_daemonset (ds_Get NSE2EAgent "e2e-rest-agent");
  mret (available d).

(** Nodes that cannot be listed are no nodes. *)
Definition EnsureE2EAgent : M (bool * error) :=
  err ← EnsureNamespace NSE2EAgent;
  match err with
  | Some e => mret (false, Some e)
  | None =>
      '(nodes, _) ← e2e_GetNodeLocs;
      let instances :=
        Z.of_nat (length (filter (λ n, MayastorNode_ n && negb (MasterNode n)) nodes)) in
      n ← e2eReadyPodCount;
      if decide (n = instances) then mret (true, None)
      else
        dir ← GetE2EAgentPath;
        err ← KubeCtlApplyYaml "e2e-agent.yaml" dir;
        match err with
        | Some e => mret (false, Some e)
        | None =>
            ready ← await_ready 5 60 (n ← e2eReadyPodCount; mret (bool_decide (n = instances)));
            mret (ready, None)
        end
  end.

(** ** Generating the yaml files *)

Definition bash (command : string) : M error :=
  '(_, err) ← exec_cmd ["bash"; "-c"; command]; mret err.

(** Without build information there is nothing to fix. *)
Definition postFixInstallation (yamlsDir : string) : M error :=
  '(buildInfoFile, err) ← GetBuildInfoFile;
  match err with
  | Some _ => mret None
  | None =>
      scripts ← GetE2EScriptsPath;
      bash (scripts +:+ "/postfix-install.py " +:+ yamlsDir +:+ " -b " +:+ buildInfoFile)
  end.

Definition registry_directive (c : E2EConfig) : string :=
  if decide (Registry c = "") then "" else " -r '" +:+ Registry c +:+ "'".
Definition cores_directive (c : E2EConfig) : string :=
  if decide (Cores c = 0%Z) then "" else " -c " +:+ Itoa (Cores c).
(** The last master node, when a device for the pools is configured. *)
Definition etcd_node (c : E2EConfig) (nodes : list NodeLocation) : string :=
  if decide (PoolDevice c = "") then ""
  else foldl (λ m node, if MasterNode node then LocName node else m) "" nodes.
Definition etcd_options (masterNode : string) : string :=
  "etcd.replicaCount=1,etcd.nodeSelector=kubernetes.io/hostname: " +:+ masterNode +:+
  ",etcd.tolerations=- key: node-role.kubernetes.io/master".

(** The directives for the pools are always empty. *)
Definition GenerateMayastorYamlFiles : M error :=
  c ← Config;
  '(nodeLocs, err) ← e2e_GetNodeLocs;
  match err with
  | Some e => mret (errorf ("GetNodeLocs failed " +:+ err_text e))
  | None =>
      '(mayastorScriptDir, err) ← GetMayastorScriptsDir;
      match err with
      | Some e => mret (Some e)
      | None =>
          yamlsDir ← GetGeneratedYamlsDir;
          err ← bash (mayastorScriptDir +:+ "/generate-deploy-yamls.sh -s '" +:+
                  etcd_options (etcd_node c nodeLocs) +:+ "' -o " +:+ yamlsDir +:+ " -t '" +:+
                  ImageTag c +:+ "' " +:+ registry_directive c +:+ " " +:+ cores_directive c +:+
                  " " +:+ "" +:+ " test");
          match err with
          | Some e => mret (Some e)
          | None => postFixInstallation yamlsDir
          end
      end
  end.

Definition unsupported_cp (tail : string) : M error :=
  v ← cp_MajorVersion;
  mret (errorf ("unsupported control plane version " +:+ Itoa v +:+ tail)).

(** The script of release 1, or else that of the releases after it. *)
Definition generator_script (mcpScriptDir : string) : M (string * error) :=
  let scriptFile := mcpScriptDir +:+ "/generate-deploy-yamls.sh" in
  '(_, err) ← Stat scriptFile;
  let scriptFile := match err with
                    | Some _ => mcpScriptDir +:+ "/deploy/generate-yamls.sh"
                    | None => scriptFile end in
  '(_, err) ← Stat scriptFile;
  mret (scriptFile, err).

Definition GenerateControlPlaneYamlFiles : M error :=
  c ← Config;
  v ← cp_MajorVersion;
  if decide (v = 1%Z) then
    '(mcpScriptDir, err) ← GetControlPlaneScriptsDir;
    match err with
    | Some e => mret (Some e)
    | None =>
        '(scriptFile, err) ← generator_script mcpScriptDir;
        match err with
        | Some e => mret (Some e)
        | None =>
            yamlsDir ← GetControlPlaneGeneratedYamlsDir;
            err ← bash (scriptFile +:+ " -o " +:+ yamlsDir +:+ " -t '" +:+ ImageTag c +:+
                    "' -s mayastorCP.logLevel=debug " +:+ registry_directive c +:+ " test");
            match err with
            | Some e => mret (Some e)
            | None => postFixInstallation yamlsDir
            end
        end
    end
  else unsupported_cp (String "010" "").

(** ** The yaml files of the control plane *)

Definition cp_weight (file : string) : Z := if HasSuffix file "rbac.yaml" then 0 else 1.
Definition cp_Less (a b : string) : bool := bool_decide (cp_weight a < cp_weight b)%Z.
Definition yaml_names (files : list (string * bool)) : list string :=
  map fst (filter (λ f, negb f.2 && HasSuffix f.1 ".yaml") files).

Definition getCPYamlFiles : M (list string * error) :=
  yamlsDir ← GetControlPlaneGeneratedYamlsDir;
  '(files, err) ← kube_call [] (ioutil_ReadDir yamlsDir);
  mret (match err with
        | Some e => ([], Some e)
        | None => (sort_Sort cp_Less (sort_Strings (yaml_names files)), None)
        end).

Definition installControlPlane : M error :=
  '(yamlFiles, err) ← getCPYamlFiles;
  match err with
  | Some e => mret (Some e)
  | None =>
      yamlsDir ← GetControlPlaneGeneratedYamlsDir;
      r ← for_range yamlFiles [] (λ yf errs,
            err ← KubeCtlApplyYaml yf yamlsDir;
            mret (Next (match err with
                        | Some e => Accumulate (errorf ("failed to apply yaml file " +:+ yf +:+
                            " , yaml path: " +:+ yamlsDir +:+ ", error: " +:+ err_text e)) errs
                        | None => errs end)));
      errs ← no_return r;
      mret (GetError errs)
  end.

(** One goroutine: the result of the deletion goes through the shared variable. *)
Definition delete_thread (capacity : nat) (yamlsDir yf : string)
    : prog (Gang (Session W)) unit :=
  zoom (S:=Session W) (time_Sleep (1 * Second)) ;;
  err ← zoom (S:=Session W) (KubeCtlDeleteYaml yf yamlsDir);
  assign_err err ;;
  send_shared capacity.

Definition uninstallControlPlane (sched : list nat) : M error :=
  '(yamlFiles, err) ← getCPYamlFiles;
  match err with
  | Some e => mret (Some e)
  | None =>
      yamlsDir ← GetControlPlaneGeneratedYamlsDir;
      errs ← run_gang sched
               (map (delete_thread (length yamlFiles) yamlsDir) (reverse yamlFiles));
      mret (GetError errs)
  end.

(** ** Installing *)

Definition mayastorYamlFiles : M (list string) :=
  c ← Config;
  let p := cfg_Product c in
  mret [EtcdYaml p; NatsDeploymentYaml p; CsiDaemonsetYaml p; DaemonsetYaml p].

(** Twelve looks at most, five seconds apart. *)
Definition e2e_WaitForPoolCrd : M bool :=
  r ← for_upto 0 (rounds 0 60 5) tt (λ _ _,
        time_Sleep (5 * Second) ;;
        '(_, err) ← e2e_ListMsPools;
        match err with
        | Some e => if is_not_found (Some e) then mret (Next tt) else mret (Return false)
        | None => mret (Return true)
        end);
  match r with inl _ => mret false | inr ok => mret ok end.

(** A file that was not generated is passed over. *)
Definition apply_files (yamlsDir : string) : M error :=
  files ← mayastorYamlFiles;
  r ← for_range files [] (λ yaml errs,
        '(_, err) ← Stat (filepath_Join yamlsDir yaml);
        if IsNotExist err then mret (Next errs)
        else
          err ← KubeCtlApplyYaml yaml yamlsDir;
          mret (Next (Accumulate err errs)));
  errs ← no_return r;
  mret (GetError errs).

(** The last answer, of twenty-four at most. *)
Definition await_pools_online : M error :=
  r ← for_upto 0 (240 `quot` 10) None (λ _ _,
        time_Sleep (10 * Second) ;;
        err ← CheckAllMsPoolsAreOnline;
        match err with None => mret (Break None) | Some e => mret (Next (Some e)) end);
  err ← no_return r;
  mret (match err with
        | Some e => errorf ("One or more pools are offline " +:+ err_text e)
        | None => None end).

(** Everything that has to come up after the files were applied. *)
Definition await_installed : M error :=
  '(ready, err) ← MayastorReady 2 540;
  match err with
  | Some e => mret (Some e)
  | None =>
  if negb ready then mret (errorf "mayastor installation is not ready") else
  ready ← ControlPlaneReady 10 180;
  if negb ready then mret (errorf "mayastor control plane installation is not ready") else
  '(nodeReady, err) ← MayastorNodeReady 5 180;
  match err with
  | Some e => mret (Some e)
  | None =>
  if negb nodeReady then mret (errorf "all mayastor node are not ready") else
  crdReady ← e2e_WaitForPoolCrd;
  if negb crdReady then mret (errorf "mayastor pool CRD not defined?") else
  err ← CreateConfiguredPools;
  match err with
  | Some e => mret (Some e)
  | None => await_pools_online
  end end end.

Definition install_files : M error :=
  err ← GenerateControlPlaneYamlFiles;
  match err with
  | Some e => mret (Some e)
  | None =>
  err ← GenerateMayastorYamlFiles;
  match err with
  | Some e => mret (Some e)
  | None =>
  yamlsDir ← GetGeneratedYamlsDir;
  '(_, err) ← EnsureE2EAgent;
  match err with
  | Some e => mret (Some e)
  | None =>
  ns ← e2e_NSMayastor;
  err ← MkNamespace ns;
  match err with
  | Some e => mret (Some e)
  | None => apply_files yamlsDir
  end end end end.

Definition InstallMayastor : M error :=
  c ← Config;
  if decide (ImageTag c = "") then mret (errorf "mayastor image tag not defined") else
  if decide (PoolDevice c = "")
  then mret (errorf "configuration error pools are not defined.") else
  _ ← via_get (cpi_Version _);
  '(mayastorNodes, err) ← e2e_GetMayastorNodeNames;
  match err with
  | Some e => mret (Some e)
  | None =>
  if decide (mayastorNodes = []) then mret (errorf "number of mayastor nodes is 0") else
  err ← install_files;
  match err with
  | Some e => mret (Some e)
  | None =>
  v ← cp_MajorVersion;
  if decide (v = 1%Z) then
    err ← installControlPlane;
    match err with
    | Some e => mret (Some e)
    | None => await_installed
    end
  else unsupported_cp "/n"
  end end.

(** ** Removing *)

Definition deleteCRD (crdName : string) : M unit :=
  _ ← exec_cmd ["kubectl"; "delete"; "crd"; crdName]; mret tt.
Definition deleteNamespace : M error :=
  ns ← e2e_NSMayastor;
  '(_, err) ← exec_cmd ["kubectl"; "delete"; "namespace"; ns];
  mret err.

(** Nothing may be left of the tests; what cannot be listed counts as nothing. *)
Definition check_unused : M error :=
  '(found, err) ← CheckForTestPods;
  if decide (err = None ∧ found = true)
  then mret (errorf "application pods were found, none expected") else
  '(found, _) ← CheckForPVCs;
  if found : bool then mret (errorf " PersistentVolumeClaims were found, none expected") else
  '(found, _) ← CheckForPVs;
  if found : bool then mret (errorf " PersistentVolumes were found, none expected") else
  CheckAllMsPoolsAreOnline.

(** A file that is not there needs no deletion; the test of [os.Stat], too, goes through the
    shared variable. *)
Definition teardown_thread (capacity : nat) (yamlsDir yf : string)
    : prog (Gang (Session W)) unit :=
  zoom (S:=Session W) (time_Sleep (1 * Second)) ;;
  '(_, err) ← zoom (S:=Session W) (Stat (filepath_Join yamlsDir yf));
  assign_err err ;;
  err ← reads gang_err;
  (if IsNotExist err then assign_err None
   else
     err ← zoom (S:=Session W) (KubeCtlDeleteYaml yf yamlsDir);
     assign_err err) ;;
  send_shared capacity.

Definition delete_files (sched : list nat) (yamlsDir : string) : M error :=
  files ← mayastorYamlFiles;
  errs ← run_gang sched
           (map (teardown_thread (length files) yamlsDir) (reverse files));
  mret (GetError errs).

(** Twenty-four looks, ten seconds apart, for the pods to go. *)
Definition await_pods_gone : M unit :=
  n ← MayastorUndeletedPodCount;
  r ← for_upto 0 ((240 + 10 - 1) `quot` 10) n (λ _ numMayastorPods,
        if decide (numMayastorPods = 0%Z) then mret (Break numMayastorPods)
        else
          n ← MayastorUndeletedPodCount;
          time_Sleep (10 * Second) ;; mret (Next n));
  _ ← no_return r;
  mret tt.

Definition check_pods_gone (cleanup : bool) : M error :=
  if cleanup then
    '(_, podCount, err) ← ForceDeleteMayastorPods;
    mret (match err with
          | Some e => errorf ("ForceDeleteMayastorPods failed " +:+ err_text e)
          | None =>
              if decide (podCount = 0%Z) then None
              else errorf "all Mayastor pods have not been deleted"
          end)
  else
    n ← MayastorUndeletedPodCount;
    mret (if decide (n = 0%Z) then None
          else errorf "all Mayastor pods were not removed on uninstall").

(** The files are generated again, to know what to delete. *)
Definition uninstall_files (sched_cp sched : list nat) : M error :=
  err ← GenerateMayastorYamlFiles;
  match err with
  | Some e => mret (Some e)
  | None =>
  v ← cp_MajorVersion;
  if decide (v = 1%Z) then
    err ← GenerateControlPlaneYamlFiles;
    match err with
    | Some e => mret (Some e)
    | None =>
    yamlsDir ← GetGeneratedYamlsDir;
    v ← cp_MajorVersion;
    if decide (v = 1%Z) then
      err ← uninstallControlPlane sched_cp;
      match err with
      | Some e => mret (Some e)
      | None => delete_files sched yamlsDir
      end
    else unsupported_cp "/n"
    end
  else unsupported_cp "/n"
  end.

Definition TeardownMayastor (sched_cp sched : list nat) : M error :=
  c ← Config;
  let cleanup := negb (bool_decide (UninstallCleanup c = 0%Z)) in
  err ← CheckAndSetControlPlane;
  match err with
  | Some e => mret (Some e)
  | None =>
  err ← (if cleanup then (_ ← CleanUp; mret None) else check_unused);
  match err with
  | Some e => mret (Some e)
  | None =>
  poolsDeleted ← DeleteAllPools;
  if negb poolsDeleted then mret (errorf "failed to delete all pools") else
  err ← uninstall_files sched_cp sched;
  match err with
  | Some e => mret (Some e)
  | None =>
  await_pods_gone ;;
  deleteCRD "mayastorpools.openebs.io" ;;
  err ← check_pods_gone cleanup;
  match err with
  | Some e => mret (Some e)
  | None => deleteNamespace
  end end end end.
End K8sInstall.
