(* ===== verification/InstallTheorems.v ===== *)
(** * Theorems about installing and removing Mayastor *)

From stdpp Require Import base gmap strings list sorting.
From Stdlib Require Import Ascii.
From S2P Require Import Prelude GoLib Json Http Shell Kube Total MayastorClient GoTime.
From S2P Require Import K8sPods K8sLib K8sApps Session ControlPlane E2ENodes E2EPods E2EUtil.
From S2P Require Import E2EPvc E2ECleanup K8sInstall ScriptedCluster CpTheorems E2EDemo.
From S2P Require E2ETheorems.

(** ** Triples of threads

    [safe I p Q]: the actions that [p] can take from states in [I] stay in [I], and the
    result satisfies [Q], whatever other threads that keep [I] do between them. *)
Fixpoint safe {S A} (I : S → Prop) (p : prog S A) (Q : A → Prop) : Prop :=
  match p with
  | Done a => Q a
  | Act f k => ∀ s x s', I s → f s = Some (x, s') → I s' ∧ safe I (k x) Q
  | _ => True
  end.

Section Safe.
Context {S : Type} (I : S → Prop).

Lemma safe_bind {A B} (p : prog S A) (k : A → prog S B) Q R :
  safe I p Q → (∀ a, Q a → safe I (k a) R) → safe I (p ≫= k) R.
Proof.
  unfold mbind, prog_mbind. intros Hp Hk. induction p; simpl in *; naive_solver.
Qed.

Lemma pool_safe {A} (Q : A → Prop) (ts ts' : list (prog S A)) s s' :
  rtc pool_step (ts, s) (ts', s') → Forall (λ p, safe I p Q) ts → I s → I s'.
Proof.
  intros Hsteps. remember (ts, s) as c eqn:Ec. remember (ts', s') as c' eqn:Ec'.
  revert ts s Ec. induction Hsteps as [c|c d e Hstep Hsteps IH];
    intros ts s -> Hts Hs; [by simplify_eq|].
  inversion Hstep as [ts1 s1 i X f k x s1' Hi Hf]; simplify_eq.
  assert (Hp : safe I (Act f k) Q) by (eapply (Forall_lookup_1 _ _ _ _ Hts); eauto).
  destruct (Hp _ _ _ Hs Hf) as [Hs1 Hk].
  eapply IH; [done|done|by apply Forall_insert|done].
Qed.
End Safe.

(** ** The order of the files *)

Section Files.
Context {W : Type} `{Directories W} `{Sorts}.

Lemma cp_Less_trans a b c :
  cp_Less b a = false → cp_Less c b = false → cp_Less c a = false.
Proof. unfold cp_Less. rewrite !bool_decide_eq_false. lia. Qed.
Lemma cp_Less_asym a b : cp_Less a b = true → cp_Less b a = false.
Proof. unfold cp_Less. rewrite bool_decide_eq_true, bool_decide_eq_false. lia. Qed.

(** A list in that order begins with the files of weight zero. *)
Lemma sorted_weights l :
  StronglySorted (λ a b, cp_Less b a = false) l →
  ∃ first rest, l = (first ++ rest)%list ∧ Forall (λ f, HasSuffix f "rbac.yaml" = true) first ∧
                Forall (λ f, HasSuffix f "rbac.yaml" = false) rest.
Proof.
  induction 1 as [|x l _ (first & rest & -> & Hf & Hr) Hx]; [by exists [], []|].
  destruct (HasSuffix x "rbac.yaml") eqn:Ex.
  - exists (x :: first), rest. auto.
  - exists [], (x :: first ++ rest)%list. split; [done|]. split; [done|].
    constructor; [done|]. apply Forall_app. split; [|done].
    destruct first as [|y first]; [done|]. exfalso.
    inversion Hf as [|? ? Hy]; subst. inversion Hx as [|? ? Hxy]; subst.
    unfold cp_Less, cp_weight in Hxy. rewrite Hy, Ex in Hxy. done.
Qed.

(** The yaml files of the control plane: from a directory that can be read they are its
    regular files named .yaml, each once, those of the access rights (named rbac.yaml at the
    end) before all the others whatever the sort does with equals; from one that cannot,
    none and the error. *)
Theorem control_plane_files_order (s : Session W) :
  ∃ l err s', run getCPYamlFiles s = (Ret (l, err), s') ∧
    (∀ e, err = Some e → l = []) ∧
    (err = None →
     ∃ files first rest, l = (first ++ rest)%list ∧ l ≡ₚ yaml_names files ∧
       (ioutil_ReadDir (path_Clean (SessionDir (e2eConfig s) +:+ "/install-yamls-control-plane"))
          (world s)).1 = inr files ∧
       Forall (λ f, HasSuffix f "rbac.yaml" = true) first ∧
       Forall (λ f, HasSuffix f "rbac.yaml" = false) rest).
Proof.
  unfold getCPYamlFiles, GetControlPlaneGeneratedYamlsDir, Config.
  rewrite !run_bind, run_reads. cbn [seq_run]. rewrite run_done. cbn [seq_run].
  rewrite run_bind, run_kube_call. cbn [seq_run].
  destruct (ioutil_ReadDir _ _) as [[e|files] w]; cbn [fst snd].
  { eexists _, _, _. split; [done|]. split; [done|discriminate]. }
  eexists _, _, _. split; [done|]. split; [discriminate|]. intros _.
  destruct (sorted_weights _ (sort_Sort_sorted cp_Less (sort_Strings (yaml_names files))
    cp_Less_trans cp_Less_asym)) as (first & rest & E & Hf & Hr).
  exists files, first, rest. repeat split; [done| |done|done].
  rewrite sort_Sort_perm. apply merge_sort_Permutation.
Qed.
End Files.

(** ** The goroutines that delete the files *)

Section Uninstall.
Context {W : Type} `{Shell W} `{Clock W}.

(** Deleting one of the files fails with [e], in some state of the process. *)
Definition deletion_fails (files : list string) (dir : string) (e : goerror) : Prop :=
  ∃ yf s, yf ∈ files ∧ (run (KubeCtlDeleteYaml (W:=W) yf dir) s).1 = Ret (Some e).

(** What is in the shared variable and on the channel comes from such failures. *)
Definition real_errors (files : list string) (dir : string) (g : Gang (Session W)) : Prop :=
  (∀ e, gang_err g = Some e → deletion_fails files dir e) ∧
  (∀ e, Some e ∈ gang_ch g → deletion_fails files dir e).

Lemma run_KubeCtlDeleteYaml yf dir (s : Session W) :
  let r := sh_CombinedOutput dir ["kubectl"; "delete"; "-f"; yf] (world s) in
  run (KubeCtlDeleteYaml yf dir) s =
  (Ret (match r.1.2 with
        | Some e => errorf ("failed to apply yaml file " +:+ yf +:+ " : Output: " +:+ r.1.1 +:+
                            " : Error: " +:+ err_text e)
        | None => None end), set_world r.2 s).
Proof.
  cbv zeta. unfold KubeCtlDeleteYaml, kubectl_yaml, exec_in. rewrite run_bind, run_outside.
  cbn [seq_run]. by destruct (sh_CombinedOutput _ _ _) as [[out [e|]] w].
Qed.

Lemma safe_delete files dir yf :
  yf ∈ files →
  safe (real_errors files dir) (zoom (S:=Session W) (KubeCtlDeleteYaml yf dir))
    (λ err, ∀ e, err = Some e → deletion_fails files dir e).
Proof.
  intros Hyf g x g' Hg Hf. simpl in Hf. simplify_eq.
  split; [exact Hg|]. destruct (sh_CombinedOutput _ _ _) as [[out err] w] eqn:E; simpl.
  intros e He. exists yf, (gang_state g). split; [done|]. rewrite run_KubeCtlDeleteYaml.
  cbn [fst snd world session_world]. rewrite E. cbn [fst snd].
  destruct err as [e0|]; [|done]. by rewrite <- He.
Qed.

Lemma safe_send files dir capacity :
  safe (real_errors files dir) (send_shared (S:=Session W) capacity) (λ _, True).
Proof.
  intros g x g' Hg Hf. simpl in Hf. simplify_eq. split; [done|].
  destruct (gang_err g') as [e|]; [|done].
  intros g1 x g1' [He Hch] Hf. simpl in Hf. simplify_eq. split; [done|].
  intros g2 x g2' [He2 Hch2] Hf. simpl in Hf. case_decide; simplify_eq. split; [|done].
  split; [done|]. cbn [gang_ch]. intros e' [Hin|Hin%list_elem_of_singleton]%elem_of_app.
  - by apply Hch2.
  - symmetry in Hin. by apply He.
Qed.

Lemma safe_delete_thread files dir capacity yf :
  yf ∈ files → safe (real_errors files dir) (delete_thread capacity dir yf) (λ _, True).
Proof.
  intros Hyf. unfold delete_thread. apply (safe_bind _ _ _ (λ _, True)).
  { intros g x g' Hg Hf. simpl in Hf. by simplify_eq. }
  intros _ _. eapply safe_bind; [by apply safe_delete|]. intros err Herr. cbv beta.
  apply (safe_bind _ _ _ (λ _, True)).
  { intros g x g' [_ Hch] Hf. simpl in Hf. by simplify_eq. }
  intros _ _. apply safe_send.
Qed.

(** The errors of the channel, without the nil ones. *)
Lemma accumulated (P : goerror → Prop) (ch : list error) (errs : list goerror) :
  (∀ e, Some e ∈ ch → P e) → Forall P errs →
  Forall P (foldl (λ errs err, Accumulate err errs) errs ch).
Proof.
  revert errs. induction ch as [|[e|] ch IH]; intros errs Hch He; simpl; [done|..].
  - apply IH; [set_solver|]. apply Forall_app. split; [done|].
    constructor; [|done]. apply Hch. set_solver.
  - apply IH; [set_solver|done].
Qed.

Lemma run_gang_real files dir capacity sched (ys : list string) (s : Session W) errs s' :
  (∀ y, y ∈ ys → y ∈ files) →
  run (run_gang sched (map (delete_thread capacity dir) ys)) s = (Ret errs, s') →
  Forall (deletion_fails files dir) errs.
Proof.
  intros Hys. unfold run_gang, guarded. cbn [run].
  destruct (pool_run _ _ _) as [[ts g]|] eqn:E; [|done].
  destruct (forallb has_ended ts); [|done]. intros Hr. simplify_eq.
  apply pool_run_sound in E.
  apply (pool_safe (real_errors files dir) (λ _, True)) in E.
  - apply accumulated; [apply E|done].
  - apply Forall_forall. intros p [y [-> Hy]]%list_elem_of_fmap.
    apply safe_delete_thread. by apply Hys.
  - split; [done|]. cbn [gang_ch]. set_solver.
Qed.
End Uninstall.

Section UninstallControlPlane.
Context {W : Type} `{Shell W} `{Clock W} `{Directories W} `{Sorts}.

Definition cp_yaml_dir (s : Session W) : string :=
  path_Clean (SessionDir (e2eConfig s) +:+ "/install-yamls-control-plane").

Lemma run_getCPYamlFiles (s : Session W) :
  let r := ioutil_ReadDir (cp_yaml_dir s) (world s) in
  run getCPYamlFiles s =
  (Ret (match r.1 with
        | inl e => ([], Some e)
        | inr files => (sort_Sort cp_Less (sort_Strings (yaml_names files)), None) end),
   set_world r.2 s).
Proof.
  cbv zeta. unfold getCPYamlFiles, GetControlPlaneGeneratedYamlsDir, Config.
  rewrite !run_bind, run_reads. cbn [seq_run]. rewrite run_done. cbn [seq_run].
  rewrite run_bind, run_kube_call. cbn [seq_run]. fold (cp_yaml_dir s).
  by destruct (ioutil_ReadDir _ _) as [[e|files] w].
Qed.

(** What happens after the files were listed. *)
Lemma run_uninstallControlPlane sched (s : Session W) files w :
  ioutil_ReadDir (cp_yaml_dir s) (world s) = (inr files, w) →
  let l := sort_Sort cp_Less (sort_Strings (yaml_names files)) in
  run (uninstallControlPlane sched) s =
  seq_run (run (run_gang sched (map (delete_thread (length l) (cp_yaml_dir s)) (reverse l)))
             (set_world w s)) (λ errs, mret (GetError errs)).
Proof.
  intros E. cbv zeta. unfold uninstallControlPlane.
  rewrite run_bind, run_getCPYamlFiles, E. cbn [fst snd seq_run].
  unfold GetControlPlaneGeneratedYamlsDir, Config.
  rewrite !run_bind, run_reads. cbn [seq_run]. rewrite run_done. cbn [seq_run].
  rewrite run_bind. done.
Qed.

Lemma listed_files files yf :
  yf ∈ reverse (sort_Sort cp_Less (sort_Strings (yaml_names files))) → yf ∈ yaml_names files.
Proof.
  rewrite elem_of_reverse. rewrite sort_Sort_perm. unfold sort_Strings.
  by rewrite merge_sort_Permutation.
Qed.

(** Removing the control plane reports no false errors: however the goroutines that
    delete its files interleave on the error variable they share, an error that comes out
    is that of listing the files, or is put together of failures to delete them. *)
Theorem uninstall_errors_real sched (s s' : Session W) e :
  run (uninstallControlPlane sched) s = (Ret (Some e), s') →
  (ioutil_ReadDir (cp_yaml_dir s) (world s)).1 = inl e ∨
  ∃ files errs, (ioutil_ReadDir (cp_yaml_dir s) (world s)).1 = inr files ∧
    errs ≠ [] ∧ GetError errs = Some e ∧
    Forall (deletion_fails (W:=W) (yaml_names files) (cp_yaml_dir s)) errs.
Proof.
  destruct (ioutil_ReadDir (cp_yaml_dir s) (world s)) as [[e0|files] w] eqn:E; cbn [fst].
  { unfold uninstallControlPlane. rewrite run_bind, run_getCPYamlFiles, E.
    cbn [fst snd seq_run]. rewrite run_done. intros [= ->]. by left. }
  rewrite (run_uninstallControlPlane sched s files w E). intros Hr. right.
  destruct (run (run_gang _ _) _) as [[errs| | |] s1] eqn:Eg; [|done..].
  apply (run_gang_real (yaml_names files)) in Eg; [|apply listed_files].
  cbn [seq_run] in Hr. rewrite run_done in Hr. injection Hr as He <-.
  exists files, errs. repeat split; [by intros -> | done | done].
Qed.

(** The next command of a run is answered as [Hc] says. *)
Ltac answered Hc :=
  match goal with
  | |- context [sh_CombinedOutput _ ?cmd ?w] =>
      let E := fresh in
      first [ destruct (Hc w) as (? & ? & ? & E) | destruct (Hc w) as (? & ? & E) ];
      rewrite E; clear E; cbn
  end.

(** Removing the control plane can lose an error: of two files, one of which can never be
    deleted, the one schedule of the two goroutines reports the failure and another one
    reports success, the result of the second deletion replacing that of the first in the
    variable they share before it is looked at. *)
Theorem lost_uninstall_error (s : Session W) files a b w :
  ioutil_ReadDir (cp_yaml_dir s) (world s) = (inr files, w) →
  sort_Sort cp_Less (sort_Strings (yaml_names files)) = [a; b] →
  (∀ w, ∃ out e w', sh_CombinedOutput (cp_yaml_dir s) ["kubectl"; "delete"; "-f"; a] w =
                    ((out, Some e), w')) →
  (∀ w, ∃ out w', sh_CombinedOutput (cp_yaml_dir s) ["kubectl"; "delete"; "-f"; b] w =
                  ((out, None), w')) →
  (∃ sched s', run (uninstallControlPlane sched) s = (Ret None, s')) ∧
  (∃ sched e s', run (uninstallControlPlane sched) s = (Ret (Some e), s')).
Proof.
  intros E El Ha Hb. set (d := cp_yaml_dir s) in *.
  split; [exists [0; 1; 1; 0; 1; 0; 1; 0]%nat | exists [1; 1; 1; 1; 1; 1; 0; 0; 0; 0]%nat];
    rewrite (run_uninstallControlPlane _ s files w E), El; fold d;
    change (reverse [a; b]) with [b; a]; cbn.
  - answered Ha. answered Hb. by eexists.
  - answered Ha. rewrite decide_True by (cbn; lia). cbn. answered Hb. by eexists _, _.
Qed.
End UninstallControlPlane.

(** ** What a run that succeeded did *)

Lemma bind_ran {S A B} (p : prog S A) (k : A → prog S B) b s s' :
  run (p ≫= k) s = (Ret b, s') →
  ∃ a s1, run p s = (Ret a, s1) ∧ run (k a) s1 = (Ret b, s').
Proof.
  rewrite run_bind. destruct (run p s) as [[a| | |] s1]; cbn [seq_run]; try discriminate. eauto.
Qed.

(** The next step of a run that returned nil, with what it must have answered. *)
Ltac next_step E name s1 :=
  let x := fresh "x" in
  apply bind_ran in E as (x & s1 & name & E);
  repeat match type of x with (_ * _)%type => destruct x as [? x] end;
  cbv beta iota in E;
  repeat match type of E with
  | run (match ?e with Some _ => _ | None => _ end) _ = _ => destruct e; [discriminate E|]
  | run (if negb ?b then _ else _) _ = _ => destruct b; [cbn [negb] in E|discriminate E]
  | run (if decide ?P then mret (errorf _) else _) _ = _ => destruct (decide P); [discriminate E|]
  end.

Section Install.
Context {W : Type} `{Kube W} `{KubeApps W} `{Shell W} `{Http W} `{MapRange W} `{Clock W}
  `{Grpc W} `{Files W} `{System W} `{ConfigFiles W} `{Directories W} `{Sorts}.
Notation M := (prog (Session W)).

(** A round of the wait that sees the pools online leaves the loop in that state. *)
Definition pools_round (_ : Z) (_ : error) : M (ctl error Empty_set) :=
  time_Sleep (10 * Second) ;;
  err ← CheckAllMsPoolsAreOnline;
  match err with None => mret (Break None) | Some e => mret (Next (Some e)) end.
Lemma pools_round_ran i err (s s' : Session W) c :
  run (pools_round i err) s = (Ret c, s') →
  (c = Break None ∧ ∃ s1, run CheckAllMsPoolsAreOnline s1 = (Ret None, s')) ∨
  ∃ e, c = Next (Some e).
Proof.
  unfold pools_round. intros E. apply bind_ran in E as (? & s1 & _ & E).
  apply bind_ran in E as ([e|] & s2 & Ec & E); injection E as <- <-; [right|left]; eauto.
Qed.
Lemma pools_loop_ran l err (s s' : Session W) :
  l ≠ [] ∨ err ≠ None →
  run (for_range l err pools_round) s = (Ret (inl None), s') →
  ∃ s1, run CheckAllMsPoolsAreOnline s1 = (Ret None, s').
Proof.
  revert err s. induction l as [|x l IH]; intros err s Hor E.
  - injection E as -> _. naive_solver.
  - cbn [for_range] in E. apply bind_ran in E as (c & s1 & Eb & E).
    apply pools_round_ran in Eb as [[-> Hs]|[e ->]].
    + by injection E as <-.
    + apply (IH (Some e) s1); [by right|done].
Qed.
Lemma await_pools_seen (s s' : Session W) :
  run await_pools_online s = (Ret None, s') →
  ∃ s1, run CheckAllMsPoolsAreOnline s1 = (Ret None, s').
Proof.
  unfold await_pools_online. intros E. apply bind_ran in E as ([err|[]] & s1 & El & E).
  apply bind_ran in E as (? & ? & Er & E). injection Er as -> ->.
  injection E as E ->. destruct x; [discriminate|].
  eapply (pools_loop_ran _ _ _ _ _ El). Unshelve. by left.
Qed.

(** The files of a directory have been applied one after the other, each without an error. *)
Fixpoint applied (dir : string) (files : list string) (s s' : Session W) : Prop :=
  match files with
  | [] => s' = s
  | f :: l => ∃ s1, run (KubeCtlApplyYaml f dir) s = (Ret None, s1) ∧ applied dir l s1 s'
  end.
(** The same, of the files that are there. *)
Fixpoint applied_there (dir : string) (files : list string) (s s' : Session W) : Prop :=
  match files with
  | [] => s' = s
  | f :: l => ∃ info err s1, run (Stat (filepath_Join dir f)) s = (Ret (info, err), s1) ∧
      if IsNotExist err then applied_there dir l s1 s'
      else ∃ s2, run (KubeCtlApplyYaml f dir) s1 = (Ret None, s2) ∧ applied_there dir l s2 s'
  end.

Lemma apply_files_ran dir (s s' : Session W) :
  run (apply_files dir) s = (Ret None, s') →
  ∃ files s1, run mayastorYamlFiles s = (Ret files, s1) ∧ applied_there dir files s1 s'.
Proof.
  unfold apply_files. intros E. apply bind_ran in E as (files & s1 & Ef & E).
  exists files, s1. split; [done|]. clear Ef. apply bind_ran in E as ([errs|[]] & s2 & El & E).
  cbn [no_return] in E. apply bind_ran in E as (? & ? & Er & E). injection Er as <- <-.
  injection E as E <-. apply E2ETheorems.GetError_none in E as ->.
  enough (∀ l errs0 s, run (for_range l errs0 (λ yaml errs,
      '(_, err) ← Stat (filepath_Join dir yaml);
      if IsNotExist err then mret (Next errs)
      else err ← KubeCtlApplyYaml yaml dir; mret (Next (Accumulate err errs)))) s =
      (Ret (@inl (list goerror) Empty_set []), s2) → errs0 = [] ∧ applied_there dir l s s2) as Hl
    by by eapply Hl.
  clear. intros l. induction l as [|f l IH]; intros errs s E.
  { injection E as -> ->. done. }
  cbn [for_range] in E. apply bind_ran in E as (c & s3 & Eb & E).
  apply bind_ran in Eb as ([info err] & s4 & Es & Eb). cbn [applied_there].
  destruct (IsNotExist err) eqn:Ex.
  - injection Eb as <- <-. apply IH in E as [-> E]. split; [done|].
    exists info, err, s4. rewrite Ex. done.
  - apply bind_ran in Eb as (e & s5 & Ea & Eb). injection Eb as <- <-.
    apply IH in E as [[-> ->]%E2ETheorems.Accumulate_nil E]. split; [done|].
    exists info, err, s4. rewrite Ex. split; [done|]. by exists s5.
Qed.
Lemma installControlPlane_ran (s s' : Session W) :
  run installControlPlane s = (Ret None, s') →
  ∃ files dir s1 s2, run getCPYamlFiles s = (Ret (files, None), s1) ∧
    run GetControlPlaneGeneratedYamlsDir s1 = (Ret dir, s2) ∧ applied dir files s2 s'.
Proof.
  unfold installControlPlane. intros E. next_step E Ef s1. next_step E Ed s2.
  exists l, x, s1, s2. split; [done|]. split; [done|]. clear Ef Ed.
  apply bind_ran in E as ([errs|[]] & s3 & El & E).
  cbn [no_return] in E. apply bind_ran in E as (? & ? & Er & E). injection Er as <- <-.
  injection E as E <-. apply E2ETheorems.GetError_none in E as ->.
  enough (∀ l errs0 s, run (for_range l errs0 (λ yf errs,
      err ← KubeCtlApplyYaml yf x;
      mret (Next (match err with
        | Some e => Accumulate (errorf ("failed to apply yaml file " +:+ yf +:+
            " , yaml path: " +:+ x +:+ ", error: " +:+ err_text e)) errs
        | None => errs end)))) s =
      (Ret (@inl (list goerror) Empty_set []), s3) → errs0 = [] ∧ applied x l s s3) as Hl
    by by eapply Hl.
  clear. intros l. induction l as [|f l IH]; intros errs s E.
  { injection E as -> ->. done. }
  cbn [for_range] in E. apply bind_ran in E as (c & s4 & Eb & E).
  apply bind_ran in Eb as (e & s5 & Ea & Eb). injection Eb as <- <-.
  apply IH in E as [He E]. destruct e as [e|].
  { by apply app_nil in He as [_ He]. }
  split; [done|]. by exists s5.
Qed.

(** (C17) An installation that reports success was configured and is complete: an image tag and
    a pool device were given, and, each step in the state that the one before it left, from
    the first to the last: the nodes of the cluster were listed and there were some; the files
    of the product and of the control plane were generated; the files of the product
    that are in their directory were applied in their order, each without an error; then, with
    version 1 of the control plane, all the files of its directory, in their order, each
    without an error; then the daemons, the control plane, the nodes and the pool resource
    were seen ready, the pools were created, and the last thing the installation did was to
    see every pool online. *)
Theorem install_success (s s' : Session W) :
  run InstallMayastor s = (Ret None, s') →
  ImageTag (e2eConfig s) ≠ "" ∧ PoolDevice (e2eConfig s) ≠ "" ∧
  ∃ s1 s2 version nodes, run (via_get (cpi_Version _)) s = (Ret version, s1) ∧
    run e2e_GetMayastorNodeNames s1 = (Ret (nodes, None), s2) ∧ nodes ≠ [] ∧
  ∃ s3 s4 s5 s6 s7 s8 s9 s10 dir ns ok files,
    run GenerateControlPlaneYamlFiles s2 = (Ret None, s3) ∧
    run GenerateMayastorYamlFiles s3 = (Ret None, s4) ∧
    run GetGeneratedYamlsDir s4 = (Ret dir, s5) ∧
    run EnsureE2EAgent s5 = (Ret (ok, None), s6) ∧
    run e2e_NSMayastor s6 = (Ret ns, s7) ∧ run (MkNamespace ns) s7 = (Ret None, s8) ∧
    run mayastorYamlFiles s8 = (Ret files, s9) ∧ applied_there dir files s9 s10 ∧
  ∃ s11 s12 s13 s14 cp_dir cp_files,
    run cp_MajorVersion s10 = (Ret 1%Z, s11) ∧
    run getCPYamlFiles s11 = (Ret (cp_files, None), s12) ∧
    run GetControlPlaneGeneratedYamlsDir s12 = (Ret cp_dir, s13) ∧
    applied cp_dir cp_files s13 s14 ∧
  ∃ s15 s16 s17 s18 s19,
    run (MayastorReady 2 540) s14 = (Ret (true, None), s15) ∧
    run (ControlPlaneReady 10 180) s15 = (Ret true, s16) ∧
    run (MayastorNodeReady 5 180) s16 = (Ret (true, None), s17) ∧
    run e2e_WaitForPoolCrd s17 = (Ret true, s18) ∧
    run CreateConfiguredPools s18 = (Ret None, s19) ∧
    run await_pools_online s19 = (Ret None, s') ∧
    ∃ a, run CheckAllMsPoolsAreOnline a = (Ret None, s').
Proof.
  unfold InstallMayastor, Config. intros E. apply bind_ran in E as (c & s0 & Ec & E).
  rewrite run_reads in Ec. simplify_eq. cbv beta in E.
  destruct (decide (ImageTag _ = "")); [discriminate|].
  destruct (decide (PoolDevice _ = "")); [discriminate|].
  split; [done|]. split; [done|].
  next_step E Ev s1. next_step E En s2. next_step E Ef s3.
  unfold install_files in Ef.
  next_step Ef Eg s4. next_step Ef Em s5. next_step Ef Ed s6. next_step Ef Ea s7.
  next_step Ef Ens s8. next_step Ef Emk s9.
  apply apply_files_ran in Ef as (files & s9' & Efs & Ef).
  next_step E Ev2 s10. destruct (decide _) as [->|]; [|next_step E Eu su; discriminate].
  next_step E Ei s11. apply installControlPlane_ran in Ei as (? & ? & ? & ? & ? & ? & ?).
  unfold await_installed in E.
  next_step E Er s12. next_step E Ecp s13. next_step E Enr s14. next_step E Ecrd s15.
  next_step E Ecr s16. pose proof (await_pools_seen _ _ E).
  do 4 eexists. do 3 (split; [eassumption|]).
  do 12 eexists. do 7 (split; [eassumption|]). split; [eassumption|].
  do 6 eexists. do 4 (split; [eassumption|]). do 5 eexists. by repeat (split; [eassumption|]).
Qed.

(** The count of the pods is zero only for a namespace that is there and empty. *)
Lemma count_zero (s s' : Session W) :
  run (check_pods_gone false) s = (Ret None, s') →
  let ns := ProductNamespace (cfg_Product (e2eConfig s)) in
  (ns_Get ns (world s)).1 = inr tt ∧ (pods_List ns (ns_Get ns (world s)).2).1 = inr [].
Proof.
  unfold check_pods_gone, MayastorUndeletedPodCount, e2e_NSMayastor.
  rewrite !run_bind, run_reads. cbn [seq_run compose]. rewrite run_bind, run_kube_do.
  cbn [seq_run]. set (ns := ProductNamespace _).
  destruct (ns_Get ns (world s)) as [[e|[]] w] eqn:E; cbn [fst snd]; [discriminate|].
  rewrite run_bind, run_kube_call. cbn [seq_run]. rewrite world_set.
  destruct (pods_List ns w) as [[e|l] w2] eqn:El; cbn [fst snd]; [discriminate|].
  rewrite run_done. cbn [seq_run]. rewrite run_done. case_decide as Hl; [|discriminate].
  destruct l; [|discriminate]. done.
Qed.

(** Removing Mayastor without cleaning up succeeds only where it is still there: success
    means that nothing of the tests was found, that no pool was left, that the files were
    deleted without an error, that the namespace of the product was found with no pod in it
    (so that it cannot succeed where the namespace has gone), and that it was then
    deleted. *)
Theorem teardown_success sched_cp sched (s s' : Session W) :
  run (TeardownMayastor sched_cp sched) s = (Ret None, s') →
  UninstallCleanup (e2eConfig s) = 0%Z →
  ∃ a1 a2 a3 a4 a5 ns,
    run check_unused a1 = (Ret None, a2) ∧
    run DeleteAllPools a2 = (Ret true, a3) ∧
    run (uninstall_files sched_cp sched) a3 = (Ret None, a4) ∧
    ns = ProductNamespace (cfg_Product (e2eConfig a5)) ∧
    (ns_Get ns (world a5)).1 = inr tt ∧
    (pods_List ns (ns_Get ns (world a5)).2).1 = inr [] ∧
    ∃ a6, run deleteNamespace a6 = (Ret None, s').
Proof.
  unfold TeardownMayastor, Config. intros E Hc. apply bind_ran in E as (c & s0 & Ec & E).
  rewrite run_reads in Ec. injection Ec as <- <-. cbv beta in E. rewrite Hc in E.
  rewrite bool_decide_true in E by done. cbn [negb] in E.
  next_step E Eset s1. next_step E Eun s2. next_step E Ep s3. next_step E Ef s4.
  next_step E Eg s5. next_step E Ecrd s6. next_step E Ecp s7.
  apply count_zero in Ecp as [Hn Hp]. exists s1, s2, s3, s4, s6. by eauto 10.
Qed.
End Install.

(** ** Waiting for the pool resource *)

Section PoolCrd.
Context {W : Type} `{Kube W} `{KubeApps W} `{Shell W} `{Http W} `{MapRange W} `{Clock W}.
Notation M := (prog (Session W)).

(** What [os/exec] answers is not an error of the Kubernetes API. *)
Context (Hsh : ∀ dir cmd w e, (sh_CombinedOutput dir cmd w).1.2 = Some e → err_is e = Plain).

Lemma pool_list_errors (s s' : Session W) l e :
  run e2e_ListMsPools s = (Ret (l, Some e), s') → err_is e = Plain.
Proof.
  unfold e2e_ListMsPools. intros E. apply bind_ran in E as (? & s1 & _ & E).
  unfold cp_ListMsPools, via in E. apply bind_ran in E as (c & s2 & Ec & E).
  unfold getControlPlane in Ec. apply bind_ran in Ec as (? & ? & _ & Ec).
  apply bind_ran in Ec as (? & ? & _ & Ec). apply bind_ran in Ec as ([] & ? & _ & Ec).
  injection Ec as <- ->.
  change (run v1_ListMsPools s2 = (Ret (l, Some e), s')) in E.
  unfold v1_ListMsPools, ListMayastorCpPools in E.
  apply bind_ran in E as ([items err] & s3 & E1 & E).
  apply bind_ran in E1 as ([out err1] & s4 & E0 & E1).
  unfold run_plugin in E0. apply bind_ran in E0 as (? & s5 & _ & E0).
  unfold exec_cmd, exec_in in E0. rewrite run_outside in E0. injection E0 as Eout _.
  injection E1 as E1 _. unfold list_objects, errorf in E1.
  destruct err as [e0|]; injection E as E; simplify_eq.
  destruct err1 as [e1|]; [|destruct (json_parse out ≫= _)]; simplify_eq; [|done].
  eapply Hsh. by rewrite Eout.
Qed.

(** Waiting for the resource of the pools is a single look: after five seconds the pools are
    listed, and the wait ends there, with success exactly when they could be listed, since
    no error of the command that lists them says that a resource is not found. *)
Theorem pool_crd_single_look (s s' : Session W) l err :
  run (time_Sleep (5 * Second) ;; e2e_ListMsPools) s = (Ret (l, err), s') →
  run e2e_WaitForPoolCrd s = (Ret (bool_decide (err = None)), s').
Proof.
  intros E. apply bind_ran in E as ([] & s1 & Es & El).
  unfold e2e_WaitForPoolCrd, for_upto. change (seqZ 0 (rounds 0 60 5 - 0)) with (0 :: seqZ 1 11)%Z.
  rewrite run_bind, run_for_range_cons, !run_bind, Es. cbn [seq_run].
  rewrite run_bind, El. cbn [seq_run]. destruct err as [e|]; [|done].
  apply pool_list_errors in El. cbn [is_not_found]. rewrite El. done.
Qed.
End PoolCrd.

(** ** A scripted installation *)

#[export] Program Instance demo_sorts : Sorts := {
  sort_Sort less l :=
    merge_sort (H:=λ a b, bool_eq_dec (less b a) false) (λ a b, less b a = false) l;
}.
Next Obligation. intros. apply merge_sort_Permutation. Qed.
Next Obligation.
  intros less l Htrans Hasym. apply StronglySorted_merge_sort.
  - intros a b c. apply Htrans.
  - intros a b. destruct (less b a) eqn:E; [right; by apply Hasym|by left].
Qed.

Definition directory_of (names : list string) : Directories Cluster :=
  {| ioutil_ReadDir _ := ok (map (λ n, (n, false)) names) |}.
(** Every command succeeds but those about one file; the plugin lists one node. *)
Definition nodes_text : string := json_text
  "[{'spec':{'id':'n1','grpcEndpoint':'10.0.0.1:10124'},'state':{'id':'n1','status':'Online'}}]".
Definition shell_denies (file : string) : Shell Cluster :=
  {| sh_CombinedOutput _ cmd c :=
       (if bool_decide (last cmd = Some file) then ("denied", Some refusal)
        else if bool_decide (last cmd = Some "nodes") then (nodes_text, None)
        else ("[]", None), c) |}.
Definition demo_daemons : KubeApps Cluster :=
  apps_with (ok (mkDaemonSet zero_meta 1 1 1 1)) (ok tt).

Definition two_files : Directories Cluster := directory_of ["b.yaml"; "operator-rbac.yaml"; "a.txt"].

Lemma lost_uninstall_error_witness :
  let Hs := shell_denies "operator-rbac.yaml" in let Hd := two_files in
  let s := demo_session [] empty_cluster in
  run getCPYamlFiles s = (Ret (["operator-rbac.yaml"; "b.yaml"], None), s) ∧
  (∃ sched s', run (uninstallControlPlane sched) s = (Ret None, s')) ∧
  (∃ sched e s', run (uninstallControlPlane sched) s = (Ret (Some e), s')).
Proof.
  intros Hs Hd s. split; [vm_compute; reflexivity|]. subst Hs Hd.
  apply (lost_uninstall_error (H:=shell_denies "operator-rbac.yaml") (H1:=two_files) s
    [("b.yaml", false); ("operator-rbac.yaml", false); ("a.txt", false)]
    "operator-rbac.yaml" "b.yaml" empty_cluster).
  - reflexivity.
  - vm_compute. reflexivity.
  - intros w. eexists _, _, _. reflexivity.
  - intros w. eexists _, _. reflexivity.
Defined.

Lemma uninstall_errors_real_witness :
  let Hs := shell_denies "operator-rbac.yaml" in let Hd := two_files in
  let s := demo_session [] empty_cluster in
  let r := run (uninstallControlPlane [1; 1; 1; 1; 1; 1; 0; 0; 0; 0]%nat) s in
  ∃ e, r = (Ret (Some e), r.2) ∧
    ∃ errs, errs ≠ [] ∧ GetError errs = Some e ∧
      Forall (deletion_fails ["b.yaml"; "operator-rbac.yaml"] (cp_yaml_dir s)) errs.
Proof.
  intros Hs Hd s r.
  assert (E : ∃ e, r = (Ret (Some e), r.2)) by (eexists; vm_compute; reflexivity).
  destruct E as [e E]. exists e. split; [exact E|].
  destruct (uninstall_errors_real (H:=shell_denies "operator-rbac.yaml") (H1:=two_files)
    [1; 1; 1; 1; 1; 1; 0; 0; 0; 0]%nat s r.2 e E) as [Hl|(files & errs & Hf & ? & ? & ?)].
  - discriminate Hl.
  - exists errs. injection Hf as <-. auto.
Defined.

Lemma pool_crd_single_look_witness :
  let Hk := calm_kube in let Hs := shell_denies "pools" in
  let s := demo_session [] empty_cluster in
  ∃ s', run e2e_WaitForPoolCrd s = (Ret false, s') ∧ cl_clock (se_world s') = (5 * Second)%Z.
Proof.
  intros Hk Hs s. exists (demo_session [] (at_clock (5 * Second) empty_cluster)).
  split; [|reflexivity].
  apply (pool_crd_single_look (H:=calm_kube) (H1:=shell_denies "pools")) with
    (l := []) (err := Some refusal).
  - intros dir cmd w e. change (sh_CombinedOutput (Shell:=shell_denies "pools") dir cmd w) with
      (if bool_decide (last cmd = Some "pools") then ("denied", Some refusal)
       else if bool_decide (last cmd = Some "nodes") then (nodes_text, None)
       else ("[]", None), w). cbn [fst snd]. case_bool_decide; [by intros [= <-]|].
    case_bool_decide; discriminate.
  - vm_compute. reflexivity.
Defined.

Definition online_pool : MayastorPool :=
  mkMsp zero_meta (mkMspSpec [] "") (mkMspStatus 0 0 [] "" (mkMspSpec [] "") "Online" 0).
Definition installed_kube : Kube Cluster :=
  kube_with [] (ok [demo_node "n1" "10.0.0.1"]) (ok [online_pool]).
Definition ready_system : System Cluster :=
  {| os_LookupEnv _ := None; os_Getwd := ok "/tmp"; os_Stat _ := ok false;
     os_MkdirAll _ := ok tt |}.
Definition tagged_config (tag : string) : E2EConfig :=
  mkConfig "default" "" "" (mkPlatform "default" false "mayastor" 0) demo_product false "/root"
    "/root/mayastor-e2e" "/tmp/s" "1.0.0" "/bin" "registry" tag "/dev/sdb" "mayadata/e2e-fio"
    "mayadata/e2e-fsx" false 2 false false "" false default_duty 0 0.
Definition install_session : Session Cluster :=
  set_config (tagged_config "v1") (demo_session ["10.0.0.1"] empty_cluster).

Lemma install_success_witness :
  let Hk := installed_kube in let Ha := demo_daemons in let Hs := shell_denies "" in
  let Hy := ready_system in let Hd := two_files in
  let s := install_session in
  let s' := (run InstallMayastor s).2 in
  run InstallMayastor s = (Ret None, s') ∧
  ∃ a, run CheckAllMsPoolsAreOnline a = (Ret None, s').
Proof.
  intros Hk Ha Hs Hy Hd s s'.
  assert (E : run InstallMayastor s = (Ret None, s')) by (vm_compute; reflexivity).
  split; [exact E|].
  apply (install_success (H:=installed_kube) (H0:=demo_daemons) (H1:=shell_denies "")
    (H7:=ready_system) (H9:=two_files)) in E.
  do 80 (try (exact E || destruct E as [? E])).
Defined.

(** Each goroutine runs to its end before the next begins. *)
Definition in_turn (threads steps : nat) : list nat :=
  concat (map (replicate steps) (seq 0 threads)).
Definition swept_kube : Kube Cluster := kube_with [] (ok [demo_node "n1" "10.0.0.1"]) (ok []).

Lemma teardown_success_witness :
  let Hk := swept_kube in let Ha := demo_daemons in let Hs := shell_denies "" in
  let Hf := quiet_files in let Hy := ready_system in let Hc := plain_config in
  let Hd := two_files in
  let s := install_session in
  let s' := (run (TeardownMayastor (in_turn 2 4) (in_turn 4 7)) s).2 in
  run (TeardownMayastor (in_turn 2 4) (in_turn 4 7)) s = (Ret None, s') ∧
  UninstallCleanup (e2eConfig s) = 0%Z ∧
  ∃ a, run deleteNamespace a = (Ret None, s').
Proof.
  intros Hk Ha Hs Hf Hy Hc Hd s s'.
  assert (E : run (TeardownMayastor (in_turn 2 4) (in_turn 4 7)) s = (Ret None, s'))
    by (vm_compute; reflexivity).
  split; [exact E|]. split; [reflexivity|].
  destruct (teardown_success (H:=swept_kube) (H0:=demo_daemons) (H1:=shell_denies "")
    (H6:=quiet_files) (H7:=ready_system) (H8:=plain_config) (H9:=two_files)
    (in_turn 2 4) (in_turn 4 7) s s' E eq_refl)
    as (_ & _ & _ & _ & _ & _ & _ & _ & _ & _ & _ & _ & Hn).
  exact Hn.
Defined.
