(* ===== verification/Suites.v ===== *)
(** * What the suites under src/src/tests are made of

    The process of a suite: the test process of Session.v, the maps of the builders, the
    machines the cluster runs on, and the variables of the suite's package.  Assertions end a
    test by a panic, as Gomega's do.  With it common/platform, and the API calls on the
    deployments that the builders make. *)

From stdpp Require Import base gmap strings list.
From S2P Require Import Prelude GoLib Json Http Shell Kube MayastorClient GoTime.
From S2P Require Import K8sPods K8sLib K8sApps Session ControlPlane E2ENodes E2EPods E2EUtil.
From S2P Require Import E2EPvc E2ECleanup E2ETest E2EBuilders.

Definition FioFsFilename : string := FioFsMountPoint +:+ "/fiotestfile".

(** ** The state *)

Record Suite (W C V : Type) := mkSuite {
  su_session : Session W;
  su_maps : Maps;
  su_cloud : C;             (* the machines *)
  su_vars : V;              (* the variables of the package *)
}.
Arguments mkSuite {W C V}.
Arguments su_session {W C V}.
Arguments su_maps {W C V}.
Arguments su_cloud {W C V}.
Arguments su_vars {W C V}.

#[export] Program Instance suite_session {W C V} : HasWorld (Suite W C V) (Session W) := {
  world := su_session;
  set_world x s := mkSuite x (su_maps s) (su_cloud s) (su_vars s);
}.
Solve All Obligations with by intros; repeat match goal with s : Suite _ _ _ |- _ => destruct s end.
#[export] Program Instance suite_maps {W C V} : HasWorld (Suite W C V) Maps := {
  world := su_maps;
  set_world x s := mkSuite (su_session s) x (su_cloud s) (su_vars s);
}.
Solve All Obligations with by intros; repeat match goal with s : Suite _ _ _ |- _ => destruct s end.

(** ** Machines (common/platform)

    [types.Platform]: the machines answer every request, with an error or not. *)
Class Cloud (C : Type) := {
  cloud_PowerOn : string → C → error * C;
  cloud_PowerOff : string → C → error * C;
  cloud_Reboot : string → C → error * C;
  cloud_Status : string → C → (string * error) * C;
  cloud_Detach : string → C → error * C;
  cloud_Attach : string → string → C → error * C;
}.

(** The machines at Hetzner, through the command hcloud (hcloud/client.go). *)
Section Hcloud.
Context {C : Type} `{Shell C}.

Definition hcloud (command : string) (c : C) : error * C :=
  let '((_, err), c) := sh_CombinedOutput "" ["sh"; "-c"; "hcloud " +:+ command] c in (err, c).
Definition hcloud_PowerOffNode (node : string) := hcloud ("server poweroff " +:+ node).
Definition hcloud_PowerOnNode (node : string) := hcloud ("server poweron " +:+ node).
Definition hcloud_RebootNode (node : string) := hcloud ("server reboot " +:+ node).
Definition hcloud_DetachVolume (volName : string) := hcloud ("volume detach " +:+ volName).
Definition hcloud_AttachVolume (volName node : string) :=
  hcloud ("volume attach " +:+ volName +:+ " --server " +:+ node).
(** Any machine whose line in the list contains the name counts; the two outputs of the command
    are not told apart. *)
Definition hcloud_GetNodeStatus (node : string) (c : C) : (string * error) * C :=
  let '((stdout, err), c) :=
    sh_CombinedOutput "" ["bash"; "-c"; "hcloud  server list | grep " +:+ node] c in
  (match err with
   | Some e => ("", Some e)
   | None => (if Contains stdout "running" then "running" else "off", None)
   end, c).

Definition hcloud_New : Cloud C := {|
  cloud_PowerOn := hcloud_PowerOnNode;
  cloud_PowerOff := hcloud_PowerOffNode;
  cloud_Reboot := hcloud_RebootNode;
  cloud_Status := hcloud_GetNodeStatus;
  cloud_Detach := hcloud_DetachVolume;
  cloud_Attach := hcloud_AttachVolume;
|}.
End Hcloud.

(** ** Assertions

    [Eventually] calls its function until the result is as wanted, at the given interval, and
    gives that result; how
    often it can before the time is up depends on the clock. *)
Class Gomega (W : Type) := {
  eventually_retries : Z → Z → W → nat * W;
}.

(** Creating a deployment, with the maps it refers to. *)
Class Deployments (K : Corev1) (W : Type) := {
  dep_CreateObj : string → deployment → Maps → answer W unit;
}.

Section Suites.
Context {W C V : Type}.
Notation M := (prog (Suite W C V)).

Definition on_session {A} (p : prog (Session W) A) : M A := lift p.
Definition on_maps {A} (p : prog Maps A) : M A := lift p.
Definition on_cloud {A} (f : C → A * C) : M A :=
  action (λ s, ((f (su_cloud s)).1,
                mkSuite (su_session s) (su_maps s) (f (su_cloud s)).2 (su_vars s))).
Definition set_vars (f : V → V) : M unit :=
  updates (λ s, mkSuite (su_session s) (su_maps s) (su_cloud s) (f (su_vars s))).
Definition vars : M V := reads su_vars.

Definition Expect (b : bool) (what : string) : M unit :=
  if b then mret tt else Panic ("assertion failed: " +:+ what).
Definition Expect_success (err : error) (what : string) : M unit :=
  match err with None => mret tt | Some _ => Panic ("assertion failed: " +:+ what) end.
(** The call of a function that answers with an error, which must be nil. *)
Definition must (what : string) (p : prog (Session W) error) : M unit :=
  err ← on_session p; Expect_success err what.

Definition Eventually `{Gomega W} `{Clock W} {A} (timeout interval : Z) (look : M A)
    (wanted : A → bool) (what : string) : M A :=
  retries ← on_session (outside (eventually_retries timeout interval));
  r ← for_upto 0 (Z.of_nat retries + 1) tt (λ i _,
        a ← look;
        if wanted a then mret (Return a)
        else on_session (time_Sleep (interval * Second)) ;; mret (Next tt));
  match r with inr a => mret a | inl _ => Panic ("assertion failed: " +:+ what) end.

(** ** Platforms *)

(** [platform.Create]: nil for any other platform. *)
Definition platform_Create : M bool :=
  c ← on_session Config; mret (bool_decide (Platform_Name (cfg_Platform c) = "Hetzner")).

Context `{Cloud C}.
Definition PowerOnNode (node : string) : M error := on_cloud (cloud_PowerOn node).
Definition PowerOffNode (node : string) : M error := on_cloud (cloud_PowerOff node).

(** ** Deployments *)

Context {K : Corev1} `{!Deployments K W} `{KubeApps W}.
(** The namespace is read first: a nil object has none. *)
Definition CreateDeployment (obj : option deployment) : M error :=
  d ← deref obj;
  h ← on_maps (reads (λ h, h));
  on_session (kube_do (dep_CreateObj (dp_Namespace d) d h)).
Definition DeleteDeployment (name namespace : string) : M error :=
  err ← on_session (kube_do (dep_Delete namespace name));
  mret (match err with
        | Some e => if bool_decide (err_is e = NotFound) then None else Some e
        | None => None end).
(** A map literal. *)
Definition new_map (m : gmap string string) : prog Maps nat :=
  l ← reads (λ h, fresh (dom h));
  updates (λ h, <[l := m]> h) ;;
  mret l.

(** The deployment of the application of a suite: one container and the claim it mounts; the
    same map of labels goes to the deployment, its selector and its template. *)
Definition app_deployment (deployName pvcName label : string)
    (nodeSelector : option (gmap string string)) (container_of : ContainerBuilder → ContainerBuilder)
    : prog Maps (option deployment * error) :=
  labelselector ← new_map {[ "e2e-test" := label ]};
  selector ← match nodeSelector with
             | Some m => l ← new_map m; mret (Some l)
             | None => mret None
             end;
  d ← dpl_WithLabelsNew (Some labelselector)
        (dpl_WithNamespace "default" (dpl_WithName deployName NewDeploymentBuilder));
  d ← dpl_WithSelectorMatchLabelsNew (Some labelselector) d;
  t ← match selector with
      | Some l => tmpl_WithNodeSelector (Some l) NewPodtemplatespecBuilder
      | None => mret NewPodtemplatespecBuilder
      end;
  t ← tmpl_WithLabels (Some labelselector) t;
  let t := tmpl_WithContainerBuildersNew (Some [container_of NewContainerBuilder]) t in
  let t := tmpl_WithVolumeBuilders
             (Some [vol_WithPVCSource pvcName (vol_WithName "ms-volume" NewVolumeBuilder)]) t in
  mret (dpl_Build (dpl_WithPodTemplateSpecBuilder (Some t) d)).

Definition create_app (obj : option deployment * error) : M unit :=
  Expect_success obj.2 "while building deployment" ;;
  err ← CreateDeployment obj.1;
  Expect_success err "Creating deployment".

Definition app_mount : VolumeMount := mkVolumeMount "ms-volume" FioFsMountPoint.

(** ** Steps that the suites share *)

Context `{Kube W} `{Clock W} `{Gomega W}.

(** Until the deployment is ready, or until it is not, and then until a pod with the labels
    runs, or none does: the name of the last pod looked at. *)
Definition await_app (timeout : Z) (deployName labels : string) (state : bool) : M string :=
  _ ← Eventually timeout 5 (on_session (DeploymentReady deployName "default")) (Bool.eqb state)
        "application deployment";
  pod ← Eventually timeout 5
          ('(podName, runningStatus, err) ← on_session (IsPodWithLabelsRunning labels "default");
           Expect_success err "IsPodWithLabelsRunning" ;;
           mret (podName, runningStatus))
          (λ pod, Bool.eqb state pod.2) "application pod";
  mret pod.1.

Context `{Shell W} `{Http W} `{MapRange W} `{Grpc W}.

Definition verify_ready (numMayastorInstances : Z) : M unit :=
  '(ready, err) ← on_session (MayastorInstancesReady numMayastorInstances 3 540);
  Expect_success err "MayastorInstancesReady" ;;
  Expect ready "mayastor is ready" ;;
  ready ← on_session (ControlPlaneReady 3 300);
  Expect ready "control plane is ready".
End Suites.
