(* ===== verification/NodeFailure.v ===== *)
(** * The suite node_failure (src/src/tests/node_failure)

    The nodes of a volume are switched off and on again under a load.  What a test does and
    what comes after every test, whatever became of it. *)

From stdpp Require Import base gmap strings list.
From S2P Require Import Prelude GoLib Json Http Shell Kube MayastorClient GoTime.
From S2P Require Import K8sPods K8sLib K8sApps Session ControlPlane E2ENodes E2EPods E2EUtil.
From S2P Require Import E2EPvc E2ECleanup E2ETest E2EBuilders Suites.

Definition nf_defWaitTimeout : string := "600s".
Definition nf_defTimeoutSecs : Z := 240.
Definition nf_durationSecs : Z := 600.
Definition nf_volumeFileSizeMb : Z := 250.
Definition nf_thinkTime : Z := 1000.

Inductive nf_TestType :=
| RebootAllNodes | RebootOneNonNexusNode | RebootTwoNonNexusNodes | RebootNexusNode.

Record failureConfig := mkFailureConfig {
  nf_protocol : string;
  nf_fsType : string;
  nf_replicas : Z;
  nf_testType : nf_TestType;
  nf_DownTime : Z;
  nf_scName : string;
  nf_pvcName : string;
  nf_pvcSize : Z;
  nf_deployName : string;
  nf_podName : string;
}.

(** The variables of the package. *)
Record nf_vars := mkNfVars { nf_nodes : list string; nf_once : bool }.

Section NodeFailure.
Context {K : Corev1} {W C : Type} `{Kube W} `{KubeApps W} `{Shell W} `{Http W} `{MapRange W}
  `{Clock W} `{Grpc W} `{Files W} `{System W} `{ConfigFiles W} `{Gomega W} `{!Deployments K W}
  `{Cloud C}.
Notation M := (prog (Suite W C nf_vars)).

(** The names of the nodes are noted by the first test only. *)
Definition generateFailureConfig (testType : nf_TestType) (downTime : Z) (testName : string)
    : M failureConfig :=
  '(nodeLocs, err) ← on_session e2e_GetNodeLocs;
  Expect_success err "GetNodeLocs" ;;
  platform ← platform_Create;
  Expect platform "platform" ;;
  v ← vars;
  (if nf_once v : bool then mret tt
   else set_vars (λ v, mkNfVars (nf_nodes v ++ map LocName nodeLocs) true)) ;;
  mret (mkFailureConfig ShareProtoNvmf "ext4" 3 testType downTime (testName +:+ "-sc")
          (testName +:+ "-pvc") 5120 (testName +:+ "-deploy") (testName +:+ "-pod")).

Definition nf_createSC (c : failureConfig) : M unit :=
  must "Creating storage class" (
    b ← e2e_NewScBuilder;
    BuildAndCreate (sc_WithFileSystemType (nf_fsType c) (sc_WithReplicas (nf_replicas c)
      (sc_WithProtocol (nf_protocol c) (sc_WithNamespace "default"
        (sc_WithName (nf_scName c) b)))))).
Definition nf_deleteSC (c : failureConfig) : M unit :=
  must "Deleting storage class" (RmStorageClass (nf_scName c)).

Definition nf_createPVC (c : failureConfig) : M string :=
  '(uuid, err) ← on_session (e2e_MkPVC (nf_pvcSize c) (nf_pvcName c) (nf_scName c)
                               VolFileSystem "default");
  Expect_success err "failed to create pvc" ;;
  mret uuid.
Definition nf_deletePVC (c : failureConfig) : M unit :=
  must "failed to delete pvc" (RmPVC (nf_pvcName c) (nf_scName c) "default").

Definition nf_verifyApplicationPodRunning (c : failureConfig) (state : bool) : M unit :=
  _ ← await_app nf_defTimeoutSecs (nf_deployName c) "e2e-test=reboot" state; mret tt.

Definition nf_fio_args : list string :=
  (["--"; "--time_based"; "--runtime=" +:+ Itoa nf_durationSecs;
    "--filename=" +:+ FioFsFilename; "--size=" +:+ Itoa nf_volumeFileSizeMb +:+ "m";
    "--thinktime=" +:+ Itoa nf_thinkTime] ++ GetFioArgs)%list.
Definition nf_createDeployment (c : failureConfig) : M unit :=
  image ← on_session GetFioImage;
  obj ← on_maps (app_deployment (nf_deployName c) (nf_pvcName c) "reboot" None
          (con_WithArgumentsNew (Some nf_fio_args) ∘ con_WithVolumeMountsNew (Some [app_mount]) ∘
           con_WithImagePullPolicy PullAlways ∘ con_WithImage image ∘
           con_WithName (nf_podName c)));
  create_app obj ;;
  nf_verifyApplicationPodRunning c true.
Definition nf_deleteDeployment (c : failureConfig) : M unit :=
  err ← DeleteDeployment (nf_deployName c) "default";
  Expect_success err "Deleting deployment" ;;
  nf_verifyApplicationPodRunning c false.

Definition getNexusAndNonNexusNodes (uuid : string) : M (string * list string) :=
  '(nexusNode, replicaNodes) ← on_session (e2e_GetMsvNodes uuid);
  Expect (negb (bool_decide (nexusNode = ""))) "nexus node" ;;
  mret (nexusNode, filter (λ n, n ≠ nexusNode) replicaNodes).

Definition nf_verifyNodeNotReady (nodeName : string) : M unit :=
  _ ← Eventually nf_defTimeoutSecs 5
        ('(readyStatus, err) ← on_session (IsNodeReady nodeName None);
         Expect_success err "IsNodeReady" ;;
         mret readyStatus) negb "node not ready";
  mret tt.
Definition nf_verifyNodesReady : M unit :=
  _ ← Eventually nf_defTimeoutSecs 5
        ('(readyStatus, err) ← on_session AreNodesReady;
         Expect_success err "AreNodesReady" ;;
         mret readyStatus) id "nodes ready";
  mret tt.

Definition switch_off (what node : string) : M unit :=
  err ← PowerOffNode node; Expect_success err ("Failed to PowerOffNode " +:+ what).
Definition switch_on (what node : string) : M unit :=
  err ← PowerOnNode node; Expect_success err ("Failed to PowerOnNode " +:+ what).

(** Each node is looked up in the list when it is needed. *)
Definition RebootDesiredNodes (c : failureConfig) (uuid : string) : M unit :=
  '(nexusNode, nonNexusNodes) ← getNexusAndNonNexusNodes uuid;
  (match nf_testType c with
   | RebootAllNodes =>
       n0 ← index nonNexusNodes 0; switch_off "RebootAllNodes" n0 ;;
       n1 ← index nonNexusNodes 1; switch_off "RebootAllNodes" n1 ;;
       switch_off "RebootAllNodes" nexusNode ;;
       on_session (time_Sleep (nf_DownTime c)) ;;
       nf_verifyNodeNotReady n0 ;; nf_verifyNodeNotReady n1 ;;
       nf_verifyNodeNotReady nexusNode ;;
       switch_on "RebootAllNodes" n0 ;; switch_on "RebootAllNodes" n1 ;;
       switch_on "RebootAllNodes" nexusNode
   | RebootOneNonNexusNode =>
       n0 ← index nonNexusNodes 0; switch_off "RebootOneNonNexusNode" n0 ;;
       on_session (time_Sleep (nf_DownTime c)) ;;
       nf_verifyNodeNotReady n0 ;;
       switch_on "RebootOneNonNexusNode" n0
   | RebootTwoNonNexusNodes =>
       n0 ← index nonNexusNodes 0; switch_off "RebootTwoNonNexusNodes" n0 ;;
       n1 ← index nonNexusNodes 1; switch_off "RebootTwoNonNexusNodes" n1 ;;
       on_session (time_Sleep (nf_DownTime c)) ;;
       nf_verifyNodeNotReady n0 ;; nf_verifyNodeNotReady n1 ;;
       switch_on "RebootTwoNonNexusNodes" n0 ;; switch_on "RebootTwoNonNexusNodes" n1
   | RebootNexusNode =>
       switch_off "RebootNexusNode" nexusNode ;;
       on_session (time_Sleep (nf_DownTime c)) ;;
       nf_verifyNodeNotReady nexusNode ;;
       switch_on "RebootNexusNode" nexusNode
   end) ;;
  must "WaitForMCPPath" (e2e_WaitForMCPPath nf_defWaitTimeout) ;;
  addrs ← on_session GetMayastorNodeIPAddresses;
  must "WaitForMayastorSockets" (e2e_WaitForMayastorSockets addrs nf_defWaitTimeout).

(** A node whose status cannot be had does not count. *)
Definition count_online : prog (Session W) Z :=
  '(nodeList, err) ← e2e_ListMsns;
  match err with
  | Some _ => mret 0%Z
  | None =>
      r ← for_range nodeList 0%Z (λ node count,
            '(status, err) ← e2e_GetMsNodeStatus (cm_NodeName node);
            match err with
            | Some _ => mret (Next count)
            | None =>
                online ← via_get (cpi_NodeStateOnline _);
                mret (Next (if decide (status = online) then count + 1 else count)%Z)
            end);
      no_return r
  end.

Definition nf_verifyMayastorComponentStates (numMayastorInstances : Z) : M unit :=
  _ ← Eventually nf_defTimeoutSecs 5 (on_session count_online)
        (λ n, bool_decide (n = numMayastorInstances))
        "Online MayastorNode count verification failed";
  verify_ready numMayastorInstances.

Definition nodeRebootTests (c : failureConfig) : M unit :=
  nf_createSC c ;;
  uuid ← nf_createPVC c;
  nf_createDeployment c ;;
  RebootDesiredNodes c uuid ;;
  nf_verifyNodesReady ;;
  nf_verifyMayastorComponentStates 3 ;;
  nf_verifyApplicationPodRunning c true ;;
  nf_deleteDeployment c ;;
  nf_deletePVC c ;;
  nf_deleteSC c ;;
  must "Restart Mayastor pods" (RestartMayastor 240 240 240) ;;
  nf_verifyMayastorComponentStates 3.

(** A test: the kind, the time the nodes are off, and the name. *)
Definition nf_test (testType : nf_TestType) (downTime : Z) (testName : string) : M unit :=
  c ← generateFailureConfig testType downTime testName; nodeRebootTests c.
Definition nf_tests : list (nf_TestType * Z * string) :=
  [(RebootOneNonNexusNode, 1 * Minute, "reboot-one-non-nexus-node-test-1min-downtime");
   (RebootOneNonNexusNode, 6 * Minute, "reboot-one-non-nexus-node-test-6min-downtime");
   (RebootTwoNonNexusNodes, 1 * Minute, "reboot-two-non-nexus-nodes-test-1min-downtime");
   (RebootTwoNonNexusNodes, 6 * Minute, "reboot-two-non-nexus-nodes-test-6min-downtime");
   (RebootAllNodes, 1 * Minute, "reboot-all-nodes-test-1min-downtime");
   (RebootAllNodes, 6 * Minute, "reboot-all-nodes-test-6min-downtime");
   (RebootNexusNode, 1 * Minute, "reboot-nexus-node-test-1min-downtime");
   (RebootNexusNode, 6 * Minute, "reboot-nexus-node-test-6min-downtime")]%Z.

Definition nf_BeforeEach : M unit := must "BeforeEachCheck" BeforeEachCheck.
(** Every node is switched on, and what comes of it is not looked at. *)
Definition nf_AfterEach : M unit :=
  platform ← platform_Create;
  v ← vars;
  r ← for_range (nf_nodes v) tt (λ node _,
        if platform : bool then _ ← PowerOnNode node; mret (Next tt) else Panic nil_deref);
  _ ← no_return r;
  must "AfterEachCheck" AfterEachCheck.
End NodeFailure.
