(* ===== verification/NodeShutdown.v ===== *)
(** * The suite node_shutdown (src/src/tests/node_shutdown)

    The node that an application and its nexus run on is switched off; the application has to
    come back on another node together with the nexus. *)

From stdpp Require Import base gmap strings list.
From S2P Require Import Prelude GoLib Json Http Shell Kube MayastorClient GoTime.
From S2P Require Import K8sPods K8sLib K8sApps Session ControlPlane E2ENodes E2EPods E2EUtil.
From S2P Require Import E2EPvc E2ECleanup E2ETest E2EBuilders Suites NodeFailure.

Definition nsd_defWaitTimeout : string := "600s".
Definition nsd_defTimeoutSecs : Z := 800.
Definition nsd_durationSecs : Z := 600.
Definition nsd_volumeFileSizeMb : Z := 250.
Definition nsd_thinkTime : Z := 1000.

Record nsd_config := mkNsdConfig {
  nsd_protocol : string;
  nsd_fsType : string;
  nsd_replicas : Z;
  nsd_scName : string;
  nsd_pvcName : string;
  nsd_podName : string;
  nsd_pvcSize : Z;
  nsd_deployName : string;
  nsd_numMayastorInstances : Z;
}.

Section NodeShutdown.
Context {K : Corev1} {W C : Type} `{Kube W} `{KubeApps W} `{Shell W} `{Http W} `{MapRange W}
  `{Clock W} `{Grpc W} `{Files W} `{System W} `{ConfigFiles W} `{Gomega W} `{!Deployments K W}
  `{Cloud C}.
(** The one variable of the package: [poweredOffNode]. *)
Notation M := (prog (Suite W C string)).

Definition generateShutdownConfig (testName : string) : M nsd_config :=
  platform ← platform_Create;
  Expect platform "platform" ;;
  mret (mkNsdConfig ShareProtoNvmf "ext4" 3 (testName +:+ "-sc") (testName +:+ "-pvc")
          (testName +:+ "-pod") 2048 (testName +:+ "-deploy") 3).

Definition nsd_createSC (c : nsd_config) : M unit :=
  must "Creating storage class" (
    b ← e2e_NewScBuilder;
    BuildAndCreate (sc_WithFileSystemType (nsd_fsType c) (sc_WithLocal true
      (sc_WithReplicas (nsd_replicas c) (sc_WithProtocol (nsd_protocol c)
        (sc_WithNamespace "default" (sc_WithName (nsd_scName c) b))))))).
Definition nsd_deleteSC (c : nsd_config) : M unit :=
  must "Deleting storage class" (RmStorageClass (nsd_scName c)).

Definition nsd_createPVC (c : nsd_config) : M string :=
  '(uuid, err) ← on_session (e2e_MkPVC (nsd_pvcSize c) (nsd_pvcName c) (nsd_scName c)
                               VolFileSystem "default");
  Expect_success err "failed to create pvc" ;;
  mret uuid.
Definition nsd_deletePVC (c : nsd_config) : M unit :=
  must "failed to delete pvc" (RmPVC (nsd_pvcName c) (nsd_scName c) "default").

Definition nsd_verifyApplicationPodRunning (c : nsd_config) (state : bool) : M unit :=
  _ ← await_app nsd_defTimeoutSecs (nsd_deployName c) "e2e-test=shutdown" state; mret tt.

Definition nsd_fio_args : list string :=
  (["--"; "--time_based"; "--runtime=" +:+ Itoa nsd_durationSecs;
    "--filename=" +:+ FioFsFilename; "--size=" +:+ Itoa nsd_volumeFileSizeMb +:+ "m";
    "--thinktime=" +:+ Itoa nsd_thinkTime] ++ GetFioArgs)%list.
Definition nsd_createDeployment (c : nsd_config) : M unit :=
  image ← on_session GetFioImage;
  obj ← on_maps (app_deployment (nsd_deployName c) (nsd_pvcName c) "shutdown" None
          (con_WithArgumentsNew (Some nsd_fio_args) ∘ con_WithImagePullPolicy PullAlways ∘
           con_WithVolumeMountsNew (Some [app_mount]) ∘ con_WithImage image ∘
           con_WithName (nsd_podName c)));
  create_app obj ;;
  nsd_verifyApplicationPodRunning c true.
Definition nsd_deleteDeployment (c : nsd_config) : M unit :=
  err ← DeleteDeployment (nsd_deployName c) "default";
  Expect_success err "Deleting deployment" ;;
  nsd_verifyApplicationPodRunning c false.

Definition nsd_verifyMayastorComponentStates (numMayastorInstances : Z) : M unit :=
  must "WaitForMCPPath" (e2e_WaitForMCPPath nsd_defWaitTimeout) ;;
  '(nodeList, err) ← on_session e2e_ListMsns;
  Expect_success err "ListMsNodes" ;;
  r ← for_range nodeList 0%Z (λ node count,
        '(status, err) ← on_session (e2e_GetMsNodeStatus (cm_NodeName node));
        Expect_success err "GetMsNodeStatus" ;;
        online ← on_session (via_get (cpi_NodeStateOnline _));
        mret (Next (if decide (status = online) then count + 1 else count)%Z));
  count ← no_return r;
  Expect (bool_decide (count = numMayastorInstances)) "nodes online" ;;
  verify_ready numMayastorInstances.

(** Offline, unknown, or no state at all. *)
Definition node_state_lost (status : string) : prog (Session W) bool :=
  offline ← via_get (cpi_NodeStateOffline _);
  if decide (status = offline) then mret true
  else
    unknown ← via_get (cpi_NodeStateUnknown _);
    if decide (status = unknown) then mret true
    else
      empty ← via_get (cpi_NodeStateEmpty _);
      mret (bool_decide (status = empty)).
Definition nsd_verifyNodeNotReady (nodeName : string) : M unit :=
  _ ← Eventually nsd_defTimeoutSecs 5
        ('(readyStatus, err) ← on_session (IsNodeReady nodeName None);
         Expect_success err "IsNodeReady" ;;
         mret readyStatus) negb "node not ready";
  _ ← Eventually nsd_defTimeoutSecs 5
        ('(status, err) ← on_session (e2e_GetMsNodeStatus nodeName);
         Expect_success err "GetMsNodeStatus" ;;
         on_session (node_state_lost status)) id "node lost";
  mret tt.

Definition app_on (nodes : gmap string string) (node : string) : bool :=
  bool_decide (nodes !! node = Some PodRunning).

(** The nexus has left the node with one child less, and the application has followed it; an
    error of listing the pods is the only thing that is tried again. *)
Definition nexus_moved (uuid oldNexusNode : string) : M bool :=
  '(msv, _) ← on_session (e2e_GetMSV uuid);
  Expect (bool_decide (is_Some msv)) "GetMSV" ;;
  msv ← deref msv;
  let nexus := cv_Nexus (cv_Status msv) in
  Expect (negb (bool_decide (cn_Node nexus = oldNexusNode))) "nexus node" ;;
  Expect (bool_decide (length (cn_Children nexus) = 2%nat)) "nexus children" ;;
  '(nodes, err) ← on_session (GetNodeListForPods "e2e-test=shutdown" "default");
  match err with
  | Some _ => mret false
  | None => Expect (app_on nodes (cn_Node nexus)) "application on the nexus node" ;; mret true
  end.

Definition nodeShutdownTest (c : nsd_config) : M unit :=
  nsd_createSC c ;;
  uuid ← nsd_createPVC c;
  nsd_createDeployment c ;;
  '(oldNexusNode, _) ← on_session (e2e_GetMsvNodes uuid);
  Expect (negb (bool_decide (oldNexusNode = ""))) "nexus node" ;;
  '(nodes, err) ← on_session (GetNodeListForPods "e2e-test=shutdown" "default");
  Expect_success err "GetNodeListForPods" ;;
  Expect (app_on nodes oldNexusNode) "application on the nexus node" ;;
  set_vars (λ _, oldNexusNode) ;;
  err ← PowerOffNode oldNexusNode;
  Expect_success err "PowerOffNode" ;;
  on_session (time_Sleep (6 * Minute)) ;;
  nsd_verifyNodeNotReady oldNexusNode ;;
  nsd_verifyMayastorComponentStates (nsd_numMayastorInstances c - 1) ;;
  must "ForceDeleteTerminatingPods" (ForceDeleteTerminatingPods "" "default") ;;
  on_session (time_Sleep (1 * Minute)) ;;
  must "Failed to delete volume attachments" (DeleteVolumeAttachments oldNexusNode) ;;
  on_session (time_Sleep (2 * Minute)) ;;
  nsd_verifyApplicationPodRunning c true ;;
  _ ← Eventually nsd_defTimeoutSecs 5 (nexus_moved uuid oldNexusNode) id "nexus moved";
  err ← PowerOnNode oldNexusNode;
  Expect_success err "PowerOnNode" ;;
  set_vars (λ _, "") ;;
  must "WaitForMCPPath" (e2e_WaitForMCPPath nsd_defWaitTimeout) ;;
  addrs ← on_session GetMayastorNodeIPAddresses;
  must "WaitForMayastorSockets" (e2e_WaitForMayastorSockets addrs nsd_defWaitTimeout) ;;
  nsd_deleteDeployment c ;;
  nsd_deletePVC c ;;
  nsd_deleteSC c ;;
  nsd_verifyMayastorComponentStates (nsd_numMayastorInstances c) ;;
  must "Restart Mayastor pods" (RestartMayastor 240 240 240).

Definition nsd_test : M unit :=
  c ← generateShutdownConfig "node-shutdown"; nodeShutdownTest c.
Definition nsd_BeforeEach : M unit := must "BeforeEachCheck" BeforeEachCheck.
Definition nsd_AfterEach : M unit :=
  poweredOffNode ← vars;
  (if decide (poweredOffNode = "") then mret tt
   else
     platform ← platform_Create;
     (if platform : bool then (_ ← PowerOnNode poweredOffNode; mret tt) else Panic nil_deref) ;;
     must "WaitForMCPPath" (e2e_WaitForMCPPath nsd_defWaitTimeout) ;;
     addrs ← on_session GetMayastorNodeIPAddresses;
     must "WaitForMayastorSockets" (e2e_WaitForMayastorSockets addrs nsd_defWaitTimeout)) ;;
  must "AfterEachCheck" AfterEachCheck.
End NodeShutdown.
