(* ===== verification/MsnShutdown.v ===== *)
(** * The suite single_msn_shutdown (src/src/tests/single_msn_shutdown)

    An application on every node, each with a load that a goroutine drives; one of the nodes is
    switched off.  The applications are records that the test and the goroutines share. *)

From stdpp Require Import base gmap strings list.
From S2P Require Import Prelude GoLib Json Http Shell Kube MayastorClient GoTime.
From S2P Require Import K8sPods K8sLib K8sApps Session ControlPlane E2ENodes E2EPods E2EUtil.
From S2P Require Import E2EPvc E2ECleanup E2ETest E2EBuilders Suites NodeShutdown.

Definition msd_defTimeoutSecs : Z := 300.
Definition msd_defWaitTimeout : string := "600s".
Definition msd_volumeFileSizeMb : Z := 100.
Definition msd_thinkTime : Z := 100000.
Definition msd_thinkTimeBlocks : Z := 10.
Definition msd_fioTimeoutSecs : Z := 300.
Definition msDeployment : list string := ["msp-operator"; "rest"; "csi-controller"].

Record appConfig := mkAppConfig {
  app_pvcName : string;
  app_uuid : string;
  app_deployName : string;
  app_scName : string;
  app_replicas : Z;
  app_pvcSize : Z;
  app_nodeName : string;
  app_podName : string;
  taskCompletionStatus : string;
  app_protocol : string;
  app_fsType : string;
}.
Definition set_uuid (x : string) (a : appConfig) : appConfig :=
  mkAppConfig (app_pvcName a) x (app_deployName a) (app_scName a) (app_replicas a)
    (app_pvcSize a) (app_nodeName a) (app_podName a) (taskCompletionStatus a)
    (app_protocol a) (app_fsType a).
Definition set_podName (x : string) (a : appConfig) : appConfig :=
  mkAppConfig (app_pvcName a) (app_uuid a) (app_deployName a) (app_scName a) (app_replicas a)
    (app_pvcSize a) (app_nodeName a) x (taskCompletionStatus a) (app_protocol a) (app_fsType a).
Definition set_task (x : string) (a : appConfig) : appConfig :=
  mkAppConfig (app_pvcName a) (app_uuid a) (app_deployName a) (app_scName a) (app_replicas a)
    (app_pvcSize a) (app_nodeName a) (app_podName a) x (app_protocol a) (app_fsType a).

(** The variable of the package, the applications of the test that runs, and the loads that
    were started, with the pod each is to run in. *)
Record msd_vars := mkMsdVars {
  poweredOffNode : string;
  apps : list appConfig;
  started : list (nat * string);
}.

(** [select]: whether a command is over before the timer fires. *)
Class Timer (W : Type) := { in_time : Z → W → bool * W }.

Section MsnShutdown.
Context {K : Corev1} {W C : Type} `{Kube W} `{KubeApps W} `{Shell W} `{Http W} `{MapRange W}
  `{Clock W} `{Grpc W} `{Files W} `{System W} `{ConfigFiles W} `{Gomega W} `{!Deployments K W}
  `{Cloud C} `{Timer W}.
Notation M := (prog (Suite W C msd_vars)).

Definition set_poweredOffNode (node : string) : M unit :=
  set_vars (λ v, mkMsdVars node (apps v) (started v)).
Definition on_app (i : nat) (f : appConfig → appConfig) : M unit :=
  set_vars (λ v, mkMsdVars (poweredOffNode v) (alter f i (apps v)) (started v)).
(** The application as it is now. *)
Definition app (i : nat) : M appConfig := v ← vars; deref (apps v !! i).
(** [for _, config := range c.config]. *)
Definition for_apps (body : nat → M unit) : M unit :=
  v ← vars;
  r ← for_range (seq 0 (length (apps v))) tt (λ i _, body i ;; mret (Next tt));
  no_return r.

Definition msd_generateConfig (testName : string) : M unit :=
  platform ← platform_Create;
  Expect platform "platform" ;;
  '(nodeLocs, err) ← on_session e2e_GetNodeLocs;
  Expect_success err "GetNodeLocs" ;;
  set_vars (λ v, mkMsdVars (poweredOffNode v)
    (map (λ node, mkAppConfig (testName +:+ "-pvc-" +:+ LocName node) ""
            (testName +:+ "-deploy-" +:+ LocName node) (testName +:+ "-sc-" +:+ LocName node)
            3 1024 (LocName node) "" "" ShareProtoNvmf "ext4")
       (filter (λ node, MayastorNode_ node) nodeLocs)) []).
Definition msd_numMayastorInstances : Z := 3.

(** ** The load *)

Definition msd_fio_command (podName filename : string) (args : list string) : list string :=
  (["kubectl"; "exec"; "-it"; podName; "--"; "fio"; "--name=benchtest"; "--verify_fatal=1";
    "--verify_async=2"; "--filename=" +:+ filename; "--direct=1"; "--ioengine=libaio"; "--bs=4k";
    "--iodepth=16"; "--numjobs=1"; "--size=" +:+ Itoa msd_volumeFileSizeMb +:+ "M"] ++ args)%list.
Definition msd_runFio (podName filename : string) (args : list string)
    : prog (Session W) (string * error) :=
  exec_cmd (msd_fio_command podName filename args).

(** The command runs in a goroutine of its own and is given up when the time is over; that it
    failed is noted and then overwritten. *)
Definition fioWriteOnly (i : nat) (fioPodName hash : string) (thinkTime : Z) : M unit :=
  '(_, err) ← on_session (msd_runFio fioPodName FioFsFilename
     ["--rw=randwrite"; "--do_verify=0"; "--verify=" +:+ hash; "--verify_pattern=%o";
      "--thinktime=" +:+ Itoa thinkTime; "--thinktime_blocks=" +:+ Itoa msd_thinkTimeBlocks]);
  over ← on_session (outside (in_time msd_fioTimeoutSecs));
  if over : bool then
    match err with Some _ => on_app i (set_task "failed") | None => mret tt end ;;
    on_app i (set_task "success")
  else on_app i (set_task "failed").

(** [go c.fioWriteOnly(...)]: the goroutine of an application waits to be started. *)
Definition go_fio (i : nat) (podName : string) : M unit :=
  set_vars (λ v, mkMsdVars (poweredOffNode v) (apps v) (started v ++ [(i, podName)])%list).
Definition fio_thread (i : nat) : M unit :=
  podName ← guarded (λ s,
    match list_find (λ x, x.1 = i) (started (su_vars s)) with
    | Some (_, (_, podName)) => Some (podName, s)
    | None => None
    end);
  fioWriteOnly i podName "sha1" msd_thinkTime.

Definition verifyTaskCompletionStatus (i : nat) : M unit :=
  _ ← Eventually msd_defTimeoutSecs 5
        (a ← app i;
         Expect (negb (bool_decide (taskCompletionStatus a = "failed"))) "task" ;;
         mret (taskCompletionStatus a))
        (λ status, bool_decide (status = "success")) "task completion";
  mret tt.

(** ** Applications *)

Definition msd_createSC (i : nat) : M unit :=
  a ← app i;
  must "Creating storage class" (
    b ← e2e_NewScBuilder;
    BuildAndCreate (sc_WithFileSystemType (app_fsType a) (sc_WithIOTimeout DefaultIOTimeout
      (sc_WithLocal true (sc_WithReplicas (app_replicas a) (sc_WithProtocol (app_protocol a)
        (sc_WithNamespace "default" (sc_WithName (app_scName a) b)))))))).
Definition msd_deleteSC (i : nat) : M unit :=
  a ← app i; must "Deleting storage class" (RmStorageClass (app_scName a)).
Definition msd_createPVC (i : nat) : M string :=
  a ← app i;
  '(uuid, err) ← on_session (e2e_MkPVC (app_pvcSize a) (app_pvcName a) (app_scName a)
                               VolFileSystem "default");
  Expect_success err "failed to create pvc" ;;
  mret uuid.
Definition msd_deletePVC (i : nat) : M unit :=
  a ← app i; must "failed to delete pvc" (RmPVC (app_pvcName a) (app_scName a) "default").

Definition msd_verifyApplicationPodRunning (i : nat) (state : bool) : M unit :=
  a ← app i;
  podName ← await_app msd_defTimeoutSecs (app_deployName a)
              ("e2e-test=" +:+ app_deployName a) state;
  on_app i (set_podName podName).

Definition msd_createDeployment (i : nat) : M unit :=
  a ← app i;
  image ← on_session GetFioImage;
  obj ← on_maps (app_deployment (app_deployName a) (app_pvcName a) (app_deployName a)
          (Some {[ "kubernetes.io/hostname" := app_nodeName a ]})
          (con_WithArgumentsNew (Some ["sleep"; "1000000"]) ∘
           con_WithVolumeMountsNew (Some [app_mount]) ∘ con_WithImagePullPolicy PullAlways ∘
           con_WithImage image ∘ con_WithName (app_deployName a)));
  create_app obj ;;
  msd_verifyApplicationPodRunning i true ;;
  a ← app i;
  go_fio i (app_podName a).
Definition msd_deleteDeployment (i : nat) : M unit :=
  a ← app i;
  err ← DeleteDeployment (app_deployName a) "default";
  Expect_success err "Deleting deployment" ;;
  msd_verifyApplicationPodRunning i false.

(** ** The cluster *)

Definition msd_verifyMayastorComponentStates (numMayastorInstances : Z) : M unit :=
  must "WaitForMCPPath" (e2e_WaitForMCPPath msd_defWaitTimeout) ;;
  verify_ready numMayastorInstances.

(** Errors count as ready here and as not lost there: the waits go on. *)
Definition msd_verifyNodeNotReady (nodeName : string) (verifyMsnStatus : bool) : M unit :=
  _ ← Eventually msd_defTimeoutSecs 5
        ('(readyStatus, err) ← on_session (IsNodeReady nodeName None);
         mret (match err with Some _ => true | None => readyStatus end)) negb "node not ready";
  if verifyMsnStatus then
    _ ← Eventually msd_defTimeoutSecs 5
          ('(status, err) ← on_session (e2e_GetMsNodeStatus nodeName);
           match err with
           | Some _ => mret false
           | None => on_session (node_state_lost status)
           end) id "node lost";
    mret tt
  else mret tt.
Definition msd_verifyNodesReady : M unit :=
  _ ← Eventually msd_defTimeoutSecs 5
        ('(readyStatus, err) ← on_session AreNodesReady;
         mret (match err with Some _ => false | None => readyStatus end)) id "nodes ready";
  mret tt.

Definition getMsvState (uuid : string) : M string :=
  '(volState, _) ← Eventually msd_defTimeoutSecs 5 (on_session (e2e_GetMsvState uuid))
                     (λ r, bool_decide (r.2 = None)) "volume state";
  mret volState.
Definition expect_degraded (i : nat) : M unit :=
  a ← app i;
  volState ← getMsvState (app_uuid a);
  degraded ← on_session (via_get (cpi_VolStateDegraded _));
  Expect (bool_decide (volState = degraded)) "Unexpected MSV state".

Definition each_deployment (f : string → prog (Session W) error) (errs : list goerror)
    : M (list goerror) :=
  r ← for_range msDeployment errs (λ deploy errs,
        err ← on_session (f deploy); mret (Next (Accumulate err errs)));
  no_return r.
Definition apply_selectors (coreAgentNodeName : string) (errs : list goerror)
    : M (list goerror) :=
  ns ← on_session e2e_NSMayastor;
  each_deployment (λ deploy, ApplyNodeSelectorToDeployment deploy ns "kubernetes.io/hostname"
                               coreAgentNodeName) errs.
Definition remove_selectors (errs : list goerror) : M (list goerror) :=
  ns ← on_session e2e_NSMayastor;
  each_deployment (λ deploy, RemoveAllNodeSelectorsFromDeployment deploy ns) errs.

(** ** The tests *)

(** The control plane moves to the node of the core agents. *)
Definition gather_control_plane : M (string * list goerror) :=
  '(coreAgentNodeName, err) ← on_session GetCoreAgentNodeName;
  Expect_success err "GetCoreAgentNodeName" ;;
  Expect (negb (bool_decide (coreAgentNodeName = ""))) "core agent pod not found" ;;
  errs ← apply_selectors coreAgentNodeName [];
  Expect_success (GetError errs) "Failed to apply node selectors to deployment" ;;
  ns ← on_session e2e_NSMayastor;
  must "VerifyPodsOnNode" (VerifyPodsOnNode msDeployment coreAgentNodeName ns) ;;
  msd_verifyMayastorComponentStates msd_numMayastorInstances ;;
  mret (coreAgentNodeName, errs).

(** The last application on a node that [pick]s, with all of them running. *)
Definition create_apps (pick : string → bool) : M (option nat) :=
  v ← vars;
  r ← for_range (seq 0 (length (apps v))) None (λ i conf,
        msd_createSC i ;;
        uuid ← msd_createPVC i;
        on_app i (set_uuid uuid) ;;
        msd_createDeployment i ;;
        a ← app i;
        mret (Next (if pick (app_nodeName a) then Some i else conf)));
  no_return r.

Definition power_off_app (conf : option nat) : M string :=
  i ← deref conf;
  a ← app i;
  err ← PowerOffNode (app_nodeName a);
  Expect_success err "PowerOffNode" ;;
  set_poweredOffNode (app_nodeName a) ;;
  mret (app_nodeName a).
Definition power_on_app (node : string) : M unit :=
  err ← PowerOnNode node;
  Expect_success err "PowerOnNode" ;;
  set_poweredOffNode "" ;;
  msd_verifyNodesReady ;;
  must "WaitForMCPPath" (e2e_WaitForMCPPath msd_defWaitTimeout) ;;
  addrs ← on_session GetMayastorNodeIPAddresses;
  must "WaitForMayastorSockets" (e2e_WaitForMayastorSockets addrs msd_defWaitTimeout).

Definition for_other_apps (node : string) (body : nat → M unit) : M unit :=
  for_apps (λ i, a ← app i; if decide (app_nodeName a = node) then mret tt else body i).
Definition delete_apps : M unit :=
  for_apps (λ i, msd_deleteDeployment i ;; msd_deletePVC i ;; msd_deleteSC i).

Definition nonCoreAgentNodeShutdownTest : M unit :=
  '(coreAgentNodeName, errs) ← gather_control_plane;
  conf ← create_apps (λ node, negb (bool_decide (node = coreAgentNodeName)));
  node ← power_off_app conf;
  on_session (time_Sleep (2 * Minute)) ;;
  msd_verifyNodeNotReady node true ;;
  msd_verifyMayastorComponentStates (msd_numMayastorInstances - 1) ;;
  for_other_apps node (λ i,
    expect_degraded i ;;
    msd_verifyApplicationPodRunning i true ;;
    verifyTaskCompletionStatus i) ;;
  power_on_app node ;;
  delete_apps ;;
  errs ← remove_selectors errs;
  Expect_success (GetError errs) "Failed to remove node selectors from deployment" ;;
  msd_verifyMayastorComponentStates msd_numMayastorInstances ;;
  must "Restart Mayastor pods" (RestartMayastor 240 240 240).

Definition coreAgentNodeShutdownTest : M unit :=
  '(coreAgentNodeName, errs) ← gather_control_plane;
  errs ← remove_selectors errs;
  Expect_success (GetError errs) "Failed to remove node selectors from deployment" ;;
  conf ← create_apps (λ node, bool_decide (node = coreAgentNodeName));
  node ← power_off_app conf;
  on_session (time_Sleep (2 * Minute)) ;;
  msd_verifyNodeNotReady node false ;;
  for_other_apps node (λ i,
    msd_verifyApplicationPodRunning i true ;;
    verifyTaskCompletionStatus i) ;;
  on_session (time_Sleep (4 * Minute)) ;;
  must "WaitForMCPPath" (e2e_WaitForMCPPath msd_defWaitTimeout) ;;
  msd_verifyMayastorComponentStates (msd_numMayastorInstances - 1) ;;
  for_other_apps node expect_degraded ;;
  power_on_app node ;;
  delete_apps ;;
  msd_verifyMayastorComponentStates msd_numMayastorInstances ;;
  must "Restart Mayastor pods" (RestartMayastor 240 240 240).

Definition nonCoreAgent_It : M unit :=
  msd_generateConfig "single-non-core-agent-msn-shutdown" ;; nonCoreAgentNodeShutdownTest.
Definition coreAgent_It : M unit :=
  msd_generateConfig "single-core-agent-msn-shutdown" ;; coreAgentNodeShutdownTest.

(** A test and the goroutines of as many applications as it may start. *)
Definition msd_threads (test : M unit) (n : nat) : list (M unit) :=
  test :: map fio_thread (seq 0 n).

Definition msd_BeforeEach : M unit := must "BeforeEachCheck" BeforeEachCheck.
Definition msd_AfterEach : M unit :=
  v ← vars;
  (if decide (poweredOffNode v = "") then mret tt
   else
     platform ← platform_Create;
     v ← vars;
     (if platform : bool then (_ ← PowerOnNode (poweredOffNode v); mret tt)
      else Panic nil_deref) ;;
     must "WaitForMCPPath" (e2e_WaitForMCPPath msd_defWaitTimeout) ;;
     addrs ← on_session GetMayastorNodeIPAddresses;
     must "WaitForMayastorSockets" (e2e_WaitForMayastorSockets addrs msd_defWaitTimeout)) ;;
  must "AfterEachCheck" AfterEachCheck.
End MsnShutdown.
