(* ===== verification/SuiteTheorems.v ===== *)
(** * Theorems about the suites *)

From stdpp Require Import base gmap sets strings list.
From Stdlib Require Import Ascii.
From S2P Require Import Prelude GoLib Json Http Shell Kube MayastorClient GoTime.
From S2P Require Import K8sPods K8sLib K8sApps Session ControlPlane E2ENodes E2EPods E2EUtil.
From S2P Require Import E2EPvc E2ECleanup E2ETest E2EBuilders Suites NodeFailure NodeShutdown.
From S2P Require Import MsnShutdown.

(** ** Triples on a part of the state

    [part v P p Q E]: when all that other goroutines do leaves the part [v] of the state alone,
    a run of [p] that begins with the part in [P] ends with it in [Q], or in [E] when it
    panics. *)
Fixpoint part {S T A} (v : S → T) (P : T → Prop) (p : prog S A) (Q : A → T → Prop)
    (E : T → Prop) : Prop :=
  match p with
  | Done a => ∀ t, P t → Q a t
  | Act f k =>
      ∃ R, (∀ s x s', P (v s) → f s = Some (x, s') → R x (v s')) ∧ ∀ x, part v (R x) (k x) Q E
  | _ => ∀ t, P t → E t
  end.

Section Part.
Context {S T : Type} (v : S → T).

Lemma part_bind {A B} P (p : prog S A) (k : A → prog S B) Q R E :
  part v P p Q E → (∀ a, part v (Q a) (k a) R E) → part v P (p ≫= k) R E.
Proof.
  unfold mbind, prog_mbind. intros Hp Hk. revert P Hp.
  induction p as [a|why| |X f k' IH]; intros P Hp; simpl in *; try done.
  - clear -Hp Hk. specialize (Hk a). revert Hk. generalize (k a). intros q.
    revert P Q Hp. induction q as [b|why| |X f k' IH]; intros P Q Hp Hk; simpl in *; auto.
    destruct Hk as (R' & Hf & Hk'). exists R'. split; [eauto|done].
  - destruct Hp as (R' & Hf & Hk'). exists R'. split; [done|]. intros x. by apply IH.
Qed.

Lemma part_weaken {A} (P P' : T → Prop) (p : prog S A) (Q Q' : A → T → Prop) (E E' : T → Prop) :
  part v P p Q E → (∀ t, P' t → P t) → (∀ a t, Q a t → Q' a t) → (∀ t, E t → E' t) →
  part v P' p Q' E'.
Proof.
  revert P P'. induction p as [a|why| |X f k IH]; intros P P' Hp HP HQ HE; simpl in *; auto.
  destruct Hp as (R & Hf & Hk). exists R. split; [eauto|]. intros x. eapply IH; eauto.
Qed.

(** What leaves the part alone. *)
Lemma part_frame {A} (P : T → Prop) (p : prog S A) (E : T → Prop) :
  (∀ t, keeps (λ s, v s = t) p) → (∀ t, P t → E t) → part v P p (λ _, P) E.
Proof.
  intros Hp HE. induction p as [a|why| |X f k IH]; simpl in *; auto.
  exists (λ _, P). split.
  - intros s x s' Hs Hf. by rewrite (proj1 (Hp (v s)) s x s' eq_refl Hf).
  - intros x. apply IH. intros t. apply (Hp t).
Qed.

Lemma part_mret {A} (P : T → Prop) (a : A) (Q : A → T → Prop) E :
  (∀ t, P t → Q a t) → part v P (mret a) Q E.
Proof. done. Qed.
Lemma part_panic {A} (P : T → Prop) why (Q : A → T → Prop) (E : T → Prop) :
  (∀ t, P t → E t) → part v P (Panic why) Q E.
Proof. done. Qed.

Lemma part_for_range {A B R} (I : B → T → Prop) (l : list A) (b : B)
    (body : A → B → prog S (ctl B R)) (Q : B + R → T → Prop) (E : T → Prop) :
  (∀ x b, x ∈ l → part v (I b) (body x b) (λ c t,
     match c with Next b' => I b' t | Break b' => Q (inl b') t | Return r => Q (inr r) t end) E) →
  (∀ b t, I b t → Q (inl b) t) →
  part v (I b) (for_range l b body) Q E.
Proof.
  intros Hbody Hend. revert b. induction l as [|x l IH]; intros b; [intros t; apply Hend|].
  cbn [for_range]. eapply part_bind; [apply Hbody; set_solver|].
  intros [b'|b'|r]; [|intros t Ht; exact Ht..]. apply IH. intros; apply Hbody; set_solver.
Qed.

(** A run alone. *)
Lemma part_run {A} P (p : prog S A) Q E s :
  part v P p Q E → P (v s) →
  match run p s with (Ret a, s') => Q a (v s') | (Blocked, _) => True | (_, s') => E (v s') end.
Proof.
  revert P s. induction p as [a|why| |X f k IH]; intros P s Hp Hs; simpl in *; auto.
  destruct Hp as (R & Hf & Hk). destruct (f s) as [[x s']|] eqn:Ef; [|done].
  eapply IH; eauto.
Qed.

(** A run of the first of several goroutines, the others leaving the part alone. *)
Lemma part_pool {A} P (p p' : prog S A) Q E ts ts' s s' :
  rtc pool_step (p :: ts, s) (p' :: ts', s') →
  Forall (λ q, ∀ t, keeps (λ s, v s = t) q) ts → part v P p Q E → P (v s) →
  ∃ P', part v P' p' Q E ∧ P' (v s').
Proof.
  intros Hsteps. remember (p :: ts, s) as c eqn:Ec. remember (p' :: ts', s') as c' eqn:Ec'.
  revert P p ts s Ec. induction Hsteps as [c|c d e Hstep Hsteps IH];
    intros P p ts s -> Hts Hp Hs; [simplify_eq; by exists P|].
  inversion Hstep as [ts1 s1 i X f k x s1' Hi Hf]; simplify_eq.
  destruct i as [|i]; simpl in Hi; simplify_eq.
  - destruct Hp as (R & Hf' & Hk). simpl in *. eapply (IH eq_refl (R x)); eauto.
  - simpl in *. assert (Hq : ∀ t, keeps (λ s, v s = t) (Act f k))
      by (eapply (Forall_lookup_1 _ _ _ _ Hts); eauto).
    eapply (IH eq_refl P p); [done| |done|].
    + apply Forall_insert; [done|]. intros t. apply (Hq t).
    + by rewrite (proj1 (Hq (v s)) s x s1' eq_refl Hf).
Qed.
End Part.

(** The first goroutine may run alone, to its end or to where it waits. *)
Fixpoint final {S A} (p : prog S A) (s : S) : prog S A :=
  match p with
  | Act f k => match f s with Some (x, s') => final (k x) s' | None => p end
  | _ => p
  end.
Lemma pool_alone {S A} (p : prog S A) ts s :
  rtc pool_step (p :: ts, s) (final p s :: ts, (run p s).2).
Proof.
  revert s. induction p as [a|why| |X f k IH]; intros s; simpl; try done.
  destruct (f s) as [[x s']|] eqn:E; [|done].
  eapply rtc_l; [|apply IH]. by apply (pool_step_act (Act f k :: ts) s 0 X f k x s').
Qed.

(** ** What the steps of a suite leave alone *)

Section Frames.
Context {W C V : Type} (I : Suite W C V → Prop).
Context `{HS : !WorldFree (W:=Session W) I} `{HM : !WorldFree (W:=Maps) I}.

Lemma keeps_on_session {A} (p : prog (Session W) A) : keeps I (on_session p).
Proof. by apply keeps_lift. Qed.
Lemma keeps_on_maps {A} (p : prog Maps A) : keeps I (on_maps p).
Proof. by apply keeps_lift. Qed.
Lemma keeps_Panic {A} why : keeps I (Panic (A:=A) why).
Proof. done. Qed.
Lemma keeps_vars : keeps I vars.
Proof. apply keeps_reads. Qed.
Lemma keeps_Expect b what : keeps I (Expect b what).
Proof. by destruct b. Qed.
Lemma keeps_Expect_success err what : keeps I (Expect_success err what).
Proof. by destruct err. Qed.
Lemma keeps_no_return {B} (r : B + Empty_set) : keeps I (no_return r).
Proof. by destruct r as [|[]]. Qed.
Hint Resolve keeps_on_session keeps_on_maps keeps_Panic keeps_vars keeps_Expect
  keeps_Expect_success keeps_no_return : keeps.

Lemma keeps_must what p : keeps I (must what p).
Proof. unfold must. solve_keeps. Qed.
Lemma keeps_Eventually `{Gomega W} `{Clock W} {A} timeout interval
    (look : prog (Suite W C V) A) wanted what :
  keeps I look → keeps I (Eventually timeout interval look wanted what).
Proof. intros Hl. unfold Eventually. solve_keeps. Qed.
Hint Resolve keeps_must keeps_Eventually : keeps.

Lemma keeps_platform_Create : keeps I platform_Create.
Proof. unfold platform_Create. solve_keeps. Qed.
Lemma keeps_await_app `{KubeApps W} `{Clock W} `{Gomega W} timeout name labels state :
  keeps I (await_app timeout name labels state).
Proof.
  unfold await_app. solve_keeps; apply keeps_Eventually; solve_keeps.
Qed.
Lemma keeps_create_app {K : Corev1} `{!Deployments K W} obj : keeps I (create_app obj).
Proof. unfold create_app, CreateDeployment. solve_keeps. Qed.
Lemma keeps_DeleteDeployment `{KubeApps W} name ns : keeps I (DeleteDeployment name ns).
Proof. unfold DeleteDeployment. solve_keeps. Qed.
Lemma keeps_verify_ready `{Kube W} `{KubeApps W} `{Shell W} `{Http W} `{MapRange W} `{Clock W}
    `{Grpc W} n : keeps I (verify_ready n).
Proof. unfold verify_ready. solve_keeps. Qed.
End Frames.
#[export] Hint Resolve keeps_on_session keeps_on_maps keeps_Panic keeps_vars keeps_Expect
  keeps_Expect_success keeps_no_return keeps_must keeps_Eventually keeps_platform_Create
  keeps_await_app keeps_create_app keeps_DeleteDeployment keeps_verify_ready : keeps.

(** There is a platform when the configuration names one. *)
Lemma run_platform_Create {W C V} (s : Suite W C V) :
  run platform_Create s =
    (Ret (bool_decide (Platform_Name (cfg_Platform (e2eConfig (su_session s))) = "Hetzner")), s).
Proof.
  unfold platform_Create, on_session, Config. rewrite run_bind, run_lift, run_reads.
  cbn [seq_run fst snd]. rewrite run_done. f_equal. by destruct s.
Qed.

(** ** Machines that are off *)

(** The machines that are off, and those for which a request to switch off was answered with
    an error.  A request that succeeds has its effect; one that is answered with an error may
    have had it or not; and neither touches another machine. *)
Class PowerLaws (C : Type) `{Cloud C} := {
  off : C → gset string;
  refused : C → gset string;
  after_PowerOff node c :
    let '(err, c') := cloud_PowerOff node c in
    match err with
    | None => off c' = {[node]} ∪ off c ∧ refused c' = refused c
    | Some _ => off c ⊆ off c' ⊆ {[node]} ∪ off c ∧ refused c' = {[node]} ∪ refused c
    end;
  after_PowerOn node c :
    let '(err, c') := cloud_PowerOn node c in
    match err with
    | None => off c' = off c ∖ {[node]}
    | Some _ => off c ∖ {[node]} ⊆ off c' ⊆ off c
    end ∧ refused c' = refused c;
}.
Section Requests.
Context {C : Type} `{HC : Cloud C} `{!PowerLaws C}.
Lemma off_PowerOff node (c : C) :
  (cloud_PowerOff node c).1 = None → off (cloud_PowerOff node c).2 = {[node]} ∪ off c.
Proof.
  pose proof (after_PowerOff node c) as Hp.
  destruct (cloud_PowerOff node c) as [[e|] c']; [done|]. by intros _; apply Hp.
Qed.
Lemma off_PowerOn node (c : C) :
  (cloud_PowerOn node c).1 = None → off (cloud_PowerOn node c).2 = off c ∖ {[node]}.
Proof.
  pose proof (after_PowerOn node c) as Hp.
  destruct (cloud_PowerOn node c) as [[e|] c']; [done|]. by intros _; apply Hp.
Qed.
End Requests.

Section MsnPower.
Context {K : Corev1} {W C : Type} `{Kube W} `{KubeApps W} `{Shell W} `{Http W} `{MapRange W}
  `{Clock W} `{Grpc W} `{Files W} `{System W} `{ConfigFiles W} `{Gomega W} `{!Deployments K W}
  `{HC : Cloud C} `{!PowerLaws C} `{Timer W}.
Notation M := (prog (Suite W C msd_vars)).

(** The machines and the node that is remembered. *)
Definition power (s : Suite W C msd_vars) : C * string := (su_cloud s, poweredOffNode (su_vars s)).
Definition all_on (t : C * string) : Prop := off t.1 = ∅.
Definition remembered (t : C * string) : Prop := off t.1 ⊆ {[t.2]} ∪ refused t.1.
Definition is_off (node : string) (t : C * string) : Prop := off t.1 ⊆ {[node]} ∧ t.2 = node.

#[local] Instance power_free_session t : WorldFree (W:=Session W) (λ s, power s = t).
Proof. intros s w <-. done. Qed.
#[local] Instance power_free_maps t : WorldFree (W:=Maps) (λ s, power s = t).
Proof. intros s w <-. done. Qed.

Lemma keeps_on_app t i f : keeps (λ s, power s = t) (on_app (W:=W) (C:=C) i f).
Proof. apply keeps_updates. by intros s <-. Qed.
Lemma keeps_go_fio t i pod : keeps (λ s, power s = t) (go_fio (W:=W) (C:=C) i pod).
Proof. apply keeps_updates. by intros s <-. Qed.
Lemma keeps_app t i : keeps (λ s, power s = t) (app (W:=W) (C:=C) i).
Proof. unfold app. solve_keeps. Qed.
Lemma keeps_for_apps t (body : nat → M unit) :
  (∀ i, keeps (λ s, power s = t) (body i)) → keeps (λ s, power s = t) (for_apps body).
Proof. intros Hb. unfold for_apps. solve_keeps. Qed.
Hint Resolve keeps_on_app keeps_go_fio keeps_app keeps_for_apps : keeps.
(** The goroutines of the loads leave the machines alone. *)
Lemma keeps_fio_thread t i : keeps (λ s, power s = t) (fio_thread (W:=W) (C:=C) i).
Proof.
  unfold fio_thread, fioWriteOnly. apply keeps_bind; [|solve_keeps].
  apply keeps_guarded. intros s x s' Hs Hf.
  destruct (list_find _ _) as [[? [? ?]]|]; by simplify_eq.
Qed.

Lemma keeps_msd_verifyApplicationPodRunning t i b :
  keeps (λ s, power s = t) (msd_verifyApplicationPodRunning (W:=W) (C:=C) i b).
Proof. unfold msd_verifyApplicationPodRunning. solve_keeps. Qed.
Hint Resolve keeps_msd_verifyApplicationPodRunning : keeps.
Lemma keeps_msd_components t n :
  keeps (λ s, power s = t) (msd_verifyMayastorComponentStates (W:=W) (C:=C) n).
Proof. unfold msd_verifyMayastorComponentStates. solve_keeps. Qed.
Lemma keeps_msd_verifyNodeNotReady t node b :
  keeps (λ s, power s = t) (msd_verifyNodeNotReady (W:=W) (C:=C) node b).
Proof. unfold msd_verifyNodeNotReady. solve_keeps; apply keeps_Eventually; solve_keeps. Qed.
Lemma keeps_msd_verifyNodesReady t :
  keeps (λ s, power s = t) (msd_verifyNodesReady (W:=W) (C:=C)).
Proof. unfold msd_verifyNodesReady. solve_keeps; apply keeps_Eventually; solve_keeps. Qed.
Lemma keeps_verifyTask t i :
  keeps (λ s, power s = t) (verifyTaskCompletionStatus (W:=W) (C:=C) i).
Proof. unfold verifyTaskCompletionStatus. solve_keeps; apply keeps_Eventually; solve_keeps. Qed.
Lemma keeps_expect_degraded t i : keeps (λ s, power s = t) (expect_degraded (W:=W) (C:=C) i).
Proof.
  unfold expect_degraded, getMsvState. solve_keeps; apply keeps_Eventually; solve_keeps.
Qed.
Hint Resolve keeps_msd_components keeps_msd_verifyNodeNotReady keeps_msd_verifyNodesReady
  keeps_verifyTask keeps_expect_degraded : keeps.
Lemma keeps_for_other_apps t node (body : nat → M unit) :
  (∀ i, keeps (λ s, power s = t) (body i)) →
  keeps (λ s, power s = t) (for_other_apps node body).
Proof. intros Hb. unfold for_other_apps. solve_keeps; apply keeps_for_apps; solve_keeps. Qed.
Lemma keeps_delete_apps t : keeps (λ s, power s = t) (delete_apps (W:=W) (C:=C)).
Proof.
  unfold delete_apps, msd_deleteDeployment, msd_deletePVC, msd_deleteSC.
  apply keeps_for_apps. solve_keeps.
Qed.
Lemma keeps_create_apps t pick : keeps (λ s, power s = t) (create_apps (W:=W) (C:=C) pick).
Proof.
  unfold create_apps, msd_createSC, msd_createPVC, msd_createDeployment. solve_keeps.
Qed.
Lemma keeps_remove_selectors t errs :
  keeps (λ s, power s = t) (remove_selectors (W:=W) (C:=C) errs).
Proof. unfold remove_selectors, each_deployment. solve_keeps. Qed.
Hint Resolve keeps_for_other_apps keeps_delete_apps keeps_create_apps keeps_remove_selectors
  : keeps.
Lemma keeps_gather t : keeps (λ s, power s = t) (gather_control_plane (W:=W) (C:=C)).
Proof. unfold gather_control_plane, apply_selectors, each_deployment. solve_keeps. Qed.
Lemma keeps_msd_generateConfig t name :
  keeps (λ s, power s = t) (msd_generateConfig (W:=W) (C:=C) name).
Proof.
  unfold msd_generateConfig. solve_keeps. apply keeps_updates. by intros s <-.
Qed.
Hint Resolve keeps_gather keeps_msd_generateConfig : keeps.

(** Switching a node off and on, and remembering it. *)
Lemma part_power_off conf :
  part power all_on (power_off_app (W:=W) (C:=C) conf) is_off remembered.
Proof.
  assert (Hrec : ∀ t, all_on t → remembered t) by (unfold all_on, remembered; set_solver).
  unfold power_off_app. eapply part_bind; [apply part_frame; [solve_keeps|apply Hrec]|].
  intros i. eapply part_bind; [apply part_frame; [solve_keeps|apply Hrec]|]. intros a.
  eapply (part_bind _ _ _ _ (λ err t,
    match err with None => off t.1 ⊆ {[app_nodeName a]} | Some _ => remembered t end)).
  { exists (λ err t, match err with
      None => off t.1 ⊆ {[app_nodeName a]} | Some _ => remembered t end).
    split; [|by intros x t Ht].
    intros s err s' Hs [= <- <-]. unfold all_on, remembered in *. cbn in *.
    pose proof (after_PowerOff (app_nodeName a) (su_cloud s)) as Hp.
    destruct (cloud_PowerOff _ _) as [[e|] c]; cbn; set_solver. }
  intros [e|]; [by apply part_panic|].
  exists (λ _, is_off (app_nodeName a)). split; [|by intros x t Ht].
  intros s x s' Hs [= <- <-]. done.
Qed.

Lemma part_power_on node :
  part power (is_off node) (power_on_app (W:=W) (C:=C) node) (λ _, all_on) remembered.
Proof.
  unfold power_on_app. eapply (part_bind _ _ _ _ (λ err t,
    match err with None => all_on t | Some _ => remembered t end)).
  { exists (λ err t, match err with None => all_on t | Some _ => remembered t end). split; [|by intros x t Ht].
    intros s err s' [Hs Hn] [= <- <-]. unfold all_on, remembered in *. cbn in *.
    pose proof (after_PowerOn node (su_cloud s)) as Hp.
    destruct (cloud_PowerOn _ _) as [[e|] c]; cbn; set_solver. }
  intros [e|]; [by apply part_panic|].
  eapply (part_bind _ _ _ _ (λ _, all_on)); [by intros t Ht|intros _].
  eapply (part_bind _ _ _ _ (λ _, all_on)); [exists (λ _, all_on); split|intros _].
  { by intros s x s' Hs [= <- <-]. }
  { by intros x t Ht. }
  apply part_frame; [solve_keeps|]. unfold all_on, remembered. set_solver.
Qed.

(** The steps before, between and after. *)
Ltac frames :=
  repeat (eapply part_bind; [apply part_frame; [solve [solve_keeps]|]|intros ?]).
Lemma all_on_recorded t : all_on t → remembered t.
Proof. unfold all_on, remembered. set_solver. Qed.
Lemma is_off_recorded node t : is_off node t → remembered t.
Proof. unfold is_off, remembered. set_solver. Qed.
#[local] Hint Resolve all_on_recorded is_off_recorded : core.

Lemma part_nonCoreAgent :
  part power all_on (nonCoreAgent_It (W:=W) (C:=C)) (λ _, all_on) remembered.
Proof.
  unfold nonCoreAgent_It, nonCoreAgentNodeShutdownTest.
  eapply part_bind; [apply part_frame; [solve_keeps|auto]|intros ?].
  eapply part_bind; [apply part_frame; [solve_keeps|auto]|intros [node0 errs]].
  eapply part_bind; [apply part_frame; [solve_keeps|auto]|intros conf].
  eapply part_bind; [apply part_power_off|intros node]. frames; eauto.
  eapply part_bind; [apply part_power_on|intros ?].
  apply part_frame; [solve_keeps|auto].
Qed.
Lemma part_coreAgent :
  part power all_on (coreAgent_It (W:=W) (C:=C)) (λ _, all_on) remembered.
Proof.
  unfold coreAgent_It, coreAgentNodeShutdownTest.
  eapply part_bind; [apply part_frame; [solve_keeps|auto]|intros ?].
  eapply part_bind; [apply part_frame; [solve_keeps|auto]|intros [node0 errs]].
  eapply part_bind; [apply part_frame; [solve_keeps|auto]|intros errs'].
  eapply part_bind; [apply part_frame; [solve_keeps|auto]|intros ?].
  eapply part_bind; [apply part_frame; [solve_keeps|auto]|intros conf].
  eapply part_bind; [apply part_power_off|intros node]. frames; eauto.
  eapply part_bind; [apply part_power_on|intros ?].
  apply part_frame; [solve_keeps|auto].
Qed.

(** What leaves the machines alone, after what has run. *)
Lemma power_after {A B} (r : outcome A * Suite W C msd_vars) (k : A → M B) (P : C * string → Prop) :
  P (power r.2) → (∀ a t, keeps (λ s, power s = t) (k a)) → P (power (seq_run r k).2).
Proof.
  intros HP Hk. destruct r as [[a|why| |] s]; simpl in *; try done.
  pose proof (keeps_run _ (k a) s (Hk a (power s)) eq_refl) as E.
  by rewrite E.
Qed.

(** What follows every test. *)
Lemma after_each_on (s : Suite W C msd_vars) node :
  remembered (power s) →
  Platform_Name (cfg_Platform (e2eConfig (su_session s))) = "Hetzner" →
  (cloud_PowerOn (poweredOffNode (su_vars s)) (su_cloud s)).1 = None →
  node ≠ "" → node ∉ refused (su_cloud s) → node ∉ off (power (run msd_AfterEach s).2).1.
Proof.
  intros Hrec Hz Hon Hnode Href. unfold remembered, power in Hrec. cbn in Hrec.
  unfold msd_AfterEach, vars. rewrite run_bind, run_reads. cbn [seq_run].
  rewrite run_bind. apply (power_after _ _ (λ t, node ∉ off t.1)); [|intros; solve_keeps].
  destruct (decide (poweredOffNode (su_vars s) = "")) as [Hn0|Hn0];
    [rewrite Hn0 in Hrec; cbn; set_solver|].
  rewrite run_bind, run_platform_Create, Hz, bool_decide_true by done.
  cbn [seq_run]. rewrite run_bind, run_reads. cbn [seq_run]. rewrite run_bind.
  apply (power_after _ _ (λ t, node ∉ off t.1)); [|intros; solve_keeps].
  unfold PowerOnNode, on_cloud. rewrite run_bind, run_action. cbn [seq_run].
  rewrite run_done. cbn. rewrite off_PowerOn by done. set_solver.
Qed.

(** A thread that has come to its end, one way or the other. *)
Definition over (p : M unit) : bool :=
  match p with Act _ _ => false | _ => true end.

(** (C20) The node that a test of the suite single_msn_shutdown switches off is on again in the
    end: whatever the cluster does and however the test and the loads it started interleave,
    a test that returns leaves no node off; one that ends otherwise leaves no node off but the
    one it remembers, and possibly one for which the request to switch off was answered with an
    error (such a node is not remembered).  On the Hetzner platform, when the request to switch
    the remembered node on is answered without an error, no other node is off after the step
    that follows every test, whether that step succeeds or not. *)
Theorem powered_off_node_restored (test : M unit) n (s s1 : Suite W C msd_vars) p ts :
  test = nonCoreAgent_It ∨ test = coreAgent_It →
  off (su_cloud s) = ∅ →
  rtc pool_step (msd_threads test n, s) (p :: ts, s1) → over p = true →
  (p = mret tt → off (su_cloud s1) = ∅) ∧
  off (su_cloud s1) ⊆ {[poweredOffNode (su_vars s1)]} ∪ refused (su_cloud s1) ∧
  (Platform_Name (cfg_Platform (e2eConfig (su_session s1))) = "Hetzner" →
   (cloud_PowerOn (poweredOffNode (su_vars s1)) (su_cloud s1)).1 = None →
   ∀ node, node ≠ "" → node ∉ refused (su_cloud s1) →
     node ∉ off (su_cloud (run msd_AfterEach s1).2)).
Proof.
  intros Ht Hs Hsteps Hp. unfold msd_threads in Hsteps.
  assert (Hpart : part power all_on test (λ _, all_on) remembered)
    by (destruct Ht as [-> | ->]; [apply part_nonCoreAgent|apply part_coreAgent]).
  assert (Hfio : Forall (λ q, ∀ t, keeps (λ s, power s = t) q) (map fio_thread (seq 0 n))).
  { apply Forall_forall. intros q (i & -> & _)%list_elem_of_fmap t. apply keeps_fio_thread. }
  destruct (part_pool power all_on test p (λ _, all_on) remembered _ _ _ _ Hsteps Hfio Hpart Hs)
    as (P' & Hp' & HP').
  split; [intros ->; exact (Hp' _ HP')|].
  assert (Hrec : remembered (power s1))
    by (destruct p; simpl in *; [apply all_on_recorded|..|discriminate]; by apply Hp').
  split; [exact Hrec|]. intros Hz Hon node Hnode Href.
  by apply (after_each_on s1 node).
Qed.

(** A load that fails counts as one that succeeded: when the command of fio is over in
    time, the status of the task is "success" whatever error it gave, and it is "failed"
    exactly when the command was not over in time. *)
Theorem failed_load_counts_as_success i podName hash thinkTime (s : Suite W C msd_vars) :
  let cmd := msd_fio_command podName FioFsFilename
    ["--rw=randwrite"; "--do_verify=0"; "--verify=" +:+ hash; "--verify_pattern=%o";
     "--thinktime=" +:+ Itoa thinkTime; "--thinktime_blocks=" +:+ Itoa msd_thinkTimeBlocks] in
  let w1 := (sh_CombinedOutput "" cmd (se_world (su_session s))).2 in
  let finished := (in_time msd_fioTimeoutSecs w1).1 in
  ∃ s', run (fioWriteOnly i podName hash thinkTime) s = (Ret tt, s') ∧
    apps (su_vars s') =
      alter (set_task (if finished then "success" else "failed")) i (apps (su_vars s)).
Proof.
  intros cmd w1 finished. unfold fioWriteOnly, msd_runFio, exec_cmd, exec_in, on_session.
  rewrite run_bind, run_lift, run_outside. fold cmd. cbn [seq_run fst snd world].
  destruct (sh_CombinedOutput _ cmd _) as [[out err] w] eqn:Ew. cbn [fst snd].
  rewrite run_bind, run_lift, run_outside. cbn [seq_run fst snd world].
  rewrite !world_set. subst finished w1. cbn [snd].
  destruct (in_time _ w).1; [|by eexists].
  rewrite run_bind. destruct err; cbn [run seq_run mret prog_mret]; [|by eexists].
  unfold on_app, set_vars. rewrite run_updates. cbn [seq_run]. rewrite run_updates.
  eexists. split; [done|]. cbn. by rewrite list_alter_alter_eq.
Qed.
End MsnPower.
