(* ===== verification/NodeTheorems.v ===== *)
(** * Theorems about the suites node_failure and node_shutdown *)

From stdpp Require Import base gmap sets strings list.
From Stdlib Require Import Ascii.
From S2P Require Import Prelude GoLib Json Http Shell Kube MayastorClient GoTime.
From S2P Require Import K8sPods K8sLib K8sApps ScriptedCluster Session ControlPlane CpTheorems.
From S2P Require Import E2ENodes E2EPods E2EUtil E2EPvc E2ECleanup E2ETest E2EDemo E2EBuilders.
From S2P Require Import InstallTheorems Suites NodeFailure NodeShutdown MsnShutdown SuiteTheorems.

(** ** Node failure *)

Section NodeFailure.
Context {K : Corev1} {W C : Type} `{Kube W} `{KubeApps W} `{Shell W} `{Http W} `{MapRange W}
  `{Clock W} `{Grpc W} `{Files W} `{System W} `{ConfigFiles W} `{Gomega W} `{!Deployments K W}
  `{HC : Cloud C} `{!PowerLaws C}.
Notation M := (prog (Suite W C nf_vars)).
Notation St := (Suite W C nf_vars).

#[local] Instance cloud_free_session (t : C) : WorldFree (S:=St) (W:=Session W) (λ s, su_cloud s = t).
Proof. intros s w <-. done. Qed.
#[local] Instance cloud_free_maps (t : C) : WorldFree (S:=St) (W:=Maps) (λ s, su_cloud s = t).
Proof. intros s w <-. done. Qed.

(** The machines that are off are among these. *)
Definition within (X : gset string) (c : C) : Prop := off c ⊆ X.

Lemma part_switch_off X what node :
  part su_cloud (within X) (switch_off (W:=W) (C:=C) what node)
    (λ _, within ({[node]} ∪ X)) (λ _, True).
Proof.
  unfold switch_off. eapply (part_bind _ _ _ _ (λ err c,
    match err with None => within ({[node]} ∪ X) c | Some _ => True end)).
  { eexists (λ err c, match err with None => within ({[node]} ∪ X) c | Some _ => True end).
    split; [|by intros x t Ht]. intros s err s' Hs [= <- <-]. unfold within in *. cbn in *.
    pose proof (off_PowerOff node (su_cloud s)) as Hp.
    destruct (cloud_PowerOff _ _).1; [done|]. rewrite Hp by done. set_solver. }
  intros [e|]; [by apply part_panic|by intros t Ht].
Qed.
Lemma part_switch_on X what node :
  part su_cloud (within X) (switch_on (W:=W) (C:=C) what node)
    (λ _, within (X ∖ {[node]})) (λ _, True).
Proof.
  unfold switch_on. eapply (part_bind _ _ _ _ (λ err c,
    match err with None => within (X ∖ {[node]}) c | Some _ => True end)).
  { eexists (λ err c, match err with None => within (X ∖ {[node]}) c | Some _ => True end).
    split; [|by intros x t Ht]. intros s err s' Hs [= <- <-]. unfold within in *. cbn in *.
    pose proof (off_PowerOn node (su_cloud s)) as Hp.
    destruct (cloud_PowerOn _ _).1; [done|]. rewrite Hp by done. set_solver. }
  intros [e|]; [by apply part_panic|by intros t Ht].
Qed.

Lemma keeps_getNexus t uuid :
  keeps (λ s : St, su_cloud s = t) (getNexusAndNonNexusNodes (W:=W) (C:=C) uuid).
Proof. unfold getNexusAndNonNexusNodes. solve_keeps. Qed.
Lemma keeps_nf_verifyNodeNotReady t node :
  keeps (λ s : St, su_cloud s = t) (nf_verifyNodeNotReady (W:=W) (C:=C) node).
Proof. unfold nf_verifyNodeNotReady. solve_keeps; apply keeps_Eventually; solve_keeps. Qed.
Lemma keeps_nf_verifyNodesReady t :
  keeps (λ s : St, su_cloud s = t) (nf_verifyNodesReady (W:=W) (C:=C)).
Proof. unfold nf_verifyNodesReady. solve_keeps; apply keeps_Eventually; solve_keeps. Qed.
Lemma keeps_nf_components t n :
  keeps (λ s : St, su_cloud s = t) (nf_verifyMayastorComponentStates (W:=W) (C:=C) n).
Proof.
  unfold nf_verifyMayastorComponentStates. solve_keeps; apply keeps_Eventually; solve_keeps.
Qed.
Lemma keeps_nf_verifyApp t c b :
  keeps (λ s : St, su_cloud s = t) (nf_verifyApplicationPodRunning (W:=W) (C:=C) c b).
Proof. unfold nf_verifyApplicationPodRunning. solve_keeps. Qed.
Hint Resolve keeps_getNexus keeps_nf_verifyNodeNotReady keeps_nf_verifyNodesReady
  keeps_nf_components keeps_nf_verifyApp : keeps.

Ltac frame := eapply part_bind; [apply part_frame; [solve [solve_keeps]|done]|intros ?].

(** The nodes that are switched off are switched on again before the test goes on. *)
Lemma part_RebootDesiredNodes X c uuid :
  part su_cloud (within X) (RebootDesiredNodes (W:=W) (C:=C) c uuid) (λ _, within X) (λ _, True).
Proof.
  unfold RebootDesiredNodes. frame. destruct a as [nexusNode nonNexusNodes].
  eapply part_bind; [|intros ?; apply part_frame; [solve_keeps|done]].
  destruct (nf_testType c);
    repeat first [frame | eapply part_bind; [first [apply part_switch_off|apply part_switch_on]
                                            |intros ?]];
    (eapply part_weaken; [apply part_switch_on|done| |done]); unfold within; set_solver.
Qed.

Lemma part_nodeRebootTests X c :
  part su_cloud (within X) (nodeRebootTests (W:=W) (C:=C) c) (λ _, within X) (λ _, True).
Proof.
  unfold nodeRebootTests, nf_createSC, nf_createPVC, nf_createDeployment. frame. frame. frame.
  eapply part_bind; [apply part_RebootDesiredNodes|intros ?].
  apply part_frame; [|done]. intros t. unfold nf_deleteDeployment, nf_deletePVC, nf_deleteSC.
  solve_keeps.
Qed.

(** Switching on what was noted. *)
Lemma run_switch_on_all (nodes : list string) (s : St) :
  (∀ node c, node ∈ nodes → (cloud_PowerOn (C:=C) node c).1 = None) →
  ∃ s', run (for_range nodes tt (λ node _,
      _ ← PowerOnNode node; mret (Next tt : ctl unit Empty_set))) s = (Ret (inl tt), s') ∧
    off (su_cloud s') = off (su_cloud s) ∖ list_to_set nodes.
Proof.
  intros Hon. revert s. induction nodes as [|node nodes IH]; intros s.
  - eexists. split; [done|]. set_solver.
  - rewrite run_for_range_cons, run_bind. unfold PowerOnNode at 1, on_cloud.
    rewrite run_action. cbn [seq_run]. rewrite run_done. cbn [seq_run].
    edestruct IH as (s' & E & Hs'); [intros; apply Hon; set_solver|].
    exists s'. split; [exact E|].
    rewrite Hs'. cbn. rewrite off_PowerOn by (apply Hon; set_solver). set_solver.
Qed.

Lemma nf_after_each_on (s : St) :
  Platform_Name (cfg_Platform (e2eConfig (su_session s))) = "Hetzner" →
  (∀ node c, node ∈ nf_nodes (su_vars s) → (cloud_PowerOn (C:=C) node c).1 = None) →
  off (su_cloud (run nf_AfterEach s).2) = off (su_cloud s) ∖ list_to_set (nf_nodes (su_vars s)).
Proof.
  intros Hz Hon. unfold nf_AfterEach, vars. rewrite run_bind, run_platform_Create, Hz.
  cbn [seq_run]. rewrite run_bind, run_reads. cbn [seq_run]. rewrite run_bind.
  rewrite bool_decide_true by done.
  destruct (run_switch_on_all (nf_nodes (su_vars s)) s Hon) as (s1 & E & Hs1).
  rewrite E. cbn [seq_run]. rewrite run_bind. cbn [run no_return seq_run].
  rewrite <-Hs1.
  assert (Hk : keeps (λ s' : St, su_cloud s' = su_cloud s1)
    (must (C:=C) (V:=nf_vars) "AfterEachCheck" (AfterEachCheck (W:=W)))) by solve_keeps.
  exact (f_equal off (keeps_run _ _ s1 Hk eq_refl)).
Qed.

(** (C22) A test of node_failure switches on what it switched off: when a test of any kind
    returns, every node that is off was off before.  However a test ends, the step that follows
    it switches on exactly the nodes the suite has noted, on the Hetzner platform and when the
    requests to switch these nodes on are answered without an error (the step does not look at
    the errors). *)
Theorem reboot_restores_power c (s : St) :
  let '(r, s1) := run (nodeRebootTests c) s in
  (r = Ret tt → off (su_cloud s1) ⊆ off (su_cloud s)) ∧
  (Platform_Name (cfg_Platform (e2eConfig (su_session s1))) = "Hetzner" →
   (∀ node c, node ∈ nf_nodes (su_vars s1) → (cloud_PowerOn (C:=C) node c).1 = None) →
   off (su_cloud (run nf_AfterEach s1).2) =
     off (su_cloud s1) ∖ list_to_set (nf_nodes (su_vars s1))).
Proof.
  pose proof (part_run su_cloud _ _ _ _ s (part_nodeRebootTests (off (su_cloud s)) c)) as Hp.
  destruct (run (nodeRebootTests c) s) as [r s1]. split.
  - intros ->. apply Hp. unfold within. reflexivity.
  - apply nf_after_each_on.
Qed.
End NodeFailure.

(** ** Node shutdown *)

(** A wait that ended saw what it waited for. *)
Lemma Eventually_ran {W C V A} `{Gomega W} `{Clock W} timeout interval
    (look : prog (Suite W C V) A) wanted what a s s' (I : Suite W C V → Prop) :
  WorldFree (W:=Session W) I → keeps I look →
  run (Eventually timeout interval look wanted what) s = (Ret a, s') → I s →
  ∃ s1, I s1 ∧ run look s1 = (Ret a, s') ∧ wanted a = true.
Proof.
  intros HI Hk E Hs. unfold Eventually in E. apply bind_ran in E as (n & s0 & E0 & E).
  assert (Hs0 : I s0).
  { replace s0 with (run (on_session (outside (eventually_retries timeout interval))) s).2
      by (by rewrite E0). apply (keeps_run I); [solve_keeps|done]. }
  apply bind_ran in E as (r & s2 & El & E). destruct r as [u|a']; [discriminate|].
  injection E as -> ->. unfold for_upto in El. clear E0 Hs s. revert s0 El Hs0.
  induction (seqZ 0 (Z.of_nat n + 1 - 0)) as [|i l IH]; intros s0 El Hs0; [discriminate|].
  rewrite run_for_range_cons, run_bind in El.
  pose proof (keeps_run I look s0 Hk Hs0) as Hs1.
  destruct (run look s0) as [[x| | |] s1] eqn:Ex; cbn [seq_run] in El; try discriminate.
  destruct (wanted x) eqn:Ew.
  - rewrite run_done in El. cbn in El. injection El as -> ->. eauto.
  - unfold on_session, time_Sleep in El. rewrite run_bind, run_lift, run_outside in El.
    cbn [seq_run fst snd] in El. rewrite run_done in El. cbn [seq_run] in El.
    eapply IH; [exact El|]. by apply HI.
Qed.

Lemma Expect_ran {W C V} b what (s s' : Suite W C V) u :
  run (Expect b what) s = (Ret u, s') → b = true ∧ s' = s.
Proof. by destruct b; [intros [= _ <-]|]. Qed.
Lemma Expect_success_ran {W C V} err what (s s' : Suite W C V) u :
  run (Expect_success err what) s = (Ret u, s') → err = None ∧ s' = s.
Proof. by destruct err; [|intros [= _ <-]]. Qed.
Lemma on_session_ran {W C V A} (p : prog (Session W) A) (s s' : Suite W C V) a :
  run (on_session p) s = (Ret a, s') →
  run p (su_session s) = (Ret a, su_session s') ∧ su_cloud s' = su_cloud s ∧
  su_vars s' = su_vars s.
Proof.
  unfold on_session. rewrite run_lift. cbn [world suite_session].
  destruct (run p (su_session s)) as [r x]. by intros [= -> <-].
Qed.

Section NodeShutdown.
Context {K : Corev1} {W C : Type} `{Kube W} `{KubeApps W} `{Shell W} `{Http W} `{MapRange W}
  `{Clock W} `{Grpc W} `{Files W} `{System W} `{ConfigFiles W} `{Gomega W} `{!Deployments K W}
  `{HC : Cloud C} `{!PowerLaws C}.
Notation St := (Suite W C string).

(** The machines and the node that is remembered. *)
Definition machines (s : St) : C * string := (su_cloud s, su_vars s).
#[local] Instance machines_free_session t : WorldFree (W:=Session W) (λ s, machines s = t).
Proof. intros s w <-. done. Qed.
#[local] Instance machines_free_maps t : WorldFree (W:=Maps) (λ s, machines s = t).
Proof. intros s w <-. done. Qed.

(** The application of the volume runs on the node of a nexus that is not the old one and has
    two children. *)
Definition moved_away (uuid oldNexusNode : string) (s1 s2 : Session W) : Prop :=
  ∃ msv err sg nodes,
    run (e2e_GetMSV uuid) s1 = (Ret (Some msv, err), sg) ∧
    run (GetNodeListForPods "e2e-test=shutdown" "default") sg = (Ret (nodes, None), s2) ∧
    let nexus := cv_Nexus (cv_Status msv) in
    cn_Node nexus ≠ oldNexusNode ∧ length (cn_Children nexus) = 2%nat ∧
    nodes !! cn_Node nexus = Some PodRunning.

Lemma nexus_moved_ran uuid old (s s' : St) :
  run (nexus_moved uuid old) s = (Ret true, s') →
  moved_away uuid old (su_session s) (su_session s').
Proof.
  unfold nexus_moved. intros E.
  apply bind_ran in E as ([msv err] & s1 & [E1 _]%on_session_ran & E).
  apply bind_ran in E as (? & ? & [Hm ->]%Expect_ran & E).
  apply bool_decide_eq_true in Hm as [m ->]. rewrite run_bind in E.
  change (run (deref (Some m)) s1) with (Ret m, s1) in E. cbn [seq_run] in E.
  apply bind_ran in E as (? & ? & [Hn ->]%Expect_ran & E).
  apply bind_ran in E as (? & ? & [Hl ->]%Expect_ran & E).
  apply bind_ran in E as ([nodes err'] & s2 & [E2 _]%on_session_ran & E).
  destruct err' as [e|]; [discriminate|].
  apply bind_ran in E as (? & ? & [Ha ->]%Expect_ran & [= <-]).
  unfold app_on in Ha. apply negb_true_iff, bool_decide_eq_false in Hn.
  apply bool_decide_eq_true in Hl, Ha. exists m, err, (su_session s1), nodes. auto.
Qed.

Lemma keeps_nexus_moved t uuid old : keeps (λ s, machines s = t) (nexus_moved (W:=W) (C:=C) uuid old).
Proof. unfold nexus_moved. solve_keeps. Qed.
Lemma keeps_nsd_verifyApp t c b :
  keeps (λ s, machines s = t) (nsd_verifyApplicationPodRunning (W:=W) (C:=C) c b).
Proof. unfold nsd_verifyApplicationPodRunning. solve_keeps. Qed.
Hint Resolve keeps_nexus_moved keeps_nsd_verifyApp : keeps.
Lemma keeps_nsd_components t n :
  keeps (λ s, machines s = t) (nsd_verifyMayastorComponentStates (W:=W) (C:=C) n).
Proof. unfold nsd_verifyMayastorComponentStates. solve_keeps. Qed.
Lemma keeps_nsd_verifyNodeNotReady t node :
  keeps (λ s, machines s = t) (nsd_verifyNodeNotReady (W:=W) (C:=C) node).
Proof. unfold nsd_verifyNodeNotReady. solve_keeps; apply keeps_Eventually; solve_keeps. Qed.
Hint Resolve keeps_nsd_components keeps_nsd_verifyNodeNotReady : keeps.
Lemma keeps_nsd_create t c : keeps (λ s, machines s = t)
  (nsd_createSC (W:=W) (C:=C) c ;; uuid ← nsd_createPVC c; nsd_createDeployment c ;; mret uuid).
Proof. unfold nsd_createSC, nsd_createPVC, nsd_createDeployment. solve_keeps. Qed.

(** A step that leaves the machines alone. *)
Lemma frame_ran {A} (p : prog St A) (s s' : St) a :
  run p s = (Ret a, s') → (∀ t, keeps (λ s, machines s = t) p) → machines s' = machines s.
Proof.
  intros E Hk. pose proof (keeps_run _ _ s (Hk (machines s)) eq_refl) as Hs. by rewrite E in Hs.
Qed.
Tactic Notation "skip" ident(E) ident(Hm) simple_intropattern(p) :=
  let s := fresh "s" in let F := fresh "F" in
  apply bind_ran in E as (p & s & F & E);
  apply frame_ran in F; [|solve [intros; solve_keeps]];
  apply (eq_trans F) in Hm; clear F.

Lemma PowerOff_ran node (s s' : St) :
  run (PowerOffNode node) s = (Ret None, s') →
  off (su_cloud s') = {[node]} ∪ off (su_cloud s) ∧ su_vars s' = su_vars s.
Proof.
  unfold PowerOffNode, on_cloud. rewrite run_action. intros [= Hn <-]. cbn in *.
  by rewrite off_PowerOff.
Qed.
Lemma PowerOn_ran node (s s' : St) :
  run (PowerOnNode node) s = (Ret None, s') →
  off (su_cloud s') = off (su_cloud s) ∖ {[node]} ∧ su_vars s' = su_vars s.
Proof.
  unfold PowerOnNode, on_cloud. rewrite run_action. intros [= Hn <-]. cbn in *.
  by rewrite off_PowerOn.
Qed.
Lemma set_vars_ran (v : string) (s s' : St) u :
  run (set_vars (λ _, v)) s = (Ret u, s') → machines s' = (su_cloud s, v).
Proof. unfold set_vars. rewrite run_updates. by intros [= _ <-]. Qed.

(** The steps up to the node being off. *)
Lemma node_shutdown_before c (k : string → string → prog St unit) (s s' : St) :
  run (nsd_createSC c ;; uuid ← nsd_createPVC c; nsd_createDeployment c ;;
       '(old, _) ← on_session (e2e_GetMsvNodes uuid);
       Expect (negb (bool_decide (old = ""))) "nexus node" ;;
       '(nodes, err) ← on_session (GetNodeListForPods "e2e-test=shutdown" "default");
       Expect_success err "GetNodeListForPods" ;;
       Expect (app_on nodes old) "application on the nexus node" ;;
       set_vars (λ _, old) ;;
       err ← PowerOffNode old; Expect_success err "PowerOffNode" ;; k uuid old) s = (Ret tt, s') →
  ∃ uuid old s1, run (k uuid old) s1 = (Ret tt, s') ∧ old ≠ "" ∧
    off (su_cloud s1) = {[old]} ∪ off (su_cloud s) ∧ su_vars s1 = old.
Proof.
  unfold nsd_createSC, nsd_createPVC, nsd_createDeployment. intros E.
  assert (Hm : machines s = machines s) by done. skip E Hm ?. skip E Hm uuid.
  skip E Hm ?. skip E Hm [old replicas].
  apply bind_ran in E as (? & ? & [Hold ->]%Expect_ran & E).
  apply negb_true_iff, bool_decide_eq_false in Hold.
  skip E Hm [nodes err]. skip E Hm ?. skip E Hm ?.
  apply bind_ran in E as (? & s7 & Hv%set_vars_ran & E).
  apply bind_ran in E as (err1 & s8 & Eoff & E).
  apply bind_ran in E as (? & ? & [-> ->]%Expect_success_ran & E).
  apply PowerOff_ran in Eoff as [Hoff Hv8]. exists uuid, old, s8.
  injection Hm as Hc _. injection Hv as Hc7 Hv7. rewrite Hoff, Hv8, Hc7, Hc. auto.
Qed.

(** (C21) The test of node_shutdown that passes has seen the volume follow its application: with
    the node of the old nexus off, the nexus was on another node with two children left, and
    the application ran on that node; in the end the old node is on again, nothing else has
    been switched, and no node is remembered. *)
Theorem node_shutdown_success c (s s' : St) :
  run (nodeShutdownTest c) s = (Ret tt, s') →
  ∃ uuid old (s1 s2 : St),
    old ≠ "" ∧ old ∈ off (su_cloud s1) ∧ su_vars s1 = old ∧
    moved_away uuid old (su_session s1) (su_session s2) ∧
    off (su_cloud s') = off (su_cloud s) ∖ {[old]} ∧ su_vars s' = "".
Proof.
  intros E. unfold nodeShutdownTest in E.
  apply (node_shutdown_before c (λ uuid old, _)) in E
    as (uuid & old & s1 & E & Hold & Hoff & Hv).
  assert (Hm : machines s1 = machines s1) by done.
  do 8 skip E Hm ?.
  apply bind_ran in E as (b & sw & Ew & E).
  assert (Hw : machines sw = machines s1).
  { rewrite <-Hm. eapply frame_ran; [exact Ew|]. intros. solve_keeps. }
  assert (Hk : keeps (λ s, machines s = machines s1) (nexus_moved (W:=W) (C:=C) uuid old))
    by solve_keeps.
  eapply (Eventually_ran _ _ _ _ _ _ _ _ (λ s, machines s = machines s1)) in Ew
    as (se & Hse & El & Hb); [|apply _|done|exact Hm]. cbn in Hb. subst b.
  apply bind_ran in E as (err & s9 & Eon & E).
  apply bind_ran in E as (? & ? & [-> ->]%Expect_success_ran & E).
  apply PowerOn_ran in Eon as [Hon Hv9].
  apply bind_ran in E as (? & s10 & Hv10%set_vars_ran & E).
  apply frame_ran in E;
    [|intros; unfold nsd_deleteDeployment, nsd_deletePVC, nsd_deleteSC; solve_keeps].
  exists uuid, old, se, sw. injection Hse as Hc Hve. injection Hw as Hcw Hvw.
  rewrite Hv10 in E. injection E as Hcs' Hvs'. split_and!; [done| | |by apply nexus_moved_ran| |done].
  - rewrite Hc, Hoff. set_solver.
  - by rewrite Hve.
  - rewrite Hcs', Hon, Hcw, Hoff. set_solver.
Qed.
End NodeShutdown.
