(* ===== verification/SuiteDemo.v ===== *)
(** * A scripted cluster for the suites

    The machines, the waits and the requests with which the theorems about the suites are
    tried: three nodes, a volume on each of them, and an application that a nexus follows. *)

From stdpp Require Import base gmap sets strings list.
From S2P Require Import Prelude GoLib Json Http Shell Kube MayastorClient GoTime.
From S2P Require Import K8sPods K8sLib K8sApps ScriptedCluster Session ControlPlane CpTheorems.
From S2P Require Import E2ENodes E2EPods E2EUtil E2EPvc E2ECleanup E2ETest E2EDemo E2EBuilders.
From S2P Require Import InstallTheorems Suites NodeFailure NodeShutdown MsnShutdown SuiteTheorems.
From S2P Require Import NodeTheorems.

#[local] Instance suite_corev1 : Corev1 := {
  ContainerPort := Z; EnvVar := string; ResourceRequirements := unit; no_resources := tt;
  Probe := unit; Lifecycle := unit; Affinity := unit; EmptyDirVolumeSource := unit;
}.
(** Every machine obeys. *)
#[local] Instance demo_machines : Cloud (gset string) := {
  cloud_PowerOn n c := (None, c ∖ {[n]});
  cloud_PowerOff n c := (None, {[n]} ∪ c);
  cloud_Reboot n c := (None, c);
  cloud_Status n c := ((if decide (n ∈ c) then "off" else "running", None), c);
  cloud_Detach _ c := (None, c);
  cloud_Attach _ _ c := (None, c);
}.
#[local] Program Instance machines_law : PowerLaws (gset string) := {
  off c := c; refused _ := ∅ }.
Solve All Obligations with done.
#[local] Instance suite_gomega : Gomega Cluster := { eventually_retries timeout interval c := (Z.to_nat (timeout / interval), c) }.
#[local] Instance suite_timer : Timer Cluster := { in_time _ c := (true, c) }.

(** One node is out of order between two points in time, and the application is not on it
    then. *)
Definition out (c : Cluster) : bool := bool_decide (60 * Second ≤ cl_clock c < 540 * Second)%Z.
Definition moved (c : Cluster) : bool := bool_decide (60 * Second ≤ cl_clock c)%Z.

Definition suite_pod (name node : string) : Pod :=
  mkPod (mkMeta name "" "" "" ∅ ∅ None 0 None)
    (mkPodSpec [] [] [] ∅ node RestartPolicyNever "" false) (mkPodStatus PodRunning "" [] "" []).
Definition ready_node (name ip : string) (ready : bool) : Node :=
  mkNode (node_meta (demo_node name ip)) (Addresses (demo_node name ip)) []
    (if ready then [mkCondition NodeReadyType ConditionTrue "KubeletReady"] else []).
Definition available : Deployment :=
  mkDeployment zero_meta None None [] [mkCondition DeploymentAvailable ConditionTrue ""].
Definition unavailable : Deployment := mkDeployment zero_meta None None [] [].
#[local] Instance suite_deployments : Deployments suite_corev1 Cluster :=
  { dep_CreateObj _ _ _ c := (inr tt, with_pods (inr [suite_pod "fio" "n1"]) c) }.

(** There is an application from the creation of a deployment to its deletion. *)
Definition app_pods (c : Cluster) : list Pod :=
  match cl_pods c with
  | inr (_ :: _) => [suite_pod "fio" (if moved c then "n2" else "n1")]
  | _ => []
  end.
Definition suite_apps : KubeApps Cluster := {|
  dep_Get ns _ c :=
    (inr (if bool_decide (ns = "default") && bool_decide (app_pods c = []) then unavailable
          else available), c);
  dep_List _ _ := ok [];
  dep_Update _ _ := ok available;
  dep_Delete _ _ c := (inr tt, with_pods (inr []) c);
  sts_Get _ _ := no;
  sts_List _ _ := ok [];
  sts_Update _ _ := no;
  ds_Get _ _ c := let n := if out c then 2%Z else 3%Z in (inr (mkDaemonSet zero_meta n n n n), c);
  ds_List _ := ok [];
  pods_Select _ _ c := (inr (app_pods c), c);
  pods_DeleteNow _ _ := no;
  nodes_Get name c := (inr (ready_node name "10.0.0.1" (negb (out c && bool_decide (name = "n1")))), c);
  ns_Get _ := no;
  ns_List := ok [];
  ns_Delete _ := no;
  sc_List := ok [];
  sc_DeleteNow _ := no;
  pvc_DeleteNow _ _ := no;
  pv_List := ok [];
  pv_Update _ := no;
  pv_DeleteNow _ := no;
  va_List := ok [];
  va_Delete _ := no;
|}.
Definition late_sc : StorageClass :=
  mkSC zero_meta "io.openebs.csi-mayastor" None (Some VolumeBindingWaitForFirstConsumer).
Definition suite_claim : PVC :=
  mkPVC (mkMeta "vol" "" "default" "v1" ∅ ∅ None 0 None) None [] "" None "pvc-v1" ClaimBound.
Definition no_claim : goerror := GoError "persistentvolumeclaims vol not found" NotFound.
Definition suite_kube : Kube Cluster := {|
  pods_List _ := ok [suite_pod "core-agents-0" "n1"]; pods_Get := pods_Get; pods_Create := pods_Create;
  pods_Delete := pods_Delete; nodes_List c := (inr (map (λ n, ready_node n "10.0.0.1" true) ["n1"; "n2"; "n3"]), c);
  pvc_Create _ _ := ok suite_claim; pvc_Get _ _ c := (match cl_pods c with inl e => inl e | inr _ => inr suite_claim end, c);
  pvc_Delete _ _ c := (inr tt, with_pods (inl no_claim) c);
  pvc_List _ := ok []; pv_Get _ c := (inl (GoError "persistentvolumes pvc-v1 not found" NotFound), c); sc_Create := sc_Create;
  sc_Get _ := ok late_sc; sc_Delete := sc_Delete; ns_Create := ns_Create;
  msp_Create := msp_Create; msp_Get := msp_Get; msp_Update := msp_Update;
  msp_Delete := msp_Delete; msp_List := ok []; msn_Get := msn_Get; msn_Delete := msn_Delete;
  msn_List := msn_List; msv_Get := msv_Get; msv_Update := msv_Update;
  msv_Delete := msv_Delete; msv_List := msv_List |}.

Definition node_json (c : Cluster) (n : string) : string :=
  "{'spec':{'id':'" +:+ n +:+ "','grpcEndpoint':'10.0.0.1:10124'},'state':{'id':'" +:+ n +:+
  "','status':'" +:+ (if out c && bool_decide (n = "n1") then "Unknown" else "Online") +:+ "'}}".
Definition volume_json (c : Cluster) : string :=
  match cl_pods c with inl _ => "{}" | inr _ =>
  "{'spec':{'num_replicas':3,'uuid':'v1'},'state':{'target':{'node':'" +:+
  (if moved c then "n2" else "n1") +:+
  "','children':[{'state':'Online'},{'state':'Online'}]},'status':'Online'}}"
  end.
Definition suite_shell : Shell Cluster := {|
  sh_CombinedOutput _ cmd c :=
    (match last cmd with
     | Some "nodes" => (json_text ("[" +:+ node_json c "n1" +:+ "," +:+ node_json c "n2" +:+ "," +:+
                                   node_json c "n3" +:+ "]"), None)
     | Some "v1" => (json_text (volume_json c), None)
     | Some "n1" => (json_text (node_json c "n1"), None)
     | Some "n2" => (json_text (node_json c "n2"), None)
     | Some "n3" => (json_text (node_json c "n3"), None)
     | _ => ("[]", None)
     end, c) |}.
Definition hetzner_config : E2EConfig :=
  mkConfig "default" "" "" (mkPlatform "Hetzner" false "mayastor" 0) demo_product false "" ""
    "/tmp/s" "1.0.0" "/bin" "registry" "" "" "mayadata/e2e-fio" "mayadata/e2e-fsx"
    false 2 false false "" false default_duty 0 0.
Definition suite_session : Session Cluster :=
  set_connect false (set_config hetzner_config (demo_session ["10.0.0.1"] empty_cluster)).
Definition suite_state {V} (v : V) : Suite Cluster (gset string) V := mkSuite suite_session ∅ ∅ v.
#[local] Existing Instance quiet_files. 
#[local] Existing Instance plain_config.
#[local] Existing Instance ready_system.
#[local] Existing Instance suite_kube.
#[local] Existing Instance suite_apps.
#[local] Existing Instance suite_shell.

(** ** The theorems at work *)

(** The node of the core agents is switched off, comes back of itself and is then taken for
    ready: the test ends there, and what follows it switches the node on. *)
Lemma powered_off_node_restored_witness :
  let s := suite_state (mkMsdVars "" [] []) in
  let s1 := (run coreAgent_It s).2 in
  off (su_cloud s1) = {["n1"]} ∧ poweredOffNode (su_vars s1) = "n1" ∧
  "n1" ∉ off (su_cloud (run msd_AfterEach s1).2).
Proof.
  intros s s1. split; [vm_compute; reflexivity|]. split; [vm_compute; reflexivity|].
  assert (Ho : over (final coreAgent_It s) = true) by (vm_compute; reflexivity).
  destruct (powered_off_node_restored coreAgent_It 3 s s1 (final coreAgent_It s)
    (map fio_thread (seq 0 3))) as (_ & _ & H).
  - by right.
  - reflexivity.
  - exact (pool_alone coreAgent_It (map fio_thread (seq 0 3)) s).
  - exact Ho.
  - apply H; [vm_compute; reflexivity|reflexivity|discriminate|by apply not_elem_of_empty].
Defined.

Lemma reboot_restores_power_witness :
  let s := suite_state (mkNfVars ["n1"; "n2"; "n3"] true) in
  let c := mkFailureConfig ShareProtoNvmf "ext4" 3 RebootNexusNode (6 * Minute) "sc" "pvc" 5120
             "deploy" "pod" in
  let s1 := (run (nodeRebootTests c) s).2 in
  run (nodeRebootTests c) s = (Ret tt, s1) ∧ off (su_cloud s1) ⊆ ∅.
Proof.
  intros s c s1.
  assert (E : run (nodeRebootTests c) s = (Ret tt, s1)) by (vm_compute; reflexivity).
  split; [exact E|]. pose proof (reboot_restores_power c s) as H. rewrite E in H.
  by apply H.
Defined.

(** The whole test passes: the application and the nexus of its volume go from the first node
    to the second. *)
Lemma node_shutdown_success_witness :
  let s := suite_state "" in
  let c := mkNsdConfig ShareProtoNvmf "ext4" 3 "sc" "pvc" "pod" 2048 "deploy" 3 in
  let s' := (run (nodeShutdownTest c) s).2 in
  run (nodeShutdownTest c) s = (Ret tt, s') ∧
  ∃ uuid old s1 s2, old ≠ "" ∧ moved_away uuid old s1 s2 ∧ off (su_cloud s') = ∅ ∖ {[old]}.
Proof.
  intros s c s'.
  assert (E : run (nodeShutdownTest c) s = (Ret tt, s')) by (vm_compute; reflexivity).
  split; [exact E|].
  destruct (node_shutdown_success c s s' E) as (uuid & old & s1 & s2 & ? & _ & _ & ? & ? & _).
  exists uuid, old, (su_session s1), (su_session s2).
  split; [assumption|split; assumption].
Defined.
