(* ===== verification/SuiteLib.v ===== *)
(** * What the suites about volumes and pools share

    The members of the configuration that only one suite reads; the volumes that a suite makes
    at once, in slots that goroutines fill (k8stest.CreatePvc and k8stest.DeletePvc); the waits
    for the space that pools report; the pods that load a volume; events. *)

From stdpp Require Import base gmap strings list.
From Stdlib Require Import Ascii.
From S2P Require Import Prelude GoLib Json Http Shell Kube MayastorClient GoTime.
From S2P Require Import K8sPods K8sLib K8sApps Session ControlPlane E2ENodes E2EPods E2EUtil.
From S2P Require Import E2EPvc E2ECleanup E2ETest E2EBuilders Suites.

(** ** What the configuration says about single suites

    The members of the configuration (common/e2e_config) that only one suite reads: nothing
    changes them once they were read, and a suite is given its part.  The values are those that
    hold when the configuration names none. *)

Record ConcurrentPvcCreate := mkConcurrentPvcCreate {
  cpc_Replicas : Z; cpc_VolSize : Z; cpc_Iterations : Z; cpc_VolumeMultipler : Z }.
Definition default_ConcurrentPvcCreate : ConcurrentPvcCreate := mkConcurrentPvcCreate 1 64 10 10.

Record PrimitiveMaxVolsInPool := mkPrimitiveMaxVolsInPool {
  mvp_VolMb : Z; mvp_VolumeCountPerPool : Z; mvp_Replicas : Z }.
Definition default_PrimitiveMaxVolsInPool : PrimitiveMaxVolsInPool :=
  mkPrimitiveMaxVolsInPool 64 110 2.

Record PvcCreateDelete := mkPvcCreateDelete {
  pcd_Replicas : Z; pcd_VolSize : Z; pcd_Iterations : Z; pcd_VolumeMultiplier : Z;
  pcd_DelayTime : Z }.
Definition default_PvcCreateDelete : PvcCreateDelete := mkPvcCreateDelete 3 20 1 110 10.

Record PrimitiveMspState := mkPrimitiveMspState {
  pms_ReplicaSize : Z; pms_PoolDeleteTimeoutSecs : string; pms_PoolCreateTimeoutSecs : string;
  pms_PoolUsageTimeoutSecs : string; pms_PoolUsageSleepTimeSecs : string;
  pms_IterationCount : Z }.
Definition default_PrimitiveMspState : PrimitiveMspState :=
  mkPrimitiveMspState 1073741824 "30s" "20s" "90s" "2s" 100.

Record PrimitiveMspStressTest := mkPrimitiveMspStressTest {
  pmst_PartitionSizeInGiB : Z; pmst_PartitionCount : Z; pmst_Iterations : Z }.
Definition default_PrimitiveMspStressTest : PrimitiveMspStressTest :=
  mkPrimitiveMspStressTest 1 5 10.

Record MaximumVolsIO := mkMaximumVolsIO {
  mvi_VolMb : Z; mvi_VolumeCountPerPod : Z; mvi_PodCount : Z; mvi_Duration : string;
  mvi_Timeout : string; mvi_ThinkTime : string }.
Definition default_MaximumVolsIO : MaximumVolsIO := mkMaximumVolsIO 64 10 11 "240s" "600s" "10ms".

Record PrimitiveFaultInjection := mkPrimitiveFaultInjection {
  pfi_VolMb : Z; pfi_Replicas : Z; pfi_Duration : string; pfi_Timeout : string;
  pfi_ThinkTime : string }.
Definition default_PrimitiveFaultInjection : PrimitiveFaultInjection :=
  mkPrimitiveFaultInjection 512 3 "240s" "420s" "10ms".

Record MsvRebuild := mkMsvRebuild {
  mrb_Replicas : Z; mrb_UpdatedReplica : Z; mrb_VolSize : Z; mrb_Timeout : string;
  mrb_PollPeriod : string; mrb_DurationSecs : Z; mrb_SleepSecs : Z }.
Definition default_MsvRebuild : MsvRebuild := mkMsvRebuild 1 2 50 "120s" "1s" 180 3.

Record PrimitiveMsvFuzz := mkPrimitiveMsvFuzz {
  pmf_VolMb : Z; pmf_VolumeCountPerPool : Z; pmf_Iterations : Z; pmf_Replicas : Z;
  pmf_InvalidReplicaCount : Z; pmf_UnsupportedProtocol : string; pmf_UnsupportedFsType : string;
  pmf_IncorrectScName : string; pmf_LargePvcSize : Z; pmf_VolCount : Z }.
Definition default_PrimitiveMsvFuzz : PrimitiveMsvFuzz :=
  mkPrimitiveMsvFuzz 64 2 2 1 (-1) "xyz" "xyz" "xyz" 11000000000000 115.

Record FsxExt4Stress := mkFsxExt4Stress {
  fes_VolMb : Z; fes_Replicas : Z; fes_FileSystemType : string; fes_NumberOfOperation : Z }.
Definition default_FsxExt4Stress : FsxExt4Stress := mkFsxExt4Stress 1024 3 "ext4" 9977777.

Record ScIscsiValidation := mkScIscsiValidation {
  siv_VolMb : Z; siv_Replicas : Z; siv_UnsupportedProtocol : string }.
Definition default_ScIscsiValidation : ScIscsiValidation := mkScIscsiValidation 1024 1 "iscsi".

Record BasicVolumeIO := mkBasicVolumeIO {
  bvi_FioTimeout : Z; bvi_VolSizeMb : Z; bvi_FsVolSizeMb : Z }.
Definition default_BasicVolumeIO : BasicVolumeIO := mkBasicVolumeIO 90 500 450.

(** Of io_soak; the think times are in the configuration itself. *)
Record IOSoakTest := mkIOSoakTest {
  ios_Replicas : Z; ios_Duration : string; ios_LoadFactor : Z; ios_Protocols : list string;
  ios_FioStartDelay : Z; ios_ReadyTimeout : string; ios_PodCount : Z; ios_FaultAfter : Z;
  ios_DisruptReadyTimeout : string }.
Definition default_IOSoakTest : IOSoakTest :=
  mkIOSoakTest 2 "60m" 10 ["nvmf"] 90 "600s" 3 51 "180s".

Definition go_newline : string := String "010" "".
Definition TrimSuffix (s suffix : string) : string :=
  if HasSuffix s suffix then String.substring 0 (String.length s - String.length suffix) s else s.

(** [make([]A, n)]. *)
Definition make_slice {S A} (n : Z) (zero : A) : prog S (list A) :=
  if decide (n < 0)%Z then Panic "makeslice: len out of range"
  else mret (replicate (Z.to_nat n) zero).

(** ** Slots that goroutines fill *)

Record VolumeSlots := mkVolumeSlots {
  pvcNames : list string;
  optsList : list PVC;
  uuids : list string;
  createErrs : list error;
  deleteErrs : list error;
}.
Definition set_uuids (f : list string → list string) (v : VolumeSlots) : VolumeSlots :=
  mkVolumeSlots (pvcNames v) (optsList v) (f (uuids v)) (createErrs v) (deleteErrs v).
Definition set_createErrs (f : list error → list error) (v : VolumeSlots) : VolumeSlots :=
  mkVolumeSlots (pvcNames v) (optsList v) (uuids v) (f (createErrs v)) (deleteErrs v).
Definition set_deleteErrs (f : list error → list error) (v : VolumeSlots) : VolumeSlots :=
  mkVolumeSlots (pvcNames v) (optsList v) (uuids v) (createErrs v) (f (deleteErrs v)).
Definition no_volumes : VolumeSlots := mkVolumeSlots [] [] [] [] [].

(** ** Events *)

Record K8sEvent := mkK8sEvent { EvType : string; EvMessage : string }.
(** The events of a namespace that a field selector lets through. *)
Class Events (W : Type) := { ev_List : string → string → answer W (list K8sEvent) }.

Section SuiteLib.
Context {W C : Type}.

(** ** Goroutines that are joined

    A body starts its goroutines and waits for all of them: they run as the schedule says, and
    one that does not bring them all to their end leaves the body blocked. *)
Definition ended {S A} (p : prog S A) : bool := match p with Done _ => true | _ => false end.
Definition go_all {S} (sched : list nat) (threads : list (prog S unit)) : prog S unit :=
  guarded (λ s,
    match pool_run sched threads s with
    | Some (ts, s') => if forallb ended ts then Some (tt, s') else None
    | None => None
    end).

Section Steps.
Context {K : Corev1} {V : Type} `{Kube W} `{KubeApps W} `{Shell W} `{Http W} `{MapRange W}
  `{Clock W} `{Grpc W} `{Files W} `{System W} `{ConfigFiles W} `{Gomega W} `{!Events W}.
Notation M := (prog (Suite W C V)).

(** A function whose result is wanted for as long as it is looked at. *)
Definition Consistently {A} (duration interval : Z) (look : M A) (wanted : A → bool)
    (what : string) : M unit :=
  retries ← on_session (outside (eventually_retries duration interval));
  r ← for_upto 0 (Z.of_nat retries + 1) tt (λ _ _,
        a ← look;
        Expect (wanted a) what ;;
        on_session (time_Sleep (interval * Second)) ;;
        mret (Next tt));
  no_return r.

Definition GetEvents (nameSpace fieldSelector : string) : prog (Session W) (list K8sEvent * error) :=
  kube_call [] (ev_List nameSpace fieldSelector).

(** ** Storage classes and claims *)

Definition create_class (scName protocol : string) (replicas : Z) (fsType : string) : M unit :=
  must "Creating storage class" (
    b ← e2e_NewScBuilder;
    BuildAndCreate (sc_WithFileSystemType fsType (sc_WithReplicas replicas
      (sc_WithProtocol protocol (sc_WithNamespace "default" (sc_WithName scName b)))))).
(** A class of volumes that are used on the node they are on. *)
Definition create_local_class (scName protocol : string) (replicas : Z) : M unit :=
  must "Creating storage class" (
    b ← e2e_NewScBuilder;
    BuildAndCreate (sc_WithLocal true (sc_WithReplicas replicas
      (sc_WithProtocol protocol (sc_WithNamespace "default" (sc_WithName scName b)))))).
Definition delete_class (scName : string) : M unit :=
  must "Deleting storage class" (RmStorageClass scName).

Definition make_volume (sizeMb : Z) (pvcName scName : string) (volType : VolumeType) : M string :=
  '(uuid, err) ← on_session (e2e_MkPVC sizeMb pvcName scName volType "default");
  Expect_success err "failed to create pvc" ;;
  mret uuid.
Definition remove_volume (pvcName scName : string) : M unit :=
  must "failed to delete pvc" (RmPVC pvcName scName "default").

(** The number of nodes of Mayastor. *)
Definition msnList : M Z :=
  '(names, err) ← on_session e2e_GetMayastorNodeNames;
  Expect_success err "GetMayastorNodeNames" ;;
  mret (Z.of_nat (length names)).

(** ** The space that pools report *)

Definition checkPoolUsedSize (timeoutSec sleepTimeSec : Z) (poolName : string) (usedSize : Z)
    : M error :=
  r ← for_upto 0 ((timeoutSec + sleepTimeSec - 1) `quot` sleepTimeSec) tt (λ _ _,
        on_session (time_Sleep (sleepTimeSec * Second)) ;;
        '(pool, err) ← on_session (e2e_GetMsPool poolName);
        Expect_success err "failed to get mayastor pool" ;;
        pool ← deref pool;
        if decide (cp_Used (cp_Status pool) = usedSize) then mret (Return None)
        else mret (Next tt));
  mret (match r with
        | inr err => err
        | inl _ => errorf ("pool " +:+ poolName +:+ " used size did not reconcile in " +:+
                           Itoa timeoutSec +:+ " seconds")
        end).

(** Every pool has to report the space that is expected of it. *)
Definition each_pool_used (check : CmPool → M error) : M unit :=
  '(crdPools, err) ← on_session e2e_ListMsPools;
  Expect_success err "List pools via CRD failed" ;;
  r ← for_range crdPools tt (λ crdPool _,
        err ← check crdPool;
        Expect_success err "failed to verify used size of pool" ;;
        mret (Next tt));
  no_return r.
Definition wait_pools_used (timeoutSec sleepTimeSec size : Z) : M unit :=
  each_pool_used (λ crdPool, checkPoolUsedSize timeoutSec sleepTimeSec (cp_Name crdPool) size).

(** ** A volume that is there, and one that has gone *)

Definition expect_pvc (volName : string) : M PVC :=
  '(pvc, err) ← on_session (GetPVC volName "default");
  Expect_success err "Failed to get PVC" ;;
  mret pvc.
Definition pvc_phase (volName : string) : M string :=
  '(phase, err) ← on_session (e2e_GetPvcStatusPhase volName "default");
  Expect_success err "failed to get pvc phase" ;;
  mret phase.
(** The volume of a claim is provisioned and bound, and Mayastor has it. *)
Definition await_provisioned (pvc : PVC) : M unit :=
  _ ← Eventually 90 1 (on_session (GetPV (PvcVolumeName pvc)))
        (λ r, bool_decide (r.2 = None)) "pv";
  _ ← Eventually 90 1
        ('(phase, err) ← on_session (e2e_GetPvStatusPhase (PvcVolumeName pvc));
         Expect_success err "failed to get pv phase" ;;
         mret phase) (λ phase, bool_decide (phase = VolumeBound)) "pv bound";
  _ ← Eventually 90 1
        ('(msv, err) ← on_session (e2e_GetMSV (UID (pvc_meta pvc)));
         Expect_success err "GetMSV" ;;
         mret msv) (λ msv, bool_decide (is_Some msv)) "msv";
  mret tt.

Definition await_pvc_deleted (timeout : Z) (volName : string) : M unit :=
  _ ← Eventually timeout 1 ('(status, _) ← on_session (IsPVCDeleted volName "default");
                            mret status) id "pvc deleted";
  mret tt.
Definition await_msv_deleted (timeout : Z) (uuid : string) : M unit :=
  _ ← Eventually timeout 1 (on_session (e2e_IsMsvDeleted uuid)) id "msv deleted";
  mret tt.

(** ** Pods with a load *)

(** The container of a load on a volume, and the pod that runs it once. *)
Definition load_container (podName : string) (args : list string)
    : prog (Session W) Container :=
  image ← GetFioImage;
  mret (mkContainer podName image PullAlways args None [] []).
Definition load_pod (podName pvcName : string) (volType : VolumeType)
    (place : PodBuilder → PodBuilder) (container : Container)
    : prog (Session W) (option Pod * error) :=
  b ← WithVolumeDeviceOrMount volType
        (place (WithVolume (mkVolume "ms-volume" (Some pvcName))
          (WithContainer container (WithRestartPolicy RestartPolicyNever
            (WithNamespace NSDefault (WithName podName NewPodBuilder))))));
  e2e_Build b.
Definition create_pod (obj : option Pod * error) : M unit :=
  Expect_success obj.2 "Generating fio pod definition" ;;
  Expect (bool_decide (is_Some obj.1)) "failed to generate fio pod definition" ;;
  podObj ← deref obj.1;
  '(_, err) ← on_session (e2e_CreatePod podObj NSDefault);
  Expect_success err "Creating fio pod".
Definition create_load (podName pvcName : string) (volType : VolumeType)
    (place : PodBuilder → PodBuilder) (args : list string) : M unit :=
  container ← on_session (load_container podName args);
  obj ← on_session (load_pod podName pvcName volType place container);
  create_pod obj.
Definition await_running (timeout : Z) (podName : string) : M unit :=
  _ ← Eventually timeout 1 (on_session (IsPodRunning podName NSDefault)) id "fio pod running";
  mret tt.
(** An error of looking is an unknown phase. *)
Definition await_phase (timeout : Z) (podName wanted : string) : M unit :=
  _ ← Eventually timeout 5
        ('(phase, err) ← on_session (CheckPodCompleted podName NSDefault);
         mret (match err with Some _ => PodUnknown | None => phase end))
        (λ phase, bool_decide (phase = wanted)) "fio pod phase";
  mret tt.
Definition remove_pod (podName : string) : M unit :=
  must "DeletePod" (e2e_DeletePod podName NSDefault).
End Steps.

(** ** What goes on around the tests of a suite *)

Section Around.
Context {K : Corev1} {V : Type} `{Kube W} `{KubeApps W} `{Shell W} `{Http W} `{MapRange W}
  `{Clock W} `{Grpc W} `{Files W} `{System W} `{ConfigFiles W} `{Gomega W}.
Notation M := (prog (Suite W C V)).

Definition before_suite : M unit := must "failed to setup test environment" SetupTestEnv.
Definition before_each : M unit := must "BeforeEachCheck" BeforeEachCheck.
Definition after_each : M unit := must "AfterEachCheck" AfterEachCheck.
End Around.

(** ** Making and removing many volumes at once *)

Section Volumes.
Context {K : Corev1} `{Kube W}.
Notation M := (prog (Suite W C VolumeSlots)).

(** The claims of a test. *)
Definition volume_claim (sizeMb : Z) (scName pvcName : string) : PVC :=
  pvc_of sizeMb pvcName scName VolFileSystem "default".

(** [k8stest.CreatePvc(&c.optsList[i], &c.createErrs[i], &c.uuid[i], &wg)]: the error is
    written first. *)
Definition CreatePvc (i : nat) (createOpts : PVC) : M unit :=
  '(pvc, err) ← on_session (kube_call zero_pvc (pvc_Create (Namespace (pvc_meta createOpts))
                                                  createOpts));
  set_vars (set_createErrs (<[i := err]>)) ;;
  set_vars (set_uuids (<[i := UID (pvc_meta pvc)]>)).
(** [k8stest.DeletePvc(name, ns, errBuf, &wg)], with the slot that the pointer leads to. *)
Definition DeletePvc (note : error → VolumeSlots → VolumeSlots) (volName : string) : M unit :=
  err ← on_session (kube_do (pvc_Delete "default" volName));
  set_vars (note err).

(** [go k8stest.CreatePvc(...)] for every slot, and the wait for all of them. *)
Definition create_parallel (sched : list nat) : M unit :=
  v ← vars;
  started ← for_range (seq 0 (length (pvcNames v))) [] (λ i started,
    opts ← index (optsList v) (Z.of_nat i);
    _ ← index (createErrs v) (Z.of_nat i);
    _ ← index (uuids v) (Z.of_nat i);
    mret (Next (started ++ [(i, opts)])%list));
  started ← no_return started;
  go_all sched (map (λ '(i, opts), CreatePvc i opts) started).
Definition delete_parallel (slots : VolumeSlots → list error)
    (note : nat → error → VolumeSlots → VolumeSlots) (sched : list nat) : M unit :=
  v ← vars;
  started ← for_range (seq 0 (length (pvcNames v))) [] (λ i started,
    name ← index (pvcNames v) (Z.of_nat i);
    _ ← index (slots v) (Z.of_nat i);
    mret (Next (started ++ [(i, name)])%list));
  started ← no_return started;
  go_all sched (map (λ '(i, name), DeletePvc (note i) name) started).

(** One after the other. *)
Definition create_serial : M unit :=
  v ← vars;
  r ← for_range (seq 0 (length (pvcNames v))) tt (λ i _,
        opts ← index (optsList v) (Z.of_nat i);
        '(pvc, err) ← on_session (e2e_CreatePVC opts "default");
        _ ← index (createErrs v) (Z.of_nat i);
        set_vars (set_createErrs (<[i := err]>)) ;;
        _ ← index (uuids v) (Z.of_nat i);
        set_vars (set_uuids (<[i := UID (pvc_meta pvc)]>)) ;;
        mret (Next tt));
  no_return r.

(** [for ix := range c.pvcNames], with the volumes as they are then. *)
Definition for_volumes (body : nat → string → M unit) : M unit :=
  v ← vars;
  r ← for_range (seq 0 (length (pvcNames v))) tt (λ i _,
        v ← vars;
        name ← index (pvcNames v) (Z.of_nat i);
        body i name ;;
        mret (Next tt));
  no_return r.
(** What a slot holds. *)
Definition slot {A} (f : VolumeSlots → list A) (i : nat) : M A :=
  v ← vars; index (f v) (Z.of_nat i).
End Volumes.
End SuiteLib.
