(* ===== verification/PrimitiveVolumes.v ===== *)
(** * The suites primitive_volumes and primitive_max_volumes_in_pool

    Many volumes made and removed, one after the other and all at once: a number for every
    node of Mayastor, and a number for every pool. *)

From stdpp Require Import base gmap strings list.
From S2P Require Import Prelude GoLib Json Http Shell Kube MayastorClient GoTime.
From S2P Require Import K8sPods K8sLib K8sApps Session ControlPlane E2ENodes E2EPods E2EUtil.
From S2P Require Import E2EPvc E2ECleanup E2ETest E2EBuilders Suites SuiteLib.

(** What does not change of [pvcConcurrentConfig]; the volumes are the state. *)
Record pvcConcurrentConfig := mkPvcConcurrentConfig {
  pv_protocol : string;
  pv_fsType : string;
  pv_replicas : Z;
  pv_iterations : Z;
  pv_scName : string;
  pv_pvcSize : Z;
  pv_volumeCount : Z;
}.
Record primitiveMaxVolConfig := mkPrimitiveMaxVolConfig {
  mv_protocol : string;
  mv_fsType : string;
  mv_replicas : Z;
  mv_volumeCount : Z;
  mv_scName : string;
  mv_pvcSize : Z;
}.

Section PrimitiveVolumes.
Context {K : Corev1} {W C : Type} `{Kube W} `{KubeApps W} `{Shell W} `{Http W} `{MapRange W}
  `{Clock W} `{Grpc W} `{Files W} `{System W} `{ConfigFiles W} `{Gomega W}.
Notation M := (prog (Suite W C VolumeSlots)).

(** ** Removing (both suites)

    The slots of the errors of removing are looked at; the goroutines that remove write to
    those of making. *)
Definition removeVolumes (sched : list nat) : M unit :=
  delete_parallel createErrs (λ i err, set_createErrs (<[i := err]>)) sched.
Definition verifyVolumesDeletion : M unit :=
  for_volumes (λ ix name,
    err ← slot deleteErrs ix;
    Expect_success err "failed to delete PVC" ;;
    await_pvc_deleted 90 name ;;
    uuid ← slot uuids ix;
    await_msv_deleted 90 uuid).

(** ** primitive_volumes *)

Definition pv_timeoutSec : Z := 120.
Definition pv_sleepTimeSec : Z := 2.

Definition generatePvcConcurrentConfig (params : ConcurrentPvcCreate) (testName : string)
    (volCount : Z) : M pvcConcurrentConfig :=
  let c := mkPvcConcurrentConfig ShareProtoNvmf "ext4" (cpc_Replicas params)
             (cpc_Iterations params) (testName +:+ "-sc") (cpc_VolSize params)
             (wrap64 (volCount * cpc_VolumeMultipler params)) in
  createErrs ← make_slice (pv_volumeCount c) None;
  deleteErrs ← make_slice (pv_volumeCount c) None;
  uuid ← make_slice (pv_volumeCount c) "";
  let names := map (λ ix, testName +:+ "-pvc-" +:+ Itoa ix) (seqZ 0 (pv_volumeCount c)) in
  set_vars (λ _, mkVolumeSlots names (map (volume_claim (pv_pvcSize c) (pv_scName c)) names) uuid
                   createErrs deleteErrs) ;;
  mret c.

Definition pv_createStorageClass (c : pvcConcurrentConfig) : M unit :=
  create_class (pv_scName c) (pv_protocol c) (pv_replicas c) (pv_fsType c).
Definition pv_deleteSC (c : pvcConcurrentConfig) : M unit := delete_class (pv_scName c).
Definition createSerialPVC (c : pvcConcurrentConfig) (pvcName : string) : M unit :=
  _ ← make_volume (pv_pvcSize c) pvcName (pv_scName c) VolFileSystem; mret tt.
Definition deleteSerialPVC (c : pvcConcurrentConfig) (pvcName : string) : M unit :=
  remove_volume pvcName (pv_scName c).

(** One look at all claims: every one is looked at, bound or not. *)
Definition all_bound : M bool :=
  v ← vars;
  r ← for_range (pvcNames v) true (λ volName allBound,
        phase ← pvc_phase volName;
        mret (Next (allBound && bool_decide (phase = ClaimBound))));
  no_return r.
Definition pv_verifyVolumesCreation : M unit :=
  for_volumes (λ ix name,
    err ← slot createErrs ix;
    Expect_success err "failed to create PVC" ;;
    _ ← expect_pvc name;
    mret tt) ;;
  r ← for_upto 0 30 false (λ _ _,
        allBound ← all_bound;
        on_session (time_Sleep (10 * Second)) ;;
        mret (if allBound : bool then Break true else Next false));
  allBound ← no_return r;
  Expect allBound "all pvcs were not bound" ;;
  for_volumes (λ _ name, pvc ← expect_pvc name; await_provisioned pvc).

Definition pv_waitForMspUsedSize (size : Z) : M unit :=
  wait_pools_used pv_timeoutSec pv_sleepTimeSec size.

(** The schedules of the rounds: of making and of removing. *)
Definition pvcConcurrentTest (sched : Z → list nat * list nat) (c : pvcConcurrentConfig) : M unit :=
  pv_createStorageClass c ;;
  r ← for_upto 0 (pv_iterations c) tt (λ ix _,
        create_parallel (sched ix).1 ;;
        pv_verifyVolumesCreation ;;
        removeVolumes (sched ix).2 ;;
        verifyVolumesDeletion ;;
        mret (Next tt));
  no_return r ;;
  pv_deleteSC c ;;
  pv_waitForMspUsedSize 0.

Definition for_names (body : string → M unit) : M unit :=
  v ← vars;
  r ← for_range (pvcNames v) tt (λ pvcName _, body pvcName ;; mret (Next tt));
  no_return r.
Definition pvcSerialTest (c : pvcConcurrentConfig) : M unit :=
  pv_createStorageClass c ;;
  r ← for_upto 0 (pv_iterations c) tt (λ _ _,
        for_names (createSerialPVC c) ;;
        for_names (deleteSerialPVC c) ;;
        mret (Next tt));
  no_return r ;;
  pv_deleteSC c ;;
  pv_waitForMspUsedSize 0.

(** ** primitive_max_volumes_in_pool *)

Definition mv_timeoutSec : Z := 90.
Definition mv_sleepTimeSec : Z := 2.

(** The claims of every pool bear the name of its node. *)
Definition generatePrimitiveMaxVolConfig (params : PrimitiveMaxVolsInPool) (testName : string)
    : M primitiveMaxVolConfig :=
  let c := mkPrimitiveMaxVolConfig ShareProtoNvmf "ext4" (mvp_Replicas params)
             (mvp_VolumeCountPerPool params) (testName +:+ "-sc") (mvp_VolMb params) in
  '(pools, err) ← on_session e2e_ListMsPools;
  Expect_success err "List pools via CRD failed" ;;
  let names := pools ≫= λ pool,
    map (λ ix, testName +:+ "-" +:+ cp_Node (cp_Spec pool) +:+ "-pvc-" +:+ Itoa ix)
      (seqZ 0 (mv_volumeCount c)) in
  let n := wrap64 (mv_volumeCount c * Z.of_nat (length pools)) in
  createErrs ← make_slice n None;
  deleteErrs ← make_slice n None;
  uuid ← make_slice n "";
  set_vars (λ _, mkVolumeSlots names (map (volume_claim (mv_pvcSize c) (mv_scName c)) names) uuid
                   createErrs deleteErrs) ;;
  mret c.

Definition mv_createSC (c : primitiveMaxVolConfig) : M unit :=
  create_class (mv_scName c) (mv_protocol c) (mv_replicas c) (mv_fsType c).
Definition mv_deleteSC (c : primitiveMaxVolConfig) : M unit := delete_class (mv_scName c).
Definition createPVCs : M unit := create_serial.
Definition createVolumes (sched : list nat) : M unit := create_parallel sched.
Definition deletePVC (c : primitiveMaxVolConfig) : M unit :=
  for_names (λ pvc, remove_volume pvc (mv_scName c)).

Definition mv_verifyVolumesCreation : M unit :=
  for_volumes (λ ix volName,
    err ← slot createErrs ix;
    Expect_success err "failed to create PVC" ;;
    _ ← expect_pvc volName;
    _ ← Eventually 90 1 (pvc_phase volName) (λ phase, bool_decide (phase = ClaimBound))
          "pvc bound";
    pvc ← expect_pvc volName;
    await_provisioned pvc).

(** The replicas of a pool, asked of the first node of Mayastor that has the name. *)
Definition poolReplicaCount (poolName nodeName : string) : M Z :=
  '(nodes, err) ← on_session e2e_GetNodeLocs;
  Expect_success err "failed to get nodes" ;;
  match head (filter (λ node, MayastorNode_ node = true ∧ LocName node = nodeName) nodes) with
  | None => mret 0%Z
  | Some node =>
      '(replicas, err) ← on_session (ListReplicas [IPAddress node]);
      Expect_success err "failed to list replica on node" ;;
      mret (Z.of_nat (length (filter (λ r, RiPool r = poolName) replicas)))
  end.
(** The product is one of unsigned numbers of 64 bits. *)
Definition expectedUsedPoolSize (size replicaCount : Z) : Z :=
  uwrap64 (1024 * 1024 * uwrap64 size * replicaCount).
Definition verifyMspUsedSize (size : Z) : M unit :=
  each_pool_used (λ crdPool,
    replicaCount ← poolReplicaCount (cp_Name crdPool) (cp_Node (cp_Spec crdPool));
    checkPoolUsedSize mv_timeoutSec mv_sleepTimeSec (cp_Name crdPool)
      (expectedUsedPoolSize size replicaCount)).

Definition serialMaxVolumeInPoolTest (c : primitiveMaxVolConfig) : M unit :=
  mv_createSC c ;;
  createPVCs ;;
  mv_verifyVolumesCreation ;;
  verifyMspUsedSize (mv_pvcSize c) ;;
  deletePVC c ;;
  mv_deleteSC c ;;
  verifyMspUsedSize 0.
Definition concurrentMaxVolumeInPoolTest (sched : list nat * list nat)
    (c : primitiveMaxVolConfig) : M unit :=
  mv_createSC c ;;
  createVolumes sched.1 ;;
  mv_verifyVolumesCreation ;;
  verifyMspUsedSize (mv_pvcSize c) ;;
  removeVolumes sched.2 ;;
  verifyVolumesDeletion ;;
  mv_deleteSC c ;;
  verifyMspUsedSize 0.

(** ** The tests themselves *)

Definition pv_serial_It (params : ConcurrentPvcCreate) : M unit :=
  volCount ← msnList;
  c ← generatePvcConcurrentConfig params "serial-pvc-create" volCount;
  pvcSerialTest c.
Definition pv_concurrent_It (params : ConcurrentPvcCreate) (sched : Z → list nat * list nat)
    : M unit :=
  volCount ← msnList;
  c ← generatePvcConcurrentConfig params "concurrent-pvc-create" volCount;
  pvcConcurrentTest sched c.
Definition mv_serial_It (params : PrimitiveMaxVolsInPool) : M unit :=
  c ← generatePrimitiveMaxVolConfig params "primitive-max-volume-pool";
  serialMaxVolumeInPoolTest c.
Definition mv_concurrent_It (params : PrimitiveMaxVolsInPool) (sched : list nat * list nat)
    : M unit :=
  c ← generatePrimitiveMaxVolConfig params "primitive-max-volume-pool";
  concurrentMaxVolumeInPoolTest sched c.
End PrimitiveVolumes.
