(* ===== verification/ClaimSuites.v ===== *)
(** * The suites MQ-2632-pvc_create_delete, MQ-2644-invalid_volume_sizes and primitive_fuzz_msv

    Claims that are made and removed in large numbers before they are bound, claims that
    cannot be satisfied, and claims that nothing can satisfy. *)

From stdpp Require Import base gmap strings list.
From S2P Require Import Prelude GoLib Json Http Shell Kube MayastorClient GoTime.
From S2P Require Import K8sPods K8sLib K8sApps Session ControlPlane E2ENodes E2EPods E2EUtil.
From S2P Require Import E2EPvc E2ECleanup E2ETest E2EBuilders Suites SuiteLib.

(** [pvcCreateDeleteConfig]; the delay is in minutes. *)
Record pvcCreateDeleteConfig := mkPvcCreateDeleteConfig {
  pc_protocol : string;
  pc_fsType : string;
  pc_replicas : Z;
  pc_iterations : Z;
  pc_scName : string;
  pc_pvcNames : list string;
  pc_pvcSizeMB : Z;
  pc_delayTime : Z;
}.
(** [pvcConfig] of MQ-2644; the delay is in seconds. *)
Record pvcConfig := mkPvcConfig {
  iv_protocol : string;
  iv_volType : VolumeType;
  iv_fsType : string;
  iv_replicas : Z;
  iv_scName : string;
  iv_pvcName : string;
  iv_pvcSizeMB : Z;
  iv_delayTime : Z;
  iv_testName : string;
}.
Record PrimitiveMsvFuzzConfig := mkPrimitiveMsvFuzzConfig {
  fz_Protocol : string;
  fz_FsType : string;
  fz_Replicas : Z;
  fz_VolumeCount : Z;
  fz_PvcScName : string;
  fz_ScName : string;
  fz_TestName : string;
  fz_PvcSize : Z;
  fz_Iterations : Z;
}.

Section ClaimSuites.
Context {K : Corev1} {W C : Type} `{Kube W} `{KubeApps W} `{Shell W} `{Http W} `{MapRange W}
  `{Clock W} `{Grpc W} `{Files W} `{System W} `{ConfigFiles W} `{Gomega W} `{!Events W}.

(** ** MQ-2632-pvc_create_delete *)

Section PvcCreateDelete.
Context {V : Type}.
Notation M := (prog (Suite W C V)).

Definition pc_timeoutSec : Z := 180.
Definition pc_sleepTimeSec : Z := 2.
Definition pc_defTimeoutSecs : Z := 3600.

Definition generatePvcCreateDeleteConfig (params : PvcCreateDelete) (testName : string)
    (volCount : Z) : pvcCreateDeleteConfig :=
  mkPvcCreateDeleteConfig ShareProtoNvmf "ext4" (pcd_Replicas params) (pcd_Iterations params)
    (testName +:+ "-sc")
    (map (λ ix, testName +:+ "-pvc-" +:+ Itoa ix)
       (seqZ 0 (wrap64 (volCount * pcd_VolumeMultiplier params))))
    (pcd_VolSize params) (pcd_DelayTime params).

Definition pc_createPVC (c : pvcCreateDeleteConfig) (pvcName : string) : M unit :=
  '(_, err) ← on_session (e2e_CreatePVC (volume_claim (pc_pvcSizeMB c) (pc_scName c) pvcName)
                            "default");
  Expect_success err "Failed to create pvc".
Definition pc_deletePVC (pvcName : string) : M unit :=
  must "PVC deletion failed" (e2e_DeletePVC pvcName "default").

(** Until a list that must be had is empty. *)
Definition await_nothing (look : prog (Session W) (bool * error)) (what : string) : M unit :=
  _ ← Eventually pc_defTimeoutSecs 6
        ('(found, err) ← on_session look;
         Expect_success err "failed to list" ;;
         mret found) negb what;
  mret tt.
Definition waitForPvcDeletion : M unit := await_nothing CheckForPVCs "all PVC are not getting deleted".
Definition waitForPvDeletion : M unit := await_nothing CheckForPVs "all PV are not getting deleted".
Definition waitForMsvDeletion : M unit :=
  _ ← Eventually pc_defTimeoutSecs 6
        ('(msv, err) ← on_session e2e_ListMsvs;
         Expect_success err "failed to list msv" ;;
         mret msv) (λ msv, bool_decide (length msv = 0%nat)) "all msv are not getting deleted";
  mret tt.

Definition pvcCreateDeleteTest (c : pvcCreateDeleteConfig) : M unit :=
  create_class (pc_scName c) (pc_protocol c) (pc_replicas c) (pc_fsType c) ;;
  r ← for_upto 0 (pc_iterations c) tt (λ _ _,
        r ← for_range (pc_pvcNames c) tt (λ pvcName _, pc_createPVC c pvcName ;; mret (Next tt));
        no_return r ;;
        on_session (time_Sleep (wrap64 (pc_delayTime c * Minute))) ;;
        r ← for_range (pc_pvcNames c) tt (λ pvcName _, pc_deletePVC pvcName ;; mret (Next tt));
        no_return r ;;
        mret (Next tt));
  no_return r ;;
  waitForPvcDeletion ;;
  waitForPvDeletion ;;
  waitForMsvDeletion ;;
  wait_pools_used pc_timeoutSec pc_sleepTimeSec 0 ;;
  delete_class (pc_scName c).

Definition pc_It (params : PvcCreateDelete) : M unit :=
  volCount ← msnList;
  pvcCreateDeleteTest (generatePvcCreateDeleteConfig params "pvc-create-delete" volCount).
End PvcCreateDelete.

(** ** MQ-2644-invalid_volume_sizes *)

Section InvalidSizes.
Context {V : Type}.
Notation M := (prog (Suite W C V)).

Definition iv_defTimeoutSecs : Z := 3600.
Definition iv_fioWriteParams : list string :=
  ["--name=benchtest"; "--numjobs=1"; "--direct=1"; "--rw=randwrite"; "--ioengine=libaio";
   "--bs=4k"; "--iodepth=16"; "--verify=crc32"; "--size=10M"].

Definition generatePvc (testName : string) (replicas volSizeMB : Z) : pvcConfig :=
  mkPvcConfig ShareProtoNvmf VolFileSystem "ext4" replicas (testName +:+ "-sc")
    (testName +:+ "-pvc") volSizeMB 3 testName.

Definition iv_createStorageClass (c : pvcConfig) : M unit :=
  create_class (iv_scName c) (iv_protocol c) (iv_replicas c) (iv_fsType c).
Definition iv_deleteSC (scName : string) : M unit := delete_class scName.
Definition iv_createPVC (c : pvcConfig) (errExpected : bool) : M unit :=
  '(_, err) ← on_session (e2e_CreatePVC
     (volume_claim (iv_pvcSizeMB c) (iv_scName c) (iv_pvcName c)) "default");
  Expect (bool_decide (err = None) || errExpected) "Failed to create pvc" ;;
  Expect (negb errExpected || negb (bool_decide (err = None)))
    "Can not create PVC with zero or negative value".

(** Any warning of the namespace will do, whichever claim it is about and however old. *)
Definition checkFor507Event : M bool :=
  '(events, err) ← on_session (GetEvents "default" "");
  mret (match err with
        | Some _ => false
        | None => existsb (λ ev, bool_decide (EvType ev = "Warning") &&
                                 Contains (EvMessage ev) "507 Insufficient Storage") events
        end).

Definition pvcInvalidSizeTest (c : pvcConfig) : M unit :=
  iv_createStorageClass c ;;
  iv_createPVC c false ;;
  Consistently (iv_delayTime c) 30
    ('(pvc, err) ← on_session (GetPVC (iv_pvcName c) "default");
     mret (bool_decide (err ≠ None) || negb (bool_decide (PvcPhase pvc = "Pending"))))
    negb "PVC status" ;;
  found ← checkFor507Event;
  Expect found "507 event".
Definition pvcNormalFioTest (c : pvcConfig) : M unit :=
  iv_createStorageClass c ;;
  _ ← make_volume (iv_pvcSizeMB c) (iv_pvcName c) (iv_scName c) (iv_volType c);
  mret tt.
Definition pvcZeroOrNegativeSizeTest (c : pvcConfig) : M unit :=
  iv_createStorageClass c ;;
  iv_createPVC c true.

Definition iv_createFioPod (c : pvcConfig) (podName : string) : M unit :=
  create_load podName (iv_pvcName c) (iv_volType c) id
    (["--"; "--filename=" +:+ FioFsFilename] ++ iv_fioWriteParams)%list ;;
  await_running iv_defTimeoutSecs podName.
Definition runAndDeleteFio (c : pvcConfig) : M unit :=
  let name := iv_pvcName c +:+ "-fio" in
  iv_createFioPod c name ;;
  await_phase iv_defTimeoutSecs name PodSucceeded ;;
  remove_pod name.
Definition iv_cleanUp (names : list string) : M unit :=
  r ← for_range names tt (λ name _,
        remove_volume (name +:+ "-pvc") (name +:+ "-sc") ;;
        iv_deleteSC (name +:+ "-sc") ;;
        mret (Next tt));
  no_return r.

(** The tests themselves: sizes that the API refuses, then sizes that the pools have no room
    for, at once or because of the volumes that are there. *)
Definition negative_size_It : M unit :=
  let c := generatePvc "negative-size" 3 (-1000) in
  pvcZeroOrNegativeSizeTest c ;; iv_deleteSC (iv_scName c).
Definition zero_size_It : M unit :=
  let c := generatePvc "zero-size" 3 0 in
  pvcZeroOrNegativeSizeTest c ;; iv_deleteSC (iv_scName c).
Definition bigger_than_pool_It : M unit :=
  let c := generatePvc "bigger-than-pool" 3 11000 in
  pvcInvalidSizeTest c ;; iv_cleanUp [iv_testName c].
Definition no_space_in_pools_It : M unit :=
  let c := generatePvc "normal-size" 3 8000 in
  pvcNormalFioTest c ;;
  let c2 := generatePvc "bigger-than-remaining" 3 8000 in
  pvcInvalidSizeTest c2 ;;
  runAndDeleteFio c ;;
  iv_cleanUp [iv_testName c; iv_testName c2].
Definition no_space_in_one_pool_It : M unit :=
  let c := generatePvc "normal-size-3-replicas" 3 1000 in
  pvcNormalFioTest c ;;
  let c2 := generatePvc "normal-size-1-replica" 1 5000 in
  pvcNormalFioTest c2 ;;
  let c3 := generatePvc "not-enough-space-one-pool" 3 5000 in
  pvcInvalidSizeTest c3 ;;
  runAndDeleteFio c ;;
  runAndDeleteFio c2 ;;
  iv_cleanUp [iv_testName c; iv_testName c2; iv_testName c3].
End InvalidSizes.

(** ** primitive_fuzz_msv *)

Section FuzzMsv.
Notation M := (prog (Suite W C VolumeSlots)).

Definition fz_defTimeoutSecs : Z := 900.
Definition fz_timeoutSec : Z := 90.
Definition fz_sleepTimeSec : Z := 2.

Definition GeneratePrimitiveMsvFuzzConfig (params : PrimitiveMsvFuzz) (testName : string)
    : PrimitiveMsvFuzzConfig :=
  mkPrimitiveMsvFuzzConfig ShareProtoNvmf "ext4" (pmf_Replicas params)
    (pmf_VolumeCountPerPool params) (testName +:+ "-sc") (testName +:+ "-sc") testName
    (pmf_VolMb params) (pmf_Iterations params).

(** The claims ask for the class that is theirs, which need not be the one that is made. *)
Definition GeneratePVCSpec (c : PrimitiveMsvFuzzConfig) : M unit :=
  '(pools, err) ← on_session e2e_ListMsPools;
  Expect_success err "List pools via CRD failed" ;;
  let names := pools ≫= λ pool,
    map (λ ix, fz_TestName c +:+ "-" +:+ cp_Node (cp_Spec pool) +:+ "-pvc-" +:+ Itoa ix)
      (seqZ 0 (fz_VolumeCount c)) in
  let n := wrap64 (fz_VolumeCount c * Z.of_nat (length pools)) in
  createErrs ← make_slice n None;
  deleteErrs ← make_slice n None;
  uuid ← make_slice n "";
  set_vars (λ _, mkVolumeSlots names (map (volume_claim (fz_PvcSize c) (fz_PvcScName c)) names)
                   uuid createErrs deleteErrs).

Definition fz_createSC (c : PrimitiveMsvFuzzConfig) : M unit :=
  create_class (fz_ScName c) (fz_Protocol c) (fz_Replicas c) (fz_FsType c).
Definition fz_deleteSC (c : PrimitiveMsvFuzzConfig) : M unit := delete_class (fz_ScName c).
Definition createPvcSerial : M unit := create_serial.
Definition createPvcParallel (sched : list nat) : M unit := create_parallel sched.
Definition fz_deletePVC (c : PrimitiveMsvFuzzConfig) : M unit :=
  for_volumes (λ _ pvc, remove_volume pvc (fz_ScName c)).
Definition deletePvcParallel (sched : list nat) : M unit :=
  delete_parallel deleteErrs (λ i err, set_deleteErrs (<[i := err]>)) sched.

(** What the events say of a claim that cannot be satisfied. *)
Definition claim_refused (message : string) : bool :=
  Contains message "InvalidArgument" || Contains message "Insufficient Storage" ||
  (Contains message "storageclass" && Contains message "not found").
Definition verifyVolumeCreationErrors : M unit :=
  for_volumes (λ ix volName,
    err ← slot createErrs ix;
    Expect_success err "failed to create PVC" ;;
    _ ← Eventually fz_defTimeoutSecs 5
          ('(events, err) ← on_session (GetEvents "default" ("involvedObject.name=" +:+ volName));
           Expect_success err "failed to get events" ;;
           mret (existsb (claim_refused ∘ EvMessage) events)) id
          "failed to verify volume creation errors";
    mret tt).

(** A claim that was never bound has no volume to wait for. *)
Definition fz_verifyVolumesDeletion : M unit :=
  for_volumes (λ ix name,
    err ← slot deleteErrs ix;
    Expect_success err "failed to delete PVC" ;;
    '(pvc, _) ← on_session (GetPVC name "default");
    await_pvc_deleted fz_defTimeoutSecs name ;;
    _ ← Eventually 360 1
          (if decide (PvcVolumeName pvc = "") then mret true
           else '(status, _) ← on_session (IsPVDeleted (PvcVolumeName pvc)); mret status) id
          "pv deleted";
    uuid ← slot uuids ix;
    await_msv_deleted 360 uuid).

(** The wait is longer than the error that follows it says. *)
Definition fz_checkPoolUsedSize (poolName : string) (usedSize : Z) : M error :=
  err ← checkPoolUsedSize 300 fz_sleepTimeSec poolName usedSize;
  mret (match err with
        | Some _ => errorf ("pool " +:+ poolName +:+ " used size did not reconcile in " +:+
                            Itoa fz_timeoutSec +:+ " seconds")
        | None => None
        end).
Definition fz_waitForMspUsedSize (size : Z) : M unit :=
  each_pool_used (λ crdPool, fz_checkPoolUsedSize (cp_Name crdPool) size).

Definition serialFuzzMsvTest (c : PrimitiveMsvFuzzConfig) : M unit :=
  fz_createSC c ;;
  createPvcSerial ;;
  verifyVolumeCreationErrors ;;
  fz_deletePVC c ;;
  fz_deleteSC c ;;
  fz_waitForMspUsedSize 0.
Definition ConcurrentMsvFuzz (sched : list nat * list nat) (c : PrimitiveMsvFuzzConfig) : M unit :=
  fz_createSC c ;;
  createPvcParallel sched.1 ;;
  verifyVolumeCreationErrors ;;
  deletePvcParallel sched.2 ;;
  fz_verifyVolumesDeletion ;;
  fz_deleteSC c ;;
  fz_waitForMspUsedSize 0.
Definition concurrentMsvOperationInIteration (sched : Z → list nat * list nat)
    (c : PrimitiveMsvFuzzConfig) : M unit :=
  r ← for_upto 0 (fz_Iterations c) tt (λ ix _, ConcurrentMsvFuzz (sched ix) c ;; mret (Next tt));
  no_return r.

(** Five ways to ask for what there is not: every one starts from a configuration of its own. *)
Definition fz_set_Replicas (n : Z) (c : PrimitiveMsvFuzzConfig) : PrimitiveMsvFuzzConfig :=
  mkPrimitiveMsvFuzzConfig (fz_Protocol c) (fz_FsType c) n (fz_VolumeCount c) (fz_PvcScName c)
    (fz_ScName c) (fz_TestName c) (fz_PvcSize c) (fz_Iterations c).
Definition fz_set_Protocol (p : string) (c : PrimitiveMsvFuzzConfig) : PrimitiveMsvFuzzConfig :=
  mkPrimitiveMsvFuzzConfig p (fz_FsType c) (fz_Replicas c) (fz_VolumeCount c) (fz_PvcScName c)
    (fz_ScName c) (fz_TestName c) (fz_PvcSize c) (fz_Iterations c).
Definition fz_set_FsType (t : string) (c : PrimitiveMsvFuzzConfig) : PrimitiveMsvFuzzConfig :=
  mkPrimitiveMsvFuzzConfig (fz_Protocol c) t (fz_Replicas c) (fz_VolumeCount c) (fz_PvcScName c)
    (fz_ScName c) (fz_TestName c) (fz_PvcSize c) (fz_Iterations c).
Definition fz_set_PvcScName (n : string) (c : PrimitiveMsvFuzzConfig) : PrimitiveMsvFuzzConfig :=
  mkPrimitiveMsvFuzzConfig (fz_Protocol c) (fz_FsType c) (fz_Replicas c) (fz_VolumeCount c) n
    (fz_ScName c) (fz_TestName c) (fz_PvcSize c) (fz_Iterations c).
Definition fz_set_PvcSize (size : Z) (c : PrimitiveMsvFuzzConfig) : PrimitiveMsvFuzzConfig :=
  mkPrimitiveMsvFuzzConfig (fz_Protocol c) (fz_FsType c) (fz_Replicas c) (fz_VolumeCount c)
    (fz_PvcScName c) (fz_ScName c) (fz_TestName c) size (fz_Iterations c).
Definition fz_set_VolumeCount (n : Z) (c : PrimitiveMsvFuzzConfig) : PrimitiveMsvFuzzConfig :=
  mkPrimitiveMsvFuzzConfig (fz_Protocol c) (fz_FsType c) (fz_Replicas c) n (fz_PvcScName c)
    (fz_ScName c) (fz_TestName c) (fz_PvcSize c) (fz_Iterations c).
Definition fz_variants (params : PrimitiveMsvFuzz) (prefix lastName : string)
    : list PrimitiveMsvFuzzConfig :=
  let c name := GeneratePrimitiveMsvFuzzConfig params (prefix +:+ name) in
  [fz_set_Replicas (pmf_InvalidReplicaCount params) (c "-fuzz-invalid-replica");
   fz_set_Protocol (pmf_UnsupportedProtocol params) (c "-fuzz-unsupported-protocol");
   fz_set_FsType (pmf_UnsupportedFsType params) (c "-fuzz-unsupported-fstype");
   fz_set_PvcScName (pmf_IncorrectScName params) (c "-fuzz-incorrect-sc-name");
   fz_set_PvcSize (pmf_LargePvcSize params) (c lastName)].
(** The schedules are those of the variant with the number. *)
Definition fz_each (variants : list PrimitiveMsvFuzzConfig)
    (test : nat → PrimitiveMsvFuzzConfig → M unit) : M unit :=
  r ← for_range (imap pair variants) tt (λ '(i, c) _,
        GeneratePVCSpec c ;; test i c ;; mret (Next tt));
  no_return r.
Definition fz_serial_It (params : PrimitiveMsvFuzz) : M unit :=
  fz_each (fz_variants params "serial-msv" "-fuzz-invalid-pvc-size") (λ _ c, serialFuzzMsvTest c).
Definition fz_iterative_It (params : PrimitiveMsvFuzz) (sched : nat → Z → list nat * list nat)
    : M unit :=
  fz_each (fz_variants params "iterative" "-fuzz-invalid-pvc-name")
    (λ i c, concurrentMsvOperationInIteration (sched i) c).
Definition fz_concurrent_It (params : PrimitiveMsvFuzz) (sched : nat → list nat * list nat)
    : M unit :=
  fz_each (fz_variants params "concurrent" "-fuzz-invalid-pvc-size")
    (λ i c, ConcurrentMsvFuzz (sched i) c).
Definition fz_large_It (params : PrimitiveMsvFuzz) (sched : nat → list nat * list nat) : M unit :=
  fz_each (map (fz_set_VolumeCount (pmf_VolCount params))
             (fz_variants params "large-volume" "-fuzz-invalid-pvc-size"))
    (λ i c, ConcurrentMsvFuzz (sched i) c).
End FuzzMsv.
End ClaimSuites.
