(* ===== verification/PoolSuites.v ===== *)
(** * The suites primitive_msp_stress and primitive_msp_state

    Pools that are made and removed, on whole disks and on partitions, and what the two sides
    say of the same pools: the daemons, and the control plane. *)

From stdpp Require Import base gmap strings list.
From S2P Require Import Prelude GoLib Json Http Shell Kube MayastorClient GoTime.
From S2P Require Import K8sPods K8sLib K8sApps AgentClient Session ControlPlane E2ENodes.
From S2P Require Import E2EPods E2EUtil E2EPvc E2ECleanup E2ETest E2EBuilders Suites.
From S2P Require Import SuiteLib.

Definition GiB : Z := 1024 * 1024 * 1024.
Definition MiB : Z := 1024 * 1024.
Definition EstimatedMetaSize : Z := 100 * MiB.

(** The variables of the package primitive_msp_stress. *)
Record PoolVars := mkPoolVars { PoolCapacity : Z; DiskPath : string }.

(** [mspStateConfig], times in nanoseconds. *)
Record mspStateConfig := mkMspStateConfig {
  ms_uuid : string;
  ms_replicaSize : Z;
  ms_sleepTime : Z;
  ms_poolCreateTimeout : Z;
  ms_poolDeleteTimeout : Z;
  ms_poolUsageTimeout : Z;
  ms_iterations : Z;
}.

Definition POOL_ONLINE : Z := 1.

(** Subtracting may wrap around. *)
Definition CapacityRange (actual expected : Z) : bool :=
  (actual <=? expected)%Z || (uwrap64 (expected - EstimatedMetaSize) <=? actual)%Z.

Section PoolSuites.
Context {K : Corev1} {W C : Type} `{Kube W} `{KubeApps W} `{Shell W} `{Http W} `{MapRange W}
  `{Clock W} `{Grpc W} `{Files W} `{System W} `{ConfigFiles W} `{Gomega W}.

(** ** primitive_msp_stress *)

Section MspStress.
Notation M := (prog (Suite W C PoolVars)).

Definition st_defTimeoutSecs : Z := 300.
Definition invalidNodePoolExt : string := "-fuzz-pool-wrong-node".
Definition invalidDiskPoolExt : string := "-fuzz-pool-wrong-disk".

(** The pool is online on both sides, with nothing in it. *)
Definition verifyPoolCreated (nodeAddr poolName : string) (capacity : Z)
    : prog (Session W) bool :=
  '(grpcPool, err) ← mc_GetPool poolName nodeAddr;
  match err with
  | Some _ => mret false
  | None =>
      '(crdPool, err) ← e2e_GetMsPool poolName;
      match err with
      | Some _ => mret false
      | None =>
          grpcPool ← deref grpcPool;
          if negb (bool_decide (PiState grpcPool = POOL_ONLINE)) then mret false
          else
            crdPool ← deref crdPool;
            let st := cp_Status crdPool in
            mret (bool_decide (ToLower (cp_State st) = "online") &&
                  CapacityRange (PiCapacity grpcPool) capacity &&
                  CapacityRange (cp_Capacity st) capacity &&
                  bool_decide (wrap64 (PiUsed grpcPool) = 0%Z) &&
                  bool_decide (cp_Used st = 0%Z))
      end
  end.
(** Both sides have to say that it is not found. *)
Definition verifyPoolDeleted (nodeAddr poolName : string) : prog (Session W) bool :=
  '(_, err) ← mc_GetPool poolName nodeAddr;
  if negb (is_not_found err) then mret false
  else '(_, err) ← GetMsPool poolName; mret (is_not_found err).

Definition create_msp (poolName node : string) (disks : list string) : M error :=
  '(_, err) ← on_session (e2e_CreateMsPool poolName node disks); mret err.
Definition must_create (poolName node : string) (disks : list string) : M unit :=
  err ← create_msp poolName node disks;
  Expect_success err "Failed to create pool".
Definition must_delete (poolName : string) : M unit :=
  must "Failed to delete pool" (DeleteMsPool poolName).
Definition await_pool_gone (nodeAddr poolName : string) : M unit :=
  _ ← Eventually st_defTimeoutSecs 5 (on_session (verifyPoolDeleted nodeAddr poolName)) id
        "pool deleted";
  mret tt.

(** The pool of a node, the same pool again, one on a node and one on a disk that do not
    exist. *)
Definition create_pools_of (poolSuffix diskPath : string) (capacity : Z) (node : NodeLocation)
    : M unit :=
  let poolName := LocName node +:+ poolSuffix in
  must_create poolName (LocName node) [diskPath] ;;
  err ← create_msp poolName (LocName node) [diskPath];
  Expect (bool_decide (err ≠ None)) "Duplicate pool created" ;;
  must_create (poolName +:+ invalidNodePoolExt) "fuzzNode" [diskPath] ;;
  must_create (poolName +:+ invalidDiskPoolExt) (LocName node) ["/devfuzzPath"] ;;
  _ ← Eventually st_defTimeoutSecs 5
        (on_session (verifyPoolCreated (IPAddress node) poolName capacity)) id "pool created";
  mret tt.
Definition delete_pools_of (poolSuffix : string) (node : NodeLocation) : M unit :=
  let poolName := LocName node +:+ poolSuffix in
  must_delete poolName ;;
  must_delete (poolName +:+ invalidNodePoolExt) ;;
  must_delete (poolName +:+ invalidDiskPoolExt) ;;
  await_pool_gone (IPAddress node) poolName ;;
  await_pool_gone (IPAddress node) (poolName +:+ invalidNodePoolExt) ;;
  await_pool_gone (IPAddress node) (poolName +:+ invalidDiskPoolExt).

(** [for _, node := range nodeList]. *)
Definition each_node (nodeList : gmap string NodeLocation) (body : NodeLocation → M unit)
    : M unit :=
  nodes ← on_session (range_map nodeList);
  r ← for_range nodes tt (λ '(_, node) _, body node ;; mret (Next tt));
  no_return r.
Definition CreateDeletePools (nodeList : gmap string NodeLocation) (poolSuffix : string)
    (iter : Z) (diskPath : string) (capacity : Z) : M unit :=
  r ← for_upto 0 iter tt (λ _ _,
        each_node nodeList (create_pools_of poolSuffix diskPath capacity) ;;
        on_session (time_Sleep (30 * Second)) ;;
        each_node nodeList (delete_pools_of poolSuffix) ;;
        mret (Next tt));
  no_return r.

(** *** Partitions *)

Definition label_command (diskPath : string) : string :=
  "parted --script " +:+ diskPath +:+ " mklabel gpt".
Definition mkpart_command (diskPath : string) (start partitionSizeInGiB : Z) : string :=
  "parted --script " +:+ diskPath +:+ " mkpart primary ext4 " +:+ Itoa start +:+ "GiB" +:+ " " +:+
  Itoa (wrap64 (start + partitionSizeInGiB)) +:+ "GiB".
Definition rm_command (diskPath : string) (i : Z) : string :=
  "parted --script " +:+ diskPath +:+ " rm " +:+ Itoa (i + 1).
Definition createDiskPartitions (addr : string) (count partitionSizeInGiB : Z)
    (diskPath : string) : M unit :=
  must "Failed to label disk on node" (DiskPartition addr (label_command diskPath)) ;;
  r ← for_upto 0 count 1%Z (λ _ start,
        must "Disk Partitioning failed for node"
          (DiskPartition addr (mkpart_command diskPath start partitionSizeInGiB)) ;;
        mret (Next (wrap64 (start + partitionSizeInGiB))));
  _ ← no_return r;
  mret tt.
Definition deleteDiskPartitions (addr : string) (count : Z) (diskPath : string) : M unit :=
  r ← for_upto 0 count tt (λ i _,
        must "Failed to delete disk Partition on node"
          (DiskPartition addr (rm_command diskPath i)) ;;
        mret (Next tt));
  no_return r.

(** *** The tests *)

(** All configured pools have to be alike; they are taken away. *)
Definition take_pool (pool : CmPool) : M unit :=
  v ← vars;
  (if decide (PoolCapacity v = 0%Z)
   then set_vars (λ v, mkPoolVars (cp_Capacity (cp_Status pool)) (DiskPath v))
   else Expect (bool_decide (cp_Capacity (cp_Status pool) = PoolCapacity v))
          "Pool Capacities do not match") ;;
  disk ← index (cp_Disks (cp_Spec pool)) 0;
  (if decide (DiskPath v = "") then set_vars (λ v, mkPoolVars (PoolCapacity v) disk)
   else Expect (bool_decide (disk = DiskPath v)) "Disk paths do not match") ;;
  must_delete (cp_Name pool).
Definition st_BeforeSuite : M unit :=
  must "failed to setup test environment" SetupTestEnv ;;
  must "Not all pools are online after restoration" RestoreConfiguredPools ;;
  '(pools, err) ← on_session e2e_ListMsPools;
  Expect_success err "Failed to list pools" ;;
  r ← for_range pools tt (λ pool _, take_pool pool ;; mret (Next tt));
  no_return r ;;
  _ ← Eventually st_defTimeoutSecs 5
        ('(pools, err) ← on_session e2e_ListMsPools;
         Expect_success err "Failed to list pools" ;;
         mret pools) (λ pools, bool_decide (length pools = 0%nat)) "pools deleted";
  mret tt.

Definition nodes_map : M (gmap string NodeLocation) :=
  '(nodeList, err) ← on_session GetNodeLocsMap;
  Expect_success err "GetNodeLocsMap" ;;
  mret nodeList.

(** The first node without Mayastor is left out, and the others are not. *)
Definition SequentialCreateDeletePoolTest (params : PrimitiveMspStressTest) : M unit :=
  nodeList ← nodes_map;
  nodes ← on_session (range_map nodeList);
  let nodeList := match list_find (λ kn, MayastorNode_ kn.2 = false) nodes with
                  | Some (_, (_, node)) => delete (LocName node) nodeList
                  | None => nodeList
                  end in
  v ← vars;
  CreateDeletePools nodeList "-pool" (pmst_Iterations params) (DiskPath v) (PoolCapacity v).

(** Every goroutine has to come to the end of its pools; one that an assertion ends never
    reports that it is done. *)
Definition ConcurrentCreateDeletePoolTest (params : PrimitiveMspStressTest) (sched : list nat)
    : M unit :=
  nodeList ← nodes_map;
  nodes ← on_session (range_map nodeList);
  v ← vars;
  go_all sched
    (map (λ '(_, node), CreateDeletePools {[ LocName node := node ]} "-pool"
                          (pmst_Iterations params) (DiskPath v) (PoolCapacity v))
       (filter (λ kn, MayastorNode_ kn.2 = true) nodes)).

Definition ConcurrentCreateDeletePoolOnSingleNodeTest (params : PrimitiveMspStressTest)
    (sched : list nat) : M unit :=
  let size := pmst_PartitionSizeInGiB params in
  let count := pmst_PartitionCount params in
  v ← vars;
  Expect (uwrap64 (wrap64 (GiB * wrap64 (size * count))) <? PoolCapacity v)%Z
    "Total of partition sizes exceeding pool size" ;;
  nodeList ← nodes_map;
  nodes ← on_session (range_map nodeList);
  match head (filter (λ kn, MayastorNode_ kn.2 = true) nodes) with
  | None => mret tt
  | Some (_, node) =>
      createDiskPartitions (IPAddress node) count size (DiskPath v) ;;
      go_all sched
        (map (λ i, CreateDeletePools {[ LocName node := node ]} ("-pool-" +:+ Itoa i) 1
                     (DiskPath v +:+ Itoa (i + 1)) (uwrap64 (wrap64 (GiB * size))))
           (seqZ 0 count)) ;;
      deleteDiskPartitions (IPAddress node) count (DiskPath v)
  end.
End MspStress.

(** ** primitive_msp_state *)

Section MspState.
Context {V : Type}.
Notation M := (prog (Suite W C V)).

Definition duration_of (text : string) : M Z :=
  match ParseDuration text with
  | Some d => mret d
  | None => Panic "assertion failed: configuration string format is invalid"
  end.
(** The identity of the replicas is new. *)
Definition generateMspStateConfig (params : PrimitiveMspState) (uuid : string)
    : M mspStateConfig :=
  poolUsageTimeout ← duration_of (pms_PoolUsageTimeoutSecs params);
  poolUsageSleepTime ← duration_of (pms_PoolUsageSleepTimeSecs params);
  mspCreateTimeout ← duration_of (pms_PoolCreateTimeoutSecs params);
  mspDeleteTimeout ← duration_of (pms_PoolDeleteTimeoutSecs params);
  mret (mkMspStateConfig uuid (pms_ReplicaSize params) poolUsageSleepTime mspCreateTimeout
          mspDeleteTimeout poolUsageTimeout (pms_IterationCount params)).

Definition ms_checkPoolUsedSize (c : mspStateConfig) (poolName : string) (replicaSize : Z)
    : M error :=
  let timeoutSecs := int_Seconds (ms_poolUsageTimeout c) in
  let sleepTimeSecs := int_Seconds (ms_sleepTime c) in
  if decide (sleepTimeSecs = 0%Z) then Panic "integer divide by zero"
  else
    r ← for_upto 0 ((timeoutSecs + sleepTimeSecs - 1) `quot` sleepTimeSecs) tt (λ _ _,
          on_session (time_Sleep (sleepTimeSecs * Second)) ;;
          '(pool, err) ← on_session (e2e_GetMsPool poolName);
          Expect_success err "failed to get mayastor pool" ;;
          pool ← deref pool;
          if decide (wrap64 (cp_Used (cp_Status pool)) = replicaSize) then mret (Return None)
          else mret (Next tt));
    mret (match r with
          | inr err => err
          | inl _ => errorf ("pool " +:+ poolName +:+ " used size did not reconcile in " +:+
                             Itoa timeoutSecs +:+ " seconds")
          end).
Definition ms_verifyMspUsedSize (c : mspStateConfig) (size : Z) : M unit :=
  each_pool_used (λ crdPool, ms_checkPoolUsedSize c (cp_Name crdPool) size).

Definition getPoolCrs : M (gmap string MayastorPool) :=
  '(crdPools, err) ← on_session ListMsPools;
  Expect_success err "List pools via CRD failed" ;;
  mret (foldl (λ m p, <[Name (msp_meta p) := p]> m) ∅ crdPools).
Definition getPoolsGrpc : M (list PoolInfo) :=
  addrs ← on_session GetMayastorNodeIPAddresses;
  '(pools, err) ← on_session (ListPools addrs);
  Expect_success err "failed to list pools via grpc" ;;
  mret pools.

Definition verifyMspState (crPool : MayastorPool) (grpcPool : PoolInfo)
    : prog (Session W) bool :=
  state ← via_get (λ c, cpi_MspGrpcStateToCrdState _ c (PiState grpcPool));
  mret (bool_decide (MspState (msp_status crPool) = state)).
Definition verifyMspCapacity (crPool : MayastorPool) (grpcPool : PoolInfo) : bool :=
  bool_decide (Capacity (msp_status crPool) = PiCapacity grpcPool).
Definition verifyMspUsedSpace (crPool : MayastorPool) (grpcPool : PoolInfo) : bool :=
  bool_decide (MspUsed (msp_status crPool) = PiUsed grpcPool).

Definition both_pools : M (list PoolInfo * gmap string MayastorPool) :=
  grpcPools ← getPoolsGrpc;
  crPools ← getPoolCrs;
  Expect (bool_decide (length grpcPools = size crPools)) "pool count" ;;
  mret (grpcPools, crPools).
(** Every pool of the daemons is one of the custom resources, and they say the same of it; the
    first that differs ends the look. *)
Definition look_at_pools : M bool :=
  '(grpcPools, crPools) ← both_pools;
  Expect (forallb (λ gPool, bool_decide (is_Some (crPools !! PiName gPool))) grpcPools)
    "pool not found in custom resource pools" ;;
  r ← for_range grpcPools true (λ gPool res,
        let crPool := default zero_msp (crPools !! PiName gPool) in
        same ← (if res : bool then on_session (verifyMspState crPool gPool) else mret false);
        mret (Next (same && verifyMspCapacity crPool gPool && verifyMspUsedSpace crPool gPool)));
  no_return r.
Definition verifyMspCrdAndGrpcState : M unit :=
  _ ← both_pools;
  _ ← Eventually 180 5 look_at_pools id "pools agree";
  mret tt.

(** The first attempt has to succeed; the timeout is cut to whole seconds. *)
Definition ms_createReplica (c : mspStateConfig) : M unit :=
  '(nodes, err) ← on_session e2e_GetNodeLocs;
  Expect_success err "GetNodeLocs" ;;
  r ← for_range (filter (λ node, MayastorNode_ node = true) nodes) tt (λ node _,
        '(mayastorPools, err) ← on_session (ListPools [IPAddress node]);
        Expect_success err "ListPools" ;;
        Expect (negb (bool_decide (length mayastorPools = 0%nat)))
          "Invalid number of pool on node" ;;
        r ← for_range mayastorPools tt (λ mayastorPool _,
              _ ← Eventually (int_Seconds (ms_poolCreateTimeout c)) 1
                    (err ← on_session (CreateReplica (IPAddress node) (ms_uuid c)
                             (uwrap64 (ms_replicaSize c)) (PiName mayastorPool));
                     Expect_success err "Failed to create replica by gRPC")
                    (λ _, true) "create replica";
              mret (Next tt));
        no_return r ;;
        mret (Next tt));
  no_return r.
Definition ms_removeReplica : M unit :=
  must "Failed to remove replicas from cluster" e2e_RmReplicasInCluster.

Definition mspCrdPresenceTest (c : mspStateConfig) : M unit :=
  r ← for_upto 0 (ms_iterations c) tt (λ _ _,
        verifyMspCrdAndGrpcState ;;
        ms_createReplica c ;;
        ms_verifyMspUsedSize c (ms_replicaSize c) ;;
        ms_removeReplica ;;
        ms_verifyMspUsedSize c 0 ;;
        mret (Next tt));
  no_return r.
Definition mspGrpcCrdsTest (c : mspStateConfig) : M unit :=
  r ← for_upto 0 (ms_iterations c) tt (λ _ _, verifyMspCrdAndGrpcState ;; mret (Next tt));
  no_return r.

Definition msp_state_It (params : PrimitiveMspState) (uuid : string) : M unit :=
  c ← generateMspStateConfig params uuid; mspGrpcCrdsTest c.
Definition msp_presence_It (params : PrimitiveMspState) (uuid : string) : M unit :=
  c ← generateMspStateConfig params uuid; mspCrdPresenceTest c.
End MspState.
End PoolSuites.
