(* ===== verification/FaultSuites.v ===== *)
(** * The suites MQ-2307-etcd_inaccessibility, MQ-1498-primitive_device_retirement and
    MQ-2219-rc-reconciliation

    Volumes under load that lose their store, a device or a replica. *)

From stdpp Require Import base gmap strings list.
From S2P Require Import Prelude GoLib Json Http Shell Kube MayastorClient GoTime.
From S2P Require Import K8sPods K8sLib K8sApps AgentClient Session ControlPlane E2ENodes.
From S2P Require Import E2EPods E2EUtil E2EPvc E2ECleanup E2ETest E2EBuilders Suites.
From S2P Require Import SuiteLib.

(** [inaccessibleEtcdTestConfig], [primitiveDeviceRetirementConfig] and [Config]: what they
    have in common is all that is used. *)
Record faultConfig := mkFaultConfig {
  ft_protocol : string;
  ft_volType : VolumeType;
  ft_replicas : Z;
  ft_scName : string;
  ft_pvcName : string;
  ft_pvcSize : Z;
}.
(** The variables of the package etcd_inaccessibility. *)
Record etcdVars := mkEtcdVars { detachedDeviceAtNode : string; poolDevice : string }.
(** The variables of the package primitive_device_retirement. *)
Record retireVars := mkRetireVars { rebootNode : string; restartMayastor : bool }.

Section FaultSuites.
Context {K : Corev1} {W C : Type} `{Kube W} `{KubeApps W} `{Shell W} `{Http W} `{MapRange W}
  `{Clock W} `{Grpc W} `{Files W} `{System W} `{ConfigFiles W} `{Gomega W} `{!Regexps}.

Section Common.
Context {V : Type}.
Notation M := (prog (Suite W C V)).

Definition ft_createSC (c : faultConfig) : M unit :=
  create_local_class (ft_scName c) (ft_protocol c) (ft_replicas c).
Definition ft_deleteSC (c : faultConfig) : M unit := delete_class (ft_scName c).
Definition ft_createPVC (c : faultConfig) : M string :=
  make_volume (ft_pvcSize c) (ft_pvcName c) (ft_scName c) (ft_volType c).
Definition ft_deletePVC (c : faultConfig) : M unit := remove_volume (ft_pvcName c) (ft_scName c).

(** The address of a node that must have one. *)
Definition address_of (nodeName : string) : M string :=
  '(addr, err) ← on_session (GetNodeIPAddress nodeName);
  Expect_success err "GetNodeIPAddress" ;;
  deref addr.

(** The sum of the one replica of an address. *)
Definition replica_sum (ip : string) : M string :=
  '(replicas, err) ← on_session (ListReplicas [ip]);
  Expect_success err "ListReplicas" ;;
  Expect (bool_decide (length replicas = 1%nat)) "Expected to find 1 replica" ;;
  replica ← index replicas 0;
  '(sum, err) ← on_session (ChecksumReplica ip ip (RiUri replica) 60);
  Expect_success err "ChecksumReplica" ;;
  mret sum.
Definition PrimitiveDataIntegrity (replicaIPs : list string) : M unit :=
  ip0 ← index replicaIPs 0;
  firstchecksum ← replica_sum ip0;
  ip1 ← index replicaIPs 1;
  secondchecksum ← replica_sum ip1;
  Expect (bool_decide (secondchecksum = firstchecksum)) "checksums differ".
End Common.

(** ** MQ-2307-etcd_inaccessibility *)

Section Etcd.
Notation M := (prog (Suite W C etcdVars)).

Definition et_defTimeoutSecs : Z := 600.
Definition et_defTimeout : string := "600s".
Definition et_fioWriteParams : list string :=
  ["--name=benchtest"; "--numjobs=1"; "--direct=1"; "--rw=randwrite"; "--ioengine=libaio";
   "--bs=4k"; "--iodepth=16"; "--verify=crc32"].

(** The device without the directory. *)
Definition generateInaccessibleEtcdTestConfig (testName : string) : M faultConfig :=
  e2eCfg ← on_session Config;
  let device := PoolDevice e2eCfg in
  set_vars (λ v, mkEtcdVars (detachedDeviceAtNode v) device) ;;
  Expect (HasPrefix device "/dev/") "unexpected pool spec" ;;
  device ← slice_string device 5 (strlen device);
  set_vars (λ v, mkEtcdVars (detachedDeviceAtNode v) device) ;;
  mret (mkFaultConfig ShareProtoNvmf VolRawBlock 2 (testName +:+ "-sc") (testName +:+ "-pvc") 2048).

Definition ControlPoolDevice (state nodeName device : string) : M unit :=
  addr ← address_of nodeName;
  '(_, err) ← on_session (ControlDevice addr device state);
  Expect_success err "ControlDevice".
Definition DisablePoolDeviceAtNode : string → string → M unit := ControlPoolDevice "offline".
Definition EnablePoolDeviceAtNode : string → string → M unit := ControlPoolDevice "running".

Definition GetNonNexusNodes (uid : string) : M (list string) :=
  '(nexusNode, nodes) ← on_session (e2e_GetMsvNodes uid);
  mret (filter (λ node, node ≠ nexusNode) nodes).

Definition et_createFioPod (c : faultConfig) (podName : string) : M unit :=
  create_load podName (ft_pvcName c) (ft_volType c) id
    (["--"; "--filename=" +:+ FioBlockFilename] ++ et_fioWriteParams)%list ;;
  await_running et_defTimeoutSecs podName.

Definition scale_etcd (replicas : Z) : M unit :=
  c ← on_session Config;
  must "SetStatefulsetReplication"
    (SetStatefulsetReplication "mayastor-etcd" (MayastorNamespace (cfg_Platform c))
       (Some replicas)).
Definition WaitForEtcdState (ready : bool) : M unit :=
  ns ← on_session e2e_NSMayastor;
  _ ← Eventually et_defTimeoutSecs 5 (on_session (StatefulSetReady "mayastor-etcd" ns))
        (Bool.eqb ready) "etcd statefulset";
  mret tt.
Definition etcd_back (podName : string) (c : faultConfig) : M unit :=
  scale_etcd 1 ;;
  WaitForEtcdState true ;;
  must "WaitForMCPPath" (e2e_WaitForMCPPath et_defTimeout) ;;
  remove_pod podName ;;
  ft_deletePVC c ;;
  ft_deleteSC c.

Definition etcdInaccessibilityTest (c : faultConfig) : M unit :=
  ft_createSC c ;;
  _ ← ft_createPVC c;
  let podName := "write-" +:+ ft_pvcName c in
  et_createFioPod c podName ;;
  scale_etcd 0 ;;
  WaitForEtcdState false ;;
  await_phase et_defTimeoutSecs podName PodSucceeded ;;
  etcd_back podName c.

(** The node whose device is taken away is not noted in the variable that the step after the
    test reads. *)
Definition etcdInaccessibilityWhenReplicaFaulted (c : faultConfig) : M unit :=
  ft_createSC c ;;
  uuid ← ft_createPVC c;
  let podName := "write-" +:+ ft_pvcName c in
  et_createFioPod c podName ;;
  scale_etcd 0 ;;
  WaitForEtcdState false ;;
  nodes ← GetNonNexusNodes uuid;
  node ← index nodes 0;
  v ← vars;
  DisablePoolDeviceAtNode node (poolDevice v) ;;
  await_phase et_defTimeoutSecs podName PodFailed ;;
  node ← index nodes 0;
  v ← vars;
  EnablePoolDeviceAtNode node (poolDevice v) ;;
  etcd_back podName c.

Definition et_AfterEach : M unit :=
  v ← vars;
  (if decide (detachedDeviceAtNode v = "") then mret tt
   else EnablePoolDeviceAtNode (detachedDeviceAtNode v) (poolDevice v)) ;;
  scale_etcd 1 ;;
  must "WaitForMCPPath" (e2e_WaitForMCPPath et_defTimeout).

Definition etcd_It : M unit :=
  c ← generateInaccessibleEtcdTestConfig "etcd-inaccessibility"; etcdInaccessibilityTest c.
Definition etcd_faulted_It : M unit :=
  c ← generateInaccessibleEtcdTestConfig "etcd-inaccessibility-faulted-replica";
  etcdInaccessibilityWhenReplicaFaulted c.
End Etcd.

(** ** MQ-1498-primitive_device_retirement *)

Section Retirement.
Context `{Cloud C}.
Notation M := (prog (Suite W C retireVars)).

Definition dr_defTimeoutSecs : Z := 120.
Definition dr_sleepTime : Z := 1.
Definition dr_timeout : Z := 900.
Definition dr_fioWriteParams : list string :=
  ["--name=benchtest"; "--numjobs=1"; "--direct=1"; "--rw=randwrite"; "--do_verify=0";
   "--ioengine=libaio"; "--bs=4k"; "--iodepth=16"; "--verify=crc32"].
Definition dr_fioVerifyParams : list string :=
  ["--name=benchtest"; "--numjobs=1"; "--direct=1"; "--rw=randread"; "--ioengine=libaio";
   "--bs=4k"; "--iodepth=16"; "--verify=crc32"; "--verify_fatal=1"; "--verify_async=2"].

Definition generatePrimitiveDeviceRetirementConfig (testName : string) : M faultConfig :=
  platform ← platform_Create;
  Expect platform "platform" ;;
  mret (mkFaultConfig ShareProtoNvmf VolRawBlock 3 (testName +:+ "-sc") (testName +:+ "-pvc") 1024).

Definition dr_createFioPod (c : faultConfig) (podName nodeName : string) (verify : bool)
    : M unit :=
  create_load podName (ft_pvcName c) (ft_volType c) (WithNodeSelectorHostnameNew nodeName)
    (["--"; "--filename=" +:+ FioBlockFilename] ++
     (if verify then dr_fioVerifyParams else dr_fioWriteParams))%list ;;
  await_running dr_defTimeoutSecs podName.
Definition wait_complete (fuel : nat) (podName : string) : M unit :=
  must "WaitPodComplete" (WaitPodComplete fuel podName dr_sleepTime dr_timeout).

Definition GetReplicaAddressesForNonTestNodes (uuid testNode : string) : M (list string) :=
  '(_, nodes) ← on_session (e2e_GetMsvNodes uuid);
  r ← for_range nodes [] (λ node addrs,
        if decide (node = testNode) then mret (Next addrs)
        else addr ← address_of node; mret (Next (addrs ++ [addr])%list));
  no_return r.
(** The application runs on the first node; the fault is there, or on the second. *)
Definition pick_nodes (testNexusNode : bool) : M (string * string) :=
  '(nodes, err) ← on_session e2e_GetMayastorNodeNames;
  Expect_success err "GetMayastorNodeNames" ;;
  Expect (bool_decide (2 ≤ length nodes)%nat) "two nodes" ;;
  appNode ← index nodes 0;
  testNode ← index nodes (if testNexusNode then 0 else 1)%Z;
  mret (appNode, testNode).
Definition compare_others (uuid testNode : string) : M unit :=
  replicaIPs ← GetReplicaAddressesForNonTestNodes uuid testNode;
  Expect (bool_decide (length replicaIPs = 2%nat)) "two replicas" ;;
  PrimitiveDataIntegrity replicaIPs.

Definition DetachCloudVolumeTest (fuel : nat) (c : faultConfig) (testNexusNode : bool) : M unit :=
  ft_createSC c ;;
  uuid ← ft_createPVC c;
  '(appNode, testNode) ← pick_nodes testNexusNode;
  let podName := "write-" +:+ ft_pvcName c in
  dr_createFioPod c podName appNode false ;;
  on_session (time_Sleep (10 * Second)) ;;
  err ← on_cloud (cloud_Detach ("mayastor-" +:+ testNode));
  Expect_success err "DetachVolume" ;;
  set_vars (λ v, mkRetireVars testNode (restartMayastor v)) ;;
  wait_complete fuel podName ;;
  remove_pod podName ;;
  let podName := "verify-" +:+ ft_pvcName c in
  dr_createFioPod c podName appNode true ;;
  wait_complete fuel podName ;;
  remove_pod podName ;;
  (if testNexusNode then
     must "Failed to patch Mayastor volume" (e2e_SetMsvReplicaCount uuid (ft_replicas c - 1)) ;;
     compare_others uuid testNode
   else mret tt) ;;
  ft_deletePVC c ;;
  ft_deleteSC c.

(** The daemon of a node is killed by the number that the node gives. *)
Definition crash_daemon (testNode : string) : M unit :=
  testNodeIP ← address_of testNode;
  '(pid, err) ← on_session (Exec testNodeIP "pidof mayastor");
  Expect_success err "pidof" ;;
  Expect (negb (bool_decide (pid = ""))) "pid" ;;
  set_vars (λ v, mkRetireVars (rebootNode v) true) ;;
  '(_, err) ← on_session (Exec testNodeIP ("kill -9 " +:+ TrimSuffix pid go_newline));
  Expect_success err "kill".
Definition CrashMayastorTest (fuel : nat) (c : faultConfig) (testNexusNode : bool) : M unit :=
  ft_createSC c ;;
  uuid ← ft_createPVC c;
  '(appNode, testNode) ← pick_nodes testNexusNode;
  must "MsvConsistencyCheck" (MsvConsistencyCheck uuid) ;;
  let podName := "fio-write-" +:+ ft_pvcName c in
  dr_createFioPod c podName appNode false ;;
  on_session (time_Sleep Second) ;;
  crash_daemon testNode ;;
  on_session (time_Sleep Minute) ;;
  wait_complete fuel podName ;;
  remove_pod podName ;;
  on_session (time_Sleep Minute) ;;
  let podName := "fio-verify-" +:+ ft_pvcName c in
  dr_createFioPod c podName appNode true ;;
  wait_complete fuel podName ;;
  '(newNexusNode, _) ← on_session (e2e_GetMsvNodes uuid);
  Expect (negb (bool_decide (newNexusNode = ""))) "nexus node" ;;
  remove_pod podName ;;
  on_session (time_Sleep Minute) ;;
  (if testNexusNode then
     must "MsvConsistencyCheck" (MsvConsistencyCheck uuid) ;;
     compare_others uuid testNode
   else mret tt) ;;
  ft_deletePVC c ;;
  ft_deleteSC c.

(** The volume is attached again and the node started anew. *)
Definition dr_reattach (node : string) : M unit :=
  platform ← platform_Create;
  (if platform : bool then mret tt else Panic nil_deref) ;;
  err ← on_cloud (cloud_Attach ("mayastor-" +:+ node) node);
  Expect_success err "AttachVolume" ;;
  _ ← PowerOffNode node;
  on_session (time_Sleep (30 * Second)) ;;
  _ ← PowerOnNode node;
  set_vars (λ _, mkRetireVars "" true) ;;
  on_session (time_Sleep (5 * Minute)).
Definition dr_AfterEach : M unit :=
  v ← vars;
  (if decide (rebootNode v = "") then mret tt else dr_reattach (rebootNode v)) ;;
  must "Restart Mayastor pods" (RestartMayastor 240 240 240) ;;
  must "AfterEachCheck" AfterEachCheck.
Definition detach_nexus_It (fuel : nat) : M unit :=
  c ← generatePrimitiveDeviceRetirementConfig "detach-nexus-volume";
  DetachCloudVolumeTest fuel c true.
Definition detach_other_It (fuel : nat) : M unit :=
  c ← generatePrimitiveDeviceRetirementConfig "detach-non-nexus-volume";
  DetachCloudVolumeTest fuel c false.
Definition crash_nexus_It (fuel : nat) : M unit :=
  c ← generatePrimitiveDeviceRetirementConfig "crash-nexus-mayastor";
  CrashMayastorTest fuel c true.
Definition crash_other_It (fuel : nat) : M unit :=
  c ← generatePrimitiveDeviceRetirementConfig "crash-non-nexus-mayastor";
  CrashMayastorTest fuel c false.
End Retirement.

(** ** MQ-2219-rc-reconciliation *)

Section Reconciliation.
Context {V : Type}.
Notation M := (prog (Suite W C V)).

Definition rc_defTimeoutSecs : Z := 240.
Definition rc_fioWriteParams : list string :=
  ["--name=benchtest"; "--numjobs=1"; "--direct=1"; "--rw=randwrite"; "--do_verify=0";
   "--ioengine=libaio"; "--bs=512"; "--iodepth=16"; "--verify=crc32"].
Definition mayastorRegexp : string := "^mayastor-.....$".
Definition engineLabel : string := "openebs.io/engine".
Definition mayastorLabel : string := "mayastor".

Definition rc_generateConfig (testName : string) : M faultConfig :=
  platform ← platform_Create;
  Expect platform "platform" ;;
  mret (mkFaultConfig ShareProtoNvmf VolRawBlock 2 (testName +:+ "-sc") (testName +:+ "-pvc") 2048).

Definition rc_createFioPod (c : faultConfig) (podName node : string) : M unit :=
  obj ← on_session (
    container ← e2e_MakeFioContainer podName
                  (["--"; "--filename=" +:+ FioBlockFilename] ++ rc_fioWriteParams)%list;
    b ← WithVolumeDeviceOrMount (ft_volType c)
          (WithVolume (mkVolume "ms-volume" (Some (ft_pvcName c)))
            (WithNodeSelectorHostnameNew node (WithContainer container
              (WithRestartPolicy RestartPolicyNever
                (WithNamespace NSDefault (WithName podName NewPodBuilder))))));
    e2e_Build b);
  create_pod obj ;;
  await_running rc_defTimeoutSecs podName.

(** The first pool of the node; that it cannot be removed is only logged. *)
Definition DeletePoolOnNode (nodeName : string) : M unit :=
  '(pools, err) ← on_session e2e_ListMsPools;
  match err with
  | Some _ => mret tt
  | None =>
      match list_find (λ pool, cp_Node (cp_Spec pool) = nodeName) pools with
      | Some (_, pool) => _ ← on_session (DeleteMsPool (cp_Name pool)); mret tt
      | None => mret tt
      end
  end.

(** The nodes have to come in the order that is given. *)
Definition verifyReplicaOnNodes (uuid : string) (nodes : list string) : M bool :=
  _ ← Eventually rc_defTimeoutSecs 1 (on_session (e2e_GetMsvNodes uuid))
        (λ r, bool_decide (nodes = r.2)) "replicas";
  mret true.

Definition suppressMayastorPodOn (nodeName : string) (delay : Z) : M unit :=
  on_session (time_Sleep (delay * Second)) ;;
  must "UnlabelNode" (UnlabelNode nodeName engineLabel) ;;
  ns ← on_session e2e_NSMayastor;
  must "WaitForPodNotRunningOnNode" (WaitForPodNotRunningOnNode mayastorRegexp ns nodeName 60).
Definition unSuppressMayastorPodOn (nodeName : string) (delay : Z) : M unit :=
  on_session (time_Sleep (delay * Second)) ;;
  must "LabelNode" (LabelNode nodeName engineLabel mayastorLabel) ;;
  ns ← on_session e2e_NSMayastor;
  must "WaitForPodRunningOnNode" (WaitForPodRunningOnNode mayastorRegexp ns nodeName 60).

(** A table of the device mapper: the middle of the device gives errors. *)
Definition faulty_table (device : string) : string :=
  "0 50000 linear " +:+ device +:+ " 0" +:+ go_newline +:+ "50000 5000000  error" +:+ go_newline +:+
  "5050000 8143000 linear " +:+ device +:+ " 5050000".
(** The request that makes a faulty device is the one that is sent to remove it, too. *)
Definition faulty_device (node : string) (table : string → string) : M unit :=
  addr ← address_of node;
  c ← on_session Config;
  must "faulty disk" (CreateFaultyDevice addr (PoolDevice c) (table (PoolDevice c))).
Definition createFaultyDisk (node : string) : M unit := faulty_device node faulty_table.
Definition delete_table (device : string) : string := "dmsetup delete " +:+ device.
Definition deleteFaultyDisk (node : string) : M unit := faulty_device node delete_table.

Definition spare_pool : string := "spare-faulty-pool".
Definition CreateFaultyPoolOnNode (spareNode : string) : M unit :=
  createFaultyDisk spareNode ;;
  '(_, err) ← on_session (e2e_CreateMsPool spare_pool spareNode ["/dev/dm-0"]);
  Expect_success err "Failed to create pool".
Definition DeleteFaultyPoolOnNode (spareNode : string) : M unit :=
  must "Failed to delete pool" (DeleteMsPool spare_pool) ;;
  deleteFaultyDisk spareNode.

Definition await_state (uuid state : string) : M unit :=
  _ ← Eventually rc_defTimeoutSecs 1
        ('(volState, err) ← on_session (e2e_GetMsvState uuid);
         Expect_success err "GetMsvState" ;;
         mret volState) (λ volState, bool_decide (volState = state)) "volume state";
  mret tt.
Definition expect_replicas (uuid : string) (nodes : list string) : M unit :=
  found ← verifyReplicaOnNodes uuid nodes; Expect found "replicas".

Definition RcReconciliationTest (c : faultConfig) : M unit :=
  '(nodes, err) ← on_session e2e_GetNodeLocs;
  Expect_success err "GetNodeLocs" ;;
  let nodeList := map LocName (filter (λ node, MayastorNode_ node = true) nodes) in
  Expect (bool_decide (length nodeList = 3%nat)) "three nodes" ;;
  node0 ← index nodeList 0;
  node1 ← index nodeList 1;
  spareNode ← index nodeList 2;
  DeletePoolOnNode spareNode ;;
  ft_createSC c ;;
  uuid ← ft_createPVC c;
  expect_replicas uuid [node0; node1] ;;
  CreateFaultyPoolOnNode spareNode ;;
  let podName := "fio-write-" +:+ ft_pvcName c in
  rc_createFioPod c podName node0 ;;
  suppressMayastorPodOn node1 0 ;;
  await_state uuid "Degraded" ;;
  expect_replicas uuid [node0; spareNode] ;;
  unSuppressMayastorPodOn node1 0 ;;
  suppressMayastorPodOn spareNode 0 ;;
  expect_replicas uuid [node0; node1] ;;
  unSuppressMayastorPodOn spareNode 0 ;;
  await_state uuid "Online" ;;
  remove_pod podName ;;
  ft_deletePVC c ;;
  ft_deleteSC c ;;
  DeleteFaultyPoolOnNode spareNode ;;
  must "RestoreConfiguredPools" RestoreConfiguredPools.

Definition rc_BeforeEach : M unit :=
  version ← on_session cp_MajorVersion;
  Expect (bool_decide (version = 1%Z)) "control plane version" ;;
  must "BeforeEachCheck" BeforeEachCheck.
Definition rc_It : M unit := c ← rc_generateConfig "rc-reconciliation"; RcReconciliationTest c.
End Reconciliation.
End FaultSuites.
