(* ===== verification/LoadSuites.v ===== *)
(** * The suites maximum_vols_io, basic_volume_io, msv_rebuild and
    ER1-203-iSCSI_sc_validation

    Volumes under load: many in one pod, one of every kind, one whose replicas come and go; and
    a class of volumes that is refused. *)

From stdpp Require Import base gmap strings list.
From S2P Require Import Prelude GoLib Json Http Shell Kube MayastorClient GoTime.
From S2P Require Import K8sPods K8sLib K8sApps AgentClient Session ControlPlane E2ENodes.
From S2P Require Import E2EPods E2EUtil E2EPvc E2ECleanup E2ETest E2EBuilders Suites.
From S2P Require Import SuiteLib FaultSuites PoolSuites.

(** [maxVolConfig], times in nanoseconds. *)
Record maxVolConfig := mkMaxVolConfig {
  mx_protocol : string;
  mx_fsType : string;
  mx_volType : VolumeType;
  mx_replicas : Z;
  mx_volCountPerPod : Z;
  mx_scName : string;
  mx_pvcNames : list string;
  mx_pvcSize : Z;
  mx_fioPodNames : list string;
  mx_timeout : Z;
}.
(** [ScIscsiValidationConfig]. *)
Record ScIscsiValidationConfig := mkScIscsiValidationConfig {
  si_Protocol : string;
  si_FsType : string;
  si_Replicas : Z;
  si_ScName : string;
  si_PvcName : string;
  si_PvcSize : Z;
}.
Section LoadSuites.
Context {K : Corev1} {W C V : Type} `{Kube W} `{KubeApps W} `{Shell W} `{Http W} `{MapRange W}
  `{Clock W} `{Grpc W} `{Files W} `{System W} `{ConfigFiles W} `{Gomega W} `{!Events W}.
Notation M := (prog (Suite W C V)).

(** Every second, until the load has ended one way or the other, and once more than the
    timeout says: an error ends the test, and so does any end but success. *)
Definition await_load (podName : string) (timeoutSecs : Z) : M unit :=
  r ← for_upto 0 (timeoutSecs + 1) "" (λ _ _,
        on_session (time_Sleep Second) ;;
        '(phase, err) ← on_session (CheckPodCompleted podName NSDefault);
        Expect_success err "CheckPodComplete got error" ;;
        mret (if decide (phase = PodRunning) then Next phase else Break phase));
  phase ← no_return r;
  Expect (bool_decide (phase = PodSucceeded)) "fio pod phase".

Definition each_name (names : list string) (body : string → M unit) : M unit :=
  r ← for_range names tt (λ name _, body name ;; mret (Next tt));
  no_return r.

(** ** maximum_vols_io *)

Definition mx_defTimeoutSecs : Z := 300.

Definition generateMaxVolConfig (params : MaximumVolsIO) (testName : string)
    (replicasCount : Z) : M maxVolConfig :=
  _ ← duration_of (mvi_Duration params);
  fioCheckTimeout ← duration_of (mvi_Timeout params);
  let pods := map (λ ix, testName +:+ "-fio-" +:+ Itoa ix) (seqZ 0 (mvi_PodCount params)) in
  mret (mkMaxVolConfig ShareProtoNvmf "ext4" VolFileSystem replicasCount
          (mvi_VolumeCountPerPod params) (testName +:+ "-sc")
          (pods ≫= λ pod, map (λ jx, pod +:+ "-pvc-" +:+ Itoa jx)
                            (seqZ 0 (mvi_VolumeCountPerPod params)))
          (mvi_VolMb params) pods fioCheckTimeout).

(** One volume of a pod: where it is mounted, or which device it is, and the job of the load
    that goes there. *)
Definition pod_volume (pvc : string) : Volume := mkVolume ("ms-volume-" +:+ pvc) (Some pvc).
Definition pod_mount (pvc : string) : VolumeMount :=
  mkVolumeMount ("ms-volume-" +:+ pvc) ("/volume-" +:+ pvc).
Definition pod_device (pvc : string) : VolumeDevice :=
  mkVolumeDevice ("ms-volume-" +:+ pvc) ("/dev/sdm-" +:+ pvc).
Definition volume_job (volType : VolumeType) (ix : Z) (pvc : string) : list string :=
  ["--name=benchtest-" +:+ Itoa ix;
   if decide (volType = VolFileSystem) then "--filename=/volume-" +:+ pvc +:+ "/fio-test-file"
   else "--filename=/dev/sdm-" +:+ pvc].
Definition pod_args (volType : VolumeType) (pvcs : list string) : list string :=
  (["---"; "fio"] ++ GetDefaultFioArguments ++ ["--size=" +:+ Itoa DefaultFioSizeMb +:+ "m"] ++
   concat (imap (λ ix pvc, volume_job volType (Z.of_nat ix) pvc) pvcs) ++ ["&"])%list.
(** The built pod is changed in place: its first container gets the volumes and the
    arguments. *)
Definition fill_pod (volType : VolumeType) (pvcs : list string) (p : Pod) : Pod :=
  on_spec (λ s, mkPodSpec
    (match Containers s with
     | [] => []
     | c :: cs =>
         mkContainer (CtrName c) (Image c) (ImagePullPolicy c) (pod_args volType pvcs)
           (CtrSecurity c)
           (if decide (volType = VolFileSystem) then map pod_mount pvcs else VolumeMounts c)
           (if decide (volType = VolRawBlock) then map pod_device pvcs else VolumeDevices c)
         :: cs
     end) (Volumes s) (Tolerations s) (NodeSelector s) (NodeName s) (RestartPolicy s)
    (ServiceAccountName s) (HostNetwork s)) p.
(** The volumes of the pods are those of the list, in its order. *)
Definition take_pvcs (c : maxVolConfig) (pvcCount : Z) : M (list string) :=
  r ← for_upto pvcCount (pvcCount + mx_volCountPerPod c) [] (λ i pvcs,
        pvc ← index (mx_pvcNames c) i;
        mret (Next (pvcs ++ [pvc])%list));
  no_return r.
Definition createFioPods (c : maxVolConfig) : M unit :=
  r ← for_range (mx_fioPodNames c) 0%Z (λ podName pvcCount,
        pvcs ← take_pvcs c pvcCount;
        obj ← on_session (
          container ← load_container podName ["sleep"; "1000000"];
          e2e_Build (WithVolumes (map pod_volume pvcs)
            (WithContainer container (WithRestartPolicy RestartPolicyNever
              (WithNamespace NSDefault (WithName podName NewPodBuilder))))));
        create_pod (fill_pod (mx_volType c) pvcs <$> obj.1, obj.2) ;;
        await_running mx_defTimeoutSecs podName ;;
        mret (Next (pvcCount + Z.of_nat (length pvcs))%Z));
  _ ← no_return r;
  mret tt.

Definition maxVolumeTest (c : maxVolConfig) : M unit :=
  create_class (mx_scName c) (mx_protocol c) (mx_replicas c) (mx_fsType c) ;;
  each_name (mx_pvcNames c) (λ pvc,
    _ ← make_volume (mx_pvcSize c) pvc (mx_scName c) VolFileSystem; mret tt) ;;
  createFioPods c ;;
  each_name (mx_fioPodNames c) (λ podName, await_load podName (int_Seconds (mx_timeout c))) ;;
  each_name (mx_fioPodNames c) remove_pod ;;
  each_name (mx_pvcNames c) (λ pvc, remove_volume pvc (mx_scName c)) ;;
  delete_class (mx_scName c).

(** ** basic_volume_io *)

Definition bv_defTimeoutSecs : Z := 120.
(** The arguments of the load go into the pod that sleeps otherwise. *)
Definition set_args (args : list string) (p : Pod) : Pod :=
  on_spec (λ s, mkPodSpec
    (match Containers s with
     | [] => []
     | c :: cs => mkContainer (CtrName c) (Image c) (ImagePullPolicy c) args (CtrSecurity c)
                    (VolumeMounts c) (VolumeDevices c) :: cs
     end) (Volumes s) (Tolerations s) (NodeSelector s) (NodeName s) (RestartPolicy s)
    (ServiceAccountName s) (HostNetwork s)) p.
Definition bv_args (params : BasicVolumeIO) (volumeType : VolumeType) : list string :=
  (["--"] ++
   match volumeType with
   | VolFileSystem => ["--filename=" +:+ FioFsFilename;
                       "--size=" +:+ Itoa (bvi_FsVolSizeMb params) +:+ "m"]
   | VolRawBlock => ["--filename=" +:+ FioBlockFilename]
   | VolTypeNone => []
   end ++ GetFioArgs)%list.
Definition BasicVolumeIOTest (params : BasicVolumeIO) (protocol : string)
    (volumeType : VolumeType) (mode : string) : M unit :=
  c ← on_session Config;
  let name := ToLower ("basic-vol-io-repl-" +:+ Itoa (DefaultReplicaCount c) +:+ "-" +:+
    protocol +:+ "-" +:+ VolumeType_String volumeType +:+ "-" +:+ mode) in
  must "failed to create storage class" (
    b ← e2e_NewScBuilder;
    BuildAndCreate (sc_WithVolumeBindingMode mode (sc_WithNamespace NSDefault
      (sc_WithProtocol protocol (sc_WithReplicas (DefaultReplicaCount c)
        (sc_WithName name b)))))) ;;
  uid ← make_volume (bvi_VolSizeMb params) name name volumeType;
  let fioPodName := "fio-" +:+ name in
  '(_, err) ← on_session (
    pod ← CreateFioPodDef fioPodName name volumeType NSDefault;
    e2e_CreatePod (set_args (bv_args params volumeType) pod) NSDefault);
  Expect_success err "CreatePod" ;;
  await_running bv_defTimeoutSecs fioPodName ;;
  must "MsvConsistencyCheck" (MsvConsistencyCheck uid) ;;
  await_load fioPodName (bvi_FioTimeout params) ;;
  remove_pod fioPodName ;;
  remove_volume name name ;;
  delete_class name.

(** ** msv_rebuild *)

Definition mrb_createStorageClass (scName : string) (replicas : Z) : M unit :=
  must "Creating storage class" (
    b ← e2e_NewScBuilder;
    BuildAndCreate (sc_WithReplicas replicas (sc_WithProtocol ShareProtoNvmf
      (sc_WithNamespace NSDefault (sc_WithName scName b))))).
(** The two branches give the same: the error is lost. *)
Definition mrb_createFioPod (fioPodName pvcName : string) (durationSecs volSize : Z)
    : M error :=
  obj ← on_session (
    image ← GetFioImage;
    let args := (["--"; "--time_based"; "--runtime=" +:+ Itoa durationSecs;
                  "--filename=" +:+ FioFsFilename; "--size=" +:+ Itoa volSize +:+ "m"] ++
                 GetFioArgs)%list in
    load_pod fioPodName pvcName VolFileSystem id (mkContainer fioPodName image "" args None [] []));
  Expect_success obj.2 "Generating fio pod definition" ;;
  Expect (bool_decide (is_Some obj.1)) "failed to generate fio pod definition" ;;
  podObj ← deref obj.1;
  '(_, err) ← on_session (e2e_CreatePod podObj NSDefault);
  match err with Some _ => mret None | None => mret err end.

Definition getChildren (uuid : string) : M (list CmNexusChild) :=
  '(children, err) ← on_session (e2e_GetMsvNexusChildren uuid);
  match err with Some _ => Panic "Failed to get children" | None => mret children end.
Definition verifyChildrenCount (uuid : string) (replicas : Z) : M bool :=
  children ← getChildren uuid;
  mret (bool_decide (Z.of_nat (length children) = replicas)).

Section Rebuild.
(** The parameters, with the texts of the times read: seconds. *)
Context (params : MsvRebuild) (timeout pollPeriod : Z).

Definition await {A} (look : M A) (wanted : A → bool) (what : string) : M unit :=
  _ ← Eventually timeout pollPeriod look wanted what; mret tt.
Definition await_replicas (uuid : string) (count : Z) : M unit :=
  await ('(replicas, err) ← on_session (e2e_GetMsvReplicas uuid);
         match err with
         | Some _ => Panic "Failed to get replicas"
         | None => mret (Z.of_nat (length replicas))
         end) (λ n, bool_decide (n = count)) "replicas".
Definition await_child (uuid : string) (i : Z) : M unit :=
  online ← on_session (via_get (cpi_ChildStateOnline _));
  await (children ← getChildren uuid; child ← index children i; mret (cc_State child))
    (λ state, bool_decide (state = online)) "child state".
Definition await_nexus (uuid : string) : M unit :=
  online ← on_session (via_get (cpi_NexusStateOnline _));
  await (on_session (e2e_GetMsvNexusState uuid))
    (λ r, bool_decide (r.1 = online ∧ r.2 = None)) "nexus state".
(** One replica more, a rebuild, and one replica less. *)
Definition rebuild_round (uuid : string) : M unit :=
  must "Update the number of replicas" (e2e_SetMsvReplicaCount uuid (mrb_UpdatedReplica params)) ;;
  await_replicas uuid (mrb_UpdatedReplica params) ;;
  await ('(children, err) ← on_session (e2e_GetMsvNexusChildren uuid);
         mret (match err with None => Z.of_nat (length children) | Some _ => 0%Z end))
    (λ n, bool_decide (n = mrb_UpdatedReplica params)) "children" ;;
  await (verifyChildrenCount uuid (mrb_UpdatedReplica params)) id "children count" ;;
  await_child uuid 0 ;;
  await_child uuid 1 ;;
  await_nexus uuid ;;
  must "Update the number of replicas" (e2e_SetMsvReplicaCount uuid (mrb_Replicas params)) ;;
  await_replicas uuid (mrb_Replicas params) ;;
  await_child uuid 0 ;;
  await_nexus uuid.
Definition mayastorRebuildTest (fuel : nat) : M unit :=
  let scName := ToLower ("msv-rebuild-" +:+ Itoa (mrb_Replicas params)) in
  mrb_createStorageClass scName (mrb_Replicas params) ;;
  let pvcName := ToLower ("msv-rebuild-volume-" +:+ Itoa (mrb_Replicas params)) in
  uuid ← make_volume DefaultVolumeSizeMb pvcName scName VolFileSystem;
  let fioPodName := "fio-" +:+ pvcName in
  err ← mrb_createFioPod fioPodName pvcName (mrb_DurationSecs params) (mrb_VolSize params);
  Expect_success err "Creating fio pod" ;;
  await (on_session (IsPodRunning fioPodName NSDefault)) id "fio pod running" ;;
  '(replicas, err) ← on_session (e2e_GetMsvReplicas uuid);
  Expect_success err "GetMsvReplicas" ;;
  Expect (bool_decide (Z.of_nat (length replicas) = mrb_Replicas params)) "replicas" ;;
  await (on_session (e2e_IsMsvPublished uuid)) id "published" ;;
  rebuild_round uuid ;;
  rebuild_round uuid ;;
  must "WaitPodComplete" (WaitPodComplete fuel fioPodName (mrb_SleepSecs params)
                            (mrb_DurationSecs params)) ;;
  remove_pod fioPodName ;;
  remove_volume pvcName scName ;;
  delete_class scName.
End Rebuild.

(** ** ER1-203-iSCSI_sc_validation *)

Definition si_defTimeoutSecs : Z := 360.
Definition GenerateScIscsiValidationConfig (params : ScIscsiValidation) (testName : string)
    : ScIscsiValidationConfig :=
  mkScIscsiValidationConfig (siv_UnsupportedProtocol params) "ext4" (siv_Replicas params)
    (testName +:+ "-sc") (testName +:+ "-pvc") (siv_VolMb params).
Definition si_createPvc (c : ScIscsiValidationConfig) : M unit :=
  '(_, err) ← on_session (e2e_CreatePVC
     (volume_claim (si_PvcSize c) (si_ScName c) (si_PvcName c)) "default");
  Expect_success err "Failed to create pvc".
Definition si_refused (message : string) : bool :=
  Contains message "InvalidArgument" && Contains message "Invalid protocol".
Definition si_verifyVolumeCreationErrors (c : ScIscsiValidationConfig) : M unit :=
  _ ← Eventually si_defTimeoutSecs 5
        ('(events, err) ← on_session
            (GetEvents "default" ("involvedObject.name=" +:+ si_PvcName c));
         Expect_success err "failed to get events" ;;
         mret (existsb (si_refused ∘ EvMessage) events)) id
        "failed to verify volume creation errors";
  mret tt.
Definition ScIscsiValidation_test (c : ScIscsiValidationConfig) : M unit :=
  create_class (si_ScName c) (si_Protocol c) (si_Replicas c) (si_FsType c) ;;
  si_createPvc c ;;
  si_verifyVolumeCreationErrors c ;;
  remove_volume (si_PvcName c) (si_ScName c) ;;
  delete_class (si_ScName c).
Definition si_It (params : ScIscsiValidation) : M unit :=
  ScIscsiValidation_test (GenerateScIscsiValidationConfig params "sc-iscsi-validation").

(** ** The other tests themselves *)

Definition mx_It (params : MaximumVolsIO) (replicas : Z) : M unit :=
  c ← generateMaxVolConfig params "max-volume" replicas; maxVolumeTest c.
Definition mx_Its (params : MaximumVolsIO) : list (M unit) := map (mx_It params) [1; 2; 3]%Z.
Definition bv_Its (params : BasicVolumeIO) : list (M unit) :=
  map (λ '(volumeType, mode), BasicVolumeIOTest params ShareProtoNvmf volumeType mode)
    [(VolFileSystem, VolumeBindingImmediate); (VolRawBlock, VolumeBindingImmediate);
     (VolFileSystem, VolumeBindingWaitForFirstConsumer);
     (VolRawBlock, VolumeBindingWaitForFirstConsumer)].
End LoadSuites.
