(* ===== verification/InjectSuites.v ===== *)
(** * The suites MQ-1783-fsx_ext4_stress and primitive_fault_injection

    The replica of a volume that is on the node of its nexus is faulted under load; the load
    has to go on, and the other replicas have to stay the same. *)

From stdpp Require Import base gmap strings list.
From S2P Require Import Prelude GoLib Json Http Shell Kube MayastorClient GoTime.
From S2P Require Import K8sPods K8sLib K8sApps AgentClient Session ControlPlane E2ENodes.
From S2P Require Import E2EPods E2EUtil E2EPvc E2ECleanup E2ETest E2EBuilders Suites.
From S2P Require Import SuiteLib FaultSuites PoolSuites.

(** What does not change of [fsxExt4StressConfig] and of [primitiveFaultInjectionConfig]; the
    times are those of the load that the latter runs, in nanoseconds. *)
Record injectConfig := mkInjectConfig {
  ij_protocol : string;
  ij_fsType : string;
  ij_replicaCount : Z;
  ij_scName : string;
  ij_pvcName : string;
  ij_podName : string;
  ij_pvcSize : Z;
}.
Record fsxConfig := mkFsxConfig {
  fx_common : injectConfig;
  fx_fileSystemType : string;
  fx_numberOfOperation : Z;
  fx_devicePath : string;
}.
Record injectionConfig := mkInjectionConfig {
  pi_common : injectConfig;
  pi_duration : Z;
  pi_thinkTime : Z;
  pi_timeout : Z;
}.

(** What a test finds out: the nexus of the volume and the replica to be faulted. *)
Record NexusDetail := mkNexusDetail {
  nx_nodeIP : string;
  nx_rep : string;
  nx_nexusUuid : string;
  nx_replicaIPs : list string;
}.

(** How many children are in which state. *)
Record child_counts := mkCounts {
  ct_faulted : Z; ct_online : Z; ct_degraded : Z; ct_other : Z }.

Definition patchSleepTime : Z := 10.
Definition patchTimeout : Z := 240.

Section InjectSuites.
Context {K : Corev1} {W C V : Type} `{Kube W} `{KubeApps W} `{Shell W} `{Http W} `{MapRange W}
  `{Clock W} `{Grpc W} `{Files W} `{System W} `{ConfigFiles W} `{Gomega W}.
Notation M := (prog (Suite W C V)).

Definition ij_createSC (c : injectConfig) : M unit :=
  create_class (ij_scName c) (ij_protocol c) (ij_replicaCount c) (ij_fsType c).
Definition ij_createPVC (c : injectConfig) : M string :=
  make_volume (ij_pvcSize c) (ij_pvcName c) (ij_scName c) VolRawBlock.
Definition ij_createPod (c : injectConfig) (timeout : Z) (container : prog (Session W) Container)
    : M unit :=
  container ← on_session container;
  obj ← on_session (load_pod (ij_podName c) (ij_pvcName c) VolRawBlock id container);
  create_pod obj ;;
  await_running timeout (ij_podName c).

(** ** The nexus (both suites) *)

(** The addresses of the nodes with replicas, but for the node of the nexus, and the address of
    the latter: the last of its name. *)
Definition nexus_addresses (nexus : string) (replicaNodes : list string)
    (nodeList : list NodeLocation) : string * list string :=
  foldl (λ '(nexusIP, replicaIPs) node,
    if decide (LocName node = nexus) then (IPAddress node, replicaIPs)
    else if decide (LocName node ∈ replicaNodes)
    then (nexusIP, (replicaIPs ++ [IPAddress node])%list)
    else (nexusIP, replicaIPs)) ("", []) nodeList.
Definition local_uri (children : list NexusChildInfo) : string :=
  match list_find (λ ch, HasPrefix (NcUri ch) "bdev:///") children with
  | Some (_, ch) => NcUri ch
  | None => ""
  end.
(** That there is a nexus is compared with a matcher and not with a number: an empty list
    goes on to its first element.  The two addresses are read for the log alone. *)
Definition getNexusDetail (c : injectConfig) (uuid : string) : M NexusDetail :=
  '(nodeList, err) ← on_session e2e_GetNodeLocs;
  Expect_success err "Failed to get mayastor nodes" ;;
  '(nexus, replicaNodes) ← on_session (e2e_GetMsvNodes uuid);
  Expect (negb (bool_decide (nexus = ""))) "Nexus not found" ;;
  let '(nexusIP, replicaIPs) := nexus_addresses nexus replicaNodes nodeList in
  Expect (negb (bool_decide (nexusIP = ""))) "Nexus IP not found" ;;
  Expect (bool_decide (Z.of_nat (length replicaIPs) = wrap64 (ij_replicaCount c - 1)))
    "Expected to find non-nexus replicas" ;;
  '(nexusList, _) ← on_session (ListNexuses [nexusIP]);
  nx ← index nexusList 0;
  let nxChildUri := local_uri (NxChildren nx) in
  Expect (negb (bool_decide (nxChildUri = ""))) "Could not find nexus replica" ;;
  '(msv, err) ← on_session (e2e_GetMSV uuid);
  Expect_success err "failed to retrieve MSV for volume" ;;
  msv ← deref msv;
  _ ← index replicaIPs 0;
  _ ← index replicaIPs 1;
  mret (mkNexusDetail nexusIP nxChildUri (cn_Uuid (cv_Nexus (cv_Status msv))) replicaIPs).
Definition faultNexusChild (nx : NexusDetail) : M unit :=
  must "failed to fault local replica" (FaultNexusChild (nx_nodeIP nx) (nx_nexusUuid nx) (nx_rep nx)).

(** The children of a volume that must be there. *)
Definition nexus_children (uuid : string) : M CmVolume :=
  '(msv, err) ← on_session (e2e_GetMSV uuid);
  Expect_success err "GetMSV" ;;
  Expect (bool_decide (is_Some msv)) "got nil msv" ;;
  deref msv.
Definition count_child (child : CmNexusChild) (n : child_counts) : M child_counts :=
  faulted ← on_session (via_get (cpi_ChildStateFaulted _));
  if decide (cc_State child = faulted)
  then mret (mkCounts (ct_faulted n + 1) (ct_online n) (ct_degraded n) (ct_other n))
  else
    online ← on_session (via_get (cpi_ChildStateOnline _));
    if decide (cc_State child = online)
    then mret (mkCounts (ct_faulted n) (ct_online n + 1) (ct_degraded n) (ct_other n))
    else
      degraded ← on_session (via_get (cpi_ChildStateDegraded _));
      mret (if decide (cc_State child = degraded)
            then mkCounts (ct_faulted n) (ct_online n) (ct_degraded n + 1) (ct_other n)
            else mkCounts (ct_faulted n) (ct_online n) (ct_degraded n) (ct_other n + 1))%Z.
Definition count_children (children : list CmNexusChild) : M child_counts :=
  r ← for_range children (mkCounts 0 0 0 0) (λ child n, n ← count_child child n; mret (Next n));
  no_return r.

(** Every ten seconds for four minutes; what the last look has seen decides. *)
Definition watch_children (uuid : string) (enough : CmVolume → child_counts → bool)
    : M child_counts :=
  r ← for_upto 0 (patchTimeout `quot` patchSleepTime) (mkCounts 0 0 0 0) (λ _ _,
        on_session (time_Sleep (Second * patchSleepTime)) ;;
        msv ← nexus_children uuid;
        n ← count_children (cn_Children (cv_Nexus (cv_Status msv)));
        mret (if enough msv n then Break n else Next n));
  no_return r.
(** One child is faulted, or degraded, and another online.  That no round has seen this is no
    failure: only a child in an unknown state is. *)
Definition one_lost (n : child_counts) : bool :=
  bool_decide (ct_other n = 0 ∧ ct_online n ≠ 0 ∧ (ct_faulted n = 1 ∨ ct_degraded n = 1))%Z.
Definition verifyFaultedReplica (uuid : string) : M unit :=
  n ← watch_children uuid (λ _, one_lost);
  Expect (bool_decide (ct_other n = 0%Z)) "children state other then faulted or online".

(** The claim is bound, its volume as well, and Mayastor has it. *)
Definition verify_bound (timeout interval : Z) (volName : string) : M PVC :=
  _ ← expect_pvc volName;
  _ ← Eventually timeout interval (pvc_phase volName)
        (λ phase, bool_decide (phase = ClaimBound)) "pvc bound";
  pvc ← expect_pvc volName;
  _ ← Eventually timeout interval (on_session (GetPV (PvcVolumeName pvc)))
        (λ r, bool_decide (r.2 = None)) "pv";
  _ ← Eventually timeout interval
        ('(phase, err) ← on_session (e2e_GetPvStatusPhase (PvcVolumeName pvc));
         Expect_success err "failed to get pv phase" ;;
         mret phase) (λ phase, bool_decide (phase = VolumeBound)) "pv bound";
  _ ← Eventually timeout interval
        ('(msv, err) ← on_session (e2e_GetMSV (UID (pvc_meta pvc)));
         Expect_success err "GetMSV" ;;
         mret msv) (λ msv, bool_decide (is_Some msv)) "msv";
  mret pvc.

(** The load runs, or has come to its end with success. *)
Definition expect_uninterrupted (podName : string) : M unit :=
  status ← on_session (IsPodRunning podName NSDefault);
  if status : bool then mret tt
  else
    '(phase, err) ← on_session (CheckPodContainerCompleted podName NSDefault);
    Expect_success err "Failed to get pod phase" ;;
    Expect (bool_decide (phase = PodSucceeded)) "pod phase".

(** ** MQ-1783-fsx_ext4_stress *)

Definition fx_podCompletionTimeout : Z := 900.
Definition fx_sleepTime : Z := 10.
Definition fx_defTimeoutSecs : Z := 90.
Definition FsxBlockFileName : string := "/dev/sdm".

Definition generateFsxExt4StressConfig (params : FsxExt4Stress) (testName : string) : fsxConfig :=
  mkFsxConfig
    (mkInjectConfig ShareProtoNvmf "ext4" (fes_Replicas params) (testName +:+ "-sc")
       (testName +:+ "-pvc") (testName +:+ "-fsx") (fes_VolMb params))
    (fes_FileSystemType params) (fes_NumberOfOperation params) FsxBlockFileName.

Definition createFsx (c : fsxConfig) : M unit :=
  let cc := fx_common c in
  ij_createPod cc fx_defTimeoutSecs
    (MakeFsxContainer (ij_podName cc)
       [fx_devicePath c; fx_fileSystemType c; Itoa (fx_numberOfOperation c)]).

(** Every child of the volume is online.  What the daemons say is asked for, but the state of a
    child is compared with a number of another type: that comparison cannot fail. *)
Definition fx_verifyVolumeState (uuid : string) : M unit :=
  msv ← nexus_children uuid;
  r ← for_range (cn_Children (cv_Nexus (cv_Status msv))) tt (λ child _,
        online ← on_session (via_get (cpi_ChildStateOnline _));
        Expect (bool_decide (cc_State child = online)) "Nexus child  is not online" ;;
        mret (Next tt));
  no_return r ;;
  nodeIPs ← on_session GetMayastorNodeIPAddresses;
  '(nexusList, err) ← on_session (ListNexuses nodeIPs);
  Expect_success err "failed to list nexuses" ;;
  Expect (negb (bool_decide (length nexusList = 0%nat))) "expected at least one nexus".

Definition fx_verifyRunning (c : injectConfig) : M unit :=
  status ← on_session (IsPodRunning (ij_podName c) NSDefault);
  (if status : bool then mret tt
   else _ ← on_session (CheckPodContainerCompleted (ij_podName c) NSDefault); mret tt) ;;
  Expect status "fsx pod phase".
Definition patchMsvReplica (c : injectConfig) (uuid : string) : M unit :=
  must "Failed to patch Mayastor volume"
    (e2e_SetMsvReplicaCount uuid (wrap64 (ij_replicaCount c - 1))).
(** A degraded child counts as one in another state here. *)
Definition children_online (msv : CmVolume) (n : child_counts) : bool :=
  bool_decide (ct_faulted n = 0 ∧ ct_degraded n + ct_other n = 0 ∧
               ct_online n = cv_ReplicaCount (cv_Spec msv))%Z.
Definition verifyUpdatedReplica (uuid : string) : M unit :=
  n ← watch_children uuid children_online;
  Expect (bool_decide (ct_degraded n + ct_other n = 0)%Z)
    "children state other then faulted or online" ;;
  Expect (bool_decide (ct_faulted n = 0%Z)) "children state as faulted".

Definition fsxExt4StressTest (fuel : nat) (c : fsxConfig) : M unit :=
  let cc := fx_common c in
  ij_createSC cc ;;
  uuid ← ij_createPVC cc;
  createFsx c ;;
  fx_verifyVolumeState uuid ;;
  fx_verifyRunning cc ;;
  nx ← getNexusDetail cc uuid;
  faultNexusChild nx ;;
  verifyFaultedReplica uuid ;;
  patchMsvReplica cc uuid ;;
  verifyUpdatedReplica uuid ;;
  _ ← verify_bound fx_defTimeoutSecs 1 (ij_pvcName cc);
  expect_uninterrupted (ij_podName cc) ;;
  fx_verifyVolumeState uuid ;;
  must "Failed to check pod completion status"
    (WaitPodComplete fuel (ij_podName cc) fx_sleepTime fx_podCompletionTimeout) ;;
  remove_pod (ij_podName cc) ;;
  remove_volume (ij_pvcName cc) (ij_scName cc) ;;
  delete_class (ij_scName cc).

(** ** primitive_fault_injection *)

Definition pi_sleepTime : Z := 2.
Definition pi_defTimeoutSecs : Z := 600.

Definition generatePrimitiveFaultInjectionConfig (params : PrimitiveFaultInjection)
    (testName : string) : M injectionConfig :=
  fioDuration ← duration_of (pfi_Duration params);
  fioThinkTime ← duration_of (pfi_ThinkTime params);
  fioTimeout ← duration_of (pfi_Timeout params);
  mret (mkInjectionConfig
    (mkInjectConfig ShareProtoNvmf "ext4" (pfi_Replicas params) (testName +:+ "-sc")
       (testName +:+ "-pvc") (testName +:+ "-fio") (pfi_VolMb params))
    fioDuration fioThinkTime fioTimeout).

Definition pi_args (c : injectionConfig) : list string :=
  (["--"] ++ GetDefaultFioArguments ++
   ["--time_based"; "--runtime=" +:+ Itoa (int_Seconds (pi_duration c));
    "--thinktime=" +:+ Itoa (pi_thinkTime c `quot` 1000); "--status-interval=30";
    "--filename=" +:+ FioBlockFilename; "--name=benchtest-0"; "&"])%list.
Definition pi_createFio (c : injectionConfig) : M unit :=
  let cc := pi_common c in
  ij_createPod cc pi_defTimeoutSecs (e2e_MakeFioContainer (ij_podName cc) (pi_args c)).

(** Three children have to be online or degraded, whatever the number of replicas is; the
    first nexus has to be there, and the comparison of the states of its children cannot
    fail. *)
Definition child_usable (child : CmNexusChild) : M bool :=
  version ← on_session cp_MajorVersion;
  if decide (version = 1%Z) then
    online ← on_session (via_get (cpi_ChildStateOnline _));
    if decide (cc_State child = online) then mret true
    else
      degraded ← on_session (via_get (cpi_ChildStateDegraded _));
      mret (bool_decide (cc_State child = degraded))
  else Panic "assertion failed: unsupported control plane version".
Definition count_usable (uuid : string) : M Z :=
  msv ← nexus_children uuid;
  r ← for_range (cn_Children (cv_Nexus (cv_Status msv))) 0%Z (λ child n,
        usable ← child_usable child;
        mret (Next (if usable : bool then n + 1 else n)%Z));
  no_return r.
Definition pi_verifyVolumeState (uuid : string) : M unit :=
  _ ← Eventually pi_defTimeoutSecs 6 (count_usable uuid) (λ n, bool_decide (n = 3%Z))
        "Nexus children are not in online or degraded state";
  '(nodeList, err) ← on_session e2e_GetNodeLocs;
  Expect_success err "Failed to get mayastor nodes" ;;
  '(nexusList, _) ← on_session (ListNexuses (map IPAddress nodeList));
  _ ← index nexusList 0;
  mret tt.
(** The load has to run: that it has come to its end with success is not accepted. *)
Definition pi_verifyUninterruptedIO (c : injectConfig) : M unit :=
  await_running pi_defTimeoutSecs (ij_podName c).
Definition pi_verifyMsvStatus (c : injectConfig) : M unit :=
  pvc ← verify_bound pi_defTimeoutSecs 5 (ij_pvcName c);
  degraded ← on_session (via_get (cpi_VolStateDegraded _));
  _ ← Eventually pi_defTimeoutSecs 5
        ('(msv, err) ← on_session (e2e_GetMSV (UID (pvc_meta pvc)));
         Expect_success err "GetMSV" ;;
         msv ← deref msv;
         mret (cv_State (cv_Status msv))) (λ state, bool_decide (state = degraded))
        "volume degraded";
  mret tt.
(** The timeout is in nanoseconds, and the wait takes it for seconds. *)
Definition waitForFioPodCompletion (fuel : nat) (c : injectionConfig) : M unit :=
  must "Failed to check pod completion status"
    (WaitPodComplete fuel (ij_podName (pi_common c)) pi_sleepTime (pi_timeout c)).

Definition faultInjectionTest (fuel : nat) (c : injectionConfig) : M unit :=
  let cc := pi_common c in
  ij_createSC cc ;;
  uuid ← ij_createPVC cc;
  pi_createFio c ;;
  pi_verifyVolumeState uuid ;;
  pi_verifyUninterruptedIO cc ;;
  nx ← getNexusDetail cc uuid;
  faultNexusChild nx ;;
  verifyFaultedReplica uuid ;;
  pi_verifyMsvStatus cc ;;
  pi_verifyUninterruptedIO cc ;;
  pi_verifyVolumeState uuid ;;
  waitForFioPodCompletion fuel c ;;
  PrimitiveDataIntegrity (nx_replicaIPs nx) ;;
  remove_pod (ij_podName cc) ;;
  remove_volume (ij_pvcName cc) (ij_scName cc) ;;
  delete_class (ij_scName cc).

(** ** The tests themselves *)

Definition fx_It (params : FsxExt4Stress) (fuel : nat) : M unit :=
  fsxExt4StressTest fuel (generateFsxExt4StressConfig params "fsx-ext4-stress").
Definition pi_It (params : PrimitiveFaultInjection) (fuel : nat) : M unit :=
  c ← generatePrimitiveFaultInjectionConfig params "primitive-fault-injection";
  faultInjectionTest fuel c.
End InjectSuites.
