(* ===== verification/SoakSuite.v ===== *)
(** * The suite io_soak

    Loads on many volumes at once, on file systems and on raw devices, and pods that are made
    to fail again and again meanwhile; a monitor that watches until all loads have ended. *)

From stdpp Require Import base gmap strings list sorting.
From S2P Require Import Prelude GoLib Json Http Shell Kube MayastorClient GoTime.
From S2P Require Import K8sPods K8sLib K8sApps AgentClient Session ControlPlane E2ENodes.
From S2P Require Import E2EPods E2EUtil E2EPvc E2ECleanup E2ETest E2EBuilders Suites.
From S2P Require Import SuiteLib PoolSuites LoadSuites.

Definition NSDisrupt : string := NSE2EPrefix +:+ "-iosoak-disrupt".
Definition NodeSelectorKey : string := "e2e-io-soak".
Definition NodeSelectorAppValue : string := "e2e-app".
Definition AppNodeSelector : gmap string string := {[ NodeSelectorKey := NodeSelectorAppValue ]}.

(** [FioFsSoakJob] and [FioRawBlockSoakJob]: the volume and the pod have the same name.  The
    identity of the volume is written to a copy of the job and is lost. *)
Record SoakJob := mkSoakJob {
  sj_block : bool;
  sj_name : string;
  sj_scName : string;
  sj_id : Z;
  sj_duration : Z;
}.
Record FioDisruptorJob := mkDisruptorJob {
  dj_name : string;
  dj_scName : string;
  dj_id : Z;
  dj_faultDelay : Z;
  dj_ready : bool;
}.
(** The variables of the package. *)
Record SoakVars := mkSoakVars {
  scNames : list string;
  jobs : list SoakJob;
  disruptorScNames : list string;
  disruptorJobs : list FioDisruptorJob;
}.

Definition place_pod (selector : gmap string string) (p : Pod) : Pod :=
  on_spec (λ s, mkPodSpec (Containers s) (Volumes s) (Tolerations s) selector (NodeName s)
    (RestartPolicy s) (ServiceAccountName s) (HostNetwork s)) p.
Definition restart_pod (p : Pod) : Pod :=
  on_spec (λ s, mkPodSpec (Containers s) (Volumes s) (Tolerations s) (NodeSelector s)
    (NodeName s) "Always" (ServiceAccountName s) (HostNetwork s)) p.
Definition privilege_pod (p : Pod) : Pod :=
  on_spec (λ s, mkPodSpec
    (match Containers s with
     | [] => []
     | c :: cs => mkContainer (CtrName c) (Image c) (ImagePullPolicy c) (Args c)
                    (Some root_context) (VolumeMounts c) (VolumeDevices c) :: cs
     end) (Volumes s) (Tolerations s) (NodeSelector s) (NodeName s) (RestartPolicy s)
    (ServiceAccountName s) (HostNetwork s)) p.

Definition MakeFioFsJob (scName : string) (id duration : Z) : SoakJob :=
  mkSoakJob false ("fio-filesystem-" +:+ scName +:+ "-" +:+ Itoa id) scName id
    (int_Seconds duration).
Definition MakeFioRawBlockJob (scName : string) (id duration : Z) : SoakJob :=
  mkSoakJob true ("fio-rawblock-" +:+ scName +:+ "-" +:+ Itoa id) scName id (int_Seconds duration).
Definition MakeFioDisruptorJob (scName : string) (id segfaultDelay : Z) : FioDisruptorJob :=
  mkDisruptorJob ("fio-disruptor-" +:+ scName +:+ "-" +:+ Itoa id) scName id segfaultDelay false.

Section SoakSuite.
Context {K : Corev1} {W C : Type} `{Kube W} `{KubeApps W} `{Shell W} `{Http W} `{MapRange W}
  `{Clock W} `{Grpc W} `{Files W} `{System W} `{ConfigFiles W} `{Gomega W}.
Notation M := (prog (Suite W C SoakVars)).

(** ** fio.go *)

(** The think time and the blocks of the cycle that an index falls to. *)
Definition duty_cycle (idx : Z) : prog (Session W) (Z * Z) :=
  c ← Config;
  match FioDutyCycles c with
  | [] => mret (1, 1000)%Z
  | cycles => index cycles (idx `rem` Z.of_nat (length cycles))
  end.
Definition GetThinkTime (idx : Z) : prog (Session W) Z := d ← duty_cycle idx; mret d.1.
Definition GetThinkTimeBlocks (idx : Z) : prog (Session W) Z := d ← duty_cycle idx; mret d.2.
Definition GetIOSoakFioArgs : list string :=
  (GetFioArgs ++ ["--status-interval=120"; "--output-format=terse"])%list.

(** ** The jobs (filesystem_fio.go and rawblock_fio.go) *)

Definition job_volType (job : SoakJob) : VolumeType :=
  if sj_block job then VolRawBlock else VolFileSystem.
Definition sj_makeVolume (job : SoakJob) : M unit :=
  _ ← make_volume DefaultVolumeSizeMb (sj_name job) (sj_scName job) (job_volType job); mret tt.
Definition sj_removeVolume (job : SoakJob) : M unit := remove_volume (sj_name job) (sj_scName job).
Definition sj_args (soak : IOSoakTest) (job : SoakJob) : prog (Session W) (list string) :=
  thinkTime ← GetThinkTime (sj_id job);
  blocks ← GetThinkTimeBlocks (sj_id job);
  mret (["--"; "--startdelay=" +:+ Itoa (ios_FioStartDelay soak); "--time_based";
         "--runtime=" +:+ Itoa (sj_duration job);
         "--filename=" +:+ (if sj_block job then FioBlockFilename else FioFsFilename);
         "--thinktime=" +:+ Itoa thinkTime; "--thinktime_blocks=" +:+ Itoa blocks] ++
        (if sj_block job then [] else ["--size=" +:+ Itoa DefaultFioSizeMb +:+ "m"]) ++
        GetIOSoakFioArgs)%list.
Definition sj_makeTestPod (soak : IOSoakTest) (job : SoakJob) (selector : gmap string string)
    : prog (Session W) (Pod * error) :=
  pod ← CreateFioPodDef (sj_name job) (sj_name job) (job_volType job) NSDefault;
  args ← sj_args soak job;
  let pod := set_args args (place_pod selector pod) in
  e2e_CreatePod (if sj_block job then privilege_pod pod else pod) NSDefault.
Definition sj_removeTestPod (job : SoakJob) : prog (Session W) error :=
  e2e_DeletePod (sj_name job) NSDefault.

(** ** Pods that disrupt (disruptor_fio.go) *)

Definition dj_makeVolume (job : FioDisruptorJob) : M unit :=
  must "failed to create pvc" (
    '(_, err) ← e2e_MkPVC DefaultVolumeSizeMb (dj_name job) (dj_scName job) VolRawBlock NSDisrupt;
    mret err).
Definition dj_removeVolume (job : FioDisruptorJob) : M unit :=
  must "failed to delete pvc" (RmPVC (dj_name job) (dj_scName job) NSDisrupt).
Definition dj_makeTestPod (job : FioDisruptorJob) (selector : gmap string string)
    : prog (Session W) (Pod * error) :=
  pod ← CreateFioPodDef (dj_name job) (dj_name job) VolRawBlock NSDisrupt;
  thinkTime ← GetThinkTime (dj_id job);
  blocks ← GetThinkTimeBlocks (dj_id job);
  let args := (["exitv"; "255"; "--"; "--time_based";
                "--runtime=" +:+ Itoa (dj_faultDelay job); "--filename=" +:+ FioBlockFilename;
                "--thinktime=" +:+ Itoa thinkTime; "--thinktime_blocks=" +:+ Itoa blocks] ++
               GetIOSoakFioArgs)%list in
  e2e_CreatePod (set_args args (restart_pod (place_pod selector pod))) NSDisrupt.
Definition dj_removeTestPod (job : FioDisruptorJob) : prog (Session W) error :=
  e2e_DeletePod (dj_name job) NSDisrupt.

Definition each {A} (l : list A) (body : A → M unit) : M unit :=
  r ← for_range l tt (λ x _, body x ;; mret (Next tt)); no_return r.

Definition set_disruptorScNames (f : list string → list string) : M unit :=
  set_vars (λ v, mkSoakVars (scNames v) (jobs v) (f (disruptorScNames v)) (disruptorJobs v)).
Definition add_disruptor (job : FioDisruptorJob) : M unit :=
  set_vars (λ v, mkSoakVars (scNames v) (jobs v) (disruptorScNames v) (disruptorJobs v ++ [job])%list).

Definition DisruptorsInit (protocols : list string) (replicas : Z) : M unit :=
  each protocols (λ proto,
    let scName := "iosoak-disruptor-" +:+ proto in
    must "MkStorageClass" (MkStorageClass scName replicas proto NSDefault) ;;
    set_disruptorScNames (λ l, l ++ [scName])%list).
Definition DisruptorsDeinit : M unit :=
  v ← vars;
  each (disruptorScNames v) (λ scName, must "RmStorageClass" (RmStorageClass scName)).

(** One round over the classes, from an index on: the index that follows. *)
Definition disruptor_round (count faultAfter idx : Z) : M Z :=
  v ← vars;
  r ← for_range (disruptorScNames v) idx (λ scName idx,
        if decide (count < idx)%Z then mret (Break idx)
        else add_disruptor (MakeFioDisruptorJob scName idx faultAfter) ;;
             mret (Next (idx + 1)%Z));
  no_return r.
(** Rounds until there are enough: without a class there never are. *)
Definition queue_up (count : Z) (round : Z → M Z) : M unit :=
  r ← for_fuel (Z.to_nat count + 1) 0 1%Z (λ _ idx,
        if decide (count < idx)%Z then mret (Break idx)
        else idx ← round idx; mret (Next idx));
  _ ← no_return r;
  mret tt.

(** A disruptor that has been seen to run counts as ready; that is noted in a copy of the job,
    which is gone at the end of the round. *)
Definition disruptor_ready (job : FioDisruptorJob) : prog (Session W) bool :=
  if dj_ready job then mret true else IsPodRunning (dj_name job) NSDisrupt.
(** Every second, until all were ready in the same round. *)
Definition await_all {A} (timeoutSecs : Z) (list_of : SoakVars → list A)
    (ready : A → prog (Session W) bool) : M bool :=
  r ← for_upto 0 timeoutSecs false (λ _ _,
        on_session (time_Sleep Second) ;;
        v ← vars;
        r ← for_range (list_of v) true (λ job allReady,
              b ← on_session (ready job); mret (Next (allReady && b)));
        allReady ← no_return r;
        mret (if allReady : bool then Break true else Next false));
  no_return r.
Definition MakeDisruptors (soak : IOSoakTest) (readyTimeout : Z) : M unit :=
  must "Create namespace" (MkNamespace NSDisrupt) ;;
  queue_up (ios_PodCount soak) (disruptor_round (ios_PodCount soak) (ios_FaultAfter soak)) ;;
  v ← vars;
  each (disruptorJobs v) dj_makeVolume ;;
  each (disruptorJobs v) (λ job,
    must "makeTestPod" ('(_, err) ← dj_makeTestPod job AppNodeSelector; mret err)) ;;
  allReady ← await_all (int_Seconds readyTimeout) disruptorJobs disruptor_ready;
  Expect allReady "Timeout waiting to disruptor jobs to be ready".
Definition DestroyDisruptors : M unit :=
  v ← vars;
  each (disruptorJobs v) (λ job, must "removeTestPod" (dj_removeTestPod job)) ;;
  each (disruptorJobs v) dj_removeVolume ;;
  must "Delete namespace" (RmNamespace NSDisrupt).

(** ** The monitor (io_soak_test.go) *)

(** What the checks of one round say, before any pod is looked at; whether the volumes are
    healthy is only logged. *)
Definition monitor_checks : prog (Session W) error :=
  time_Sleep Second ;;
  ns ← e2e_NSMayastor;
  err ← CheckTestPodsHealth ns;
  match err with
  | Some _ => mret err
  | None =>
      err ← CheckTestPodsHealth NSDefault;
      match err with
      | Some _ => mret err
      | None => _ ← e2e_CheckAllMsvsAreHealthy; CheckAllMsPoolsAreOnline
      end
  end.

(** The jobs that are still watched, and the names of those that failed.  A status that cannot
    be had ends the round, and the error of it is lost. *)
Definition look_at_load (podName : string) (b : gmap string SoakJob * list string)
    : prog (Session W) (ctl (gmap string SoakJob * list string) Empty_set) :=
  let '(active, failedJobs) := b in
  '(res, err) ← CheckPodCompleted podName NSDefault;
  mret (match err with
        | Some _ => Break (active, failedJobs)
        | None =>
            if decide (res = PodSucceeded) then Next (delete podName active, failedJobs)
            else if decide (res = PodFailed)
            then Next (delete podName active, (failedJobs ++ [podName])%list)
            else Next (active, failedJobs)
        end).
Definition monitor_round (b : gmap string SoakJob * list string)
    : prog (Session W) (gmap string SoakJob * list string) :=
  podNames ← range_map b.1;
  r ← for_range (map fst podNames) b look_at_load;
  no_return r.
Definition active_jobs (l : list SoakJob) : gmap string SoakJob :=
  foldl (λ m job, <[sj_name job := job]> m) ∅ l.
(** The rounds go on while jobs are watched and none has failed. *)
Definition monitor_step (b : gmap string SoakJob * list string)
    : prog (Session W) (ctl (gmap string SoakJob * list string) error) :=
  if decide (b.1 = ∅ ∨ b.2 ≠ []) then mret (Break b)
  else
    err ← monitor_checks;
    match err with
    | Some _ => mret (Return err)
    | None => b ← monitor_round b; mret (Next b)
    end.
Definition monitor_loop (fuel : nat) (l : list SoakJob)
    : prog (Session W) ((gmap string SoakJob * list string) + error) :=
  for_fuel fuel 0 (active_jobs l, []) (λ _ b, monitor_step b).
Definition monitor (fuel : nat) (l : list SoakJob) : prog (Session W) error :=
  r ← monitor_loop fuel l;
  mret (match r with
        | inr err => err
        | inl (_, []) => None
        | inl (_, failedJobs) => errorf ("failed jobs " +:+ fmt_errs failedJobs)
        end).

(** ** The test *)

Definition set_scNames (f : list string → list string) : M unit :=
  set_vars (λ v, mkSoakVars (f (scNames v)) (jobs v) (disruptorScNames v) (disruptorJobs v)).
Definition add_job (job : SoakJob) : M unit :=
  set_vars (λ v, mkSoakVars (scNames v) (jobs v ++ [job])%list (disruptorScNames v)
                   (disruptorJobs v)).
(** A job on a file system and one on a device for every class, while jobs are wanted. *)
Definition job_round (count duration idx : Z) : M Z :=
  v ← vars;
  r ← for_range (scNames v) idx (λ scName idx,
        if decide (count < idx)%Z then mret (Break idx)
        else
          add_job (MakeFioFsJob scName idx duration) ;;
          let idx := (idx + 1)%Z in
          if decide (count < idx)%Z then mret (Break idx)
          else add_job (MakeFioRawBlockJob scName idx duration) ;; mret (Next (idx + 1)%Z));
  no_return r.

Definition loc_before (a b : NodeLocation) : Prop := String.leb (LocName a) (LocName b) = true.
#[export] Instance loc_before_dec a b : Decision (loc_before a b).
Proof. unfold loc_before. apply _. Defined.
(** Every second node is labelled, or its label removed. *)
Definition every_second (nodes : list string) (f : string → prog (Session W) error)
    (errors : list goerror) : M (list goerror) :=
  r ← for_range (imap pair nodes) errors (λ '(i, node) errors,
        if decide (i mod 2 = 0)%nat then
          err ← on_session (f node); mret (Next (Accumulate err errors))
        else mret (Next errors));
  no_return r.
Definition soak_nodes : M (list string) :=
  '(nodeList, err) ← on_session e2e_GetNodeLocs;
  Expect_success err "GetNodeLocs" ;;
  mret (map LocName (filter (λ node, MayastorNode_ node = true ∧ MasterNode node = false)
          (merge_sort loc_before nodeList))).

Definition IOSoakTest_run (fuel : nat) (soak : IOSoakTest) (protocols : list string)
    (replicas loadFactor duration readyTimeout disruptorCount disruptReadyTimeout : Z) : M unit :=
  nodes ← soak_nodes;
  let jobCount := wrap64 (loadFactor * Z.of_nat (length nodes) - disruptorCount) in
  errors ← every_second nodes (λ node, LabelNode node NodeSelectorKey NodeSelectorAppValue) [];
  Expect_success (GetError errors) "LabelNode" ;;
  Expect (bool_decide (replicas ≤ Z.of_nat (length nodes))%Z) "replicas" ;;
  each protocols (λ proto,
    let scName := "io-soak-" +:+ proto in
    must "MkStorageClass" (MkStorageClass scName replicas proto NSDefault) ;;
    set_scNames (λ l, l ++ [scName])%list) ;;
  queue_up jobCount (job_round jobCount duration) ;;
  v ← vars;
  each (jobs v) sj_makeVolume ;;
  DisruptorsInit protocols replicas ;;
  MakeDisruptors soak disruptReadyTimeout ;;
  v ← vars;
  each (jobs v) (λ job,
    must "makeTestPod" ('(_, err) ← sj_makeTestPod soak job AppNodeSelector; mret err)) ;;
  allReady ← await_all (int_Seconds readyTimeout) jobs
               (λ job, IsPodRunning (sj_name job) NSDefault);
  v ← vars;
  (if allReady : bool then mret tt
   else each (jobs v) (λ job, _ ← on_session (IsPodRunning (sj_name job) NSDefault); mret tt)) ;;
  Expect allReady "Timeout waiting to jobs to be ready" ;;
  must "Failed runs" (monitor fuel (jobs v)) ;;
  DestroyDisruptors ;;
  DisruptorsDeinit ;;
  each (jobs v) (λ job, must "removeTestPod" (sj_removeTestPod job)) ;;
  each (jobs v) sj_removeVolume ;;
  each (scNames v) (λ scName, must "RmStorageClass" (RmStorageClass scName)) ;;
  errors ← every_second nodes (λ node, UnlabelNode node NodeSelectorKey) errors;
  Expect_success (GetError errors) "UnlabelNode".
Definition io_soak_It (fuel : nat) (soak : IOSoakTest) : M unit :=
  duration ← duration_of (ios_Duration soak);
  readyTimeout ← duration_of (ios_ReadyTimeout soak);
  disruptReadyTimeout ← duration_of (ios_DisruptReadyTimeout soak);
  IOSoakTest_run fuel soak (ios_Protocols soak) (ios_Replicas soak) (ios_LoadFactor soak)
    duration readyTimeout (ios_PodCount soak) disruptReadyTimeout.
End SoakSuite.
