(* ===== verification/Movers.v ===== *)
(** * Goroutines that commute

    A goroutine makes one request and then only writes what no other one reads or writes.  The
    writes can be moved to directly after the request, so that the goroutines are as good as
    running one after the other, in the order of their requests. *)

From stdpp Require Import base list relations.
From S2P Require Import Prelude GoLib SuiteLib.

Section Movers.
Context {S : Type}.
Implicit Types p q : prog S unit.

(** The order of two actions does not matter. *)
Definition swap {X Y} (g : S → option (Y * S)) (f : S → option (X * S)) : Prop :=
  ∀ s y s1 x s2, g s = Some (y, s1) → f s = Some (x, s2) →
    ∃ s3, f s1 = Some (x, s3) ∧ g s2 = Some (y, s3).
Fixpoint act_indep {Y} (g : S → option (Y * S)) q : Prop :=
  match q with Act f k => swap g f ∧ ∀ x, act_indep g (k x) | _ => True end.
(** [p] never waits, and its actions can be swapped with those of [q]. *)
Fixpoint indep p q : Prop :=
  match p with
  | Done _ => True
  | Act g k => (∀ s, is_Some (g s)) ∧ act_indep g q ∧ ∀ y, indep (k y) q
  | _ => False
  end.

Lemma indep_done p q : indep p q → indep p (Done tt).
Proof. induction p as [| | |Y g k IH]; simpl; naive_solver. Qed.
Lemma indep_next {X} p (f : S → option (X * S)) k x : indep p (Act f k) → indep p (k x).
Proof. induction p as [| | |Y g k' IH]; simpl; naive_solver. Qed.

Lemma indep_swap {X} p (f : S → option (X * S)) k s x s2 t :
  indep p (Act f k) → f s = Some (x, s2) → run p s2 = (Ret tt, t) →
  ∃ s1, run p s = (Ret tt, s1) ∧ f s1 = Some (x, t).
Proof.
  revert s s2. induction p as [[]| | |Y g k' IH]; intros s s2 Hi Hf Hr; simpl in *; try done.
  - simplify_eq. eauto.
  - destruct Hi as (Ht & [Hsw _] & Hk). destruct (Ht s) as [[y s1] Hg].
    destruct (Hsw s y s1 x s2 Hg Hf) as (s3 & Hf' & Hg'). rewrite Hg. rewrite Hg' in Hr.
    by eapply IH.
Qed.

Definition ended_all (ts : list (prog S unit)) : Prop := Forall (λ p, p = Done tt) ts.

(** A goroutine that never waits may as well run to its end first. *)
Lemma finish_first ts ts' s s' i p :
  rtc pool_step (ts, s) (ts', s') → ended_all ts' → ts !! i = Some p →
  (∀ j q, j ≠ i → ts !! j = Some q → indep p q) → indep p (Done tt) →
  ∃ s1, run p s = (Ret tt, s1) ∧ rtc pool_step (<[i := Done tt]> ts, s1) (ts', s').
Proof.
  intros Hsteps. remember (ts, s) as c eqn:Ec. remember (ts', s') as c' eqn:Ec'.
  revert p ts s Ec. induction Hsteps as [c|c d e Hstep Hsteps IH];
    intros p ts s -> Hend Hi Hind Hp.
  { simplify_eq. pose proof (Forall_lookup_1 _ _ _ _ Hend Hi) as ->.
    exists s'. split; [done|]. by rewrite list_insert_id. }
  inversion Hstep as [ts1 s1 j X f k x s2 Hj Hf]; simplify_eq.
  destruct (decide (j = i)) as [->|Hne].
  - simplify_eq. destruct Hp as (_ & _ & Hk).
    destruct (IH eq_refl (k x) (<[i:=k x]> ts) s2 eq_refl Hend) as (t & Hr & Hrest).
    + apply list_lookup_insert_eq. by eapply lookup_lt_Some.
    + intros j q Hji Hq. rewrite list_lookup_insert_ne in Hq by done.
      destruct (Hind j q Hji Hq) as (_ & _ & Hq'). apply Hq'.
    + apply Hk.
    + exists t. simpl. rewrite Hf. split; [done|]. by rewrite list_insert_insert_eq in Hrest.
  - destruct (IH eq_refl p (<[j:=k x]> ts) s2 eq_refl Hend) as (t & Hr & Hrest).
    + by rewrite list_lookup_insert_ne.
    + intros j' q Hji Hq. destruct (decide (j' = j)) as [->|Hne'].
      * rewrite list_lookup_insert_eq in Hq by (by eapply lookup_lt_Some). simplify_eq.
        eapply indep_next. by apply (Hind j).
      * rewrite list_lookup_insert_ne in Hq by done. by eapply Hind.
    + done.
    + destruct (indep_swap p f k s x s2 t (Hind j _ Hne Hj) Hf Hr) as (s1 & Hr1 & Hf1).
      exists s1. split; [done|]. eapply rtc_l; [|done].
      rewrite list_insert_insert_ne by done.
      eapply pool_step_act; [|done]. by rewrite list_lookup_insert_ne.
Qed.

(** The goroutines of a list, one after the other. *)
Fixpoint one_by_one (ts : list (prog S unit)) (order : list nat) : prog S unit :=
  match order with
  | [] => mret tt
  | i :: order => default (Done tt) (ts !! i) ;; one_by_one ts order
  end.

(** What follows the first action of a goroutine is independent of another one. *)
Definition after_request p q : Prop :=
  match p with Act f k => ∀ x, indep (k x) q | Done _ => True | _ => False end.
Definition separate (ts : list (prog S unit)) : Prop :=
  ∀ i j p q, i ≠ j → ts !! i = Some p → ts !! j = Some q → after_request p q.
Definition active (ts : list (prog S unit)) : nat := length (filter (λ p, ended p = false) ts).

Lemma one_by_one_insert ts i p order :
  i ∉ order → one_by_one (<[i := p]> ts) order = one_by_one ts order.
Proof.
  induction order as [|j order IH]; [done|]. intros Hi. cbn.
  rewrite list_lookup_insert_ne, IH by set_solver. done.
Qed.
Lemma active_insert ts i p :
  ts !! i = Some p → ended p = false → active ts = Datatypes.S (active (<[i := Done tt]> ts)).
Proof.
  intros Hi Hp. pose proof (lookup_lt_Some _ _ _ Hi). unfold active.
  rewrite insert_take_drop by done. rewrite <- (take_drop_middle ts i p Hi) at 1.
  rewrite !filter_app, !length_app, !filter_cons, decide_True, decide_False by done.
  simpl. lia.
Qed.
Lemma active_ended ts : ended_all ts → active ts = 0.
Proof. induction 1 as [|p ts -> _ IH]; [done|]. unfold active in *. by rewrite filter_cons. Qed.
Lemma ended_stuck ts ts' s s' :
  rtc pool_step (ts, s) (ts', s') → ended_all ts → s' = s.
Proof.
  intros Hsteps Hts. inversion Hsteps as [|? ? ? Hstep]; simplify_eq; [done|].
  inversion Hstep as [ts1 s1 j X f k x s2 Hj Hf]; simplify_eq.
  by pose proof (Forall_lookup_1 _ _ _ _ Hts Hj).
Qed.
Lemma insert_done (ts : list (prog S unit)) i j q :
  <[i := Done tt]> ts !! j = Some q → q = Done tt ∨ (i ≠ j ∧ ts !! j = Some q).
Proof.
  intros Hq. destruct (decide (i = j)) as [->|Hne].
  - left. assert (j < length ts).
    { rewrite <- (length_insert ts j (Done tt)). by eapply lookup_lt_Some. }
    rewrite list_lookup_insert_eq in Hq by done. by simplify_eq.
  - right. by rewrite list_lookup_insert_ne in Hq.
Qed.
Lemma separate_insert (ts : list (prog S unit)) i :
  separate ts → (∀ j q, ts !! j = Some q → after_request q (Done tt)) →
  separate (<[i := Done tt]> ts).
Proof.
  intros Hs Hd j j' p q Hne Hp Hq.
  destruct (insert_done _ _ _ _ Hp) as [->|[_ Hp']]; [done|].
  destruct (insert_done _ _ _ _ Hq) as [->|[_ Hq']]; [by eapply Hd|by eapply Hs].
Qed.

(** Every way to run such goroutines to their end is as good as running them one after the
    other, in some order. *)
Lemma serialize ts ts' s s' :
  separate ts → (∀ j q, ts !! j = Some q → after_request q (Done tt)) →
  rtc pool_step (ts, s) (ts', s') → ended_all ts' →
  ∃ order, NoDup order ∧ (∀ i, i ∈ order ↔ ∃ p, ts !! i = Some p ∧ ended p = false) ∧
    run (one_by_one ts order) s = (Ret tt, s').
Proof.
  remember (active ts) as n eqn:En. revert ts s En.
  induction n as [|n IH]; intros ts s En Hsep Hdone Hsteps Hend.
  { assert (Hts : ended_all ts).
    { apply Forall_lookup_2. intros i p Hi. destruct (ended p) eqn:Ep.
      - by destruct p as [[]| | |].
      - pose proof (active_insert _ _ _ Hi Ep). lia. }
    pose proof (ended_stuck _ _ _ _ Hsteps Hts) as ->. exists []. split_and!; [constructor| |done].
    intros i. split; [set_solver|]. intros (p & Hi & Hp).
    pose proof (Forall_lookup_1 _ _ _ _ Hts Hi) as ->. done. }
  inversion Hsteps as [c E1|c [ts2 s2] e Hstep Hrest]; simplify_eq.
  { by rewrite (active_ended _ Hend) in En. }
  inversion Hstep as [ts1 s1 i X f k x s3 Hi Hf]; simplify_eq.
  pose proof (lookup_lt_Some _ _ _ Hi) as Hlt.
  destruct (finish_first _ _ _ _ i (k x) Hrest Hend) as (s3 & Hr & Hrest').
  { by apply list_lookup_insert_eq. }
  { intros j q Hji Hq. rewrite list_lookup_insert_ne in Hq by done.
    by apply (Hsep i j (Act f k) q). }
  { by apply (Hdone i (Act f k)). }
  rewrite list_insert_insert_eq in Hrest'.
  destruct (IH (<[i:=Done tt]> ts) s3) as (order & Hnd & Hin & Hrun); [| | |done..|].
  { pose proof (active_insert _ _ _ Hi eq_refl). lia. }
  { by apply separate_insert. }
  { intros j q Hq. destruct (insert_done _ _ _ _ Hq) as [->|[_ Hq']]; [done|].
    by eapply Hdone. }
  assert (Hni : i ∉ order).
  { rewrite Hin. intros (p & Hp & He). rewrite list_lookup_insert_eq in Hp by done.
    by simplify_eq. }
  exists (i :: order). split_and!; [by constructor| |].
  - intros j. rewrite elem_of_cons, Hin. destruct (decide (j = i)) as [->|Hne].
    + split; [intros _; by exists (Act f k)|by left].
    + rewrite list_lookup_insert_ne by done. naive_solver.
  - cbn. rewrite Hi. cbn [default]. rewrite run_bind. simpl. rewrite Hf, Hr. cbn [seq_run].
    by rewrite one_by_one_insert in Hrun.
Qed.
End Movers.
