(* ===== verification/VolumeTheorems.v ===== *)
(** * Theorems about volumes that are made and removed at once *)

From stdpp Require Import base gmap strings list.
From S2P Require Import Prelude GoLib Json Http Shell Kube MayastorClient GoTime.
From S2P Require Import K8sPods K8sLib K8sApps Session ControlPlane E2ENodes E2EPods E2EUtil.
From S2P Require Import E2EPvc E2ECleanup E2ETest E2EBuilders Suites SuiteLib.
From S2P Require Import Movers PrimitiveVolumes ClaimSuites NodeFailure NodeShutdown MsnShutdown.
From S2P Require Import SuiteTheorems.

(** ** Slots *)

(** A slot of every kind for every volume. *)
Definition slots_ok (v : VolumeSlots) : Prop :=
  let n := length (pvcNames v) in
  length (optsList v) = n ∧ length (uuids v) = n ∧ length (createErrs v) = n ∧
  length (deleteErrs v) = n.

Lemma run_index_nat {S A} (l : list A) (i : nat) (x : A) (s : S) :
  l !! i = Some x → run (index l (Z.of_nat i)) s = (Ret x, s).
Proof.
  intros Hi. unfold index. rewrite bool_decide_true by lia. by rewrite Nat2Z.id, Hi.
Qed.

Lemma go_all_ran {S} sched (threads : list (prog S unit)) s s' :
  run (go_all sched threads) s = (Ret tt, s') →
  ∃ ts, pool_run sched threads s = Some (ts, s') ∧ ended_all ts.
Proof.
  unfold go_all, guarded. simpl. destruct (pool_run _ _ _) as [[ts t]|] eqn:E; [|done].
  destruct (forallb ended ts) eqn:Ee; [|done]. intros [= <-]. exists ts. split; [done|].
  apply Forall_forall. intros p Hp. rewrite forallb_forall in Ee.
  specialize (Ee p). rewrite <- list_elem_of_In in Ee. specialize (Ee Hp). by destruct p as [[]| | |].
Qed.
Lemma go_all_run {S} sched (threads : list (prog S unit)) s :
  run (go_all sched threads) s = (Ret tt, (run (go_all sched threads) s).2) ∨
  (run (go_all sched threads) s) = (Blocked, s).
Proof.
  unfold go_all, guarded. simpl. destruct (pool_run _ _ _) as [[ts t]|]; [|by right].
  destruct (forallb ended ts); [by left|by right].
Qed.

Section Volumes.
Context {W C : Type} `{Kube W}.
Notation S := (Suite W C VolumeSlots).
Notation M := (prog S).

(** The goroutines that make the volumes. *)
Definition creations (v : VolumeSlots) : list (M unit) :=
  map (λ i, CreatePvc i (default zero_pvc (optsList v !! i))) (seq 0 (length (pvcNames v))).

(** The loop that starts goroutines, one for every element. *)
Lemma run_gather {A B} (l : list A) (g : A → B) body (s : S) :
  (∀ x b s, x ∈ l → run (body x b) s = (Ret (Next (b ++ [g x])%list), s)) →
  run (for_range (R:=Empty_set) l [] body) s = (Ret (inl (map g l)), s).
Proof.
  intros Hb. rewrite (run_for_range_next l [] body (λ bs x, ((bs.1 ++ [g x])%list, bs.2))) by done.
  enough (Hf : ∀ acc, foldl (λ bs x, ((bs.1 ++ [g x])%list, bs.2)) (acc, s) l =
                      ((acc ++ map g l)%list, s)) by by rewrite Hf.
  clear Hb. induction l as [|x l IH]; intros acc; simpl; [by rewrite app_nil_r|].
  by rewrite IH, <- app_assoc.
Qed.

Lemma run_create_parallel sched (s : S) :
  slots_ok (su_vars s) →
  run (create_parallel sched) s = run (go_all sched (creations (su_vars s))) s.
Proof.
  intros (Ho & Hu & Hc & Hd). unfold create_parallel, vars. rewrite run_bind, run_reads.
  cbn [seq_run]. rewrite run_bind.
  rewrite (run_gather _ (λ i, (i, default zero_pvc (optsList (su_vars s) !! i)))).
  { cbn [seq_run]. rewrite run_bind. cbn [run seq_run no_return mret prog_mret].
    by rewrite map_map. }
  intros i b t Hi. apply elem_of_seq in Hi.
  destruct (lookup_lt_is_Some_2 (optsList (su_vars s)) i) as [o Eo]; [lia|].
  destruct (lookup_lt_is_Some_2 (createErrs (su_vars s)) i) as [e Ee]; [lia|].
  destruct (lookup_lt_is_Some_2 (uuids (su_vars s)) i) as [u Eu]; [lia|].
  rewrite run_bind, (run_index_nat _ _ _ _ Eo). cbn [seq_run].
  rewrite run_bind, (run_index_nat _ _ _ _ Ee). cbn [seq_run].
  rewrite run_bind, (run_index_nat _ _ _ _ Eu). cbn [seq_run]. by rewrite Eo.
Qed.

Lemma swap_writes {X Y} (h : S → X) (y : Y) (u w : S → S) :
  (∀ s, h (u s) = h s) → (∀ s, u (w s) = w (u s)) →
  swap (λ s, Some (y, u s)) (λ s, Some (h s, w s)).
Proof.
  intros Hh Hu s y' s1 x s2 [= -> <-] [= <- <-]. eexists. rewrite Hh. split; [done|].
  by rewrite Hu.
Qed.

(** Actions that can be swapped, along the structure of two goroutines. *)
Ltac swaps :=
  repeat match goal with
  | |- _ ∧ _ => split
  | |- ∀ _ : unit, _ => intros []
  | |- ∀ _ : _ + _, _ => intros [?|?]; cbn
  | |- ∀ _, is_Some _ => intros ?; eexists; reflexivity
  | |- swap _ _ => apply (swap_writes _ tt); intros []; cbn; [reflexivity|]
  end.
(** Slots of different volumes are different. *)
Lemma creations_separate (i j : nat) o o' :
  i ≠ j → after_request (CreatePvc (W:=W) (C:=C) i o) (CreatePvc j o').
Proof.
  intros Hij. unfold CreatePvc, on_session, kube_call, outside, action, set_vars, updates.
  cbn. swaps; try done;
    unfold set_createErrs, set_uuids; cbn; do 2 f_equal; by rewrite list_insert_insert_ne.
Qed.
Lemma creation_ends (i : nat) o : after_request (CreatePvc (W:=W) (C:=C) i o) (Done tt).
Proof.
  unfold CreatePvc, on_session, kube_call, outside, action, set_vars, updates. cbn. by swaps.
Qed.

Lemma creations_lookup v i p :
  creations v !! i = Some p →
  i < length (pvcNames v) ∧ p = CreatePvc i (default zero_pvc (optsList v !! i)).
Proof.
  unfold creations. rewrite list_lookup_fmap. intros (j & Hj & ->)%fmap_Some.
  apply lookup_seq in Hj as [-> Hlt]. done.
Qed.
Lemma creations_is v i :
  i < length (pvcNames v) →
  creations v !! i = Some (CreatePvc i (default zero_pvc (optsList v !! i))).
Proof.
  intros Hi. unfold creations. rewrite list_lookup_fmap.
  rewrite (proj2 (lookup_seq 0 _ i i)) by lia. done.
Qed.

(** ** What a run of the creations leaves *)

(** What the API answers to the request for a volume, in some state of the cluster. *)
Definition created (o : PVC) (w : W) : string * error :=
  match (pvc_Create (Namespace (pvc_meta o)) o w).1 with
  | inl e => (UID (pvc_meta zero_pvc), Some e)
  | inr pvc => (UID (pvc_meta pvc), None)
  end.

Lemma run_CreatePvc i o (s : S) :
  ∃ ses, run (CreatePvc i o) s = (Ret tt, mkSuite ses (su_maps s) (su_cloud s)
    (set_uuids <[i := (created o (se_world (su_session s))).1]>
      (set_createErrs <[i := (created o (se_world (su_session s))).2]> (su_vars s)))).
Proof.
  unfold CreatePvc, on_session. rewrite run_bind, run_lift, run_kube_call. cbn [fst snd].
  unfold created. destruct (pvc_Create _ _ _) as [[e|pvc] w]; cbn [fst snd seq_run];
    (rewrite run_bind; unfold set_vars; rewrite run_updates; cbn [seq_run];
     rewrite run_updates; eexists; reflexivity).
Qed.

(** A slot that has been filled keeps what it holds. *)
Definition filled (v0 v : VolumeSlots) (order : list nat) : Prop :=
  pvcNames v = pvcNames v0 ∧ optsList v = optsList v0 ∧ deleteErrs v = deleteErrs v0 ∧
  slots_ok v ∧
  ∀ i, i ∈ order → ∃ w, let r := created (default zero_pvc (optsList v0 !! i)) w in
    uuids v !! i = Some r.1 ∧ createErrs v !! i = Some r.2.

Lemma fill_step v0 v i w order :
  filled v0 v order → i ∉ order → i < length (pvcNames v0) →
  let r := created (default zero_pvc (optsList v0 !! i)) w in
  filled v0 (set_uuids <[i := r.1]> (set_createErrs <[i := r.2]> v)) (i :: order).
Proof.
  intros (Hn & Ho & Hd & (Ho' & Hu & Hc & Hde) & Hf) Hni Hi r. split_and!; simpl; try done.
  { unfold slots_ok. simpl. rewrite !length_insert. done. }
  intros j [->|Hj]%elem_of_cons.
  - exists w. rewrite !list_lookup_insert_eq by (rewrite ?Hu, ?Hc, Hn; done). done.
  - assert (i ≠ j) by set_solver. destruct (Hf j Hj) as (w' & Hw). exists w'.
    by rewrite !list_lookup_insert_ne.
Qed.

Lemma one_by_one_fills v0 order done_ (s s' : S) :
  NoDup order → (∀ i, i ∈ order → i ∉ done_ ∧ i < length (pvcNames v0)) →
  filled v0 (su_vars s) done_ →
  run (one_by_one (creations v0) order) s = (Ret tt, s') →
  filled v0 (su_vars s') (rev order ++ done_).
Proof.
  revert done_ s. induction order as [|i order IH]; intros d s Hnd Hin Hf Hr; [by simplify_eq/=|].
  apply NoDup_cons in Hnd as [Hi Hnd]. cbn [one_by_one] in Hr. simpl rev.
  destruct (Hin i) as [Hid Hlt]; [set_solver|]. rewrite creations_is in Hr by done.
  cbn [default from_option id] in Hr. rewrite run_bind in Hr.
  destruct (run_CreatePvc i (default zero_pvc (optsList v0 !! i)) s) as [ses E].
  rewrite E in Hr. cbn [seq_run] in Hr. rewrite <- app_assoc. simpl.
  eapply (IH (i :: d)); [done| | |exact Hr].
  - intros j Hj. destruct (Hin j) as [Hjd Hjl]; [set_solver|]. split; [|done].
    intros [->|?]%elem_of_cons; done.
  - by apply fill_step.
Qed.

(** (C23) Making volumes at once is making them one after the other: however the goroutines
    interleave, when all have come to their end there is an order of the volumes in which the
    same requests, one after the other, lead to the same state; and every slot holds the
    identity and the error that the API gave to the request for its own volume, and no slot for
    errors of removing has changed. *)
Theorem volumes_made_at_once sched (s s' : S) :
  let v := su_vars s in
  slots_ok v → run (create_parallel sched) s = (Ret tt, s') →
  (∃ order, order ≡ₚ seq 0 (length (pvcNames v)) ∧
     run (one_by_one (creations v) order) s = (Ret tt, s')) ∧
  (∀ i, i < length (pvcNames v) → ∃ w, let r := created (default zero_pvc (optsList v !! i)) w in
     uuids (su_vars s') !! i = Some r.1 ∧ createErrs (su_vars s') !! i = Some r.2) ∧
  deleteErrs (su_vars s') = deleteErrs v.
Proof.
  intros v Hok Hrun. rewrite run_create_parallel in Hrun by done.
  destruct (go_all_ran _ _ _ _ Hrun) as (ts & Hp & Hend).
  destruct (serialize (creations v) ts s s') as (order & Hnd & Hin & Hone).
  { intros i j p q Hij Hp' Hq. apply creations_lookup in Hp' as [_ ->], Hq as [_ ->].
    by apply creations_separate. }
  { intros j q Hq. apply creations_lookup in Hq as [_ ->]. apply creation_ends. }
  { by eapply pool_run_sound. }
  { done. }
  assert (Hmem : ∀ i, i ∈ order ↔ i < length (pvcNames v)).
  { intros i. rewrite Hin. split.
    - intros (p & Hp' & _). by apply creations_lookup in Hp' as [? _].
    - intros Hi. eexists. split; [by apply creations_is|done]. }
  destruct (one_by_one_fills v order [] s s') as (_ & _ & Hd & _ & Hf); [done| | |done|].
  { intros i Hi. split; [set_solver|by apply Hmem]. }
  { split_and!; try done. set_solver. }
  split_and!; [exists order; split; [|done]|..|done].
  - apply NoDup_Permutation; [done|apply NoDup_seq|]. intros i. rewrite Hmem, elem_of_seq. lia.
  - intros i Hi. apply Hf. rewrite app_nil_r. apply list_elem_of_In, in_rev. rewrite rev_involutive. by apply list_elem_of_In, Hmem.
Qed.
End Volumes.

(** ** What the shared steps leave alone *)

Section Frames.
Context {W C V : Type} (I : Suite W C V → Prop).
Context `{HS : !WorldFree (W:=Session W) I}.
Context {K : Corev1} `{Kube W} `{KubeApps W} `{Shell W} `{Http W} `{MapRange W}
  `{Clock W} `{Grpc W} `{Files W} `{System W} `{ConfigFiles W} `{Gomega W}.

Lemma keeps_make_slice {A} n (zero : A) : keeps I (make_slice n zero).
Proof. unfold make_slice. solve_keeps. Qed.
Lemma keeps_go_all sched threads : Forall (keeps I) threads → keeps I (go_all sched threads).
Proof.
  intros Ht. apply keeps_guarded. intros s x s' Hs E.
  destruct (pool_run sched threads s) as [[ts t]|] eqn:Ep; [|done].
  destruct (forallb ended ts); simplify_eq. eapply pool_keeps; [|done|done].
  by eapply pool_run_sound.
Qed.
Lemma keeps_create_class a b c d : keeps I (create_class a b c d).
Proof. unfold create_class. solve_keeps. Qed.
Lemma keeps_delete_class a : keeps I (delete_class a).
Proof. unfold delete_class. solve_keeps. Qed.
Lemma keeps_make_volume a b c d : keeps I (make_volume a b c d).
Proof. unfold make_volume. solve_keeps. Qed.
Lemma keeps_remove_volume a b : keeps I (remove_volume a b).
Proof. unfold remove_volume. solve_keeps. Qed.
Lemma keeps_msnList : keeps I msnList.
Proof. unfold msnList. solve_keeps. Qed.
Lemma keeps_checkPoolUsedSize a b c d : keeps I (checkPoolUsedSize a b c d).
Proof. unfold checkPoolUsedSize. solve_keeps. Qed.
Hint Resolve keeps_checkPoolUsedSize : keeps.
Lemma keeps_each_pool_used check :
  (∀ p, keeps I (check p)) → keeps I (each_pool_used check).
Proof. intros Hc. unfold each_pool_used. solve_keeps. Qed.
Lemma keeps_wait_pools_used a b c : keeps I (wait_pools_used a b c).
Proof. apply keeps_each_pool_used. solve_keeps. Qed.
Lemma keeps_expect_pvc a : keeps I (expect_pvc a).
Proof. unfold expect_pvc. solve_keeps. Qed.
Lemma keeps_pvc_phase a : keeps I (pvc_phase a).
Proof. unfold pvc_phase. solve_keeps. Qed.
Lemma keeps_await_provisioned a : keeps I (await_provisioned a).
Proof. unfold await_provisioned. solve_keeps; apply keeps_Eventually; solve_keeps. Qed.
Lemma keeps_await_pvc_deleted a b : keeps I (await_pvc_deleted a b).
Proof. unfold await_pvc_deleted. solve_keeps; apply keeps_Eventually; solve_keeps. Qed.
Lemma keeps_await_msv_deleted a b : keeps I (await_msv_deleted a b).
Proof. unfold await_msv_deleted. solve_keeps; apply keeps_Eventually; solve_keeps. Qed.
End Frames.
#[export] Hint Resolve keeps_make_slice keeps_create_class keeps_delete_class keeps_make_volume
  keeps_remove_volume keeps_msnList keeps_checkPoolUsedSize keeps_wait_pools_used
  keeps_expect_pvc keeps_pvc_phase keeps_await_provisioned keeps_await_pvc_deleted
  keeps_await_msv_deleted : keeps.

(** ** Errors of removing *)

Section Unseen.
Context {K : Corev1} {W C : Type} `{Kube W} `{KubeApps W} `{Shell W} `{Http W} `{MapRange W}
  `{Clock W} `{Grpc W} `{Files W} `{System W} `{ConfigFiles W} `{Gomega W}.
Notation S := (Suite W C VolumeSlots).
Notation M := (prog S).

Definition unseen (s : S) : Prop := Forall (λ e, e = None) (deleteErrs (su_vars s)).
#[local] Instance unseen_free : WorldFree (W:=Session W) unseen.
Proof. intros s w Hs. exact Hs. Qed.

Lemma unseen_vars (f : VolumeSlots → VolumeSlots) :
  (∀ v, Forall (λ e, e = None) (deleteErrs v) → Forall (λ e, e = None) (deleteErrs (f v))) →
  keeps unseen (set_vars f).
Proof. intros Hf. apply keeps_updates. intros s Hs. by apply Hf. Qed.

Lemma unseen_CreatePvc i o : keeps unseen (CreatePvc i o).
Proof. unfold CreatePvc. solve_keeps; by apply unseen_vars. Qed.
Lemma unseen_DeletePvc i name :
  keeps unseen (DeletePvc (λ err, set_createErrs (<[i:=err]>)) name).
Proof. unfold DeletePvc. solve_keeps. by apply unseen_vars. Qed.
Lemma unseen_create_parallel sched : keeps unseen (create_parallel sched).
Proof.
  unfold create_parallel. solve_keeps. apply keeps_go_all, Forall_forall.
  intros p ([i o] & -> & _)%list_elem_of_fmap. apply unseen_CreatePvc.
Qed.
Lemma unseen_removeVolumes sched : keeps unseen (removeVolumes sched).
Proof.
  unfold removeVolumes, delete_parallel. solve_keeps. apply keeps_go_all, Forall_forall.
  intros p ([i name] & -> & _)%list_elem_of_fmap. apply unseen_DeletePvc.
Qed.
Lemma unseen_create_serial : keeps unseen create_serial.
Proof. unfold create_serial. solve_keeps; by apply unseen_vars. Qed.
Hint Resolve unseen_create_parallel unseen_removeVolumes unseen_create_serial : keeps.
Lemma unseen_slot {A} (f : VolumeSlots → list A) i : keeps unseen (slot f i).
Proof. unfold slot. solve_keeps. Qed.
Hint Resolve unseen_slot : keeps.
Lemma unseen_for_volumes (body : nat → string → M unit) :
  (∀ i n, keeps unseen (body i n)) → keeps unseen (for_volumes body).
Proof. intros Hb. unfold for_volumes. solve_keeps. Qed.
Lemma unseen_for_names (body : string → M unit) :
  (∀ n, keeps unseen (body n)) → keeps unseen (for_names body).
Proof. intros Hb. unfold for_names. solve_keeps. Qed.

Lemma unseen_pv_creation : keeps unseen pv_verifyVolumesCreation.
Proof.
  unfold pv_verifyVolumesCreation, all_bound.
  solve_keeps; apply unseen_for_volumes; solve_keeps.
Qed.
Lemma unseen_mv_creation : keeps unseen mv_verifyVolumesCreation.
Proof.
  apply unseen_for_volumes. solve_keeps.
Qed.
Lemma unseen_deletion : keeps unseen verifyVolumesDeletion.
Proof. apply unseen_for_volumes. solve_keeps. Qed.
Lemma unseen_replicas a b : keeps unseen (poolReplicaCount a b).
Proof. unfold poolReplicaCount. solve_keeps. Qed.
Hint Resolve unseen_pv_creation unseen_mv_creation unseen_deletion unseen_replicas : keeps.
Lemma unseen_verifyMspUsedSize size : keeps unseen (verifyMspUsedSize size).
Proof. apply keeps_each_pool_used; [apply _|]. solve_keeps. Qed.
Hint Resolve unseen_verifyMspUsedSize : keeps.
Lemma unseen_pv_test sched c : keeps unseen (pvcConcurrentTest sched c).
Proof. unfold pvcConcurrentTest, pv_createStorageClass, pv_deleteSC, pv_waitForMspUsedSize. solve_keeps. Qed.
Lemma unseen_mv_test sched c : keeps unseen (concurrentMaxVolumeInPoolTest sched c).
Proof.
  unfold concurrentMaxVolumeInPoolTest, mv_createSC, mv_deleteSC, createVolumes. solve_keeps.
Qed.

(** The slots are made without an error. *)
Lemma unseen_make_slice n :
  triple unseen (make_slice n (None : error)) (λ l s, unseen s ∧ Forall (λ e, e = None) l) unseen.
Proof.
  intros s Hs. unfold make_slice. case_decide; simpl; [done|]. split; [done|].
  by apply Forall_replicate.
Qed.
Lemma unseen_table n uuid errs names opts {A} (c : A) :
  triple unseen
    (deleteErrs ← make_slice n (None : error);
     uuids ← make_slice n uuid;
     set_vars (λ _, mkVolumeSlots names opts uuids errs deleteErrs) ;;
     mret c) (λ _, unseen) unseen.
Proof.
  eapply triple_bind; [apply unseen_make_slice|]. intros l s [Hs Hl].
  unfold make_slice. rewrite run_bind. case_decide; [done|]. cbn [run seq_run mret prog_mret].
  unfold set_vars. rewrite run_bind, run_updates. cbn [seq_run]. by rewrite run_done.
Qed.
Lemma unseen_generate params name count :
  stable unseen (generatePvcConcurrentConfig params name count).
Proof.
  unfold generatePvcConcurrentConfig. cbv zeta.
  eapply triple_bind; [apply triple_keeps, keeps_make_slice|]. intros errs.
  by apply unseen_table.
Qed.
Lemma unseen_max_generate params name : stable unseen (generatePrimitiveMaxVolConfig params name).
Proof.
  unfold generatePrimitiveMaxVolConfig. cbv zeta.
  eapply triple_bind; [apply triple_keeps; solve_keeps|]. intros [pools err].
  eapply triple_bind; [apply triple_keeps; solve_keeps|]. intros ?.
  eapply triple_bind; [apply triple_keeps, keeps_make_slice|]. intros errs.
  by apply unseen_table.
Qed.

(** (C35) A volume that cannot be removed goes unnoticed where it is looked for: in the
    concurrent tests of primitive_volumes and of primitive_max_volumes_in_pool no slot for an
    error of removing ever holds one, whatever the cluster answers to the removals, however the
    goroutines interleave and however the test ends: the check of these slots cannot fail. *)
Theorem failed_removals_unseen (ses : Session W) (maps : Maps) (cloud : C) :
  let s := mkSuite ses maps cloud no_volumes in
  let unnoticed (s : S) := ∀ err, err ∈ deleteErrs (su_vars s) → err = None in
  (∀ params sched, unnoticed (run (pv_concurrent_It params sched) s).2) ∧
  (∀ params sched, unnoticed (run (mv_concurrent_It params sched) s).2).
Proof.
  intros s unnoticed.
  assert (Hun : ∀ s, unseen s → unnoticed s) by (intros t Ht err Herr; exact (proj1 (Forall_forall _ _) Ht err Herr)).
  assert (Hs : unseen s) by constructor.
  split; intros params sched; apply Hun.
  - apply stable_run; [|done]. unfold pv_concurrent_It.
    eapply triple_bind; [apply triple_keeps; solve_keeps|]. intros count.
    eapply triple_bind; [apply unseen_generate|]. intros c. apply triple_keeps, unseen_pv_test.
  - apply stable_run; [|done]. unfold mv_concurrent_It.
    eapply triple_bind; [apply unseen_max_generate|]. intros c.
    apply triple_keeps, unseen_mv_test.
Qed.
End Unseen.
