(* ===== verification/FaultTheorems.v ===== *)
(** * Theorems about pools and devices that are made to fail, and about the soak test

    What the check of a pool's capacity lets through, and what becomes of a faulty device that
    a test means to remove.  The monitor of io_soak: what it has seen when it ends. *)

From stdpp Require Import base gmap sets strings list.
From Stdlib Require Import Ascii.
From S2P Require Import Prelude GoLib Json Http Shell Kube MayastorClient GoTime.
From S2P Require Import K8sPods K8sLib K8sApps AgentClient AgentServer AgentTheorems Session.
From S2P Require Import ControlPlane E2ENodes E2EPods E2EUtil E2EPvc E2ECleanup E2ETest.
From S2P Require Import E2EBuilders Suites SuiteLib PoolSuites FaultSuites.
From S2P Require Import LoadSuites SoakSuite.

(** ** The capacity of a pool *)

Lemma CapacityRange_true actual expected :
  (EstimatedMetaSize ≤ expected < 2 ^ 64)%Z → CapacityRange actual expected = true.
Proof.
  intros He. unfold CapacityRange, uwrap64. rewrite Z.mod_small by (unfold EstimatedMetaSize, MiB in *; lia).
  apply orb_true_iff. rewrite !Z.leb_le. unfold EstimatedMetaSize, MiB in *. lia.
Qed.

Section Capacity.
Context {W : Type} `{Kube W} `{KubeApps W} `{Shell W} `{Http W} `{MapRange W}
  `{Clock W} `{Grpc W} `{Files W} `{System W} `{ConfigFiles W}.

(** The capacity of a pool is not checked: of numbers of 64 bits the range of capacities
    refuses one only when less than the size of the metadata, 100 MiB, is expected, and then
    just those between what is expected and what the difference wraps around to; for every
    pool that has room for its metadata the check answers the same whatever capacity is
    expected of it. *)
Theorem pool_capacity_unchecked :
  (∀ actual expected, (0 ≤ actual < 2 ^ 64)%Z → (0 ≤ expected < 2 ^ 64)%Z →
     CapacityRange actual expected = false ↔
     (expected < EstimatedMetaSize ∧ expected < actual < expected + 2 ^ 64 - EstimatedMetaSize)%Z) ∧
  (∀ addr pool c c' (s : Session W),
     (EstimatedMetaSize ≤ c < 2 ^ 64)%Z → (EstimatedMetaSize ≤ c' < 2 ^ 64)%Z →
     run (verifyPoolCreated addr pool c) s = run (verifyPoolCreated addr pool c') s).
Proof.
  split.
  - intros a e Ha He. destruct (decide (EstimatedMetaSize ≤ e)%Z).
    { rewrite CapacityRange_true by lia. split; [done|lia]. }
    unfold CapacityRange, uwrap64. rewrite orb_false_iff, !Z.leb_gt.
    replace ((e - EstimatedMetaSize) mod 2 ^ 64)%Z with (e - EstimatedMetaSize + 2 ^ 64)%Z; [lia|].
    apply (Z.mod_unique _ _ (-1)); unfold EstimatedMetaSize, MiB in *; lia.
  - intros addr pool c c' s Hc Hc'. unfold verifyPoolCreated. rewrite !run_bind.
    destruct (run (mc_GetPool pool addr) s) as [[[p [e|]]| | |] s1]; try done.
    cbn [seq_run]. rewrite !run_bind.
    destruct (run (e2e_GetMsPool pool) s1) as [[[q [e|]]| | |] s2]; try done.
    cbn [seq_run]. destruct p as [p|]; [|done]. rewrite !run_bind, !run_deref_Some. cbn [seq_run].
    destruct (negb _); [done|]. destruct q as [q|]; [|done].
    rewrite !run_bind, !run_deref_Some. cbn [seq_run]. by rewrite !CapacityRange_true.
Qed.
End Capacity.

(** ** A faulty device *)

Section Device.
Context {W : Type} `{Kube W} `{Clock W} `{Shell W} `{Files W} `{Mux} `{System W} `{ConfigFiles W}.
#[local] Instance disk_world : HasWorld W W := self_world W.

(** What is the case on a node is kept by writing the file of the table, and by every command
    of the device mapper that creates a device. *)
Record outlives_creation (J : W → Prop) : Prop := {
  keeps_create_file w : J w → J (os_Create "table" w).2;
  keeps_write_file text w : J w → J (file_WriteString "table" text w).2;
  keeps_close_file w : J w → J (file_Close "table" w).2;
  keeps_dm_create args w : J w → J (sh_CombinedOutput "" ("dmsetup" :: "create" :: args) w).2;
}.

Lemma create_command name : ∃ args,
  Split ("dmsetup create" +:+ " " +:+ name +:+ " " +:+ "table") " "%char = "dmsetup" :: "create" :: args.
Proof. eexists. reflexivity. Qed.

Lemma stable_createFaultyDevice J body :
  outlives_creation J → keeps J (createFaultyDevice (W:=W) (S:=W) body).
Proof.
  intros HJ. assert (Ho : ∀ {A} (f : W → A * W), (∀ w, J w → J (f w).2) → keeps J (outside f)).
  { intros A f Hf. apply keeps_action. intros w Hw. cbn. by apply Hf. }
  destruct HJ. unfold createFaultyDevice, answer_command, exec_cmd, exec_in.
  solve_keeps; try apply keeps_index; apply Ho; eauto.
  intros w Hw. destruct (create_command a) as [args ->]. eauto.
Qed.

Lemma CreateFaultyDevice_keeps {S} `{HasWorld S W} J addr device table (s : S) :
  outlives_creation J → J (world s) →
  J (world (run (CreateFaultyDevice (H:=_) (H0:=agent_http addr) addr device table) s).2).
Proof.
  intros HJ Hs. unfold CreateFaultyDevice, agent_sendRequest. rewrite run_bind, run_agent_call.
  set (body := Some (JObj [("device", JStr device); ("table", JStr table)])).
  change (agent_serve _ _ _) with (createFaultyDevice (W:=W) (S:=W) body).
  pose proof (keeps_run J _ (world s) (stable_createFaultyDevice J body HJ) Hs) as Hk.
  destruct (run (createFaultyDevice body) (world s)) as [[rp| | |] w];
    cbn [seq_run]; [case_bool_decide|..]; cbn; by rewrite world_set.
Qed.

(** The address of the node and the configuration are looked up first. *)
Context {K : Corev1} {C V : Type} `{KubeApps W} `{MapRange W} `{Grpc W} `{Gomega W} `{!Regexps}.
Context (addr : string) (J : W → Prop).
#[local] Instance disk_http : Http W := agent_http addr.
Definition on_node (s : Suite W C V) : Prop := J (se_world (su_session s)).

Lemma stable_on_session {A} (p : prog (Session W) A) :
  stable (λ ses, J (se_world ses)) p → stable on_node (on_session p).
Proof.
  intros Hp s Hs. unfold on_session. rewrite run_lift. cbn [world suite_session].
  specialize (Hp (su_session s) Hs). by destruct (run p (su_session s)) as [[] x].
Qed.
Lemma stable_no_request {A} (p : prog (Suite W C V) A) :
  (∀ s, (run p s).2 = s) → stable on_node p.
Proof. intros Hp s Hs. specialize (Hp s). by destruct (run p s) as [[] ?]; cbn in Hp; subst. Qed.
Lemma stable_Expect b what : stable on_node (Expect b what).
Proof. apply stable_no_request. intros s. by destruct b. Qed.
Lemma stable_Expect_success err what : stable on_node (Expect_success err what).
Proof. apply stable_no_request. intros s. by destruct err. Qed.

Lemma triple_pure {A} (X : Prop) P (p : prog (Suite W C V) A) Q E :
  (X → triple P p Q E) → triple (λ s, X ∧ P s) p Q E.
Proof. intros Hp s [Hx Hs]. by apply Hp. Qed.
Lemma triple_address_of node :
  keeps (λ ses, J (se_world ses)) (GetNodeIPAddress (W:=W) node) →
  (∀ ses a ses', run (GetNodeIPAddress (W:=W) node) ses = (Ret (Some a, None), ses') → a = addr) →
  triple on_node (address_of node) (λ a s, a = addr ∧ on_node s) on_node.
Proof.
  intros Hn Ha s Hs. unfold address_of, on_session. rewrite run_bind, run_lift.
  cbn [world suite_session].
  pose proof (keeps_run _ _ (su_session s) Hn Hs) as Hk. specialize (Ha (su_session s)).
  destruct (run (GetNodeIPAddress node) (su_session s)) as [[[[a|] [e|]]| | |] ses]; cbn in *; try done.
  split; [by eapply Ha|done].
Qed.

(** (C36) A faulty device that a test means to remove stays: whatever is the case on the node
    and outlives the making of devices, that there is such a device for one, outlives the
    removal as well, because the removal sends the agent the request that makes a device, with
    the text of a command as the table, and the agent runs nothing but the creation. *)
Theorem faulty_device_never_removed (node : string) (s : Suite W C V) :
  outlives_creation J →
  keeps (λ ses, J (se_world ses)) (GetNodeIPAddress (W:=W) node) →
  (∀ ses a ses', run (GetNodeIPAddress (W:=W) node) ses = (Ret (Some a, None), ses') → a = addr) →
  on_node s → on_node (run (deleteFaultyDisk node) s).2.
Proof.
  intros HJ Hn Ha. apply stable_run. unfold deleteFaultyDisk, faulty_device.
  eapply triple_bind; [by apply triple_address_of|]. intros a.
  apply triple_pure. intros ->.
  eapply triple_bind; [apply stable_on_session, triple_keeps, keeps_reads|]. intros c.
  unfold must. eapply triple_bind; [|intros err; apply stable_Expect_success].
  apply stable_on_session. intros ses Hs.
  pose proof (CreateFaultyDevice_keeps J addr (PoolDevice c) (delete_table (PoolDevice c)) ses HJ Hs).
  by destruct (run _ ses) as [[] ?].
Qed.
End Device.

(** ** The monitor of io_soak *)

Section Monitor.
Context {W : Type} `{Kube W} `{KubeApps W} `{Shell W} `{Http W} `{MapRange W}
  `{Clock W} `{Grpc W} `{Files W} `{System W} `{ConfigFiles W}.
Notation S := (Session W).

(** ** What the monitor has seen *)

(** A fact about pods that a look which finds the pod successful establishes, and that nothing
    the monitor does takes away. *)
Record seen_to_succeed (fact : S → string → Prop) : Prop := {
  seen_now p s s' :
    run (CheckPodCompleted p NSDefault) s = (Ret (PodSucceeded, None), s') → fact s' p;
  seen_look p q : keeps (λ s, fact s p) (CheckPodCompleted q NSDefault);
  seen_checks p : keeps (λ s, fact s p) monitor_checks;
  seen_order p (m : gmap string SoakJob) : keeps (λ s, fact s p) (range_map m);
}.

(** Every job is watched still, or known to have succeeded, or one has failed. *)
Definition accounted (fact : S → string → Prop) (l : list SoakJob)
    (b : gmap string SoakJob * list string) (s : S) : Prop :=
  b.2 = [] → ∀ job, job ∈ l → is_Some (b.1 !! sj_name job) ∨ fact s (sj_name job).

Lemma active_jobs_all l job : job ∈ l → is_Some (active_jobs l !! sj_name job).
Proof.
  intros Hj. unfold active_jobs. generalize (∅ : gmap string SoakJob).
  assert (Hk : ∀ (l' : list SoakJob) (m : gmap string SoakJob), is_Some (m !! sj_name job) →
    is_Some (foldl (λ m j, <[sj_name j := j]> m) m l' !! sj_name job)).
  { induction l' as [|j l' IH]; intros m Hm; simpl; [done|]. apply IH.
    destruct (decide (sj_name j = sj_name job)) as [->|?];
      [by rewrite lookup_insert_eq|by rewrite lookup_insert_ne]. }
  induction l as [|j l IH]; [by apply not_elem_of_nil in Hj|]. intros m. simpl.
  apply elem_of_cons in Hj as [->|Hj]; [|by apply IH].
  apply Hk. by rewrite lookup_insert_eq.
Qed.

Section Facts.
Context (fact : S → string → Prop) (Hf : seen_to_succeed fact) (l : list SoakJob).

Lemma accounted_keeps {A} (p : prog S A) b :
  (∀ q, keeps (λ s, fact s q) p) → triple (accounted fact l b) p (λ _, accounted fact l b) (λ _, True).
Proof.
  intros Hk s Ha. destruct (run p s) as [[a| | |] s1] eqn:E; try done.
  intros Hb job Hj. destruct (Ha Hb job Hj) as [?|Hs]; [by left|right].
  pose proof (keeps_run _ _ _ (Hk (sj_name job)) Hs) as Hr. by rewrite E in Hr.
Qed.

Lemma accounted_look podName b :
  triple (accounted fact l b) (look_at_load podName b)
    (λ c s, match c with Next b' | Break b' => accounted fact l b' s | Return r => False end)
    (λ _, True).
Proof.
  destruct b as [active failedJobs]. unfold look_at_load. intros s Ha. rewrite run_bind.
  destruct (run (CheckPodCompleted podName NSDefault) s) as [[[res err]| | |] s1] eqn:E; try done.
  pose proof (accounted_keeps _ _ (λ q, seen_look _ Hf q podName) s Ha) as Ha1.
  rewrite E in Ha1. cbn [seq_run]. destruct err as [e|]; [exact Ha1|].
  repeat case_decide; subst; cbn; [|by intros [_ ?]%app_eq_nil|exact Ha1].
  intros Hb job Hj. destruct (decide (sj_name job = podName)) as [->|Hn].
  - right. by eapply seen_now.
  - destruct (Ha1 Hb job Hj) as [?|?]; [left|by right]. cbn. by rewrite lookup_delete_ne.
Qed.

Lemma accounted_round b :
  triple (accounted fact l b) (monitor_round b) (λ b', accounted fact l b') (λ _, True).
Proof.
  unfold monitor_round.
  eapply triple_bind; [apply accounted_keeps; intros q; by apply seen_order|]. intros podNames.
  eapply triple_bind.
  { eapply (triple_for_range (accounted fact l) (accounted fact l) (λ _ _, False)); [done|].
    intros p b' _. eapply triple_weaken; [apply accounted_look|done| |done].
    by intros [?|?|[]]. }
  intros [b'|[]]. by apply triple_ret.
Qed.

Lemma accounted_loop fuel :
  triple (accounted fact l (active_jobs l, [])) (monitor_loop fuel l)
    (λ r s, match r with
            | inl b => (b.1 = ∅ ∨ b.2 ≠ []) ∧ accounted fact l b s
            | inr err => err ≠ None
            end) (λ _, True).
Proof.
  eapply (triple_for_fuel (accounted fact l)
            (λ b s, (b.1 = ∅ ∨ b.2 ≠ []) ∧ accounted fact l b s) (λ err _, err ≠ None)); [done|].
  intros _ b. unfold monitor_step. case_decide as Hb; [by apply triple_ret|].
  eapply triple_bind; [apply accounted_keeps; intros q; by apply seen_checks|].
  intros [e|]; [by apply triple_ret|].
  eapply triple_bind; [apply accounted_round|]. intros b'. by apply triple_ret.
Qed.
End Facts.

(** (C24) A soak test does not pass over a load that has not succeeded: when the monitor comes
    back without an error, every job it was given has been seen to succeed, by a look at its
    own pod.  Whatever such a look establishes, and nothing the monitor does takes away, holds
    of every job then. *)
Theorem monitor_saw_all_succeed (fact : S → string → Prop) fuel l s s' :
  seen_to_succeed fact →
  run (monitor fuel l) s = (Ret None, s') →
  ∀ job, job ∈ l → fact s' (sj_name job).
Proof.
  intros Hf Hr job Hj.
  assert (Ha : accounted fact l (active_jobs l, []) s) by (intros _ j Hj'; left; by apply active_jobs_all).
  pose proof (accounted_loop fact Hf l fuel s Ha) as Hl. unfold monitor in Hr. rewrite run_bind in Hr.
  destruct (run (monitor_loop fuel l) s) as [[r| | |] s1]; try done. cbn [seq_run] in Hr.
  destruct r as [[active [|f fs]]|err]; simplify_eq/=.
  destruct Hl as [[->|?] Hacc]; [|done].
  destruct (Hacc eq_refl job Hj) as [[? Hl]|?]; [|done]. cbn in Hl. by rewrite lookup_empty in Hl.
Qed.

(** ** When the monitor ends *)

(** In the states that can come up every request is answered and takes its time, and from the
    time [T] on every load has ended, one way or the other. *)
Record ended_by (I : S → Prop) (now : S → Z) (T : Z) : Prop := {
  ends_look p s : I s →
    ∃ ph err s', run (CheckPodCompleted p NSDefault) s = (Ret (ph, err), s') ∧ I s' ∧
      (now s ≤ now s')%Z ∧
      ((T ≤ now s)%Z → err = None ∧ (ph = PodSucceeded ∨ ph = PodFailed));
  ends_checks s : I s →
    ∃ err s', run monitor_checks s = (Ret err, s') ∧ I s' ∧ (now s + 1 ≤ now s')%Z;
  ends_order (m : gmap string SoakJob) s : I s →
    let s' := (run (range_map m) s).2 in I s' ∧ (now s ≤ now s')%Z;
}.

Section Ends.
Context (I : S → Prop) (now : S → Z) (T : Z) (He : ended_by I now T).

Lemma look_ends p b s : I s →
  ∃ c s', run (look_at_load p b) s = (Ret c, s') ∧ I s' ∧ (now s ≤ now s')%Z ∧
    ((T ≤ now s)%Z → ∃ fs, c = Next (delete p b.1, fs)).
Proof.
  intros Hs. destruct b as [active fs].
  destruct (ends_look _ _ _ He p s Hs) as (ph & err & s1 & E & Hs1 & Hle & Hend).
  unfold look_at_load. rewrite run_bind, E. cbn [seq_run run mret prog_mret].
  eexists _, s1. split_and!; [done..|]. intros Ht.
  destruct (Hend Ht) as [-> [-> | ->]]; cbn; eauto.
Qed.

Lemma looks_end names b s : I s →
  ∃ b' s', run (for_range (R:=Empty_set) names b look_at_load) s = (Ret (inl b'), s') ∧ I s' ∧
    (now s ≤ now s')%Z ∧
    ((T ≤ now s)%Z → ∀ k, is_Some (b'.1 !! k) → k ∉ names ∧ is_Some (b.1 !! k)).
Proof.
  revert b s. induction names as [|p names IH]; intros b s Hs; cbn [for_range].
  { eexists _, _. split_and!; [done..|lia|]. intros _ k Hk. split; [set_solver|done]. }
  destruct (look_ends p b s Hs) as (c & s1 & E & Hs1 & Hle & Hn). rewrite run_bind, E. cbn [seq_run].
  destruct c as [b1|b1|[]].
  - destruct (IH b1 s1 Hs1) as (b' & s' & E' & Hs' & Hle' & Hk). exists b', s'.
    split_and!; [done..|lia|]. intros Ht k Hsome. destruct (Hn Ht) as [fs [= ->]].
    destruct (Hk ltac:(lia) k Hsome) as [Hni [x Hx]]. cbn in Hx.
    apply lookup_delete_Some in Hx as [Hp Hx].
    split; [by apply not_elem_of_cons|by eexists].
  - eexists _, s1. split_and!; [done..|]. intros Ht. by destruct (Hn Ht).
Qed.

Lemma round_ends b s : I s →
  ∃ b' s', run (monitor_round b) s = (Ret b', s') ∧ I s' ∧ (now s ≤ now s')%Z ∧
    ((T ≤ now s)%Z → b'.1 = ∅).
Proof.
  intros Hs. pose proof (ends_order _ _ _ He b.1 s Hs) as [Hs1 Ho]. unfold monitor_round. unfold range_map in *.
  rewrite run_bind. rewrite run_outside in *. cbn [seq_run snd] in *.
  destruct (looks_end (map fst (map_order b.1 (world s)).1) b _ Hs1) as (b' & s' & E & Hs' & Hle & Hk).
  rewrite run_bind, E. cbn [seq_run no_return run mret prog_mret].
  exists b', s'. split_and!; [done..|lia|]. intros Ht. apply map_empty. intros k.
  apply eq_None_not_Some. intros Hsome. destruct (Hk ltac:(lia) k Hsome) as [Hn [x Hx]].
  apply Hn. rewrite map_order_perm. apply list_elem_of_fmap. exists (k, x).
  split; [done|]. by apply elem_of_map_to_list.
Qed.

Lemma loop_ends fuel i b s :
  I s →
  (b.1 = ∅ ∧ 1 ≤ fuel)%nat ∨ (Z.to_nat (T - now s) + 2 ≤ fuel)%nat →
  ∃ r s', run (for_fuel fuel i b (λ _ b, monitor_step b)) s = (Ret r, s').
Proof.
  revert i b s. induction fuel as [|fuel IH]; intros i b s Hs Hfuel; [lia|].
  cbn [for_fuel]. rewrite run_bind. unfold monitor_step at 1. case_decide as Hb; [by eexists _, _|].
  destruct Hfuel as [[? _]|Hfuel]; [naive_solver|].
  destruct (ends_checks _ _ _ He s Hs) as (err & s1 & E1 & Hs1 & Hle1). rewrite run_bind, E1. cbn [seq_run].
  destruct err as [e|]; [by eexists _, _|].
  destruct (round_ends b s1 Hs1) as (b' & s2 & E2 & Hs2 & Hle2 & Hemp). rewrite run_bind, E2.
  cbn [seq_run run mret prog_mret]. apply IH; [done|].
  destruct (decide (T ≤ now s1)%Z) as [Ht|Ht]; [left; split; [by apply Hemp|lia]|right; lia].
Qed.
End Ends.

(** (C25) The monitor of a soak test ends: when every request is answered and all loads have
    ended, one way or the other, at some time, it comes back within two rounds more than there
    are units of time until then, whichever loads there are. *)
Theorem monitor_ends (I : S → Prop) (now : S → Z) T fuel l s :
  ended_by I now T → I s →
  (Z.to_nat (T - now s) + 2 ≤ fuel)%nat →
  ∃ err s', run (monitor fuel l) s = (Ret err, s').
Proof.
  intros He Hs Hfuel. unfold monitor, monitor_loop. rewrite run_bind.
  destruct (loop_ends I now T He fuel 0 (active_jobs l, []) s Hs) as (r & s' & E); [by right|].
  rewrite E. by eexists _, _.
Qed.
End Monitor.
