(* ===== verification/VolumeDemo.v ===== *)
(** * A scripted cluster for volumes, loads and devices

    The requests with which the theorems about volumes that are made at once, about the monitor
    of io_soak, about pools and about faulty devices are tried. *)

From stdpp Require Import base gmap sets strings list.
From S2P Require Import Prelude GoLib Json Http Shell Kube MayastorClient GoTime.
From S2P Require Import K8sPods K8sLib K8sApps ScriptedCluster AgentClient AgentServer.
From S2P Require Import AgentTheorems Session ControlPlane CpTheorems E2ENodes E2EPods E2EUtil.
From S2P Require Import E2EPvc E2ECleanup E2ETest E2EDemo E2EBuilders InstallTheorems Suites.
From S2P Require Import SuiteDemo.
From S2P Require Import SuiteLib PoolSuites FaultSuites LoadSuites SoakSuite Movers.
From S2P Require Import VolumeTheorems FaultTheorems.

(** A claim gets the time of its making as its identity, and one named full is refused; a pod
    with a load has come to its end with success. *)
Definition fresh_claim (c : Cluster) : PVC :=
  mkPVC (mkMeta "vol" "" "default" ("volume-" +:+ Itoa (cl_clock c)) ∅ ∅ None 0 None) None [] ""
    None "" "Pending".
Definition ended_pod (name : string) : Pod :=
  mkPod (mkMeta name "" "" "" ∅ ∅ None 0 None)
    (mkPodSpec [] [] [] ∅ "n1" RestartPolicyNever "" false)
    (mkPodStatus PodSucceeded "" [] "" []).
Definition volume_cluster (known : string → bool) : Kube Cluster := {|
  pods_List _ := ok [];
  pods_Get _ name := if known name then ok (ended_pod name) else no;
  pods_Create := pods_Create; pods_Delete := pods_Delete;
  nodes_List := ok [ready_node "n1" "10.0.0.1" true];
  pvc_Create _ o c := if bool_decide (Name (pvc_meta o) = "full") then (inl refusal, c)
                      else (inr (fresh_claim c), at_clock (cl_clock c + 1) c);
  pvc_Get _ _ := no; pvc_Delete _ _ := ok tt; pvc_List _ := ok []; pv_Get _ := no;
  sc_Create := sc_Create; sc_Get _ := no; sc_Delete := sc_Delete; ns_Create := ns_Create;
  msp_Create := msp_Create; msp_Get := msp_Get; msp_Update := msp_Update;
  msp_Delete := msp_Delete; msp_List := ok []; msn_Get := msn_Get; msn_Delete := msn_Delete;
  msn_List := msn_List; msv_Get := msv_Get; msv_Update := msv_Update;
  msv_Delete := msv_Delete; msv_List := msv_List |}.
Definition volume_kube : Kube Cluster := volume_cluster (λ name, HasPrefix name "fio-").
#[local] Existing Instance volume_kube.
#[local] Existing Instance quiet_files.
#[local] Existing Instance plain_config.
#[local] Existing Instance ready_system.
#[local] Existing Instance suite_apps.

(** ** Volumes made at once *)

Definition three_volumes : VolumeSlots :=
  let names := ["a"; "full"; "b"] in
  mkVolumeSlots names (map (volume_claim 64 "sc") names) ["" ; "" ; ""] [None; None; None]
    [None; None; None].
(** The third goroutine asks first; the first and the second take turns. *)
Definition taking_turns : list nat := [2; 0; 1; 0; 1; 2; 1; 0; 2].

Lemma volumes_made_at_once_witness :
  let s := suite_state three_volumes in
  let s' := (run (create_parallel taking_turns) s).2 in
  run (create_parallel taking_turns) s = (Ret tt, s') ∧
  uuids (su_vars s') = ["volume-1"; ""; "volume-0"] ∧
  createErrs (su_vars s') = [None; Some refusal; None] ∧
  ∃ order, order ≡ₚ seq 0 3 ∧ run (one_by_one (creations three_volumes) order) s = (Ret tt, s').
Proof.
  intros s s'.
  assert (E : run (create_parallel taking_turns) s = (Ret tt, s')) by (vm_compute; reflexivity).
  split; [exact E|]. split; [vm_compute; reflexivity|]. split; [vm_compute; reflexivity|].
  refine (proj1 (volumes_made_at_once taking_turns s s' _ E)).
  repeat split.
Defined.

(** ** The monitor *)

#[local] Instance idle_shell : Shell Cluster := { sh_CombinedOutput _ _ c := (("[]", None), c) }.
Definition two_jobs : list SoakJob :=
  [MakeFioFsJob "io-soak-nvmf" 1 Minute; MakeFioRawBlockJob "io-soak-nvmf" 2 Minute].

(** Nothing can be taken from what is always so. *)
Lemma keeps_const {S A} (X : Prop) (p : prog S A) : keeps (λ _, X) p.
Proof. induction p as [| | |Y f k IH]; simpl; [done..|]. split; [done|exact IH]. Qed.

(** The pods that can succeed are those with a load. *)
Definition is_load (s : Session Cluster) (p : string) : Prop := HasPrefix p "fio-" = true.
Lemma loads_seen : seen_to_succeed is_load.
Proof.
  split; [|intros p *; exact (keeps_const (HasPrefix p "fio-" = true) _)..].
  intros p s s'. unfold CheckPodCompleted, CheckPodContainerCompleted, is_load.
  rewrite run_bind, run_kube_call. cbn [pods_Get volume_kube volume_cluster]. by destruct (HasPrefix p "fio-").
Qed.

Lemma monitor_saw_all_succeed_witness :
  let s' := (run (monitor 2 two_jobs) suite_session).2 in
  run (monitor 2 two_jobs) suite_session = (Ret None, s') ∧
  ∀ job, job ∈ two_jobs → HasPrefix (sj_name job) "fio-" = true.
Proof.
  intros s'. assert (E : run (monitor 2 two_jobs) suite_session = (Ret None, s'))
    by (vm_compute; reflexivity).
  split; [exact E|]. exact (monitor_saw_all_succeed is_load 2 two_jobs suite_session s' loads_seen E).
Defined.

(** Where all pods have ended, two rounds are enough. *)
Definition clock_of (s : Session Cluster) : Z := cl_clock (se_world s).
Definition idle (s : Session Cluster) : Prop := ∃ c, s = set_world c suite_session.
Lemma all_ended : let _ := volume_cluster (λ _, true) in ended_by idle clock_of 0.
Proof.
  intros Hk. split.
  - intros p s [c ->]. exists PodSucceeded, None, (set_world c suite_session).
    split_and!; [reflexivity|by exists c|reflexivity|intros _; split; [done|by left]].
  - intros s [c ->]. exists None, (set_world (at_clock (cl_clock c + Second) c) suite_session).
    split; [destruct c; vm_compute; reflexivity|]. split; [by eexists|].
    unfold clock_of, at_clock, Second. cbn. lia.
  - intros m s [c ->]. split; [by exists c|reflexivity].
Qed.
Lemma monitor_ends_witness :
  let _ := volume_cluster (λ _, true) in
  ∃ err s', run (monitor 2 two_jobs) suite_session = (Ret err, s').
Proof.
  intros Hk. apply (monitor_ends idle clock_of 0 2 two_jobs suite_session).
  - exact all_ended.
  - exists empty_cluster. reflexivity.
  - vm_compute. lia.
Defined.

(** ** Pools and devices *)

Lemma pool_capacity_unchecked_witness :
  CapacityRange 1 (2 ^ 30) = true ∧
  CapacityRange (2 ^ 40) 1 = false ∧
  run (verifyPoolCreated "10.0.0.1" "pool" (2 ^ 30)) suite_session =
  run (verifyPoolCreated "10.0.0.1" "pool" (2 ^ 31)) suite_session.
Proof.
  split; [vm_compute; reflexivity|]. split; [|].
  - apply (proj1 (pool_capacity_unchecked (W:=Cluster))); vm_compute; repeat split; intros; discriminate.
  - apply (proj2 pool_capacity_unchecked); vm_compute; repeat split; intros; discriminate.
Defined.

(** A node of which only one thing is told: whether it has a faulty device.  The device mapper
    creates one, and removes it. *)
Definition with_status (st : string) (c : Cluster) : Cluster :=
  mkCluster (cl_pods c) (cl_nodes c) (cl_msps c) (cl_replies c) (cl_replicas c)
    (cl_director c) (cl_events c) st (cl_clock c).
#[local] Instance mapper_shell : Shell Cluster := {
  sh_CombinedOutput _ cmd c :=
    match cmd with
    | "dmsetup" :: "create" :: _ => (("", None), with_status "faulty" c)
    | "dmsetup" :: "remove" :: _ | "dmsetup" :: "delete" :: _ => (("", None), with_status "" c)
    | _ => (("", None), c)
    end
}.
#[local] Instance mapper_mux : Mux := { mux_unmatched _ _ := no_reply }.
Definition has_faulty_device (c : Cluster) : Prop := cl_status c = "faulty".

Lemma mapper_outlives : outlives_creation has_faulty_device.
Proof. split; by intros. Qed.
Lemma one_node ses a ses' :
  run (GetNodeIPAddress (W:=Cluster) "n1") ses = (Ret (Some a, None), ses') → a = "10.0.0.1".
Proof. vm_compute. by intros [= <-]. Qed.

Definition disk_config : E2EConfig :=
  mkConfig "default" "" "" (mkPlatform "Hetzner" false "mayastor" 0) demo_product false "" ""
    "/tmp/s" "1.0.0" "/bin" "registry" "" "/dev/sdb" "mayadata/e2e-fio" "mayadata/e2e-fsx"
    false 2 false false "" false default_duty 0 0.
Definition faulty_node : Session Cluster :=
  set_config disk_config (set_world (with_status "faulty" empty_cluster) suite_session).

(** The request to remove the device succeeds, and the device is still there. *)
Lemma faulty_device_never_removed_witness :
  let _ := agent_http "10.0.0.1" in
  let s : Suite Cluster (gset string) unit :=
    mkSuite faulty_node ∅ ∅ tt in
  (run (deleteFaultyDisk "n1") s).1 = Ret tt ∧
  cl_status (se_world (su_session (run (deleteFaultyDisk "n1") s).2)) = "faulty".
Proof.
  intros Hh s. split; [vm_compute; reflexivity|].
  apply (faulty_device_never_removed "10.0.0.1" has_faulty_device "n1" s mapper_outlives).
  - unfold GetNodeIPAddress, e2e_GetNodeLocs. solve_keeps; by apply keeps_action.
  - exact one_node.
  - reflexivity.
Defined.
