(* ===== verification/Rest.v ===== *)
(** * The director's REST layer (test_director/restapi)

    What stands between a request on the wire and a handler: the table of the routes, the
    binding of the parameters and of the body with their validation, and the writing of
    responses. *)

From stdpp Require Import base gmap strings list pretty.
From Stdlib Require Import Ascii.
From S2P Require Import Prelude GoLib Json Http Models Connectors Cache Director.

(** ** go-openapi *)

(** Why a parameter or a body is not bound. *)
Inductive bind_error : Type :=
| ErrRequired (name : string)
| ErrParse (name : string)
| ErrInvalidType (name : string)
| ErrValidation (names : list string).

(** What the runtime finds where a body is expected. *)
Inductive wire_body : Type :=
| NoBody
| EmptyBody
| BadText
| JsonText (v : json).

(** A request: its method, the pattern of the path it was made from with the values of the
    path parameters, its query, its body, and how long its client waits. *)
Record wire_request := mkWire {
  wr_method : string;
  wr_pattern : string;
  wr_params : list (string * string);
  wr_query : gmap string (list string);
  wr_body : wire_body;
  wr_timeout : Z;
}.
Record wire_response := mkReply { wp_code : Z; wp_body : option json }.

(** The router and the error responder of go-openapi, and [swag.ConvertBool]: a path whose
    parameter has nothing but letters, digits and dashes leads to the handler, with the
    parameter as it is; a request that is refused is not answered with 200. *)
Definition plain_char (c : ascii) : bool :=
  let n := N_of_ascii c in
  is_digit c || ((65 <=? n) && (n <=? 90))%N || ((97 <=? n) && (n <=? 122))%N ||
  bool_decide (c = "-"%char).
Definition plain_id (s : string) : bool :=
  bool_decide (s ≠ "") && forallb plain_char (String.list_ascii_of_string s).

Class OpenApi := {
  path_values : string → option (list string);
  serve_error : list bind_error → wire_response;
  route_not_found : wire_response;
  ConvertBool : string → option bool;
  path_values_plain id : plain_id id = true → path_values id = Some [id];
  serve_error_code es : wp_code (serve_error es) ≠ 200%Z;
  route_not_found_code : wp_code route_not_found ≠ 200%Z;
}.

(** ** Binding (operations/test_director/*_parameters.go) *)

(** The last of the values that were given. *)
Definition raw_value (l : list string) : string := default "" (last l).

(** The body of a request, as [dec] reads it and [valid] checks it; [ContextValidate] has
    nothing to add in any of the models. *)
Definition bind_body {A} (dec : json → option A) (valid : A → list string) (b : wire_body)
    : option A * list bind_error :=
  match b with
  | NoBody | EmptyBody => (None, [ErrRequired "body"])
  | BadText => (None, [ErrParse "body"])
  | JsonText v =>
      match dec v with
      | None => (None, [ErrParse "body"])
      | Some a =>
          match valid a with
          | [] => (Some a, [])
          | names => (None, [ErrValidation names])
          end
      end
  end.

(** [route.Params.GetOK]. *)
Notation route_params := (gmap string (list string)).
Definition param_values (name : string) (params : route_params) : list string :=
  default [] (params !! name).

(** An id with the pattern of a Jira key. *)
Definition bind_jira_id (raw : list string) : string * list bind_error :=
  let id := raw_value raw in
  (id, if JiraKey_Validate id then [] else [ErrValidation ["id"]]).
(** An id that is not checked. *)
Definition bind_any_id (raw : list string) : string := raw_value raw.

(** An optional query parameter with an enumeration. *)
Definition bind_enum (name : string) (vals : list string) (raw : list string)
    : option string * list bind_error :=
  let v := raw_value raw in
  if decide (v = "") then (None, [])
  else (Some v, match enum_case name vals v with [] => [] | l => [ErrValidation l] end).

Definition bound {A} (errs : list bind_error) (a : A) : list bind_error + A :=
  match errs with [] => inr a | _ => inl errs end.

Definition bound_map {A B} (f : A → B) (r : list bind_error + A) : list bind_error + B :=
  match r with inl errs => inl errs | inr a => inr (f a) end.

(** The router takes the values out of the path. *)
Definition match_params `{OpenApi} (l : list (string * string)) : option route_params :=
  list_to_map <$> mapM (λ kv, v ← path_values kv.2; Some (kv.1, v)) l.

Section Binding.
Context `{OpenApi} `{Swag} `{Strfmt}.

Definition query_values (name : string) (r : wire_request) : list string :=
  default [] (wr_query r !! name).

Definition AddEventParams_BindRequest (r : wire_request)
    : list bind_error + option EventSpec :=
  let '(body, errs) := bind_body EventSpec_of_json EventSpec_Validate (wr_body r) in
  bound errs body.

Definition PutTestPlanByIDParams_BindRequest (r : wire_request) (params : route_params)
    : list bind_error + string * option TestPlanSpec :=
  let '(body, errs) := bind_body TestPlanSpec_of_json TestPlanSpec_Validate (wr_body r) in
  let '(id, errs') := bind_jira_id (param_values "id" params) in
  bound (errs ++ errs') (id, body).

Definition PutTestRunByIDParams_BindRequest (r : wire_request) (params : route_params)
    : list bind_error + string * option TestRunSpec :=
  let '(body, errs) := bind_body TestRunSpec_of_json TestRunSpec_Validate (wr_body r) in
  bound errs (bind_any_id (param_values "id" params), body).

Definition GetTestPlanByIDParams_BindRequest (r : wire_request) (params : route_params)
    : list bind_error + string :=
  let '(id, errs) := bind_jira_id (param_values "id" params) in bound errs id.
Definition DeleteTestPlanByIDParams_BindRequest (r : wire_request) (params : route_params)
    : list bind_error + string :=
  let '(id, errs) := bind_jira_id (param_values "id" params) in bound errs id.
Definition DeleteTestRunByIDParams_BindRequest (r : wire_request) (params : route_params)
    : list bind_error + string :=
  let '(id, errs) := bind_jira_id (param_values "id" params) in bound errs id.
Definition GetTestRunByIDParams_BindRequest (r : wire_request) (params : route_params)
    : list bind_error + string :=
  bound [] (bind_any_id (param_values "id" params)).

(** An absent value leaves the default, which is [false]. *)
Definition GetTestPlansParams_BindRequest (r : wire_request)
    : list bind_error + option bool :=
  let raw := raw_value (query_values "defaultPlanOnly" r) in
  if decide (raw = "") then bound [] (Some false)
  else match ConvertBool raw with
       | Some b => bound [] (Some b)
       | None => bound [ErrInvalidType "defaultPlanOnly"] (Some false)
       end.

Definition GetEventsParams_BindRequest (r : wire_request)
    : list bind_error + option string * option string :=
  let '(class, errs) :=
    bind_enum "class" ["FAIL"; "INFO"; "WARN"] (query_values "class" r) in
  let '(source, errs') :=
    bind_enum "sourceClass" ["workload-monitor"; "log-monitor"; "resouce-monitor"]
      (query_values "sourceClass" r) in
  bound (errs ++ errs') (class, source).

(** DELETE of all plans and GET of all runs have no parameters. *)
Definition no_params : list bind_error + unit := bound [] tt.
End Binding.

(** ** Responses (operations/test_director/*_responses.go) *)

Definition RequestOutcome_json (o : RequestOutcome) : json :=
  JObj (omit_string "details" (Details o) ++
        omit_ptr "items_affected" (λ z, JNum (Itoa z)) (ItemsAffected o) ++
        omit_string "result" (Result o)).

Section Responses.
Context `{Swag} `{Strfmt}.

(** A response without a payload has no body; a list that is nil is written as the empty
    array. *)
Definition GetTestPlansOK_WriteResponse (l : list TestPlan) : wire_response :=
  mkReply 200 (Some (JArr (map TestPlan_MarshalJSON l))).
Definition GetTestPlansNotFound_WriteResponse : wire_response :=
  mkReply 404 None.
Definition GetTestPlanByIDOK_WriteResponse (p : TestPlan) : wire_response :=
  mkReply 200 (Some (TestPlan_MarshalJSON p)).
Definition GetTestPlanByIDNotFound_WriteResponse : wire_response :=
  mkReply 404 None.
Definition DeleteTestPlanByIDOK_WriteResponse : wire_response :=
  mkReply 200 None.
Definition DeleteTestPlanByIDNotFound_WriteResponse : wire_response :=
  mkReply 404 None.
Definition DeleteTestPlansOK_WriteResponse (o : RequestOutcome) : wire_response :=
  mkReply 200 (Some (RequestOutcome_json o)).
Definition PutTestPlanByIDOK_WriteResponse (p : TestPlan) : wire_response :=
  mkReply 200 (Some (TestPlan_MarshalJSON p)).
Definition PutTestPlanByIDBadRequest_WriteResponse (o : RequestOutcome) : wire_response :=
  mkReply 400 (Some (RequestOutcome_json o)).
Definition GetTestRunsOK_WriteResponse (l : list TestRun) : wire_response :=
  mkReply 200 (Some (JArr (map TestRun_MarshalJSON l))).
Definition GetTestRunsNotFound_WriteResponse : wire_response :=
  mkReply 404 None.
Definition GetTestRunByIDOK_WriteResponse (r : TestRun) : wire_response :=
  mkReply 200 (Some (TestRun_MarshalJSON r)).
Definition GetTestRunByIDNotFound_WriteResponse : wire_response :=
  mkReply 404 None.
Definition DeleteTestRunByIDOK_WriteResponse : wire_response :=
  mkReply 200 (Some (JArr [])).
Definition DeleteTestRunByIDNotFound_WriteResponse : wire_response :=
  mkReply 404 None.
Definition PutTestRunByIDOK_WriteResponse (r : TestRun) : wire_response :=
  mkReply 200 (Some (TestRun_MarshalJSON r)).
Definition PutTestRunByIDBadRequest_WriteResponse (o : RequestOutcome) : wire_response :=
  mkReply 400 (Some (RequestOutcome_json o)).
Definition GetEventsOK_WriteResponse (l : list Event) : wire_response :=
  mkReply 200 (Some (JArr (map Event_MarshalJSON l))).
Definition GetEventsNotFound_WriteResponse : wire_response :=
  mkReply 404 None.
Definition AddEventOK_WriteResponse (e : Event) : wire_response :=
  mkReply 200 (Some (Event_MarshalJSON e)).

Definition WriteResponse (a : Responder) : wire_response :=
  match a with
  | GetTestPlansOK l => GetTestPlansOK_WriteResponse l
  | GetTestPlansNotFound => GetTestPlansNotFound_WriteResponse
  | GetTestPlanByIDOK p => GetTestPlanByIDOK_WriteResponse p
  | GetTestPlanByIDNotFound => GetTestPlanByIDNotFound_WriteResponse
  | DeleteTestPlanByIDOK => DeleteTestPlanByIDOK_WriteResponse
  | DeleteTestPlanByIDNotFound => DeleteTestPlanByIDNotFound_WriteResponse
  | DeleteTestPlansOK o => DeleteTestPlansOK_WriteResponse o
  | PutTestPlanByIDOK p => PutTestPlanByIDOK_WriteResponse p
  | PutTestPlanByIDBadRequest o => PutTestPlanByIDBadRequest_WriteResponse o
  | GetTestRunsOK l => GetTestRunsOK_WriteResponse l
  | GetTestRunsNotFound => GetTestRunsNotFound_WriteResponse
  | GetTestRunByIDOK r => GetTestRunByIDOK_WriteResponse r
  | GetTestRunByIDNotFound => GetTestRunByIDNotFound_WriteResponse
  | DeleteTestRunByIDOK => DeleteTestRunByIDOK_WriteResponse
  | DeleteTestRunByIDNotFound => DeleteTestRunByIDNotFound_WriteResponse
  | PutTestRunByIDOK r => PutTestRunByIDOK_WriteResponse r
  | PutTestRunByIDBadRequest o => PutTestRunByIDBadRequest_WriteResponse o
  | GetEventsOK l => GetEventsOK_WriteResponse l
  | GetEventsNotFound => GetEventsNotFound_WriteResponse
  | AddEventOK e => AddEventOK_WriteResponse e
  end.
End Responses.

(** ** Routes (operations/test_framework_api.go) *)

Inductive Operation : Type :=
| OpAddEvent | OpDeleteTestPlanByID | OpDeleteTestPlans | OpDeleteTestRunByID
| OpGetEvents | OpGetTestPlanByID | OpGetTestPlans | OpGetTestRunByID | OpGetTestRuns
| OpPutTestPlanByID | OpPutTestRunByID.

Definition initHandlerCache : gmap (string * string) Operation :=
  list_to_map
    [("POST", "/td/events", OpAddEvent);
     ("DELETE", "/td/testplans/{id}", OpDeleteTestPlanByID);
     ("DELETE", "/td/testplans", OpDeleteTestPlans);
     ("DELETE", "/td/testruns/{id}", OpDeleteTestRunByID);
     ("GET", "/td/events", OpGetEvents);
     ("GET", "/td/testplans/{id}", OpGetTestPlanByID);
     ("GET", "/td/testplans", OpGetTestPlans);
     ("GET", "/td/testruns/{id}", OpGetTestRunByID);
     ("GET", "/td/testRuns", OpGetTestRuns);
     ("PUT", "/td/testplans/{id}", OpPutTestPlanByID);
     ("PUT", "/td/testruns/{id}", OpPutTestRunByID)].

Definition upper_char (c : ascii) : ascii :=
  let n := N_of_ascii c in
  if ((97 <=? n) && (n <=? 122))%N then ascii_of_N (n - 32) else c.
(** [strings.ToUpper] on ASCII text. *)
Fixpoint ToUpper (s : string) : string :=
  match s with
  | EmptyString => EmptyString
  | String c s' => String (upper_char c) (ToUpper s')
  end.

Definition HandlerFor (method path : string) : option Operation :=
  initHandlerCache !! (ToUpper method, if decide (path = "/") then "" else path).

(** ** Serving *)

Section Serving.
Context {C W : Type} `{GoCache C} `{MapRange W} `{Http W} `{Clock W} `{Uuid W}
        `{Getenv} `{Gjson} `{TimeText} `{Swag} `{Strfmt} `{OpenApi}.
Notation M := (prog (Director C W)).

(** The request the handler of an operation is given: the handlers that list plans and
    events take no notice of their query. *)
Definition BindValidRequest (op : Operation) (r : wire_request) (params : route_params)
    : list bind_error + dir_request :=
  match op with
  | OpAddEvent => bound_map RqAddEvent (AddEventParams_BindRequest r)
  | OpDeleteTestPlanByID =>
      bound_map RqDeleteTestPlan (DeleteTestPlanByIDParams_BindRequest r params)
  | OpDeleteTestPlans => bound_map (λ _, RqDeleteTestPlans) no_params
  | OpDeleteTestRunByID =>
      bound_map RqDeleteTestRun (DeleteTestRunByIDParams_BindRequest r params)
  | OpGetEvents => bound_map (λ _, RqGetEvents) (GetEventsParams_BindRequest r)
  | OpGetTestPlanByID => bound_map RqGetTestPlan (GetTestPlanByIDParams_BindRequest r params)
  | OpGetTestPlans => bound_map (λ _, RqGetTestPlans) (GetTestPlansParams_BindRequest r)
  | OpGetTestRunByID => bound_map RqGetTestRun (GetTestRunByIDParams_BindRequest r params)
  | OpGetTestRuns => bound_map (λ _, RqGetTestRuns) no_params
  | OpPutTestPlanByID =>
      bound_map (λ p, RqPutTestPlan p.1 p.2) (PutTestPlanByIDParams_BindRequest r params)
  | OpPutTestRunByID =>
      bound_map (λ p, RqPutTestRun p.1 p.2) (PutTestRunByIDParams_BindRequest r params)
  end.

Definition ServeHTTP (op : Operation) (r : wire_request) (params : route_params)
    : M wire_response :=
  match BindValidRequest op r params with
  | inl errs => mret (serve_error errs)
  | inr q => a ← serve q; mret (WriteResponse a)
  end.

(** The server: the router finds the handler and the values of the path. *)
Definition api_serve (r : wire_request) : M wire_response :=
  match HandlerFor (wr_method r) (wr_pattern r),
        match_params (wr_params r) with
  | Some op, Some params => ServeHTTP op r params
  | _, _ => mret route_not_found
  end.
End Serving.
