(* ===== verification/RestClient.v ===== *)
(** * The director's generated client (common/td/client)

    The operations of the client: the request each one writes, and what it makes of the
    response.  The transport is a parameter; the client is an instance of [TdClient], the
    interface the rest of the framework uses. *)

From stdpp Require Import base gmap strings list pretty.
From S2P Require Import Prelude GoLib Json Http Models Connectors Cache Director Kube K8sLib.
From S2P Require Import DirectorLib Rest.

(** ** Connections *)

(** What a client's call can come to that submits a request to a server: the server never
    has the request; its response arrives; or the server has the request, and no response
    arrives (the handler did not come back, the response was lost, or the client gave up
    waiting).  In the last case the state is the one in which the server is when it has done
    with the request, which may be after the client gave up. *)
Inductive exchange {S} (serve : wire_request → prog S wire_response) (q : wire_request) (s : S)
    : (goerror + wire_response) * S → Prop :=
| exchange_unsent e : exchange serve q s (inl e, s)
| exchange_answered resp s' :
    run (serve q) s = (Ret resp, s') → exchange serve q s (inr resp, s')
| exchange_unanswered e o s' :
    run (serve q) s = (o, s') → exchange serve q s (inl e, s').

(** [runtime.ClientTransport]: a response, or the error of a connection that failed. *)
Class Transport (W : Type) := { td_submit : wire_request → answer W wire_response }.

(** The transport of a client whose environment is the server: a request is served once at
    most, and a response is the one the server gave to it. *)
Class Connection (S : Type) `{Transport S} (serve : wire_request → prog S wire_response) := {
  connection_exchange q s : exchange serve q s (td_submit q s);
}.

(** The connection holds for a request: it is served, and a response arrives. *)
Definition holds {S} `{Transport S} (serve : wire_request → prog S wire_response)
    (q : wire_request) (s : S) : Prop :=
  match run (serve q) s with
  | (Ret resp, s') => td_submit q s = (inr resp, s')
  | (_, s') => ∃ e, td_submit q s = (inl e, s')
  end.
(** The connection fails for a request. *)
Definition fails {S} `{Transport S} (q : wire_request) (s : S) : Prop :=
  ∃ e, (td_submit q s).1 = inl e.

(** A connection that never fails, for the examples. *)
Definition direct_submit {S} (serve : wire_request → prog S wire_response) (closed : goerror)
    (q : wire_request) : answer S wire_response := λ s,
  match run (serve q) s with
  | (Ret resp, s') => (inr resp, s')
  | (_, s') => (inl closed, s')
  end.
Definition direct {S} (serve : wire_request → prog S wire_response) (closed : goerror)
    : Transport S := {| td_submit := direct_submit serve closed |}.
Lemma direct_connection {S} serve closed :
  Connection (H := direct serve closed) S serve.
Proof.
  constructor. intros q s. cbn. unfold direct_submit.
  destruct (run (serve q) s) as [[] ?] eqn:E; by econstructor.
Qed.
Lemma direct_holds {S} serve closed q (s : S) :
  holds (H := direct serve closed) serve q s.
Proof.
  unfold holds. cbn. unfold direct_submit. destruct (run (serve q) s) as [[] ?]; eauto.
Qed.

(** ** Requests and their parameters *)

(** [runtime.ClientRequest]: what the parameters of an operation call, in turn, to make the
    request; each of the calls can fail. *)
Inductive setter : Type :=
| SetTimeout (d : Z)
| SetBodyParam (v : json)
| SetPathParam (name value : string)
| SetQueryParam (name value : string).
(** The failures of these calls, and [client.DefaultTimeout]. *)
Class ClientRequest := {
  setter_error : setter → option goerror;
  DefaultTimeout : Z;
}.
Definition set_in (c : setter) (r : wire_request) : wire_request :=
  let '(mkWire m p ps q b t) := r in
  match c with
  | SetTimeout d => mkWire m p ps q b d
  | SetBodyParam v => mkWire m p ps q (JsonText v) t
  | SetPathParam n v => mkWire m p (ps ++ [(n, v)]) q b t
  | SetQueryParam n v => mkWire m p ps (<[n := [v]]> q) b t
  end.

(** Texts of the runtime: a status that the interface does not name, a body that cannot be
    read, and the fields of an outcome. *)
Class ClientTexts := {
  api_error : Z → goerror;
  consume_error : json → goerror;
  show_outcome : RequestOutcome → string;
}.

Definition RequestOutcome_of_json (v : json) : option RequestOutcome :=
  fs ← object_fields v;
  d ← decode_field "details" dec_string fs "";
  i ← decode_field "items_affected" (dec_ptr 0%Z dec_int) fs None;
  r ← decode_field "result" dec_string fs "";
  Some (mkRequestOutcome d i r).

Definition zero_outcome : RequestOutcome := mkRequestOutcome "" None "".
Definition zero_plan : TestPlan := mkTestPlan (mkTestPlanSpec "" "" "" None None) None "".
Definition zero_run : TestRun :=
  mkTestRun zero_time "" zero_time (mkTestRunSpec "" "" "" "" None).
Definition zero_event : Event :=
  mkEvent "" zero_time (mkEventSpec None None None "" None None).

(** [strconv.FormatBool]. *)
Definition FormatBool (b : bool) : string := if b then "true" else "false".

(** ** Requests (client/test_director/*_parameters.go) *)

(** Writing to a request: the calls one after the other, until one fails. *)
Definition writer : Type := wire_request → goerror + wire_request.
Definition skip : writer := inr.
Definition andthen (a b : writer) : writer := λ r,
  match a r with inl e => inl e | inr r' => b r' end.
Infix ">>>" := andthen (at level 60, right associativity).

Section Writers.
Context `{ClientRequest}.

Definition call (c : setter) : writer := λ r,
  match setter_error c with Some e => inl e | None => inr (set_in c r) end.
Definition body_param {A} (enc : A → json) (body : option A) : writer :=
  match body with Some b => call (SetBodyParam (enc b)) | None => skip end.
(** A query parameter that is nil or empty is not sent. *)
Definition query_param (name : string) (v : option string) : writer :=
  match v with
  | Some s => if decide (s = "") then skip else call (SetQueryParam name s)
  | None => skip
  end.

Definition AddEvent_WriteToRequest (timeout : Z) (body : option EventSpec) : writer :=
  call (SetTimeout timeout) >>> body_param EventSpec_json body.
Definition DeleteTestPlanByID_WriteToRequest (timeout : Z) (id : string) : writer :=
  call (SetTimeout timeout) >>> call (SetPathParam "id" id).
Definition DeleteTestPlans_WriteToRequest (timeout : Z) : writer :=
  call (SetTimeout timeout).
Definition DeleteTestRunByID_WriteToRequest (timeout : Z) (id : string) : writer :=
  call (SetTimeout timeout) >>> call (SetPathParam "id" id).
Definition GetEvents_WriteToRequest (timeout : Z) (class source : option string) : writer :=
  call (SetTimeout timeout) >>> query_param "class" class >>>
  query_param "sourceClass" source.
Definition GetTestPlanByID_WriteToRequest (timeout : Z) (id : string) : writer :=
  call (SetTimeout timeout) >>> call (SetPathParam "id" id).
Definition GetTestPlans_WriteToRequest (timeout : Z) (defaultPlanOnly : option bool)
    : writer :=
  call (SetTimeout timeout) >>> query_param "defaultPlanOnly" (FormatBool <$> defaultPlanOnly).
Definition GetTestRunByID_WriteToRequest (timeout : Z) (id : string) : writer :=
  call (SetTimeout timeout) >>> call (SetPathParam "id" id).
Definition GetTestRuns_WriteToRequest (timeout : Z) : writer :=
  call (SetTimeout timeout).
Definition PutTestPlanByID_WriteToRequest (timeout : Z) (id : string)
    (body : option TestPlanSpec) : writer :=
  call (SetTimeout timeout) >>> body_param TestPlanSpec_json body >>>
  call (SetPathParam "id" id).
Definition PutTestRunByID_WriteToRequest (timeout : Z) (id : string)
    (body : option TestRunSpec) : writer :=
  call (SetTimeout timeout) >>> body_param TestRunSpec_json body >>>
  call (SetPathParam "id" id).
End Writers.

(** ** Responses (client/test_director/*_responses.go) *)

Section Client.
Context {W : Type} `{Swag} `{Strfmt} `{ClientTexts} `{ClientRequest} `{Transport W}.

(** A response without a body leaves the zero value. *)
Definition consume {A} (zero : A) (dec : json → option A) (r : wire_response) : goerror + A :=
  match wp_body r with
  | None => inr zero
  | Some v => match dec v with Some a => inr a | None => inl (consume_error v) end
  end.
(** A list of pointers. *)
Definition consume_list {A} (dec : json → option A) (r : wire_response)
    : goerror + list (option A) :=
  match wp_body r with
  | None => inr []
  | Some v =>
      match dec_list (λ x, match x with JNull => Some None | _ => Some <$> dec x end) v [] with
      | Some l => inr l
      | None => inl (consume_error v)
      end
  end.
Definition outcome_error {A} (text : string) (r : wire_response) : goerror + A :=
  match consume zero_outcome RequestOutcome_of_json r with
  | inl e => inl e
  | inr o => inl (GoError (text +:+ "  " +:+ show_outcome o) Plain)
  end.
Definition plain_error {A} (text : string) : goerror + A := inl (GoError text Plain).

Definition AddEvent_ReadResponse (r : wire_response) : goerror + Event :=
  if decide (wp_code r = 200%Z) then consume zero_event Event_UnmarshalJSON r
  else if decide (wp_code r = 400%Z)
  then outcome_error "[POST /td/events][400] addEventBadRequest" r
  else inl (api_error (wp_code r)).
Definition DeleteTestPlanByID_ReadResponse (r : wire_response) : goerror + TestPlan :=
  if decide (wp_code r = 200%Z) then consume zero_plan TestPlan_UnmarshalJSON r
  else if decide (wp_code r = 404%Z)
  then plain_error "[DELETE /td/testplans/{id}][404] deleteTestPlanByIdNotFound "
  else inl (api_error (wp_code r)).
Definition DeleteTestPlans_ReadResponse (r : wire_response) : goerror + RequestOutcome :=
  if decide (wp_code r = 200%Z) then consume zero_outcome RequestOutcome_of_json r
  else inl (api_error (wp_code r)).
Definition DeleteTestRunByID_ReadResponse (r : wire_response)
    : goerror + list (option TestRun) :=
  if decide (wp_code r = 200%Z) then consume_list TestRun_UnmarshalJSON r
  else if decide (wp_code r = 404%Z)
  then plain_error "[DELETE /td/testruns/{id}][404] deleteTestRunByIdNotFound "
  else inl (api_error (wp_code r)).
Definition GetEvents_ReadResponse (r : wire_response) : goerror + list (option Event) :=
  if decide (wp_code r = 200%Z) then consume_list Event_UnmarshalJSON r
  else if decide (wp_code r = 404%Z)
  then plain_error "[GET /td/events][404] getEventsNotFound "
  else inl (api_error (wp_code r)).
Definition GetTestPlanByID_ReadResponse (r : wire_response) : goerror + TestPlan :=
  if decide (wp_code r = 200%Z) then consume zero_plan TestPlan_UnmarshalJSON r
  else if decide (wp_code r = 404%Z)
  then plain_error "[GET /td/testplans/{id}][404] getTestPlanByIdNotFound "
  else inl (api_error (wp_code r)).
Definition GetTestPlans_ReadResponse (r : wire_response) : goerror + list (option TestPlan) :=
  if decide (wp_code r = 200%Z) then consume_list TestPlan_UnmarshalJSON r
  else if decide (wp_code r = 404%Z)
  then plain_error "[GET /td/testplans][404] getTestPlansNotFound "
  else inl (api_error (wp_code r)).
Definition GetTestRunByID_ReadResponse (r : wire_response) : goerror + TestRun :=
  if decide (wp_code r = 200%Z) then consume zero_run TestRun_UnmarshalJSON r
  else if decide (wp_code r = 404%Z)
  then plain_error "[GET /td/testruns/{id}][404] getTestRunByIdNotFound "
  else inl (api_error (wp_code r)).
Definition GetTestRuns_ReadResponse (r : wire_response) : goerror + list (option TestRun) :=
  if decide (wp_code r = 200%Z) then consume_list TestRun_UnmarshalJSON r
  else if decide (wp_code r = 404%Z)
  then plain_error "[GET /td/testRuns][404] getTestRunsNotFound "
  else inl (api_error (wp_code r)).
Definition PutTestPlanByID_ReadResponse (r : wire_response) : goerror + TestPlan :=
  if decide (wp_code r = 200%Z) then consume zero_plan TestPlan_UnmarshalJSON r
  else if decide (wp_code r = 400%Z)
  then outcome_error "[PUT /td/testplans/{id}][400] putTestPlanByIdBadRequest" r
  else inl (api_error (wp_code r)).
Definition PutTestRunByID_ReadResponse (r : wire_response) : goerror + TestRun :=
  if decide (wp_code r = 200%Z) then consume zero_run TestRun_UnmarshalJSON r
  else if decide (wp_code r = 400%Z)
  then outcome_error "[PUT /td/testruns/{id}][400] putTestRunByIdBadRequest" r
  else if decide (wp_code r = 403%Z)
  then outcome_error "[PUT /td/testruns/{id}][403] putTestRunByIdForbidden" r
  else inl (api_error (wp_code r)).

(** ** Operations (client/test_director/test_director_client.go) *)

(** [runtime.ClientOperation]: the method, the pattern of the path and the parameters of a
    request.  The parameters are those of the New...Params functions, which every caller
    uses: their timeout is the default of the runtime. *)
Record client_operation := mkOperation {
  op_Method : string;
  op_PathPattern : string;
  op_Params : Z → writer;
}.
Definition build (op : client_operation) : goerror + wire_request :=
  op_Params op DefaultTimeout (mkWire (op_Method op) (op_PathPattern op) [] ∅ NoBody 0).

(** The request is written and submitted, and the reader of the operation has the response. *)
Definition Submit {A} (op : client_operation) (reader : wire_response → goerror + A)
    : answer W A := λ w,
  match build op with
  | inl e => (inl e, w)
  | inr q =>
      let '(x, w') := td_submit q w in
      match x with inl e => (inl e, w') | inr resp => (reader resp, w') end
  end.

Definition Client_AddEvent (body : option EventSpec) : answer W Event :=
  Submit (mkOperation "POST" "/td/events" (λ t, AddEvent_WriteToRequest t body))
    AddEvent_ReadResponse.
Definition Client_DeleteTestPlanByID (id : string) : answer W TestPlan :=
  Submit (mkOperation "DELETE" "/td/testplans/{id}" (λ t, DeleteTestPlanByID_WriteToRequest t id))
    DeleteTestPlanByID_ReadResponse.
Definition Client_DeleteTestPlans : answer W RequestOutcome :=
  Submit (mkOperation "DELETE" "/td/testplans" (λ t, DeleteTestPlans_WriteToRequest t))
    DeleteTestPlans_ReadResponse.
Definition Client_DeleteTestRunByID (id : string) : answer W (list (option TestRun)) :=
  Submit (mkOperation "DELETE" "/td/testruns/{id}" (λ t, DeleteTestRunByID_WriteToRequest t id))
    DeleteTestRunByID_ReadResponse.
Definition Client_GetEvents (class source : option string) : answer W (list (option Event)) :=
  Submit (mkOperation "GET" "/td/events" (λ t, GetEvents_WriteToRequest t class source))
    GetEvents_ReadResponse.
Definition Client_GetTestPlanByID (id : string) : answer W TestPlan :=
  Submit (mkOperation "GET" "/td/testplans/{id}" (λ t, GetTestPlanByID_WriteToRequest t id))
    GetTestPlanByID_ReadResponse.
Definition Client_GetTestPlans (defaultPlanOnly : option bool) : answer W (list (option TestPlan)) :=
  Submit (mkOperation "GET" "/td/testplans" (λ t, GetTestPlans_WriteToRequest t defaultPlanOnly))
    GetTestPlans_ReadResponse.
Definition Client_GetTestRunByID (id : string) : answer W TestRun :=
  Submit (mkOperation "GET" "/td/testruns/{id}" (λ t, GetTestRunByID_WriteToRequest t id))
    GetTestRunByID_ReadResponse.
Definition Client_GetTestRuns : answer W (list (option TestRun)) :=
  Submit (mkOperation "GET" "/td/testRuns" (λ t, GetTestRuns_WriteToRequest t))
    GetTestRuns_ReadResponse.
Definition Client_PutTestPlanByID (id : string) (body : option TestPlanSpec) : answer W TestPlan :=
  Submit (mkOperation "PUT" "/td/testplans/{id}" (λ t, PutTestPlanByID_WriteToRequest t id body))
    PutTestPlanByID_ReadResponse.
Definition Client_PutTestRunByID (id : string) (body : option TestRunSpec) : answer W TestRun :=
  Submit (mkOperation "PUT" "/td/testruns/{id}" (λ t, PutTestRunByID_WriteToRequest t id body))
    PutTestRunByID_ReadResponse.

(** The interface of the framework; the director never lists a plan that is nil. *)
#[export] Instance rest_client : TdClient W := {
  td_GetTestPlans := λ w,
    let '(x, w') := Client_GetTestPlans None w in
    (match x with inl e => inl e | inr l => inr (omap id l) end, w');
  td_PutTestRunByID := λ id spec, Client_PutTestRunByID id (Some spec);
  td_GetTestRunByID := Client_GetTestRunByID;
  td_AddEvent := λ spec, Client_AddEvent (Some spec);
}.
End Client.

(** ** The director at the other end *)

(** Both processes see the same time. *)
Definition director_clock {C W : Type} `{Clock W} : Clock (Director C W) := {|
  clock_now := λ s, ((clock_now (td_world s)).1, set_world (clock_now (td_world s)).2 s);
  clock_sleep := λ d s, set_world (clock_sleep d (td_world s)) s;
|}.
