(* ===== verification/RestTheorems.v ===== *)
(** * The REST layer: theorems

    A call of the director's client is the request it stands for, served by the director,
    when the request is valid and the connection holds, and nothing but an error when it is
    not valid; what a call has come to when the connection does not hold; events that the
    framework sends arrive when no error is reported. *)

From stdpp Require Import base gmap strings list pretty.
From Stdlib Require Import Ascii.
From S2P Require Import Prelude GoLib Json Http Models Connectors Cache Director Kube.
From S2P Require Import Total GoTime K8sLib DirectorLib ConductorTheorems CpTheorems.
From S2P Require Import Rest RestClient.

(** ** Bodies survive the wire *)

Section Wire.
Context `{Swag} `{Strfmt}.

Lemma TestPlanSpec_roundtrip s : TestPlanSpec_of_json (TestPlanSpec_json s) = Some s.
Proof.
  unfold TestPlanSpec_of_json, TestPlanSpec_json. decode_struct. by destruct s.
Qed.
Lemma TestRunSpec_roundtrip s : TestRunSpec_of_json (TestRunSpec_json s) = Some s.
Proof.
  unfold TestRunSpec_of_json, TestRunSpec_json. decode_struct. by destruct s.
Qed.
Lemma EventSpec_roundtrip s : EventSpec_of_json (EventSpec_json s) = Some s.
Proof.
  unfold EventSpec_of_json, EventSpec_json. decode_struct. by destruct s.
Qed.

Definition int64_outcome (o : RequestOutcome) : Prop :=
  match ItemsAffected o with Some z => (- 2 ^ 63 ≤ z < 2 ^ 63)%Z | None => True end.
Lemma decode_omit_int name (p : option Z) :
  match p with Some z => (- 2 ^ 63 ≤ z < 2 ^ 63)%Z | None => True end →
  decode_field name (dec_ptr 0%Z dec_int) (omit_ptr name (λ z, JNum (Itoa z)) p) None = Some p.
Proof.
  intros Hp. destruct p as [z|]; [|done]. simpl omit_ptr. rewrite decode_field_hit.
  cbn [dec_ptr dec_int]. by rewrite int_lit_Itoa.
Qed.
Lemma RequestOutcome_roundtrip o :
  int64_outcome o → RequestOutcome_of_json (RequestOutcome_json o) = Some o.
Proof.
  destruct o as [d i r]. unfold int64_outcome, RequestOutcome_of_json, RequestOutcome_json.
  intros Hi. cbn [Details ItemsAffected Result] in *.
  pose proof (decode_omit_int "items_affected" i Hi) as Hd.
  eapply bind_eq; [reflexivity|]. cbv beta. eapply bind_eq; [decode_one|]. cbv beta.
  eapply bind_eq; [|eapply bind_eq; [decode_one|done]].
  rewrite decode_field_app, decode_field_skip by skip_keys. cbn [mbind option_bind].
  rewrite decode_field_app, Hd. cbn [mbind option_bind]. by rewrite decode_field_skip by skip_keys.
Qed.

(** Lists of pointers, none of which is nil. *)
Lemma decode_items_roundtrip {A} (enc : A → json) (dec : json → option A) (norm : A → A) l :
  (∀ a, enc a ≠ JNull) → (∀ a, dec (enc a) = Some (norm a)) →
  dec_list (λ x, match x with JNull => Some None | _ => Some <$> dec x end)
    (JArr (map enc l)) [] = Some (map (λ a, Some (norm a)) l).
Proof.
  intros Hn Hd. cbn [dec_list]. induction l as [|a l IH]; [done|]. simpl.
  rewrite IH. specialize (Hn a). specialize (Hd a). by destruct (enc a); rewrite ?Hd.
Qed.
Lemma TestPlan_not_null p : TestPlan_MarshalJSON p ≠ JNull.
Proof. unfold TestPlan_MarshalJSON, TestPlanSpec_json. by rewrite ConcatJSON_objects. Qed.
Lemma TestRun_not_null r : TestRun_MarshalJSON r ≠ JNull.
Proof. unfold TestRun_MarshalJSON, TestRunSpec_json. by rewrite ConcatJSON_objects. Qed.
Lemma Event_not_null e : Event_MarshalJSON e ≠ JNull.
Proof. unfold Event_MarshalJSON, EventSpec_json. by rewrite ConcatJSON_objects. Qed.
End Wire.

(** ** What the handlers answer *)

(** The responses of an operation; a count fits 64 bits. *)
Definition own_answer (q : dir_request) (a : Responder) : Prop :=
  match q, a with
  | RqGetTestPlans, (GetTestPlansOK _ | GetTestPlansNotFound)
  | RqGetTestPlan _, (GetTestPlanByIDOK _ | GetTestPlanByIDNotFound)
  | RqDeleteTestPlan _, (DeleteTestPlanByIDOK | DeleteTestPlanByIDNotFound)
  | RqPutTestPlan _ _, (PutTestPlanByIDOK _ | PutTestPlanByIDBadRequest _)
  | RqGetTestRuns, (GetTestRunsOK _ | GetTestRunsNotFound)
  | RqGetTestRun _, (GetTestRunByIDOK _ | GetTestRunByIDNotFound)
  | RqDeleteTestRun _, (DeleteTestRunByIDOK | DeleteTestRunByIDNotFound)
  | RqPutTestRun _ _, (PutTestRunByIDOK _ | PutTestRunByIDBadRequest _)
  | RqGetEvents, (GetEventsOK _ | GetEventsNotFound)
  | RqAddEvent _, (AddEventOK _ | PutTestPlanByIDBadRequest _) => True
  | RqDeleteTestPlans, DeleteTestPlansOK o => int64_outcome o
  | _, _ => False
  end.

Section Answers.
Context {C W : Type} `{GoCache C} `{MapRange W} `{Http W} `{Clock W} `{Uuid W}
        `{Getenv} `{Gjson} `{TimeText} `{Swag} `{Strfmt}.
Notation M := (prog (Director C W)).

Lemma results_bad_plan err (P : Responder → Prop) :
  (∀ o, P (PutTestPlanByIDBadRequest o)) → results P (testPlanBadRequest (C:=C) (W:=W) err).
Proof. intros HP. unfold testPlanBadRequest. solve_results. Qed.
Lemma results_bad_run err (P : Responder → Prop) :
  (∀ o, P (PutTestRunByIDBadRequest o)) → results P (badRequestResponse (C:=C) (W:=W) err).
Proof. intros HP. unfold badRequestResponse. solve_results. Qed.
Hint Resolve results_bad_plan results_bad_run : results.

Lemma results_delete_all (P : Responder → Prop) :
  (∀ o, int64_outcome o → P (DeleteTestPlansOK o)) →
  results P (deleteTestPlans_Handle (C:=C) (W:=W)).
Proof.
  intros HP. unfold deleteTestPlans_Handle, TestPlanCache_DeleteAll.
  eapply (results_bind int64_outcome); [|intros; apply results_mret; auto].
  apply results_then. intros items.
  set (I n := (- 2 ^ 63 ≤ n < 2 ^ 63)%Z).
  eapply (results_bind (λ r, match r with inl n => I n | inr _ => True end)).
  - apply (results_for_range I I (λ _, True)); [done| |done].
    intros x n Hn. apply results_then. intros [].
    + by apply results_mret.
    + apply results_then. intros _. apply results_mret. apply wrap64_range.
  - intros [n|[]] Hn. simpl. exact Hn.
Qed.
Hint Resolve results_delete_all : results.

(** A handler answers with a response of its operation. *)
Lemma serve_answers (q : dir_request) : results (own_answer q) (serve (C:=C) (W:=W) q).
Proof.
  destruct q; cbn [serve];
    try (apply results_delete_all; done);
    unfold getTestPlans_Handle, getTestPlan_Handle, deleteTestPlan_Handle, putTestPlan_Handle,
      put_plan_tail, getTestRuns_Handle, getTestRun_Handle, deleteTestRun_Handle,
      putTestRun_Handle, put_existing_run, put_run_executing, put_run_finished, put_new_run,
      put_run_tail, getEvents_Handle, postEvent_Handle;
    solve_results; (apply results_bad_plan || apply results_bad_run); intros; exact I.
Qed.
End Answers.

(** ** Ids *)

(** A Jira key: two or three capitals, a dash and one to four digits. *)
Definition jira_key (s : string) : Prop :=
  ∃ p d, s = p +:+ String "-" d ∧
    forallb is_capital (String.list_ascii_of_string p) = true ∧
    forallb is_digit (String.list_ascii_of_string d) = true ∧
    (2 ≤ String.length p ≤ 3)%nat ∧ (1 ≤ String.length d ≤ 4)%nat.

Lemma Split_one s sep w : Split s sep = [w] ↔ s = w ∧ lacks sep s.
Proof.
  revert w. induction s as [|c s IH]; intros w; simpl; [naive_solver|].
  pose proof (Split_nonempty s sep). case_decide as Hc.
  - destruct (Split s sep); naive_solver.
  - destruct (Split s sep) as [|v vs]; [done|]. split.
    + intros ?; simplify_eq. destruct (proj1 (IH v) eq_refl) as [-> ?]. done.
    + intros (<- & _ & Hl). pose proof (proj2 (IH s) (conj eq_refl Hl)). by simplify_eq.
Qed.
Lemma Split_two s sep p d :
  Split s sep = [p; d] ↔ s = p +:+ String sep d ∧ lacks sep p ∧ lacks sep d.
Proof.
  revert p. induction s as [|c s IH]; intros p; simpl.
  { split; [done|]. by intros (E & _); destruct p. }
  pose proof (Split_nonempty s sep). case_decide as Hc.
  - subst c. split.
    + intros E. injection E as <- E. apply Split_one in E as [-> Hl]. by split_and!.
    + intros (E & Hp & Hd). destruct p as [|x p]; [|injection E; simpl in Hp; naive_solver].
      injection E as ->. f_equal. by apply Split_one.
  - destruct (Split s sep) as [|v vs] eqn:Es; [done|]. split.
    + intros E. simplify_eq. destruct (proj1 (IH v) eq_refl) as (-> & ? & ?). by split_and!.
    + intros (E & Hp & Hd). destruct p as [|x p]; [by injection E; intros; subst|].
      change (String x p +:+ String sep d) with (String x (p +:+ String sep d)) in E.
      injection E as -> ->. simpl in Hp. destruct Hp as [_ Hp].
      pose proof (proj2 (IH p) (conj eq_refl (conj Hp Hd))). by simplify_eq.
Qed.

Lemma forallb_lacks (f : ascii → bool) c s :
  f c = false → forallb f (String.list_ascii_of_string s) = true → lacks c s.
Proof.
  intros Hc. induction s as [|x s IH]; simpl; [done|].
  intros [Hx Hs]%andb_true_iff. split; [by intros ->; congruence|auto].
Qed.

(** The recogniser of the validation is that of the pattern. *)
Lemma JiraKey_Validate_iff s : JiraKey_Validate s = true ↔ jira_key s.
Proof.
  unfold JiraKey_Validate, jira_key. split.
  - destruct (Split s "-") as [|p [|d [|? ?]]] eqn:Es; try done.
    apply Split_two in Es as (-> & _ & _).
    rewrite !andb_true_iff, !bool_decide_eq_true. intros [[[? ?] ?] ?]. by exists p, d.
  - intros (p & d & -> & Hp & Hd & Hl & Hl').
    rewrite (proj2 (Split_two _ _ p d)).
    + rewrite Hp, Hd. simpl. by rewrite !bool_decide_eq_true_2.
    + split_and!; [done|by apply (forallb_lacks is_capital)|by apply (forallb_lacks is_digit)].
Qed.

Lemma length_string_app a b : String.length (a +:+ b) = (String.length a + String.length b)%nat.
Proof.
  induction a as [|c a IH]; [done|].
  change (String.length (String c a +:+ b)) with (S (String.length (a +:+ b))). by rewrite IH.
Qed.
(** A key is short: no UUID is one. *)
Lemma jira_key_length s : JiraKey_Validate s = true → (String.length s ≤ 8)%nat.
Proof.
  intros (p & d & -> & _ & _ & ? & ?)%JiraKey_Validate_iff.
  rewrite length_string_app. simpl. lia.
Qed.

(** ** A call is a request *)

(** The payload of a successful response, as a client reads it. *)
Inductive td_payload : Type :=
| PPlans (l : list (option TestPlan))
| PPlan (p : TestPlan)
| PRuns (l : list (option TestRun))
| PRun (r : TestRun)
| PEvents (l : list (option Event))
| PEvent (e : Event)
| POutcome (o : RequestOutcome).

Definition lift_payload {A} (f : A → td_payload) (x : goerror + A) : goerror + td_payload :=
  match x with inl e => inl e | inr a => inr (f a) end.
Definition lift_answer {W A} (f : A → td_payload) (c : answer W A) : answer W td_payload :=
  λ w, (lift_payload f (c w).1, (c w).2).

Section Calls.
Context {W : Type} `{Swag} `{Strfmt} `{ClientTexts} `{ClientRequest} `{Transport W}.

(** The client's operation for a request. *)
Definition td_operation (q : dir_request) : answer W td_payload :=
  match q with
  | RqGetTestPlans => lift_answer PPlans (Client_GetTestPlans None)
  | RqGetTestPlan id => lift_answer PPlan (Client_GetTestPlanByID id)
  | RqDeleteTestPlan id => lift_answer PPlan (Client_DeleteTestPlanByID id)
  | RqDeleteTestPlans => lift_answer POutcome Client_DeleteTestPlans
  | RqPutTestPlan id body => lift_answer PPlan (Client_PutTestPlanByID id body)
  | RqGetTestRuns => lift_answer PRuns Client_GetTestRuns
  | RqGetTestRun id => lift_answer PRun (Client_GetTestRunByID id)
  | RqDeleteTestRun id => lift_answer PRuns (Client_DeleteTestRunByID id)
  | RqPutTestRun id body => lift_answer PRun (Client_PutTestRunByID id body)
  | RqGetEvents => lift_answer PEvents (Client_GetEvents None None)
  | RqAddEvent body => lift_answer PEvent (Client_AddEvent body)
  end.
End Calls.

(** What a handler's response tells the client: the payload of success, with the times as
    the encoding keeps them, or that there was none. *)
Definition told `{Strfmt} (a : Responder) : option td_payload :=
  match a with
  | GetTestPlansOK l => Some (PPlans (map Some l))
  | GetTestPlanByIDOK p | PutTestPlanByIDOK p => Some (PPlan p)
  | DeleteTestPlanByIDOK => Some (PPlan zero_plan)
  | DeleteTestPlansOK o => Some (POutcome o)
  | GetTestRunsOK l => Some (PRuns (map (λ r, Some (norm_run r)) l))
  | GetTestRunByIDOK r | PutTestRunByIDOK r => Some (PRun (norm_run r))
  | DeleteTestRunByIDOK => Some (PRuns [])
  | GetEventsOK l => Some (PEvents (map (λ e, Some (norm_event e)) l))
  | AddEventOK e => Some (PEvent (norm_event e))
  | _ => None
  end.
Definition success {A} (x : goerror + A) : option A :=
  match x with inl _ => None | inr a => Some a end.

(** The requests that are let through. *)
Definition valid_body {A} (valid : A → list string) (b : option A) : bool :=
  match b with Some a => bool_decide (valid a = []) | None => false end.
Definition accepted (q : dir_request) : bool :=
  match q with
  | RqGetTestPlan id | RqDeleteTestPlan id | RqDeleteTestRun id => JiraKey_Validate id
  | RqPutTestPlan id body => JiraKey_Validate id && valid_body TestPlanSpec_Validate body
  | RqPutTestRun _ body => valid_body TestRunSpec_Validate body
  | RqAddEvent body => valid_body EventSpec_Validate body
  | _ => true
  end.
(** The ids that a path can carry as they are. *)
Definition routable (q : dir_request) : Prop :=
  match q with
  | RqGetTestPlan id | RqDeleteTestPlan id | RqPutTestPlan id _ | RqGetTestRun id
  | RqDeleteTestRun id | RqPutTestRun id _ => plain_id id = true
  | _ => True
  end.

(** The body that is sent with the parameters, and what making a request comes to. *)
Definition sent_body {A} (enc : A → json) (body : option A) : wire_body :=
  match body with Some b => JsonText (enc b) | None => NoBody end.
Ltac solve_build :=
  cbv [build op_Params op_Method op_PathPattern andthen call skip]; cbn;
  repeat match goal with |- context [setter_error ?c] => destruct (setter_error c); cbn end;
  eauto.

Section Refinement.
Context {C W : Type} `{GoCache C} `{MapRange W} `{Http W} `{Clock W} `{Uuid W}
        `{Getenv} `{Gjson} `{TimeText} `{Swag} `{Strfmt} `{OpenApi} `{ClientTexts}
        `{ClientRequest} `{!Transport (Director C W)}
        `{!Connection (Director C W) api_serve}.
Notation St := (Director C W).

(** The operation of the client for a request, and the request it puts on the wire. *)
Definition client_op (q : dir_request) : client_operation :=
  match q with
  | RqGetTestPlans => mkOperation "GET" "/td/testplans" (λ t, GetTestPlans_WriteToRequest t None)
  | RqGetTestPlan id =>
      mkOperation "GET" "/td/testplans/{id}" (λ t, GetTestPlanByID_WriteToRequest t id)
  | RqDeleteTestPlan id =>
      mkOperation "DELETE" "/td/testplans/{id}" (λ t, DeleteTestPlanByID_WriteToRequest t id)
  | RqDeleteTestPlans =>
      mkOperation "DELETE" "/td/testplans" (λ t, DeleteTestPlans_WriteToRequest t)
  | RqPutTestPlan id body =>
      mkOperation "PUT" "/td/testplans/{id}" (λ t, PutTestPlanByID_WriteToRequest t id body)
  | RqGetTestRuns => mkOperation "GET" "/td/testRuns" (λ t, GetTestRuns_WriteToRequest t)
  | RqGetTestRun id =>
      mkOperation "GET" "/td/testruns/{id}" (λ t, GetTestRunByID_WriteToRequest t id)
  | RqDeleteTestRun id =>
      mkOperation "DELETE" "/td/testruns/{id}" (λ t, DeleteTestRunByID_WriteToRequest t id)
  | RqPutTestRun id body =>
      mkOperation "PUT" "/td/testruns/{id}" (λ t, PutTestRunByID_WriteToRequest t id body)
  | RqGetEvents => mkOperation "GET" "/td/events" (λ t, GetEvents_WriteToRequest t None None)
  | RqAddEvent body => mkOperation "POST" "/td/events" (λ t, AddEvent_WriteToRequest t body)
  end.
Definition client_request (q : dir_request) : wire_request :=
  let id_only method pattern id :=
    mkWire method pattern [("id", id)] ∅ NoBody DefaultTimeout in
  let plain method pattern := mkWire method pattern [] ∅ NoBody DefaultTimeout in
  match q with
  | RqGetTestPlans => plain "GET" "/td/testplans"
  | RqGetTestPlan id => id_only "GET" "/td/testplans/{id}" id
  | RqDeleteTestPlan id => id_only "DELETE" "/td/testplans/{id}" id
  | RqDeleteTestPlans => plain "DELETE" "/td/testplans"
  | RqPutTestPlan id body =>
      mkWire "PUT" "/td/testplans/{id}" [("id", id)] ∅ (sent_body TestPlanSpec_json body)
        DefaultTimeout
  | RqGetTestRuns => plain "GET" "/td/testRuns"
  | RqGetTestRun id => id_only "GET" "/td/testruns/{id}" id
  | RqDeleteTestRun id => id_only "DELETE" "/td/testruns/{id}" id
  | RqPutTestRun id body =>
      mkWire "PUT" "/td/testruns/{id}" [("id", id)] ∅ (sent_body TestRunSpec_json body)
        DefaultTimeout
  | RqGetEvents => plain "GET" "/td/events"
  | RqAddEvent body =>
      mkWire "POST" "/td/events" [] ∅ (sent_body EventSpec_json body) DefaultTimeout
  end.
(** What is put on the wire is this, unless a parameter cannot be set. *)
Lemma build_client q :
  build (client_op q) = inr (client_request q) ∨ ∃ e, build (client_op q) = inl e.
Proof.
  destruct q as [|?|?| |? [body|]| |?|?|? [body|]| |[body|]]; cbv [client_op];
    unfold GetTestPlans_WriteToRequest, GetTestPlanByID_WriteToRequest,
      DeleteTestPlanByID_WriteToRequest, DeleteTestPlans_WriteToRequest,
      PutTestPlanByID_WriteToRequest, GetTestRuns_WriteToRequest,
      GetTestRunByID_WriteToRequest, DeleteTestRunByID_WriteToRequest,
      PutTestRunByID_WriteToRequest, GetEvents_WriteToRequest, AddEvent_WriteToRequest,
      body_param, query_param; solve_build.
Qed.

Definition client_reader (q : dir_request) (r : wire_response) : goerror + td_payload :=
  match q with
  | RqGetTestPlans => lift_payload PPlans (GetTestPlans_ReadResponse r)
  | RqGetTestPlan _ => lift_payload PPlan (GetTestPlanByID_ReadResponse r)
  | RqDeleteTestPlan _ => lift_payload PPlan (DeleteTestPlanByID_ReadResponse r)
  | RqDeleteTestPlans => lift_payload POutcome (DeleteTestPlans_ReadResponse r)
  | RqPutTestPlan _ _ => lift_payload PPlan (PutTestPlanByID_ReadResponse r)
  | RqGetTestRuns => lift_payload PRuns (GetTestRuns_ReadResponse r)
  | RqGetTestRun _ => lift_payload PRun (GetTestRunByID_ReadResponse r)
  | RqDeleteTestRun _ => lift_payload PRuns (DeleteTestRunByID_ReadResponse r)
  | RqPutTestRun _ _ => lift_payload PRun (PutTestRunByID_ReadResponse r)
  | RqGetEvents => lift_payload PEvents (GetEvents_ReadResponse r)
  | RqAddEvent _ => lift_payload PEvent (AddEvent_ReadResponse r)
  end.

Lemma lift_submit {A} (f : A → td_payload) op reader (s : St) :
  lift_answer f (Submit op reader) s =
  match build op with
  | inl e => (inl e, s)
  | inr q =>
      match td_submit q s with
      | (inl e, s') => (inl e, s')
      | (inr resp, s') => (lift_payload f (reader resp), s')
      end
  end.
Proof.
  unfold lift_answer, Submit. destruct (build op) as [e|q]; [done|].
  by destruct (td_submit q s) as [[] ?].
Qed.
Lemma td_operation_submit q (s : St) :
  td_operation q s =
  match build (client_op q) with
  | inl e => (inl e, s)
  | inr w =>
      match td_submit w s with
      | (inl e, s') => (inl e, s')
      | (inr resp, s') => (client_reader q resp, s')
      end
  end.
Proof. destruct q; apply lift_submit. Qed.

(** The route of a request leads to its operation. *)
Definition operation (q : dir_request) : Operation :=
  match q with
  | RqGetTestPlans => OpGetTestPlans
  | RqGetTestPlan _ => OpGetTestPlanByID
  | RqDeleteTestPlan _ => OpDeleteTestPlanByID
  | RqDeleteTestPlans => OpDeleteTestPlans
  | RqPutTestPlan _ _ => OpPutTestPlanByID
  | RqGetTestRuns => OpGetTestRuns
  | RqGetTestRun _ => OpGetTestRunByID
  | RqDeleteTestRun _ => OpDeleteTestRunByID
  | RqPutTestRun _ _ => OpPutTestRunByID
  | RqGetEvents => OpGetEvents
  | RqAddEvent _ => OpAddEvent
  end.
Lemma HandlerFor_client q :
  HandlerFor (wr_method (client_request q)) (wr_pattern (client_request q)) =
  Some (operation q).
Proof. by destruct q. Qed.
Definition path_params (q : dir_request) : route_params :=
  match q with
  | RqGetTestPlan id | RqDeleteTestPlan id | RqPutTestPlan id _ | RqGetTestRun id
  | RqDeleteTestRun id | RqPutTestRun id _ => {[ "id" := [id] ]}
  | _ => ∅
  end.
Lemma path_client q :
  routable q → match_params (wr_params (client_request q)) = Some (path_params q).
Proof. destruct q; simpl; intros; unfold match_params; simpl; rewrite ?path_values_plain; done. Qed.

(** A body that was written is read again, and is bound when it is valid. *)
Lemma bind_body_param {A} (enc : A → json) dec (valid : A → list string) body :
  (∀ a, dec (enc a) = Some a) →
  if valid_body valid body
  then bind_body dec valid (sent_body enc body) = (body, [])
  else ∃ e es, bind_body dec valid (sent_body enc body) = (None, e :: es).
Proof.
  intros Hdec. unfold valid_body, bind_body, sent_body. destruct body as [b|]; [|eauto].
  rewrite Hdec. destruct (valid b) eqn:E; simpl; eauto.
Qed.
Lemma one_value (name id : string) : raw_value (param_values name {[ name := [id] ]}) = id.
Proof. unfold param_values. by rewrite lookup_singleton_eq. Qed.
Lemma bind_client q :
  if accepted q
  then BindValidRequest (operation q) (client_request q) (path_params q) = inr q
  else ∃ es, BindValidRequest (operation q) (client_request q) (path_params q) = inl es.
Proof.
  destruct q as [|id|id| |id body| |id|id|id body| |body];
    cbn [accepted operation BindValidRequest path_params client_request]; try done.
  - unfold GetTestPlanByIDParams_BindRequest, bind_jira_id.
    rewrite one_value.
    destruct (JiraKey_Validate id); simpl; eauto.
  - unfold DeleteTestPlanByIDParams_BindRequest, bind_jira_id.
    rewrite one_value.
    destruct (JiraKey_Validate id); simpl; eauto.
  - unfold PutTestPlanByIDParams_BindRequest, bind_jira_id.
    rewrite one_value.
    pose proof (bind_body_param TestPlanSpec_json _ TestPlanSpec_Validate body
      TestPlanSpec_roundtrip) as Hb. cbn [wr_body].
    destruct (valid_body TestPlanSpec_Validate body).
    + rewrite Hb. simpl. destruct (JiraKey_Validate id); simpl; eauto.
    + destruct Hb as (e & es & ->). rewrite andb_false_r. simpl. eauto.
  - unfold DeleteTestRunByIDParams_BindRequest, bind_jira_id.
    rewrite one_value.
    destruct (JiraKey_Validate id); simpl; eauto.
  - unfold PutTestRunByIDParams_BindRequest, bind_any_id.
    rewrite one_value.
    pose proof (bind_body_param TestRunSpec_json _ TestRunSpec_Validate body
      TestRunSpec_roundtrip) as Hb. cbn [wr_body].
    destruct (valid_body TestRunSpec_Validate body).
    + by rewrite Hb.
    + destruct Hb as (e & es & ->). simpl. eauto.
  - unfold AddEventParams_BindRequest.
    pose proof (bind_body_param EventSpec_json _ EventSpec_Validate body
      EventSpec_roundtrip) as Hb. cbn [wr_body].
    destruct (valid_body EventSpec_Validate body).
    + by rewrite Hb.
    + destruct Hb as (e & es & ->). simpl. eauto.
Qed.

Lemma api_serve_client q :
  routable q →
  if accepted q then
    api_serve (C:=C) (W:=W) (client_request q) = a ← serve q; mret (WriteResponse a)
  else ∃ es, api_serve (C:=C) (W:=W) (client_request q) = mret (serve_error es).
Proof.
  intros Hr. unfold api_serve. rewrite HandlerFor_client, path_client by done.
  pose proof (bind_client q) as Hb. unfold ServeHTTP.
  destruct (accepted q); [by rewrite Hb|]. destruct Hb as [es ->]. eauto.
Qed.

(** The client reads back what the handler answered. *)
Lemma outcome_error_fails {A} text r : success (outcome_error (A:=A) text r) = None.
Proof. unfold outcome_error. by destruct (consume _ _ r). Qed.
Lemma success_lift {A} (f : A → td_payload) x : success (lift_payload f x) = f <$> success x.
Proof. by destruct x. Qed.

Ltac unfold_readers :=
  unfold client_reader, GetTestPlans_ReadResponse, GetTestPlanByID_ReadResponse,
    DeleteTestPlanByID_ReadResponse, DeleteTestPlans_ReadResponse,
    PutTestPlanByID_ReadResponse, GetTestRuns_ReadResponse, GetTestRunByID_ReadResponse,
    DeleteTestRunByID_ReadResponse, PutTestRunByID_ReadResponse, GetEvents_ReadResponse,
    AddEvent_ReadResponse.

Ltac unfold_writers :=
  unfold WriteResponse,
    GetTestPlansOK_WriteResponse, GetTestPlansNotFound_WriteResponse,
    GetTestPlanByIDOK_WriteResponse, GetTestPlanByIDNotFound_WriteResponse,
    DeleteTestPlanByIDOK_WriteResponse, DeleteTestPlanByIDNotFound_WriteResponse,
    DeleteTestPlansOK_WriteResponse, PutTestPlanByIDOK_WriteResponse,
    PutTestPlanByIDBadRequest_WriteResponse, GetTestRunsOK_WriteResponse,
    GetTestRunsNotFound_WriteResponse, GetTestRunByIDOK_WriteResponse,
    GetTestRunByIDNotFound_WriteResponse, DeleteTestRunByIDOK_WriteResponse,
    DeleteTestRunByIDNotFound_WriteResponse, PutTestRunByIDOK_WriteResponse,
    PutTestRunByIDBadRequest_WriteResponse, GetEventsOK_WriteResponse,
    GetEventsNotFound_WriteResponse, AddEventOK_WriteResponse.

Lemma client_refused q r : wp_code r ≠ 200%Z → success (client_reader q r) = None.
Proof.
  intros Hr. unfold_readers.
  destruct q; rewrite success_lift, decide_False by done; repeat case_decide;
    by rewrite ?outcome_error_fails.
Qed.
Lemma client_reads q a :
  own_answer q a → success (client_reader q (WriteResponse a)) = told a.
Proof.
  intros Ha.
  destruct q, a; try done; unfold_writers; cbn [told];
    try (apply client_refused; done);
    unfold_readers; rewrite success_lift, decide_True by done;
    unfold consume, consume_list; cbn [wp_body].
  - rewrite (decode_items_roundtrip _ _ id); [done|apply TestPlan_not_null|].
    apply TestPlan_roundtrip.
  - by rewrite TestPlan_roundtrip.
  - by rewrite RequestOutcome_roundtrip.
  - by rewrite TestPlan_roundtrip.
  - by rewrite (decode_items_roundtrip _ _ norm_run);
      [|apply TestRun_not_null|apply TestRun_roundtrip].
  - by rewrite TestRun_roundtrip.
  - by rewrite TestRun_roundtrip.
  - by rewrite (decode_items_roundtrip _ _ norm_event);
      [|apply Event_not_null|apply Event_roundtrip].
  - by rewrite Event_roundtrip.
Qed.

(** What a call comes to: the director has not served it; it has, and the client reads its
    answer; or it has, and the client has no answer, because the connection failed. *)
Inductive call_result (q : dir_request) (s : St) : (goerror + td_payload) * St → Prop :=
| call_unserved e : call_result q s (inl e, s)
| call_answered a x s' :
    accepted q = true → run (serve q) s = (Ret a, s') → own_answer q a →
    success x = told a → call_result q s (x, s')
| call_unanswered e o s' :
    accepted q = true → run (serve q) s = (o, s') → fails (client_request q) s →
    call_result q s (inl e, s').
(** The call can be written, and the connection holds for it. *)
Definition carried (q : dir_request) (s : St) : Prop :=
  build (client_op q) = inr (client_request q) ∧ holds api_serve (client_request q) s.

(** The execution of a valid request by the server is that of the handler. *)
Lemma serve_wire q (s s' : St) o :
  routable q → accepted q = true → run (api_serve (client_request q)) s = (o, s') →
  ∃ o', run (serve q) s = (o', s') ∧ ∀ resp, o = Ret resp →
    ∃ a, o' = Ret a ∧ own_answer q a ∧ resp = WriteResponse a.
Proof.
  intros Hr Ha E. pose proof (api_serve_client q Hr) as Hs. rewrite Ha in Hs.
  rewrite Hs, run_bind in E. destruct (run (serve q) s) as [[a| | |] s1] eqn:Es; cbn in E.
  - injection E as <- <-. eexists. split; [done|]. intros resp [= <-]. exists a.
    split_and!; [done| |done]. by eapply results_run; [apply serve_answers|].
  - injection E as <- <-. by eexists.
  - injection E as <- <-. by eexists.
  - injection E as <- <-. by eexists.
Qed.
Lemma refused_wire q (s s' : St) o :
  routable q → accepted q = false → run (api_serve (client_request q)) s = (o, s') →
  s' = s ∧ ∃ es, o = Ret (serve_error es).
Proof.
  intros Hr Ha E. pose proof (api_serve_client q Hr) as Hs. rewrite Ha in Hs.
  destruct Hs as [es Hs]. rewrite Hs in E. injection E as <- <-. eauto.
Qed.
Lemma refused_error q es : ∃ e, client_reader q (serve_error es) = inl e.
Proof.
  pose proof (client_refused q (serve_error es) (serve_error_code es)) as Hc.
  destruct (client_reader q (serve_error es)) as [e|]; [by exists e|done].
Qed.

Lemma rejected_unserved q (s : St) :
  routable q → accepted q = false → ∃ e, td_operation q s = (inl e, s).
Proof.
  intros Hr Ha. rewrite td_operation_submit.
  destruct (build_client q) as [-> | [e ->]]; [|by exists e].
  destruct (connection_exchange (client_request q) s) as [e|resp s' E|e o s' E]; [by exists e|..];
    destruct (refused_wire q s s' _ Hr Ha E) as (-> & es & Eo); [|by exists e].
  injection Eo as ->. destruct (refused_error q es) as [e ->]. by exists e.
Qed.
Lemma call_served q (s : St) : routable q → call_result q s (td_operation q s).
Proof.
  intros Hr. destruct (accepted q) eqn:Ha.
  2: { destruct (rejected_unserved q s Hr Ha) as [e ->]. constructor. }
  rewrite td_operation_submit.
  destruct (build_client q) as [-> | [e ->]]; [|constructor].
  pose proof (connection_exchange (client_request q) s) as Hx.
  destruct (td_submit (client_request q) s) as [x s1] eqn:Et.
  inversion Hx as [e|resp s' E|e o s' E]; subst; [constructor|..];
    destruct (serve_wire q s s1 _ Hr Ha E) as (o' & Es & Ho).
  - destruct (Ho resp eq_refl) as (a & -> & Hown & ->).
    eapply call_answered; [done..|]. by apply client_reads.
  - eapply call_unanswered; [done..|]. exists e. by rewrite Et.
Qed.
Lemma accepted_served q (s : St) :
  routable q → accepted q = true → carried q s →
  match run (serve q) s with
  | (Ret a, s') => own_answer q a ∧ td_operation q s = (client_reader q (WriteResponse a), s')
  | (_, s') => ∃ e, td_operation q s = (inl e, s')
  end.
Proof.
  intros Hr Ha [Hb Hh]. rewrite td_operation_submit, Hb. unfold holds in Hh.
  pose proof (api_serve_client q Hr) as Hs. rewrite Ha in Hs. rewrite Hs, run_bind in Hh.
  destruct (run (serve q) s) as [[a| | |] s'] eqn:E; cbn in Hh.
  - rewrite Hh. split; [|done]. by eapply results_run; [apply serve_answers|].
  - destruct Hh as [e ->]. eauto.
  - destruct Hh as [e ->]. eauto.
  - destruct Hh as [e ->]. eauto.
Qed.


(** ** Runs cannot be deleted *)

Lemma get_run_serves (s : St) id r :
  cache_Get id (runClient s) ≫= TestRun_UnmarshalJSON = Some r →
  run (serve (RqGetTestRun id)) s = (Ret (GetTestRunByIDOK r), s).
Proof. intros Hr. cbn [serve]. unfold getTestRun_Handle, TestRunCache_Get. go_simpl. by rewrite Hr. Qed.

(** (C37) A test run whose id is longer than eight characters, as every UUID is, can be
    stored, and read over a connection that holds, but not deleted by a client: the director
    checks the id of the run to delete against the pattern of Jira keys, so that every such
    request is an error that changes nothing, while the run is there. *)
Theorem stored_run_undeletable (s : St) id r :
  plain_id id = true → (8 < String.length id)%nat →
  cache_Get id (runClient s) ≫= TestRun_UnmarshalJSON = Some r →
  (carried (RqGetTestRun id) s →
     td_operation (RqGetTestRun id) s = (inr (PRun (norm_run r)), s)) ∧
  ∃ e, td_operation (RqDeleteTestRun id) s = (inl e, s).
Proof.
  intros Hid Hlen Hr. split.
  - intros Hc. pose proof (accepted_served (RqGetTestRun id) s Hid eq_refl Hc) as Hs.
    rewrite (get_run_serves s id r Hr) in Hs. destruct Hs as [Ho ->].
    pose proof (client_reads _ _ Ho) as Hw. cbn [told] in Hw.
    by destruct (client_reader _ _); simplify_eq/=.
  - apply rejected_unserved; [done|]. cbn [accepted].
    destruct (JiraKey_Validate id) eqn:E; [|done]. apply jira_key_length in E. lia.
Qed.

(** ** Events arrive *)

(** The event that [SendEvent] makes at time [t]. *)
Definition sent_spec `{LocalTime} (t : Z) (source message class src : string) : EventSpec :=
  mkEventSpec (Some class) (Some [""])
    (Some (removespecial (format_time t +:+ ": " +:+ message))) "" (Some src) (Some source).

Context `{!GoCacheLaws C}.

Lemma triple_any {A} (p : prog St A) : triple (λ _, True) p (λ _ _, True) (λ _, True).
Proof. intros s _. by destruct (run p s) as [[] ?]. Qed.

(** The cache holds an event under a key. *)
Definition stored (key : string) (ev : Event) (s : St) : Prop :=
  cache_Get key (eventClient s) = Some (Event_MarshalJSON ev).
#[local] Instance stored_world_free key ev : WorldFree (stored key ev).
Proof. intros s w Hs. exact Hs. Qed.

Lemma triple_EventCache_stored key ev :
  triple (λ _ : St, True) (EventCache_Set key ev)
    (λ err s, err = None → stored key ev s) (λ _, True).
Proof.
  unfold EventCache_Set. cbn zeta.
  do 4 (eapply triple_bind; [apply triple_any|]; intros ?).
  destruct a2 as [e|]; [by apply triple_ret|].
  eapply (triple_bind _ _ _ (λ _, stored key ev)).
  { intros s _. unfold stored. simpl. by rewrite Get_Items, Items_Set, lookup_insert_eq. }
  intros _. eapply (triple_weaken (stored key ev) _ _ (λ _, stored key ev) _ (λ _, True));
    [|done| |done].
  - apply (triple_keeps_weaken (stored key ev)); [|done].
    unfold sendSlackNotification. solve_keeps.
  - intros a3 s Ha _. exact Ha.
Qed.

(** The event is in the cache when the handler reports it. *)
Lemma triple_postEvent spec :
  triple (λ _ : St, True) (postEvent_Handle (Some spec))
    (λ a s, ∀ ev, a = AddEventOK ev → EvSpec ev = spec ∧ stored (EvID ev) ev s)
    (λ _, True).
Proof.
  unfold postEvent_Handle.
  do 2 (eapply triple_bind; [apply triple_any|]; intros ?).
  eapply (triple_bind _ _ _ (λ sp _, sp = spec)); [by intros s _|]. intros sp. cbn zeta.
  eapply (triple_bind _ _ _ (λ err s, sp = spec ∧ (err = None → stored a (mkEvent a a0 sp) s))).
  { intros s Hs. pose proof (triple_EventCache_stored a (mkEvent a a0 sp) s I) as Ht.
    by destruct (run _ s) as [[] ?]. }
  intros [e|].
  - by apply triple_ret.
  - apply triple_ret. intros s [-> Hs] ev Hev. simplify_eq. split; [done|by apply Hs].
Qed.

(** Reporting to Slack comes back whatever Slack does. *)
Lemma returns_SendJobNotification sc job : returns (SendJobNotification (S:=St) sc job).
Proof.
  unfold SendJobNotification, sendHttpRequest, client_Do. intros s. unfold time_Now.
  rewrite run_bind, run_outside. cbn [seq_run]. cbv zeta.
  destruct (http_NewRequest _ _) as [e|]; [eexists _, _; reflexivity|].
  rewrite !run_bind, run_outside. cbn [seq_run].
  destruct (http_Do _ _) as [[e|resp] w]; cbn; [eexists _, _; reflexivity|].
  unfold ReadAll. destruct (rs_body resp) as [[e b]|b]; cbn; [eexists _, _; reflexivity|].
  case_decide; eexists _, _; reflexivity.
Qed.

Lemma returns_sendSlackNotification m src i d r c :
  returns (sendSlackNotification (C:=C) (W:=W)
    (mkEventSpec (Some c) d (Some m) r (Some src) (Some i))).
Proof.
  unfold sendSlackNotification. cbn [EvClass EvMessage SourceClass SourceInstance].
  repeat (apply returns_bind; [solve [auto using returns_deref, returns_SendJobNotification]|];
          intros ?).
  apply returns_mret.
Qed.
Lemma info_event_cached key id t d m r src i (s : St) :
  ∃ s', run (EventCache_Set key
    (mkEvent id t (mkEventSpec (Some EventClassEnumINFO) d (Some m) r (Some src) (Some i)))) s =
    (Ret None, s').
Proof.
  unfold EventCache_Set. cbn [EvSpec EvClass]. cbv zeta.
  rewrite run_bind, run_deref_Some. cbn [seq_run].
  rewrite (decide_False (P := _ ≠ _)) by (intros Hn; by apply Hn).
  rewrite run_bind, run_done. cbn [seq_run].
  rewrite (decide_False (P := _ = _)) by done. rewrite run_bind, run_done. cbn [seq_run].
  rewrite run_bind, run_done. cbn [seq_run].
  rewrite run_bind, run_updates. cbn [seq_run]. rewrite run_bind, run_reads. cbn [seq_run].
  match goal with |- context [run _ ?s1] => set (s2 := s1) end.
  destruct (SlackNotification _); rewrite run_bind; [|rewrite run_done; by eexists].
  destruct (returns_sendSlackNotification m src i d r EventClassEnumINFO s2) as ([] & s' & ->).
  by exists s'.
Qed.

(** An informational event with all that is required is always taken. *)
Lemma info_event_taken d m r src i (s : St) :
  ∃ ev s', run (postEvent_Handle
    (Some (mkEventSpec (Some EventClassEnumINFO) d (Some m) r (Some src) (Some i)))) s =
    (Ret (AddEventOK ev), s').
Proof.
  unfold postEvent_Handle, time_Now.
  rewrite run_bind, run_outside. cbn [seq_run]. rewrite run_bind, run_outside. cbn [seq_run].
  rewrite run_bind, run_deref_Some. cbn [seq_run]. cbv zeta. rewrite run_bind.
  match goal with |- context [EventCache_Set ?k (mkEvent ?id ?t _)] =>
    match goal with |- context [run _ ?s1] =>
      destruct (info_event_cached k id t d m r src i s1) as [s' ->] end end.
  by eexists _, s'.
Qed.

Lemma valid_event spec :
  EventSpec_Validate spec = [] → ∃ c d m r src i,
    spec = mkEventSpec (Some c) d (Some m) r (Some src) (Some i).
Proof.
  unfold EventSpec_Validate. intros (Hc & (Hm & (Hs & Hi)%app_nil)%app_nil)%app_nil.
  destruct spec as [[c|] d [m|] r [src|] [i|]]; try discriminate. by exists c, d, m, r, src, i.
Qed.

(** What a client that adds an event is told. *)
Lemma valid_event_call spec (d : St) :
  EventSpec_Validate spec = [] →
  ∃ x d', Client_AddEvent (Some spec) d = (x, d') ∧
    match x with
    | inr ev => EvSpec ev = spec ∧ ∃ id now, stored id (mkEvent id now spec) d'
    | inl _ => EvClass spec = Some EventClassEnumINFO → ¬ carried (RqAddEvent (Some spec)) d
    end.
Proof.
  intros Hv. destruct (Client_AddEvent (Some spec) d) as [x d'] eqn:E.
  assert (td_operation (RqAddEvent (Some spec)) d = (lift_payload PEvent x, d')) as Eop.
  { cbn [td_operation]. unfold lift_answer. by rewrite E. }
  assert (accepted (RqAddEvent (Some spec)) = true) as Ha by by apply bool_decide_eq_true.
  exists x, d'. split; [done|]. destruct x as [e|ev].
  - intros Hinfo Hc. pose proof (accepted_served (RqAddEvent (Some spec)) d I Ha Hc) as Hs.
    cbn [serve] in Hs.
    destruct (valid_event spec Hv) as (c & dt & m & r & src & i & ->). cbn in Hinfo.
    injection Hinfo as ->. destruct (info_event_taken dt m r src i d) as (ev & s1 & Ei).
    rewrite Ei in Hs. destruct Hs as [Ho Hs].
    pose proof (client_reads _ _ Ho) as Hr. rewrite Eop in Hs.
    apply (f_equal (λ p, success p.1)) in Hs. cbn [fst] in Hs. by rewrite Hr in Hs.
  - pose proof (call_served (RqAddEvent (Some spec)) d I) as Hs. rewrite Eop in Hs.
    inversion Hs as [|a x s' _ Er Ho Hx|]; subst. cbn [serve] in Er.
    destruct a; try contradiction; try discriminate. cbn in Hx. injection Hx as ->.
    pose proof (triple_postEvent spec d I) as Ht. rewrite Er in Ht.
    destruct (Ht event eq_refl) as [<- Hst]. split; [done|]. destruct event. by eexists _, _.
Qed.
Lemma invalid_event_call spec (d : St) :
  EventSpec_Validate spec ≠ [] → ∃ e, Client_AddEvent (Some spec) d = (inl e, d).
Proof.
  intros Hv.
  destruct (rejected_unserved (RqAddEvent (Some spec)) d I) as [e He].
  { by apply bool_decide_eq_false. }
  cbn [td_operation] in He. unfold lift_answer in He.
  destruct (Client_AddEvent (Some spec) d) as [[e'|ev] d']; simplify_eq/=.
  by eexists.
Qed.

Context {S : Type} `{HasWorld S St} `{LocalTime}.
#[local] Existing Instance director_clock.

(** The time of the message, and the director when it is sent. *)
Definition sent_at (s : S) : Z := (clock_now (world s)).1.
Definition sent_to (s : S) : St := (clock_now (world s)).2.

Lemma send_event_outcome (source message class src : string) (s : S) :
  let spec := sent_spec (sent_at s) source message class src in
  ∃ err s', run (lib_SendEvent source message class src) s = (Ret err, s') ∧
    (err = None → ∃ id now, stored id (mkEvent id now spec) (world s')) ∧
    (EventSpec_Validate spec = [] → class = EventClassEnumINFO →
       carried (RqAddEvent (Some spec)) (sent_to s) → err = None) ∧
    (EventSpec_Validate spec ≠ [] →
       err ≠ None ∧ eventClient (world s') = eventClient (world s)).
Proof.
  unfold lib_SendEvent, getTime, time_Now. rewrite !run_bind, run_outside. cbn [seq_run].
  rewrite run_done. cbn [seq_run]. cbv zeta.
  change (mkEventSpec (Some class) (Some [""]) (Some (removespecial (format_time
    (clock_now (world s)).1 +:+ ": " +:+ message))) "" (Some src) (Some source))
    with (sent_spec (sent_at s) source message class src).
  set (spec := sent_spec (sent_at s) source message class src).
  unfold td_call. rewrite !run_bind, run_outside. cbn [seq_run td_AddEvent rest_client].
  rewrite world_set. fold (sent_to s).
  destruct (decide (EventSpec_Validate spec = [])) as [Hv|Hv].
  - destruct (valid_event_call spec (sent_to s) Hv) as ([e|ev] & d' & -> & Hx); cbn [fst snd].
    + eexists _, _. split; [reflexivity|]. split_and!; try done.
      intros _ -> Hc. by destruct Hx.
    + destruct Hx as [Hev Hst]. rewrite run_done. cbn [seq_run].
      rewrite run_bind, run_deref_Some. cbn [seq_run]. rewrite Hev.
      eexists _, _. split; [reflexivity|]. split_and!; try done.
      intros _. by rewrite world_set.
  - destruct (invalid_event_call spec (sent_to s) Hv) as [e ->]. cbn [fst snd].
    eexists _, _. split; [reflexivity|]. split_and!; try done.
    intros _. split; [done|]. by rewrite world_set.
Qed.
(** (C26) An event that a part of the framework sends the director with [SendEvent] never
    brings the sender down, whatever state the director is in and whatever the connection
    does.  When no error is reported the director has the event in its cache; an
    informational event of a known source is always taken where the connection holds; and an
    event of a class or source that the interface does not know is an error that leaves the
    director's events as they are. *)
Theorem sent_event_arrives (source message class src : string) (s : S) :
  let spec := sent_spec (sent_at s) source message class src in
  ∃ err s', run (lib_SendEvent source message class src) s = (Ret err, s') ∧
    (err = None → ∃ id now, stored id (mkEvent id now spec) (world s')) ∧
    (EventSpec_Validate spec = [] → class = EventClassEnumINFO →
       carried (RqAddEvent (Some spec)) (sent_to s) → err = None) ∧
    (EventSpec_Validate spec ≠ [] →
       err ≠ None ∧ eventClient (world s') = eventClient (world s)).
Proof. apply send_event_outcome. Qed.
End Refinement.
