(* ===== verification/Composition.v ===== *)
(** * The processes of the framework, composed

    The monitor and the conductor talk to the director through the generated client, so that
    the director's state is their environment.  A workload that a poll of the monitor takes
    off the list has been reported; the status of a run that the conductor reports moves the
    run as the director's rules say. *)

From stdpp Require Import base gmap strings list pretty.
From S2P Require Import Prelude GoLib Json Http Models Connectors Cache Director Kube K8sPods.
From S2P Require Import Total K8sLib DirectorLib WorkloadList WorkloadMonitor WmTheorems.
From S2P Require Import DirectorPlans RunTheorems Rest RestClient RestTheorems.

(** ** What an execution passes through *)

Fixpoint passes {S A} (p : prog S A) (s : S) (Q : S → Prop) : Prop :=
  Q s ∨
  match p with
  | Act f k => match f s with Some (x, s') => passes (k x) s' Q | None => False end
  | _ => False
  end.

Section Passes.
Context {S : Type}.
Implicit Types Q : S → Prop.

Lemma passes_end {A} (p : prog S A) s Q : Q (run p s).2 → passes p s Q.
Proof.
  revert s. induction p as [a|why| |X f k IH]; intros s HQ; simpl in *; [by left..|].
  destruct (f s) as [[x s']|]; [right; by apply IH|by left].
Qed.
Lemma passes_bind_l {A B} (p : prog S A) (k : A → prog S B) s Q :
  passes p s Q → passes (p ≫= k) s Q.
Proof.
  unfold mbind, prog_mbind. revert s.
  induction p as [a|why| |X f k' IH]; intros s; simpl.
  - intros [HQ|[]]. destruct (k a); simpl; by left.
  - done.
  - done.
  - intros [HQ|Hp]; [by left|right]. destruct (f s) as [[x s']|]; [by apply IH|done].
Qed.
Lemma passes_bind_r {A B} (p : prog S A) (k : A → prog S B) s a s' Q :
  run p s = (Ret a, s') → passes (k a) s' Q → passes (p ≫= k) s Q.
Proof.
  unfold mbind, prog_mbind. revert s.
  induction p as [b|why| |X f k' IH]; intros s; simpl; [by intros [= -> ->]|done..|].
  intros Hr HQ. right. destruct (f s) as [[x s1]|]; [by apply IH|done].
Qed.

(** It is reached by the steps of the only goroutine. *)
Lemma passes_reachable {A} (p : prog S A) s Q :
  passes p s Q ↔ ∃ p' s', rtc pool_step ([p], s) ([p'], s') ∧ Q s'.
Proof.
  split.
  - revert s. induction p as [a|why| |X f k IH]; intros s; simpl.
    + intros [HQ|[]]. by exists (Done a), s.
    + intros [HQ|[]]. by exists (Panic why), s.
    + intros [HQ|[]]. by exists NoFuel, s.
    + intros [HQ|Hp]; [by exists (Act f k), s|].
      destruct (f s) as [[x s1]|] eqn:E; [|done].
      destruct (IH x s1 Hp) as (p' & s' & Hs & HQ). exists p', s'. split; [|done].
      eapply rtc_l; [|exact Hs].
      exact (pool_step_act [Act f k] s 0 X f k x s1 eq_refl E).
  - intros (p' & s' & Hs & HQ).
    remember ([p], s) as c eqn:Ec. remember ([p'], s') as c' eqn:Ec'.
    revert p s Ec. induction Hs as [c|c c1 c2 Hstep _ IH]; intros p s ->.
    + simplify_eq. destruct p'; simpl; by left.
    + inversion Hstep as [ts s0 i X f k x s1 Hi Hf]; simplify_eq.
      destruct i as [|[|i]]; simplify_eq/=. right. rewrite Hf. by apply IH.
Qed.
End Passes.

(** ** The interface to whoever takes the events *)

(** Sending an event always comes back, and an event that was sent without an error was
    delivered. *)
Class Delivers (W : Type) `{Clock W} `{TdClient W} `{LocalTime}
    (delivered : EventSpec → W → Prop) := {
  delivers {S} `{HasWorld S W} (s : S) source message class src :
    ∃ err s' t, run (lib_SendEvent source message class src) s = (Ret err, s') ∧
      (err = None → delivered (sent_spec t source message class src) (world s'));
}.

Section Reports.
Context {W : Type} `{MapRange W} `{Kube W} `{Clock W} `{TdClient W} `{LocalTime}
        (delivered : EventSpec → W → Prop) `{!Delivers W delivered}.
Notation State := (WmState W).
Implicit Types s : State.

(** The event in which the monitor reports a workload that has ended or is gone. *)
Definition report_spec (t : Z) (wli : WorkloadListItem) (why : string) : EventSpec :=
  sent_spec t (Rid wli) ("pod " +:+ WlName (Wl wli) +:+ why) EventClassEnumFAIL
    EventSourceClassEnumWorkloadDashMonitor.
Definition reported (wli : WorkloadListItem) (w : W) : Prop :=
  ∃ t why, why ∈ [" terminated"; " absent"] ∧ delivered (report_spec t wli why) w.

(** The workloads that were on the list [m0], of any registrant, and had this id. *)
Section From.
Variable m0 : WorkloadMap.

Definition listed (wli : WorkloadListItem) : Prop :=
  ∃ k n, flat m0 !! k = Some (mkItem n (Wl wli) (Rid wli)).
Definition reported_id (ID : string) (w : W) : Prop :=
  ∃ wli, listed wli ∧ WlID (Wl wli) = ID ∧ reported wli w.

(** An item stays, but for its count of restarts, or its workload is reported on the way. *)
Definition stays_or_reported {A} (p : prog State A) s s' : Prop :=
  ∀ k wli, flat (wm_map s) !! k = Some wli →
    (∃ n, flat (wm_map s') !! k = Some (mkItem n (Wl wli) (Rid wli))) ∨
    passes p s (λ s1, reported_id (WlID (Wl wli)) (wm_world s1)).

(** The program comes back with a result in [R], and keeps the lock as it is. *)
Definition watches {A} (p : prog State A) (R : A → Prop) : Prop :=
  ∀ s, ∃ a s', run p s = (Ret a, s') ∧ R a ∧ wm_locked s' = wm_locked s ∧
    stays_or_reported p s s'.

Lemma watches_bind {A B} (p : prog State A) (k : A → prog State B) (Ra : A → Prop) R :
  watches p Ra → (∀ a, Ra a → watches (k a) R) → watches (p ≫= k) R.
Proof.
  intros Hp Hk s. destruct (Hp s) as (a & s1 & E1 & Ha & Hl1 & Hst1).
  destruct (Hk a Ha s1) as (b & s2 & E2 & Hb & Hl2 & Hst2).
  exists b, s2. rewrite run_bind, E1. split_and!; [done|done|congruence|].
  intros key wli Hw. destruct (Hst1 key wli Hw) as [[n Hn]|Hpass];
    [|right; by apply passes_bind_l].
  destruct (Hst2 key _ Hn) as [Hn2|Hpass]; [by left|right]. by eapply passes_bind_r.
Qed.
Lemma watches_weaken {A} (p : prog State A) (R R' : A → Prop) :
  watches p R → (∀ a, R a → R' a) → watches p R'.
Proof.
  intros Hp HR s. destruct (Hp s) as (a & s' & ? & ? & ? & ?). exists a, s'. auto.
Qed.
(** What changes nothing but the environment. *)
Lemma watches_calm {A} (p : prog State A) :
  returns p → (∀ s, keeps (same_but_world s) p) → watches p (λ _, True).
Proof.
  intros Hp Hk s. destruct (Hp s) as (a & s' & E). exists a, s'.
  destruct (outside_only s p (Hk s)) as [w Hw]. rewrite E in Hw. simpl in Hw. subst s'.
  split_and!; [done..|]. intros k wli Hw. left. exists (Restarts wli). by destruct wli.
Qed.
Lemma watches_ret {A} (a : A) (R : A → Prop) : R a → watches (mret a) R.
Proof.
  intros Ha s. exists a, s. split_and!; [done..|].
  intros k wli Hw. left. exists (Restarts wli). by destruct wli.
Qed.
Lemma watches_for_range {A B} (l : list A) (b : B)
    (body : A → B → prog State (ctl B Empty_set)) (P : A → Prop) (I : B → Prop) :
  Forall P l → I b →
  (∀ x b, P x → I b → watches (body x b) (λ c, ∃ b', c = Next b' ∧ I b')) →
  watches (for_range l b body) (λ r, ∃ b', r = inl b' ∧ I b').
Proof.
  intros Hl Hb Hbody. revert b Hb.
  induction Hl as [|x l Hx Hl IH]; intros b Hb; [apply watches_ret; eauto|].
  simpl. eapply watches_bind; [by apply Hbody|]. intros c (b' & -> & Hb'). by apply IH.
Qed.

(** ** The steps of a poll *)

Lemma watches_SetRestarts rid wid n :
  watches (updates (set_map (λ m, (SetWorkloadListItemRestarts rid wid n m).2))) (λ _, True).
Proof.
  intros s. eexists _, _. rewrite run_updates. split_and!; [done..|].
  intros k wli Hw. left. simpl.
  destruct (flat_SetRestarts rid wid n (wm_map s)) as [_ ->]. rewrite lookup_alter.
  destruct (decide ((rid, wid) = k)) as [->|Hk]; rewrite Hw; simpl;
    [by exists n|exists (Restarts wli); by destruct wli].
Qed.

Lemma run_notify wli message s :
  ∃ err w t, run (notify wli message) s = (Ret err, set_world w s) ∧
    (err = None → delivered (sent_spec t (Rid wli) message EventClassEnumFAIL
       EventSourceClassEnumWorkloadDashMonitor) w).
Proof.
  destruct (notify_frame wli message s) as [w Hw]. unfold notify, SendEventFail in *.
  destruct (delivers (delivered := delivered) s (Rid wli) message EventClassEnumFAIL
    EventSourceClassEnumWorkloadDashMonitor) as (err & s' & t & E & Hd).
  rewrite E in *. cbn [snd] in Hw. subst s'. exists err, w, t.
  by rewrite world_set in Hd.
Qed.

Lemma watches_notify wli message : watches (notify wli message) (λ _, True).
Proof.
  intros s. destruct (run_notify wli message s) as (err & w & t & E & _).
  eexists _, _. split_and!; [exact E|done..|].
  intros k x Hx. left. exists (Restarts x). by destruct x.
Qed.

Lemma watches_notify_and_delete wli why :
  listed wli → why ∈ [" terminated"; " absent"] →
  watches (notify_and_delete wli ("pod " +:+ WlName (Wl wli) +:+ why)) (λ _, True).
Proof.
  intros Hlisted Hwhy s. unfold notify_and_delete.
  destruct (run_notify wli ("pod " +:+ WlName (Wl wli) +:+ why) s) as (err & w & t & E & Hd).
  destruct err as [e|].
  - eexists _, _. rewrite run_bind, E. split_and!; [done..|].
    intros k x Hx. left. exists (Restarts x). by destruct x.
  - destruct (run_DeleteWorkloadById (WlID (Wl wli)) (set_world w s)) as (m & w' & Er & Hm).
    eexists _, _. rewrite run_bind, E. cbn [seq_run]. split_and!; [exact Er|done..|].
    intros k x Hx. destruct (decide (WlID (Wl x) = WlID (Wl wli))) as [Hid|Hid].
    + right. rewrite Hid. apply passes_bind_l, passes_end. rewrite E. simpl.
      exists wli. split_and!; [done..|]. exists t, why. auto.
    + left. exists (Restarts x). simpl. rewrite Hm. apply map_lookup_filter_Some.
      by destruct x.
Qed.
(** A pod that is present is there. *)
Lemma watches_GetPodByUuid u :
  watches (GetPodByUuid u) (λ r, r.1.2 = true → is_Some r.1.1).
Proof.
  intros s. eexists _, _. split_and!; [apply run_GetPodByUuid| |done|].
  - destruct (pods_List _ _).1 as [e'|pods]; cbn; [done|].
    by intros Hp%bool_decide_eq_true.
  - intros k x Hx. left. exists (Restarts x). by destruct x.
Qed.

Lemma watches_check_restarted wli :
  watches (check_restarted wli) (λ wli', Wl wli' = Wl wli ∧ Rid wli' = Rid wli).
Proof.
  unfold check_restarted. eapply watches_bind; [apply watches_GetPodByUuid|].
  intros [[o [|]] e] Hp; [|by apply watches_ret].
  destruct (Hp eq_refl) as [pod Hpod]. cbn in Hpod. subst o.
  eapply (watches_bind _ _ (λ p, p = pod)); [by apply (watches_ret pod)|].
  intros p ->. cbv zeta. case_decide; [|by apply watches_ret].
  eapply watches_bind; [apply watches_notify|]. intros err _.
  eapply watches_bind; [apply watches_SetRestarts|]. intros _ _. by apply watches_ret.
Qed.
Lemma watches_check_terminated wli :
  listed wli → watches (check_terminated wli) (λ _, True).
Proof.
  intros Hl. unfold check_terminated, GetPodStatus.
  apply (watches_bind _ _ (λ _, True)).
  - eapply watches_bind; [apply watches_GetPodByUuid|].
    intros [[[pod|] [|]] [e|]] _; by apply watches_ret.
  - intros [[st [|]] e] _; [|by apply watches_ret].
    case_decide; [|by apply watches_ret].
    apply watches_notify_and_delete; [done|set_solver].
Qed.
Lemma watches_check_present wli :
  listed wli → watches (check_present wli) (λ _, True).
Proof.
  intros Hl. unfold check_present, GetPodExistsByUuid.
  apply (watches_bind _ _ (λ _, True)).
  - eapply watches_bind; [apply watches_GetPodByUuid|].
    intros [[o p] [e|]] _; by apply watches_ret.
  - intros [[|] e] _; [by apply watches_ret|].
    apply watches_notify_and_delete; [done|set_solver].
Qed.

Lemma watches_check_violation spec wli :
  listed wli →
  watches (check_violation spec wli) (λ wli', Wl wli' = Wl wli ∧ Rid wli' = Rid wli).
Proof.
  intros Hl. unfold check_violation. repeat case_decide.
  - apply watches_check_restarted.
  - eapply watches_bind; [by apply watches_check_terminated|].
    intros _ _. by apply watches_ret.
  - eapply watches_bind; [by apply watches_check_present|].
    intros _ _. by apply watches_ret.
  - by apply watches_ret.
Qed.
Lemma watches_check_item wli : listed wli → watches (check_item wli) (λ _, True).
Proof.
  intros Hl. unfold check_item.
  apply (watches_bind _ _
    (λ r, ∃ w, r = inl w ∧ Wl w = Wl wli ∧ Rid w = Rid wli)).
  - apply (watches_for_range _ _ _ (λ _, True) (λ w, Wl w = Wl wli ∧ Rid w = Rid wli));
      [by apply Forall_true|done|].
    intros spec w _ [HWl HRid].
    eapply watches_bind.
    + apply watches_check_violation. unfold listed. by rewrite HWl, HRid.
    + intros w' [E1 E2]. apply watches_ret. exists w'. split; [done|split; congruence].
  - intros r (w & -> & _). simpl. by apply watches_ret.
Qed.
End From.

Lemma run_monitor_pass s :
  wm_locked s = false →
  ∃ s', run monitor_pass s = (Ret tt, s') ∧ wm_locked s' = false ∧
    stays_or_reported (wm_map s) monitor_pass s s'.
Proof.
  intros Hfree. unfold monitor_pass.
  set (s1 := set_locked true s).
  assert (run Lock s = (Ret tt, s1)) as El.
  { unfold Lock, guarded. simpl. by rewrite Hfree. }
  destruct (run_GetWorkloadItemList s1) as (l & w & Ei & Hl).
  assert (Forall (listed (wm_map s)) l) as Hlisted.
  { apply Forall_forall. intros wli Hin. rewrite Hl in Hin.
    apply list_elem_of_fmap in Hin as ([k x] & -> & Hin%elem_of_map_to_list).
    exists k, (Restarts x). by destruct x. }
  assert (watches (wm_map s) (for_range l tt (λ wli _, check_item wli ;;
    mret (Next (R := Empty_set) tt))) (λ r, ∃ b, r = inl b ∧ True)) as Hloop.
  { eapply watches_for_range; [exact Hlisted|done|]. intros wli [] Hw _.
    eapply watches_bind; [by apply watches_check_item|].
    intros _ _. apply watches_ret. eauto. }
  destruct (Hloop (set_world w s1)) as (r & s2 & E2 & ([] & -> & _) & Hl2 & Hst).
  exists (set_locked false s2).
  rewrite run_bind, El. cbn [seq_run]. rewrite run_bind, Ei. cbn [seq_run].
  rewrite run_bind, E2. cbn [seq_run]. split_and!; [done..|].
  intros k wli Hw. destruct (Hst k wli Hw) as [?|Hpass]; [by left|right].
  eapply passes_bind_r; [exact El|]. eapply passes_bind_r; [exact Ei|].
  by apply passes_bind_l.
Qed.
End Reports.

(** ** The director as the monitor's environment *)

Section Composed.
Context {C W : Type} `{GoCache C} `{!GoCacheLaws C} `{MapRange W} `{Kube W} `{Http W}
        `{Clock W} `{Uuid W} `{Getenv} `{Gjson} `{TimeText} `{Swag} `{Strfmt} `{OpenApi}
        `{ClientTexts} `{LocalTime} `{ClientRequest} `{!Transport (Director C W)}
        `{!Connection (Director C W) api_serve}.
Notation St := (Director C W).

(** Both processes live in the same cluster. *)
Definition director_answer {A} (f : answer W A) : answer St A := λ d,
  ((f (td_world d)).1, set_world (f (td_world d)).2 d).
Definition director_kube : Kube St := {|
  pods_List ns := director_answer (pods_List ns);
  pods_Get ns n := director_answer (pods_Get ns n);
  pods_Create ns p := director_answer (pods_Create ns p);
  pods_Delete ns n := director_answer (pods_Delete ns n);
  nodes_List := director_answer nodes_List;
  pvc_Create ns p := director_answer (pvc_Create ns p);
  pvc_Get ns n := director_answer (pvc_Get ns n);
  pvc_Delete ns n := director_answer (pvc_Delete ns n);
  pvc_List ns := director_answer (pvc_List ns);
  pv_Get n := director_answer (pv_Get n);
  sc_Create c := director_answer (sc_Create c);
  sc_Get n := director_answer (sc_Get n);
  sc_Delete n := director_answer (sc_Delete n);
  ns_Create n := director_answer (ns_Create n);
  msp_Create p := director_answer (msp_Create p);
  msp_Get n := director_answer (msp_Get n);
  msp_Update p := director_answer (msp_Update p);
  msp_Delete n := director_answer (msp_Delete n);
  msp_List := director_answer msp_List;
  msn_Get n := director_answer (msn_Get n);
  msn_Delete n := director_answer (msn_Delete n);
  msn_List := director_answer msn_List;
  msv_Get n := director_answer (msv_Get n);
  msv_Update v := director_answer (msv_Update v);
  msv_Delete n := director_answer (msv_Delete n);
  msv_List := director_answer msv_List;
|}.
Program Definition director_range : MapRange St := {|
  map_order A m d := ((map_order m (td_world d)).1, set_world (map_order m (td_world d)).2 d);
|}.
Next Obligation. intros A m d. apply map_order_perm. Qed.

#[local] Existing Instances director_kube director_range.
#[local] Existing Instance director_clock.

(** The director has an event with this content. *)
Definition has_event (spec : EventSpec) (d : St) : Prop :=
  ∃ id now, stored id (mkEvent id now spec) d.

#[export] Instance director_delivers : Delivers St has_event.
Proof.
  constructor. intros S HS s source message class src.
  destruct (send_event_outcome source message class src s) as (err & s' & E & Hd & _).
  by exists err, s', (sent_at s).
Qed.

(** (C8) A poll of the monitor that reports to the director always comes back, whatever the
    cluster and the director answer and whatever the connection does, and gives the lock back.  A workload that it takes off
    the list has been reported: at some moment of the poll the director had an event of
    class FAIL, from the monitor, that names the registrant of a listed workload of the same
    id and says that the pod has terminated or is absent.  Every other workload stays on the
    list, under its registrant and with its rules. *)
Theorem dropped_workload_reported (s : WmState St) :
  wm_locked s = false →
  ∃ s', run monitor_pass s = (Ret tt, s') ∧ wm_locked s' = false ∧
    ∀ k wli, flat (wm_map s) !! k = Some wli →
      (∃ n, flat (wm_map s') !! k = Some (mkItem n (Wl wli) (Rid wli))) ∨
      ∃ p s1 reporter t why, rtc pool_step ([monitor_pass], s) ([p], s1) ∧
        listed (wm_map s) reporter ∧ WlID (Wl reporter) = WlID (Wl wli) ∧
        why ∈ [" terminated"; " absent"] ∧
        has_event (report_spec t reporter why) (wm_world s1).
Proof.
  intros Hfree.
  destruct (run_monitor_pass has_event s Hfree) as (s' & E & Hl & Hst).
  exists s'. split_and!; [done..|]. intros k wli Hw.
  destruct (Hst k wli Hw) as [?|Hpass]; [by left|right].
  apply passes_reachable in Hpass as (p & s1 & Hs & reporter & Hr & Hid & t & why & Hwhy & Hev).
  by exists p, s1, reporter, t, why.
Qed.
End Composed.

(** ** The status of a run *)

Section Status.
Context {C W : Type} `{GoCache C} `{!GoCacheLaws C} `{MapRange W} `{Http W} `{Clock W}
        `{Uuid W} `{Getenv} `{Gjson} `{TimeText} `{Swag} `{Strfmt} `{OpenApi}
        `{ClientTexts} `{LocalTime} `{ClientRequest} `{!Transport (Director C W)}
        `{!Connection (Director C W) api_serve}.
Notation St := (Director C W).
#[local] Existing Instance director_clock.

(** What a PUT that was answered without an error has made of the runs [c]. *)
Definition status_taken (c : C) (uuid : string) (spec : TestRunSpec) (c' : C) : Prop :=
  match run_of c uuid with
  | Some old => ∃ now, c' = cache_Set uuid (TestRun_MarshalJSON (run_move old spec now)) c
  | None => ∃ r, RunStatus (RunSpec r) = TestRunStatusEnumTODO ∧
      RunData (RunSpec r) = RunData spec ∧ TestKey (RunSpec r) = TestKey spec ∧
      c' = cache_Set uuid (TestRun_MarshalJSON r) c
  end.

(** The handler takes the status or leaves the runs. *)
Lemma put_run_handled uuid spec (d d' : St) o :
  run (putTestRun_Handle uuid (Some spec)) d = (o, d') →
  match o with
  | Ret (PutTestRunByIDOK _) => status_taken (runClient d) uuid spec (runClient d')
  | _ => runClient d' = runClient d
  end.
Proof.
  intros E. unfold status_taken. destruct (run_of (runClient d) uuid) as [old|] eqn:Hold.
  - pose proof (put_known_run_safe uuid old spec d Hold) as Hk. rewrite E in Hk.
    destruct o as [a| | |]; [|exact Hk..].
    destruct a; try contradiction; [|exact (proj2 Hk)].
    eexists. exact (proj2 Hk).
  - pose proof (put_unknown_run_safe uuid spec d Hold) as Hk. rewrite E in Hk.
    destruct o as [a| | |]; [|exact Hk..].
    destruct a; try contradiction; [|exact (proj2 Hk)].
    destruct Hk as (? & _ & ? & ? & _ & _ & Hc). by eexists.
Qed.

Lemma put_run_call uuid spec (d : St) :
  plain_id uuid = true →
  ∃ x d', Client_PutTestRunByID uuid (Some spec) d = (x, d') ∧
    match x with
    | inr _ => status_taken (runClient d) uuid spec (runClient d')
    | inl _ => runClient d' = runClient d ∨
        fails (client_request (RqPutTestRun uuid (Some spec))) d ∧
        status_taken (runClient d) uuid spec (runClient d')
    end.
Proof.
  intros Hid. destruct (Client_PutTestRunByID uuid (Some spec) d) as [x d'] eqn:E.
  exists x, d'. split; [done|].
  pose proof (call_served (RqPutTestRun uuid (Some spec)) d Hid) as Hs.
  assert (td_operation (RqPutTestRun uuid (Some spec)) d = (lift_payload PRun x, d')) as Eop.
  { cbn [td_operation]. unfold lift_answer. by rewrite E. }
  rewrite Eop in Hs. inversion Hs as [e Hx|a y s' _ Er Ho Hx|e o s' _ Er Hf Hx]; subst.
  - destruct x; [by left|discriminate].
  - apply put_run_handled in Er. rewrite success_lift in Hx.
    destruct a; try contradiction; destruct x; try discriminate; [exact Er|by left].
  - apply put_run_handled in Er. destruct x; [|discriminate].
    destruct o as [[]| | |]; auto.
Qed.

Context {S : Type} `{HasWorld S St}.

(** The report of a status that the conductor makes at time [t]. *)
Definition status_spec (t : Z) (message jira_key status : string) : TestRunSpec :=
  mkTestRunSpec (format_time t +:+ ": " +:+ removespecial message) status "" ""
    (Some jira_key).

Lemma run_sendTestRunStatus uuid message jira_key status (s : S) x d' :
  Client_PutTestRunByID uuid (Some (status_spec (sent_at s) message jira_key status))
    (sent_to s) = (x, d') →
  ∃ err, run (sendTestRunStatus uuid message jira_key status) s = (Ret err, set_world d' s) ∧
    (err = None ↔ ∃ r, x = inr r).
Proof.
  intros E. unfold sendTestRunStatus, getTime, time_Now, td_call.
  rewrite !run_bind, run_outside. cbn [seq_run]. rewrite run_done. cbn [seq_run]. cbv zeta.
  fold (sent_at s). fold (sent_to s). fold (status_spec (sent_at s) message jira_key status).
  rewrite !run_bind, run_outside. cbn [seq_run td_PutTestRunByID rest_client].
  rewrite world_set, E. cbn [fst snd].
  destruct x as [e|r]; rewrite run_done; cbn [seq_run].
  - eexists. rewrite run_done, set_world_set. split; [done|]. split; [done|by intros [? ?]].
  - eexists. rewrite run_bind, run_deref_Some. cbn [seq_run].
    rewrite run_done, set_world_set. split; [done|]. split; [eauto|done].
Qed.

(** (C9) Reporting the status of a test run to the director never brings the conductor down,
    whatever state the director is in and whatever the connection does.  When no error is
    reported, the director has moved the run it had under that id by its rules, or has created
    a run that is TO DO with the text and the key of the report.  When an error is reported,
    all its runs are as they were, or the connection failed after the director had the
    request (the answer was lost, or the conductor gave up waiting) and the director has taken
    the status all the same. *)
Theorem reported_status_recorded uuid message jira_key status (s : S) :
  plain_id uuid = true →
  let spec := status_spec (sent_at s) message jira_key status in
  ∃ err s', run (sendTestRunStatus uuid message jira_key status) s = (Ret err, s') ∧
    match err with
    | None => status_taken (runClient (world s)) uuid spec (runClient (world s'))
    | Some _ => runClient (world s') = runClient (world s) ∨
        fails (client_request (RqPutTestRun uuid (Some spec))) (sent_to s) ∧
        status_taken (runClient (world s)) uuid spec (runClient (world s'))
    end.
Proof.
  intros Hid spec. destruct (put_run_call uuid spec (sent_to s) Hid) as (x & d' & E & Hx).
  destruct (run_sendTestRunStatus _ _ _ _ _ _ _ E) as (err & Er & Herr).
  exists err, (set_world d' s). split; [done|]. rewrite world_set.
  change (runClient (sent_to s)) with (runClient (world s)) in Hx.
  destruct err as [e|].
  - destruct x as [e'|r]; [exact Hx|]. discriminate (proj2 Herr (ex_intro _ r eq_refl)).
  - destruct (proj1 Herr eq_refl) as [r ->]. exact Hx.
Qed.

(** A run that is TO DO answers a report of a failure with itself. *)
Lemma put_todo_failed uuid old spec (d : St) :
  run_of (runClient d) uuid = Some old →
  RunStatus (RunSpec old) = TestRunStatusEnumTODO → RunStatus spec = TestRunStatusEnumFAILED →
  run (putTestRun_Handle uuid (Some spec)) d =
    (Ret (PutTestRunByIDOK old), set_runClient (cache_Set uuid (TestRun_MarshalJSON old)) d).
Proof.
  intros Hold Hcur Hnext. unfold putTestRun_Handle.
  rewrite run_bind, run_run_Get, Hold. cbn [seq_run].
  rewrite run_bind, run_deref_Some. cbn [seq_run]. unfold put_existing_run.
  rewrite Hcur, Hnext.
  rewrite !decide_False by (by intros [? ?]). unfold put_run_tail.
  by rewrite run_bind, run_run_Set.
Qed.

(** (C38) The failure of a test that has not started is lost: when the conductor reports that
    a run has failed which the director has as TO DO (as when the duration of the test cannot
    be read), the director leaves the run TO DO, whatever the connection does, and where the
    connection holds no error is reported. *)
Theorem early_failure_unrecorded uuid message jira_key old (s : S) :
  plain_id uuid = true → JiraKey_Validate jira_key = true →
  run_of (runClient (world s)) uuid = Some old →
  RunStatus (RunSpec old) = TestRunStatusEnumTODO →
  let spec := status_spec (sent_at s) message jira_key TestRunStatusEnumFAILED in
  ∃ err s', run (SendTestRunCompletedFail uuid message jira_key) s = (Ret err, s') ∧
    (run_of (runClient (world s')) uuid = Some (norm_run old) ∨
     run_of (runClient (world s')) uuid = Some old ∧ err ≠ None) ∧
    (carried (RqPutTestRun uuid (Some spec)) (sent_to s) → err = None).
Proof.
  intros Hid Hkey Hold Htodo spec. unfold SendTestRunCompletedFail.
  destruct (Client_PutTestRunByID uuid (Some spec) (sent_to s)) as [x d'] eqn:E.
  destruct (run_sendTestRunStatus _ _ _ _ _ _ _ E) as (err & Er & Herr).
  set (q := RqPutTestRun uuid (Some spec)).
  assert (td_operation q (sent_to s) = (lift_payload PRun x, d')) as Eop.
  { cbn [td_operation q]. unfold lift_answer. by rewrite E. }
  assert (accepted q = true) as Ha.
  { cbn [accepted valid_body q]. apply bool_decide_eq_true. unfold TestRunSpec_Validate.
    subst spec. cbn [RunStatus TestKey status_spec]. by rewrite Hkey. }
  pose proof (put_todo_failed uuid old spec (sent_to s) Hold Htodo eq_refl) as Hput.
  exists err, (set_world d' s). rewrite world_set. split_and!; [done| |].
  - pose proof (call_served q (sent_to s) Hid) as Hs. rewrite Eop in Hs. subst q.
    inversion Hs as [e Hx|a y s' _ Es Ho Hx|e o s' _ Es Hf Hx]; subst; cbn [serve] in *.
    + right. split; [exact Hold|]. intros Hn. destruct (proj1 Herr Hn) as [r ->]. discriminate.
    + left. rewrite Hput in Es. injection Es as <- <-. cbn [runClient set_runClient].
      rewrite run_of_Set. by rewrite decide_True.
    + left. rewrite Hput in Es. injection Es as <- <-. cbn [runClient set_runClient].
      rewrite run_of_Set. by rewrite decide_True.
  - intros Hc. pose proof (accepted_served q (sent_to s) Hid Ha Hc) as Hs. subst q.
    cbn [serve] in Hs. rewrite Hput in Hs. destruct Hs as [Ho Hs].
    pose proof (client_reads _ _ Ho) as Hr. rewrite Eop in Hs.
    apply (f_equal (λ p, success p.1)) in Hs. cbn [fst] in Hs.
    rewrite Hr, success_lift in Hs. apply Herr. destruct x as [e|r]; [discriminate|by eexists].
Qed.
End Status.
