(* ===== verification/WmRest.v ===== *)
(** * The workload monitor's REST layer and its client (workload_monitor/swagger, common/wm)

    Routes, binding and responses of the monitor's server, and the operations of the
    generated client; the connection between the two is a parameter, as in RestClient.v.  A
    call of the monitor's client is the request it stands for, served by the monitor, when the
    request is valid and the connection holds; a pod that is registered is in the list. *)

From stdpp Require Import base gmap strings list pretty.
From S2P Require Import Prelude GoLib Json Http Models Connectors Cache Director Kube K8sPods.
From S2P Require Import Total K8sLib DirectorLib WorkloadList WorkloadMonitor WmLib.
From S2P Require Import Rest RestClient RestTheorems.

(** ** Data (swagger/models) *)

(** A slice that is nil is missing; the first violation that is none ends the check. *)
Definition workloadViolationEnumEnum : list string :=
  [WorkloadViolationEnumRESTARTED; WorkloadViolationEnumTERMINATED;
   WorkloadViolationEnumNOTPRESENT].
Definition WorkloadSpec_Validate (v : option (list string)) : list string :=
  match v with
  | None => ["violations"]
  | Some l => take 1 (concat (map (enum_case "violations" workloadViolationEnumEnum) l))
  end.

Definition WorkloadSpec_json (v : option (list string)) : json :=
  JObj [("violations", slice_json JStr v)].
Definition WorkloadSpec_of_json (v : json) : option (option (list string)) :=
  fs ← object_fields v;
  decode_field "violations" (dec_slice (λ x, dec_string x "")) fs None.

Definition Workload_MarshalJSON `{Swag} (m : Workload) : json :=
  ConcatJSON [JObj (omit_string "id" (WlID m) ++ omit_string "name" (WlName m) ++
                    omit_string "namespace" (WlNamespace m));
              WorkloadSpec_json (Some (Violations m))].
(** A list of violations that is nil is read as the empty one. *)
Definition Workload_UnmarshalJSON (raw : json) : option Workload :=
  fs ← object_fields raw;
  i ← decode_field "id" dec_string fs "";
  n ← decode_field "name" dec_string fs "";
  ns ← decode_field "namespace" dec_string fs "";
  aO1 ← WorkloadSpec_of_json raw;
  Some (mkWorkload i n ns (default [] aO1)).
Definition zero_workload : Workload := mkWorkload "" "" "" [].

(** [strfmt.UUID]: the format it is checked against; it needs no escaping in a path. *)
Class UuidFormat := {
  IsUUID : string → bool;
  IsUUID_plain s : IsUUID s = true → plain_id s = true;
}.

(** ** Binding (restapi/operations/workload_monitor/*_parameters.go) *)

Section Binding.
Context `{OpenApi} `{UuidFormat}.

(** The text is taken as it is and checked for the format. *)
Definition bind_uuid (name : string) (raw : list string) : string * list bind_error :=
  let id := raw_value raw in (id, if IsUUID id then [] else [ErrValidation [name]]).
Definition bind_optional (raw : list string) : option string :=
  let v := raw_value raw in if decide (v = "") then None else Some v.

(** The body may be missing; one that is there is decoded and validated. *)
Definition PutWorkloadByRegistrantParams_BindRequest (r : wire_request)
    (params : route_params)
    : list bind_error + string * string * option (option (list string)) :=
  let '(body, errs) :=
    match wr_body r with
    | NoBody => (None, [])
    | EmptyBody | BadText => (None, [ErrParse "body"])
    | JsonText v =>
        match WorkloadSpec_of_json v with
        | None => (None, [ErrParse "body"])
        | Some a =>
            match WorkloadSpec_Validate a with
            | [] => (Some a, [])
            | names => (None, [ErrValidation names])
            end
        end
    end in
  let '(rid, errs_rid) := bind_uuid "rid" (param_values "rid" params) in
  let '(wid, errs_wid) := bind_uuid "wid" (param_values "wid" params) in
  bound (errs ++ errs_rid ++ errs_wid) (rid, wid, body).

Definition GetWorkloadByRegistrantParams_BindRequest (params : route_params)
    : list bind_error + string * string :=
  let '(rid, errs) := bind_uuid "rid" (param_values "rid" params) in
  let '(wid, errs') := bind_uuid "wid" (param_values "wid" params) in
  bound (errs ++ errs') (rid, wid).
Definition DeleteWorkloadByRegistrantParams_BindRequest (params : route_params)
    : list bind_error + string * string :=
  let '(rid, errs) := bind_uuid "rid" (param_values "rid" params) in
  let '(wid, errs') := bind_uuid "wid" (param_values "wid" params) in
  bound (errs ++ errs') (rid, wid).
Definition GetWorkloadsByRegistrantParams_BindRequest (params : route_params)
    : list bind_error + string :=
  let '(rid, errs) := bind_uuid "rid" (param_values "rid" params) in bound errs rid.
Definition DeleteWorkloadsByRegistrantParams_BindRequest (params : route_params)
    : list bind_error + string :=
  let '(rid, errs) := bind_uuid "rid" (param_values "rid" params) in bound errs rid.

Definition GetWorkloadsParams_BindRequest (r : wire_request)
    : list bind_error + option string * option string * option string :=
  let name := bind_optional (query_values "name" r) in
  let namespace := bind_optional (query_values "namespace" r) in
  let registrant := bind_optional (query_values "registrantId" r) in
  let errs := match registrant with
              | Some id => if IsUUID id then [] else [ErrValidation ["registrantId"]]
              | None => []
              end in
  bound errs (name, namespace, registrant).
End Binding.

(** ** Responses (restapi/operations/workload_monitor/*_responses.go) *)

Section Responses.
Context `{Swag}.
Definition PutWorkloadByRegistrantOK_WriteResponse (wl : Workload) : wire_response :=
  mkReply 200 (Some (Workload_MarshalJSON wl)).
Definition PutWorkloadByRegistrantBadRequest_WriteResponse (o : RequestOutcome) : wire_response :=
  mkReply 400 (Some (RequestOutcome_json o)).
Definition GetWorkloadByRegistrantOK_WriteResponse (wl : Workload) : wire_response :=
  mkReply 200 (Some (Workload_MarshalJSON wl)).
Definition GetWorkloadByRegistrantNotFound_WriteResponse : wire_response :=
  mkReply 404 None.
Definition GetWorkloadsByRegistrantOK_WriteResponse (l : list Workload) : wire_response :=
  mkReply 200 (Some (JArr (map Workload_MarshalJSON l))).
Definition GetWorkloadsOK_WriteResponse (l : list Workload) : wire_response :=
  mkReply 200 (Some (JArr (map Workload_MarshalJSON l))).
Definition DeleteWorkloadByRegistrantOK_WriteResponse (wl : Workload) : wire_response :=
  mkReply 200 (Some (Workload_MarshalJSON wl)).
Definition DeleteWorkloadByRegistrantNotFound_WriteResponse : wire_response :=
  mkReply 404 None.
Definition DeleteWorkloadsByRegistrantOK_WriteResponse (o : RequestOutcome) : wire_response :=
  mkReply 200 (Some (RequestOutcome_json o)).

(** The poll is no request: it has no response. *)
Definition wm_WriteResponse (a : WmResponder) : wire_response :=
  match a with
  | PutWorkloadByRegistrantOK wl => PutWorkloadByRegistrantOK_WriteResponse wl
  | PutWorkloadByRegistrantBadRequest o => PutWorkloadByRegistrantBadRequest_WriteResponse o
  | GetWorkloadByRegistrantOK wl => GetWorkloadByRegistrantOK_WriteResponse wl
  | GetWorkloadByRegistrantNotFound => GetWorkloadByRegistrantNotFound_WriteResponse
  | GetWorkloadsByRegistrantOK l => GetWorkloadsByRegistrantOK_WriteResponse l
  | GetWorkloadsOK l => GetWorkloadsOK_WriteResponse l
  | DeleteWorkloadByRegistrantOK wl => DeleteWorkloadByRegistrantOK_WriteResponse wl
  | DeleteWorkloadByRegistrantNotFound => DeleteWorkloadByRegistrantNotFound_WriteResponse
  | DeleteWorkloadsByRegistrantOK o => DeleteWorkloadsByRegistrantOK_WriteResponse o
  | MonitorPassed => mkReply 500 None
  end.
End Responses.

(** ** Routes (restapi/operations/etfw_api.go) *)

Inductive WmOperation : Type :=
| OpDeleteWorkloadByRegistrant | OpDeleteWorkloadsByRegistrant | OpGetWorkloadByRegistrant
| OpGetWorkloads | OpGetWorkloadsByRegistrant | OpPutWorkloadByRegistrant.

Definition wm_initHandlerCache : gmap (string * string) WmOperation :=
  list_to_map
    [("DELETE", "/wm/registrants/{rid}/workloads/{wid}", OpDeleteWorkloadByRegistrant);
     ("DELETE", "/wm/registrants/{rid}", OpDeleteWorkloadsByRegistrant);
     ("GET", "/wm/registrants/{rid}/workloads/{wid}", OpGetWorkloadByRegistrant);
     ("GET", "/wm/workloads", OpGetWorkloads);
     ("GET", "/wm/registrants/{rid}", OpGetWorkloadsByRegistrant);
     ("PUT", "/wm/registrants/{rid}/workloads/{wid}", OpPutWorkloadByRegistrant)].
Definition wm_HandlerFor (method path : string) : option WmOperation :=
  wm_initHandlerCache !! (ToUpper method, if decide (path = "/") then "" else path).

Section Serving.
Context {W : Type} `{MapRange W} `{Kube W} `{Clock W} `{TdClient W} `{LocalTime}
        `{Swag} `{OpenApi} `{UuidFormat}.
Notation M := (prog (WmState W)).

(** The query of a list of workloads is bound and not used; the handler sees a body whose
    violations are there. *)
Definition wm_BindValidRequest (op : WmOperation) (r : wire_request) (params : route_params)
    : list bind_error + wm_request :=
  match op with
  | OpPutWorkloadByRegistrant =>
      bound_map (λ p, RqPutWorkload p.1.1 p.1.2 (default [] <$> p.2))
        (PutWorkloadByRegistrantParams_BindRequest r params)
  | OpGetWorkloadByRegistrant =>
      bound_map (λ p, RqGetWorkload p.1 p.2) (GetWorkloadByRegistrantParams_BindRequest params)
  | OpGetWorkloadsByRegistrant =>
      bound_map RqGetWorkloadsByRegistrant (GetWorkloadsByRegistrantParams_BindRequest params)
  | OpGetWorkloads => bound_map (λ _, RqGetWorkloads) (GetWorkloadsParams_BindRequest r)
  | OpDeleteWorkloadByRegistrant =>
      bound_map (λ p, RqDeleteWorkload p.1 p.2)
        (DeleteWorkloadByRegistrantParams_BindRequest params)
  | OpDeleteWorkloadsByRegistrant =>
      bound_map RqDeleteWorkloads (DeleteWorkloadsByRegistrantParams_BindRequest params)
  end.

Definition wm_ServeHTTP (op : WmOperation) (r : wire_request) (params : route_params)
    : M wire_response :=
  match wm_BindValidRequest op r params with
  | inl errs => mret (serve_error errs)
  | inr q => a ← wm_serve q; mret (wm_WriteResponse a)
  end.

Definition wm_api_serve (r : wire_request) : M wire_response :=
  match wm_HandlerFor (wr_method r) (wr_pattern r), match_params (wr_params r) with
  | Some op, Some params => wm_ServeHTTP op r params
  | _, _ => mret route_not_found
  end.
End Serving.

(** ** The client (common/wm/client/workload_monitor) *)

Section Writers.
Context `{ClientRequest}.
Definition PutWorkloadByRegistrant_WriteToRequest (timeout : Z) (rid wid : string)
    (body : option (option (list string))) : writer :=
  call (SetTimeout timeout) >>> body_param WorkloadSpec_json body >>>
  call (SetPathParam "rid" rid) >>> call (SetPathParam "wid" wid).
Definition GetWorkloadByRegistrant_WriteToRequest (timeout : Z) (rid wid : string) : writer :=
  call (SetTimeout timeout) >>> call (SetPathParam "rid" rid) >>> call (SetPathParam "wid" wid).
Definition DeleteWorkloadByRegistrant_WriteToRequest (timeout : Z) (rid wid : string)
    : writer :=
  call (SetTimeout timeout) >>> call (SetPathParam "rid" rid) >>> call (SetPathParam "wid" wid).
Definition GetWorkloadsByRegistrant_WriteToRequest (timeout : Z) (rid : string) : writer :=
  call (SetTimeout timeout) >>> call (SetPathParam "rid" rid).
Definition DeleteWorkloadsByRegistrant_WriteToRequest (timeout : Z) (rid : string) : writer :=
  call (SetTimeout timeout) >>> call (SetPathParam "rid" rid).
Definition GetWorkloads_WriteToRequest (timeout : Z) (name namespace registrant : option string)
    : writer :=
  call (SetTimeout timeout) >>> query_param "name" name >>>
  query_param "namespace" namespace >>> query_param "registrantId" registrant.
End Writers.

Section Client.
Context {W : Type} `{ClientTexts} `{ClientRequest} `{Transport W}.

Definition PutWorkloadByRegistrant_ReadResponse (r : wire_response) : goerror + Workload :=
  if decide (wp_code r = 200%Z) then consume zero_workload Workload_UnmarshalJSON r
  else if decide (wp_code r = 400%Z)
  then outcome_error "[PUT /wm/registrants/{rid}/workloads/{wid}][400] putWorkloadByRegistrantBadRequest" r
  else inl (api_error (wp_code r)).
Definition GetWorkloadByRegistrant_ReadResponse (r : wire_response) : goerror + Workload :=
  if decide (wp_code r = 200%Z) then consume zero_workload Workload_UnmarshalJSON r
  else if decide (wp_code r = 400%Z)
  then outcome_error "[GET /wm/registrants/{rid}/workloads/{wid}][400] getWorkloadByRegistrantBadRequest" r
  else if decide (wp_code r = 404%Z)
  then plain_error "[GET /wm/registrants/{rid}/workloads/{wid}][404] getWorkloadByRegistrantNotFound "
  else inl (api_error (wp_code r)).
Definition DeleteWorkloadByRegistrant_ReadResponse (r : wire_response) : goerror + Workload :=
  if decide (wp_code r = 200%Z) then consume zero_workload Workload_UnmarshalJSON r
  else if decide (wp_code r = 400%Z)
  then outcome_error "[DELETE /wm/registrants/{rid}/workloads/{wid}][400] deleteWorkloadByRegistrantBadRequest" r
  else if decide (wp_code r = 404%Z)
  then plain_error "[DELETE /wm/registrants/{rid}/workloads/{wid}][404] deleteWorkloadByRegistrantNotFound "
  else inl (api_error (wp_code r)).
Definition GetWorkloadsByRegistrant_ReadResponse (r : wire_response)
    : goerror + list (option Workload) :=
  if decide (wp_code r = 200%Z) then consume_list Workload_UnmarshalJSON r
  else if decide (wp_code r = 400%Z)
  then outcome_error "[GET /wm/registrants/{rid}][400] getWorkloadsByRegistrantBadRequest" r
  else if decide (wp_code r = 404%Z)
  then plain_error "[GET /wm/registrants/{rid}][404] getWorkloadsByRegistrantNotFound "
  else inl (api_error (wp_code r)).
Definition DeleteWorkloadsByRegistrant_ReadResponse (r : wire_response)
    : goerror + RequestOutcome :=
  if decide (wp_code r = 200%Z) then consume zero_outcome RequestOutcome_of_json r
  else if decide (wp_code r = 400%Z)
  then outcome_error "[DELETE /wm/registrants/{rid}][400] deleteWorkloadsByRegistrantBadRequest" r
  else if decide (wp_code r = 404%Z)
  then plain_error "[DELETE /wm/registrants/{rid}][404] deleteWorkloadsByRegistrantNotFound "
  else inl (api_error (wp_code r)).
Definition GetWorkloads_ReadResponse (r : wire_response) : goerror + list (option Workload) :=
  if decide (wp_code r = 200%Z) then consume_list Workload_UnmarshalJSON r
  else if decide (wp_code r = 404%Z)
  then plain_error "[GET /wm/workloads][404] getWorkloadsNotFound "
  else inl (api_error (wp_code r)).

Definition Client_PutWorkloadByRegistrant (rid wid : string)
    (body : option (option (list string))) : answer W Workload :=
  Submit (mkOperation "PUT" "/wm/registrants/{rid}/workloads/{wid}"
    (λ t, PutWorkloadByRegistrant_WriteToRequest t rid wid body)) PutWorkloadByRegistrant_ReadResponse.
Definition Client_GetWorkloadByRegistrant (rid wid : string) : answer W Workload :=
  Submit (mkOperation "GET" "/wm/registrants/{rid}/workloads/{wid}"
    (λ t, GetWorkloadByRegistrant_WriteToRequest t rid wid)) GetWorkloadByRegistrant_ReadResponse.
Definition Client_DeleteWorkloadByRegistrant (rid wid : string) : answer W Workload :=
  Submit (mkOperation "DELETE" "/wm/registrants/{rid}/workloads/{wid}"
    (λ t, DeleteWorkloadByRegistrant_WriteToRequest t rid wid)) DeleteWorkloadByRegistrant_ReadResponse.
Definition Client_GetWorkloadsByRegistrant (rid : string) : answer W (list (option Workload)) :=
  Submit (mkOperation "GET" "/wm/registrants/{rid}"
    (λ t, GetWorkloadsByRegistrant_WriteToRequest t rid)) GetWorkloadsByRegistrant_ReadResponse.
Definition Client_DeleteWorkloadsByRegistrant (rid : string) : answer W RequestOutcome :=
  Submit (mkOperation "DELETE" "/wm/registrants/{rid}"
    (λ t, DeleteWorkloadsByRegistrant_WriteToRequest t rid)) DeleteWorkloadsByRegistrant_ReadResponse.
Definition Client_GetWorkloads (name namespace registrant : option string)
    : answer W (list (option Workload)) :=
  Submit (mkOperation "GET" "/wm/workloads"
    (λ t, GetWorkloads_WriteToRequest t name namespace registrant)) GetWorkloads_ReadResponse.

(** The interface of the framework. *)
#[export] Instance wm_rest_client : WmClient W := {
  wm_PutWorkload := λ rid wid violations,
    Client_PutWorkloadByRegistrant rid wid (Some (Some violations));
  wm_DeleteWorkload := Client_DeleteWorkloadByRegistrant;
  wm_DeleteWorkloads := Client_DeleteWorkloadsByRegistrant;
}.
End Client.

(** * Theorems *)

(** ** Bodies survive the wire *)

Lemma WorkloadSpec_roundtrip v : WorkloadSpec_of_json (WorkloadSpec_json v) = Some v.
Proof.
  unfold WorkloadSpec_of_json, WorkloadSpec_json. eapply bind_eq; [reflexivity|]. cbv beta.
  rewrite decode_field_hit. apply strings_roundtrip.
Qed.
Lemma Workload_roundtrip `{Swag} w : Workload_UnmarshalJSON (Workload_MarshalJSON w) = Some w.
Proof.
  unfold Workload_UnmarshalJSON, Workload_MarshalJSON, WorkloadSpec_of_json, WorkloadSpec_json.
  rewrite ConcatJSON_objects. decode_struct.
  eapply bind_eq; [eapply bind_eq; [reflexivity|]; cbv beta; decode_one|]. by destruct w.
Qed.
Lemma Workload_not_null `{Swag} w : Workload_MarshalJSON w ≠ JNull.
Proof. unfold Workload_MarshalJSON, WorkloadSpec_json. by rewrite ConcatJSON_objects. Qed.

(** ** A call is a request *)

Inductive wm_payload : Type :=
| PWorkload (w : Workload)
| PWorkloads (l : list (option Workload))
| PCount (o : RequestOutcome).
Definition wm_lift {A} (f : A → wm_payload) (x : goerror + A) : goerror + wm_payload :=
  match x with inl e => inl e | inr a => inr (f a) end.
Definition wm_lift_answer {W A} (f : A → wm_payload) (c : answer W A) : answer W wm_payload :=
  λ w, (wm_lift f (c w).1, (c w).2).

(** What a handler's response tells the client. *)
Definition wm_told (a : WmResponder) : option wm_payload :=
  match a with
  | PutWorkloadByRegistrantOK w | GetWorkloadByRegistrantOK w
  | DeleteWorkloadByRegistrantOK w => Some (PWorkload w)
  | GetWorkloadsByRegistrantOK l | GetWorkloadsOK l => Some (PWorkloads (map Some l))
  | DeleteWorkloadsByRegistrantOK o => Some (PCount o)
  | _ => None
  end.

(** The requests of clients, and those of them that are let through. *)
Definition wm_request_ids (q : wm_request) : list string :=
  match q with
  | RqPutWorkload rid wid _ | RqGetWorkload rid wid | RqDeleteWorkload rid wid => [rid; wid]
  | RqGetWorkloadsByRegistrant rid | RqDeleteWorkloads rid => [rid]
  | RqGetWorkloads | PollOnce => []
  end.
Definition wm_accepted `{UuidFormat} (q : wm_request) : bool :=
  forallb IsUUID (wm_request_ids q) &&
  match q with
  | RqPutWorkload _ _ (Some l) => bool_decide (WorkloadSpec_Validate (Some l) = [])
  | _ => true
  end.

(** The responses of an operation. *)
Definition wm_own_answer (q : wm_request) (a : WmResponder) : Prop :=
  match q, a with
  | RqPutWorkload _ _ _, (PutWorkloadByRegistrantOK _ | PutWorkloadByRegistrantBadRequest _)
  | RqGetWorkload _ _, (GetWorkloadByRegistrantOK _ | GetWorkloadByRegistrantNotFound)
  | RqGetWorkloadsByRegistrant _, GetWorkloadsByRegistrantOK _
  | RqGetWorkloads, GetWorkloadsOK _
  | RqDeleteWorkload _ _, (DeleteWorkloadByRegistrantOK _ | DeleteWorkloadByRegistrantNotFound)
  | RqDeleteWorkloads _, DeleteWorkloadsByRegistrantOK _
  | PollOnce, MonitorPassed => True
  | _, _ => False
  end.
Definition counts_fit (a : WmResponder) : Prop :=
  match a with DeleteWorkloadsByRegistrantOK o => int64_outcome o | _ => True end.

Section Calls.
Context {W : Type} `{MapRange W} `{Kube W} `{Clock W} `{TdClient W} `{LocalTime}
        `{Swag} `{OpenApi} `{UuidFormat} `{ClientTexts} `{ClientRequest}
        `{!Transport (WmState W)} `{!Connection (WmState W) wm_api_serve}.
Notation St := (WmState W).

Lemma wm_serve_answers (q : wm_request) : results (wm_own_answer q) (wm_serve (W:=W) q).
Proof.
  destruct q; cbn [wm_serve];
    unfold putWorkloadByRegistrant, getWorkloadByRegistrant, getWorkloadsByRegistrant,
      getWorkloads, deleteWorkloadByRegistrant, deleteWorkloadsByRegistrant;
    solve_results.
Qed.

(** The operation of the client for a request, and the request it puts on the wire. *)
Definition wm_client_op (q : wm_request) : client_operation :=
  match q with
  | RqPutWorkload rid wid body =>
      mkOperation "PUT" "/wm/registrants/{rid}/workloads/{wid}"
        (λ t, PutWorkloadByRegistrant_WriteToRequest t rid wid (Some <$> body))
  | RqGetWorkload rid wid =>
      mkOperation "GET" "/wm/registrants/{rid}/workloads/{wid}"
        (λ t, GetWorkloadByRegistrant_WriteToRequest t rid wid)
  | RqGetWorkloadsByRegistrant rid =>
      mkOperation "GET" "/wm/registrants/{rid}"
        (λ t, GetWorkloadsByRegistrant_WriteToRequest t rid)
  | RqDeleteWorkload rid wid =>
      mkOperation "DELETE" "/wm/registrants/{rid}/workloads/{wid}"
        (λ t, DeleteWorkloadByRegistrant_WriteToRequest t rid wid)
  | RqDeleteWorkloads rid =>
      mkOperation "DELETE" "/wm/registrants/{rid}"
        (λ t, DeleteWorkloadsByRegistrant_WriteToRequest t rid)
  | RqGetWorkloads | PollOnce =>
      mkOperation "GET" "/wm/workloads" (λ t, GetWorkloads_WriteToRequest t None None None)
  end.
Definition wm_client_request (q : wm_request) : wire_request :=
  let both method rid wid body :=
    mkWire method "/wm/registrants/{rid}/workloads/{wid}" [("rid", rid); ("wid", wid)] ∅ body
      DefaultTimeout in
  let one method rid :=
    mkWire method "/wm/registrants/{rid}" [("rid", rid)] ∅ NoBody DefaultTimeout in
  match q with
  | RqPutWorkload rid wid body =>
      both "PUT" rid wid (sent_body WorkloadSpec_json (Some <$> body))
  | RqGetWorkload rid wid => both "GET" rid wid NoBody
  | RqGetWorkloadsByRegistrant rid => one "GET" rid
  | RqDeleteWorkload rid wid => both "DELETE" rid wid NoBody
  | RqDeleteWorkloads rid => one "DELETE" rid
  | RqGetWorkloads | PollOnce => mkWire "GET" "/wm/workloads" [] ∅ NoBody DefaultTimeout
  end.
Lemma wm_build_client q :
  build (wm_client_op q) = inr (wm_client_request q) ∨ ∃ e, build (wm_client_op q) = inl e.
Proof.
  destruct q as [? ? [body|]|? ?|?| |? ?|?|]; cbv [wm_client_op];
    unfold PutWorkloadByRegistrant_WriteToRequest, GetWorkloadByRegistrant_WriteToRequest,
      GetWorkloadsByRegistrant_WriteToRequest, DeleteWorkloadByRegistrant_WriteToRequest,
      DeleteWorkloadsByRegistrant_WriteToRequest, GetWorkloads_WriteToRequest,
      body_param, query_param; solve_build.
Qed.

Definition wm_reader (q : wm_request) (r : wire_response) : goerror + wm_payload :=
  match q with
  | RqPutWorkload _ _ _ => wm_lift PWorkload (PutWorkloadByRegistrant_ReadResponse r)
  | RqGetWorkload _ _ => wm_lift PWorkload (GetWorkloadByRegistrant_ReadResponse r)
  | RqGetWorkloadsByRegistrant _ =>
      wm_lift PWorkloads (GetWorkloadsByRegistrant_ReadResponse r)
  | RqDeleteWorkload _ _ => wm_lift PWorkload (DeleteWorkloadByRegistrant_ReadResponse r)
  | RqDeleteWorkloads _ => wm_lift PCount (DeleteWorkloadsByRegistrant_ReadResponse r)
  | RqGetWorkloads | PollOnce => wm_lift PWorkloads (GetWorkloads_ReadResponse r)
  end.
(** The client's operation for a request; the poll is none. *)
Definition wm_client_operation (q : wm_request) : answer St wm_payload :=
  match q with
  | RqPutWorkload rid wid body =>
      wm_lift_answer PWorkload (Client_PutWorkloadByRegistrant rid wid (Some <$> body))
  | RqGetWorkload rid wid => wm_lift_answer PWorkload (Client_GetWorkloadByRegistrant rid wid)
  | RqGetWorkloadsByRegistrant rid =>
      wm_lift_answer PWorkloads (Client_GetWorkloadsByRegistrant rid)
  | RqDeleteWorkload rid wid =>
      wm_lift_answer PWorkload (Client_DeleteWorkloadByRegistrant rid wid)
  | RqDeleteWorkloads rid => wm_lift_answer PCount (Client_DeleteWorkloadsByRegistrant rid)
  | RqGetWorkloads | PollOnce =>
      wm_lift_answer PWorkloads (Client_GetWorkloads None None None)
  end.

Lemma wm_lift_submit {A} (f : A → wm_payload) op reader (s : St) :
  wm_lift_answer f (Submit op reader) s =
  match build op with
  | inl e => (inl e, s)
  | inr q =>
      match td_submit q s with
      | (inl e, s') => (inl e, s')
      | (inr resp, s') => (wm_lift f (reader resp), s')
      end
  end.
Proof.
  unfold wm_lift_answer, Submit. destruct (build op) as [e|q]; [done|].
  by destruct (td_submit q s) as [[] ?].
Qed.
Lemma wm_operation_submit q (s : St) :
  wm_client_operation q s =
  match build (wm_client_op q) with
  | inl e => (inl e, s)
  | inr w =>
      match td_submit w s with
      | (inl e, s') => (inl e, s')
      | (inr resp, s') => (wm_reader q resp, s')
      end
  end.
Proof. destruct q; apply wm_lift_submit. Qed.

(** The route of a request leads to its operation, with the ids of the path. *)
Definition wm_operation (q : wm_request) : WmOperation :=
  match q with
  | RqPutWorkload _ _ _ => OpPutWorkloadByRegistrant
  | RqGetWorkload _ _ => OpGetWorkloadByRegistrant
  | RqGetWorkloadsByRegistrant _ => OpGetWorkloadsByRegistrant
  | RqDeleteWorkload _ _ => OpDeleteWorkloadByRegistrant
  | RqDeleteWorkloads _ => OpDeleteWorkloadsByRegistrant
  | RqGetWorkloads | PollOnce => OpGetWorkloads
  end.
Lemma wm_HandlerFor_client q :
  wm_HandlerFor (wr_method (wm_client_request q)) (wr_pattern (wm_client_request q)) =
  Some (wm_operation q).
Proof. by destruct q. Qed.
Definition wm_path_params (q : wm_request) : route_params :=
  match q with
  | RqPutWorkload rid wid _ | RqGetWorkload rid wid | RqDeleteWorkload rid wid =>
      {[ "rid" := [rid]; "wid" := [wid] ]}
  | RqGetWorkloadsByRegistrant rid | RqDeleteWorkloads rid => {[ "rid" := [rid] ]}
  | RqGetWorkloads | PollOnce => ∅
  end.
Definition wm_routable (q : wm_request) : Prop :=
  q ≠ PollOnce ∧ Forall (λ id, plain_id id = true) (wm_request_ids q).
Lemma wm_path_client q :
  wm_routable q → match_params (wr_params (wm_client_request q)) = Some (wm_path_params q).
Proof.
  intros [_ Hids]. unfold match_params.
  destruct q; simpl in *; decompose_Forall_hyps; simpl; rewrite ?path_values_plain by done;
    simpl; rewrite ?path_values_plain by done; reflexivity.
Qed.
Lemma rid_value (rid wid : string) :
  raw_value (param_values "rid" {[ "rid" := [rid]; "wid" := [wid] ]}) = rid.
Proof. unfold param_values. by rewrite lookup_insert_eq. Qed.
Lemma wid_value (rid wid : string) :
  raw_value (param_values "wid" {[ "rid" := [rid]; "wid" := [wid] ]}) = wid.
Proof. unfold param_values. by rewrite lookup_insert_ne, lookup_singleton_eq. Qed.

Lemma wm_bind_client q :
  wm_routable q →
  if wm_accepted q
  then wm_BindValidRequest (wm_operation q) (wm_client_request q) (wm_path_params q) = inr q
  else ∃ es,
    wm_BindValidRequest (wm_operation q) (wm_client_request q) (wm_path_params q) = inl es.
Proof.
  intros [Hq _]. unfold wm_accepted.
  destruct q as [rid wid body|rid wid|rid| |rid wid|rid|]; try done;
    cbn [wm_operation wm_BindValidRequest wm_path_params wm_request_ids forallb].
  - unfold PutWorkloadByRegistrantParams_BindRequest, bind_uuid. rewrite rid_value, wid_value.
    cbn [wr_body wm_client_request].
    destruct body as [l|]; cbn [fmap option_fmap option_map sent_body].
    + rewrite WorkloadSpec_roundtrip. destruct (WorkloadSpec_Validate (Some l)) eqn:E.
      * destruct (IsUUID rid), (IsUUID wid); simpl; eauto.
      * rewrite andb_false_r. simpl. eauto.
    + destruct (IsUUID rid), (IsUUID wid); simpl; eauto.
  - unfold GetWorkloadByRegistrantParams_BindRequest, bind_uuid. rewrite rid_value, wid_value.
    destruct (IsUUID rid), (IsUUID wid); simpl; eauto.
  - unfold GetWorkloadsByRegistrantParams_BindRequest, bind_uuid. rewrite one_value.
    destruct (IsUUID rid); simpl; eauto.
  - unfold DeleteWorkloadByRegistrantParams_BindRequest, bind_uuid.
    rewrite rid_value, wid_value. destruct (IsUUID rid), (IsUUID wid); simpl; eauto.
  - unfold DeleteWorkloadsByRegistrantParams_BindRequest, bind_uuid. rewrite one_value.
    destruct (IsUUID rid); simpl; eauto.
Qed.

Lemma wm_api_serve_client q :
  wm_routable q →
  if wm_accepted q then
    wm_api_serve (W:=W) (wm_client_request q) = a ← wm_serve q; mret (wm_WriteResponse a)
  else ∃ es, wm_api_serve (W:=W) (wm_client_request q) = mret (serve_error es).
Proof.
  intros Hr. unfold wm_api_serve. rewrite wm_HandlerFor_client, wm_path_client by done.
  pose proof (wm_bind_client q Hr) as Hb. unfold wm_ServeHTTP.
  destruct (wm_accepted q); [by rewrite Hb|]. destruct Hb as [es ->]. eauto.
Qed.

(** The client reads back what the handler answered. *)
Lemma success_wm_lift {A} (f : A → wm_payload) x : success (wm_lift f x) = f <$> success x.
Proof. by destruct x. Qed.
Ltac unfold_wm_readers :=
  unfold wm_reader, PutWorkloadByRegistrant_ReadResponse, GetWorkloadByRegistrant_ReadResponse,
    GetWorkloadsByRegistrant_ReadResponse, GetWorkloads_ReadResponse,
    DeleteWorkloadByRegistrant_ReadResponse, DeleteWorkloadsByRegistrant_ReadResponse.
Ltac unfold_wm_writers :=
  unfold wm_WriteResponse,
    PutWorkloadByRegistrantOK_WriteResponse,
    PutWorkloadByRegistrantBadRequest_WriteResponse,
    GetWorkloadByRegistrantOK_WriteResponse, GetWorkloadByRegistrantNotFound_WriteResponse,
    GetWorkloadsByRegistrantOK_WriteResponse, GetWorkloadsOK_WriteResponse,
    DeleteWorkloadByRegistrantOK_WriteResponse,
    DeleteWorkloadByRegistrantNotFound_WriteResponse,
    DeleteWorkloadsByRegistrantOK_WriteResponse.
Lemma wm_client_refused q r : wp_code r ≠ 200%Z → success (wm_reader q r) = None.
Proof.
  intros Hr. unfold_wm_readers.
  destruct q; rewrite success_wm_lift, decide_False by done; repeat case_decide;
    by rewrite ?outcome_error_fails.
Qed.
Lemma wm_client_reads q a :
  q ≠ PollOnce → wm_own_answer q a → counts_fit a →
  success (wm_reader q (wm_WriteResponse a)) = wm_told a.
Proof.
  intros Hq Ha Hfit.
  destruct q, a; try done; unfold_wm_writers; cbn [wm_told];
    try (apply wm_client_refused; done);
    unfold_wm_readers; rewrite success_wm_lift, decide_True by done;
    unfold consume, consume_list; cbn [wp_body];
    rewrite ?Workload_roundtrip, ?RequestOutcome_roundtrip by done;
    try (rewrite (decode_items_roundtrip _ _ id);
         [|apply Workload_not_null|apply Workload_roundtrip]);
    reflexivity.
Qed.

(** What a call comes to, as for the director. *)
Inductive wm_call_result (q : wm_request) (s : St) : (goerror + wm_payload) * St → Prop :=
| wm_call_unserved e : wm_call_result q s (inl e, s)
| wm_call_answered a s' :
    wm_accepted q = true → run (wm_serve q) s = (Ret a, s') → wm_own_answer q a →
    wm_call_result q s (wm_reader q (wm_WriteResponse a), s')
| wm_call_unanswered e o s' :
    wm_accepted q = true → run (wm_serve q) s = (o, s') → fails (wm_client_request q) s →
    wm_call_result q s (inl e, s').
Lemma wm_refused_error q es : ∃ e, wm_reader q (serve_error es) = inl e.
Proof.
  pose proof (wm_client_refused q (serve_error es) (serve_error_code es)) as Hc.
  destruct (wm_reader q (serve_error es)) as [e|]; [by exists e|done].
Qed.
Lemma wm_call_served q (s : St) :
  wm_routable q → wm_call_result q s (wm_client_operation q s).
Proof.
  intros Hr. rewrite wm_operation_submit.
  destruct (wm_build_client q) as [-> | [e ->]]; [|constructor].
  pose proof (connection_exchange (wm_client_request q) s) as Hx.
  pose proof (wm_api_serve_client q Hr) as Hs.
  destruct (td_submit (wm_client_request q) s) as [x s1] eqn:Et.
  destruct (wm_accepted q) eqn:Ha.
  2: { destruct Hs as [es Hs]. destruct (wm_refused_error q es) as [e' He].
       inversion Hx as [e|resp s' E|e o s' E]; subst; [constructor|..];
         rewrite Hs in E; injection E; intros; subst; [rewrite He|]; constructor. }
  inversion Hx as [e|resp s' E|e o s' E]; subst; [constructor|..];
    rewrite Hs, run_bind in E; destruct (run (wm_serve q) s) as [[a|w| |] s2] eqn:Es; cbn in E;
    simplify_eq.
  - eapply wm_call_answered; [done..|]. by eapply results_run; [apply wm_serve_answers|].
  - eapply wm_call_unanswered; [done..|]. exists e. by rewrite Et.
  - eapply wm_call_unanswered; [done..|]. exists e. by rewrite Et.
  - eapply wm_call_unanswered; [done..|]. exists e. by rewrite Et.
  - eapply wm_call_unanswered; [done..|]. exists e. by rewrite Et.
Qed.

(** ** Registration *)

(** The list holds what it held. *)
Definition list_is (m : WorkloadMap) (s : St) : Prop := wm_map s = m.
#[local] Instance list_is_world m : WorldFree (list_is m).
Proof. intros s w Hs. exact Hs. Qed.

Lemma triple_putWorkload m rid wid violations :
  triple (list_is m) (putWorkloadByRegistrant rid wid (Some violations))
    (λ a s, match a with
            | PutWorkloadByRegistrantOK wl =>
                WlID wl = wid ∧ Violations wl = violations ∧
                wm_map s = AddToWorkloadList wl rid wid m
            | _ => list_is m s
            end) (list_is m).
Proof.
  unfold putWorkloadByRegistrant.
  eapply triple_bind; [apply (triple_keeps (list_is m)); apply keeps_GetPodName; apply _|].
  intros [[name namespace] [e|]]; [by apply triple_ret|].
  unfold Lock, Unlock. cbv zeta. intros s Hs. unfold list_is in Hs.
  rewrite run_bind. simpl. destruct (wm_locked s); simpl; [done|]. by rewrite Hs.
Qed.

(** What registering a workload makes of the list. *)
Definition registered rid wid violations (wl : Workload) (m m' : WorkloadMap) : Prop :=
  WlID wl = wid ∧ Violations wl = violations ∧ GetWorkload rid wid m' = Some wl ∧
  ∀ rid' wid', (rid', wid') ≠ (rid, wid) → GetWorkload rid' wid' m' = GetWorkload rid' wid' m.
Lemma put_workload_handled rid wid violations (s s' : St) o :
  run (putWorkloadByRegistrant rid wid (Some violations)) s = (o, s') →
  match o with
  | Ret (PutWorkloadByRegistrantOK wl) =>
      registered rid wid violations wl (wm_map s) (wm_map s')
  | _ => wm_map s' = wm_map s
  end.
Proof.
  intros E. pose proof (triple_putWorkload (wm_map s) rid wid violations s eq_refl) as Ht.
  rewrite E in Ht. destruct o as [a| | |]; [|exact Ht..]. destruct a; try exact Ht.
  destruct Ht as (Hid & Hv & Hm). unfold registered. rewrite Hm. split_and!; [done|done| |].
  - by rewrite GetWorkload_flat, flat_Add, lookup_insert_eq.
  - intros rid' wid' Hne. by rewrite !GetWorkload_flat, flat_Add, lookup_insert_ne.
Qed.

(** (C27) Registering a workload through the monitor's client: when it succeeds, the monitor's
    list has the workload that was answered, with the id and the violations that were asked
    for, under its registrant, and every other workload as before.  When it fails, the list is
    as it was, or the connection failed after the monitor had the request (the answer was
    lost, or the client gave up waiting) and the workload has been registered all the same. *)
Theorem registration_reaches_monitor rid wid violations (s : St) :
  plain_id rid = true → plain_id wid = true →
  let '(x, s') := wm_PutWorkload rid wid violations s in
  match x with
  | inr wl => registered rid wid violations wl (wm_map s) (wm_map s')
  | inl _ => wm_map s' = wm_map s ∨
      fails (wm_client_request (RqPutWorkload rid wid (Some violations))) s ∧
      ∃ wl, registered rid wid violations wl (wm_map s) (wm_map s')
  end.
Proof.
  intros Hrid Hwid. cbn [wm_PutWorkload wm_rest_client].
  destruct (Client_PutWorkloadByRegistrant rid wid (Some (Some violations)) s) as [x s'] eqn:E.
  set (q := RqPutWorkload rid wid (Some violations)).
  assert (wm_client_operation q s = (wm_lift PWorkload x, s')) as Eop.
  { cbn [wm_client_operation q]. unfold wm_lift_answer.
    change (Some <$> Some violations) with (Some (Some violations)). by rewrite E. }
  assert (wm_routable q) as Hr by (split; [done|by repeat constructor]).
  pose proof (wm_call_served q s Hr) as Hs. rewrite Eop in Hs.
  inversion Hs as [e Hx|a s1 _ Er Ho Hx|e o s1 _ Er Hf Hx]; subst;
    [destruct x; [by left|discriminate]|apply put_workload_handled in Er..].
  - assert (success (wm_lift PWorkload x) = wm_told a) as Hread.
    { rewrite <- Hx. apply (wm_client_reads q); [discriminate|exact Ho|by destruct a]. }
    rewrite success_wm_lift in Hread. clear Hx.
    destruct a as [wl|e| | | | | | | |]; try contradiction;
      destruct x as [e'|w]; try discriminate; [|by left].
    assert (w = wl) as -> by (cbn in Hread; congruence). exact Er.
  - destruct x; [|discriminate]. destruct o as [[]| | |]; eauto.
Qed.
End Calls.
