(* ===== verification/RestDemo.v ===== *)
(** * The REST layer on a scripted director

    Concrete instances of the router and of the texts, and the theorems of RestTheorems.v
    Composition.v and WmRest.v at concrete requests. *)

From stdpp Require Import base gmap strings list pretty.
From S2P Require Import Prelude GoLib Json Http Models Connectors Cache Director Scripted DirectorPlans.
From S2P Require Import Kube K8sPods DirectorLib ScriptedCluster WorkloadList WorkloadMonitor.
From S2P Require Import WmTheorems WmLib Rest RestClient RestTheorems Composition WmRest.

#[export] Program Instance script_openapi : OpenApi := {
  path_values id := if decide (id = "") then None else Some [id];
  serve_error _ := mkReply 422 None;
  route_not_found := mkReply 404 None;
  ConvertBool s := Some (bool_decide (ToLower s = "true"));
}.
Next Obligation. intros id Hid. simpl. by destruct id. Qed.
Next Obligation. done. Qed.
Next Obligation. done. Qed.

#[export] Instance script_texts : ClientTexts := {
  api_error c := GoError ("unknown error (status " +:+ pretty c +:+ ")") Plain;
  consume_error _ := GoError "cannot read the body" Plain;
  show_outcome o := Details o;
}.
Definition lost_connection : goerror := GoError "EOF" Plain.
#[export] Instance script_params : ClientRequest := {
  setter_error _ := None;
  DefaultTimeout := 30000000000%Z;
}.

(** A client next to the director, over a connection that holds, and one over a connection
    that loses every answer. *)
#[local] Instance beside_director : Transport ScriptedDirector :=
  direct api_serve lost_connection.
#[local] Instance beside_director_ok : Connection ScriptedDirector api_serve :=
  direct_connection api_serve lost_connection.
Lemma direct_carried q (s : ScriptedDirector) :
  build (client_op q) = inr (client_request q) → carried q s.
Proof. intros Hb. split; [exact Hb|]. apply direct_holds. Qed.

Definition no_answers : Transport ScriptedDirector := {|
  td_submit q s := (inl lost_connection, (run (api_serve q) s).2);
|}.
Lemma no_answers_ok : Connection (H := no_answers) ScriptedDirector api_serve.
Proof.
  constructor. intros q s. cbn. destruct (run (api_serve q) s) as [o s'] eqn:E.
  by econstructor.
Qed.

(** The process of a client that is nothing but the director at the other end. *)
#[local] Program Instance client_alone : HasWorld ScriptedDirector ScriptedDirector := {
  world s := s; set_world w _ := w }.
Next Obligation. done. Qed.
Next Obligation. done. Qed.
Next Obligation. done. Qed.

Definition demo_uuid : string := "6ba7b810-9dad-11d1-80b4-00c04fd430c8".
Definition demo_run : TestRun :=
  mkTestRun 0 "exec-1" 0 (mkTestRunSpec "" TestRunStatusEnumTODO "exec-1" "201" (Some "MQ-7")).
(** A director that knows one run. *)
Definition one_run : ScriptedDirector :=
  mkDirector ∅ {[ demo_uuid := TestRun_MarshalJSON demo_run ]} ∅ start_cfg (quiet []).



Lemma stored_run_undeletable_witness :
  td_operation (RqGetTestRun demo_uuid) one_run = (inr (PRun (norm_run demo_run)), one_run) ∧
  ∃ e, td_operation (RqDeleteTestRun demo_uuid) one_run = (inl e, one_run).
Proof.
  destruct (stored_run_undeletable one_run demo_uuid demo_run) as [Hget Hdel].
  - vm_compute. reflexivity.
  - vm_compute. lia.
  - vm_compute. reflexivity.
  - split; [|exact Hdel]. apply Hget, direct_carried. reflexivity.
Defined.

(** The conductor tells the director that a test has started. *)
Lemma sent_event_arrives_witness :
  let spec := sent_spec (sent_at one_run) demo_uuid "test started" EventClassEnumINFO
    EventSourceClassEnumTestDashConductor in
  ∃ s', run (S := ScriptedDirector)
      (@lib_SendEvent _ _ client_alone director_clock rest_client _
         demo_uuid "test started" EventClassEnumINFO
         EventSourceClassEnumTestDashConductor) one_run = (Ret None, s') ∧
    ∃ id now, stored id (mkEvent id now spec) s'.
Proof.
  intros spec. destruct (sent_event_arrives demo_uuid "test started" EventClassEnumINFO
    EventSourceClassEnumTestDashConductor one_run) as (err & s' & E & Hst & Hinfo & _).
  assert (err = None) as ->.
  { apply Hinfo; [|reflexivity|].
    - unfold EventSpec_Validate. vm_compute. reflexivity.
    - apply direct_carried. reflexivity. }
  exists s'. split; [exact E|]. exact (Hst eq_refl).
Defined.

(** ** The workload monitor *)

#[export] Program Instance script_uuid_format : UuidFormat := {
  IsUUID s := plain_id s && bool_decide (String.length s = 36%nat);
}.
Next Obligation. intros s. simpl. by intros [Hs _]%andb_true_iff. Qed.

Definition pod_uuid : string := "f81d4fae-7dec-11d0-a765-00a0c91e6bf6".
Definition idle_monitor : WmState Cluster :=
  mkWm ∅ false (with_pods (inr [demo_pod "fio" pod_uuid "Running" 0]) empty_cluster).

#[local] Instance beside_monitor : Transport (WmState Cluster) :=
  direct wm_api_serve lost_connection.
#[local] Instance beside_monitor_ok : Connection (WmState Cluster) wm_api_serve :=
  direct_connection wm_api_serve lost_connection.
Definition register : (goerror + Workload) * WmState Cluster :=
  wm_PutWorkload (WmClient := wm_rest_client) demo_uuid pod_uuid ["RESTARTED"] idle_monitor.

Lemma registration_reaches_monitor_witness :
  ∃ wl s', register = (inr wl, s') ∧ WlID wl = pod_uuid ∧ Violations wl = ["RESTARTED"] ∧
    GetWorkload demo_uuid pod_uuid (wm_map s') = Some wl.
Proof.
  pose proof (registration_reaches_monitor demo_uuid pod_uuid ["RESTARTED"]
    idle_monitor eq_refl eq_refl) as Ht.
  change (wm_PutWorkload demo_uuid pod_uuid ["RESTARTED"] idle_monitor) with register in Ht.
  assert (∃ wl s', register = (inr wl, s')) as (wl & s' & E).
  { eexists _, _. vm_compute. reflexivity. }
  rewrite E in Ht. destruct Ht as (Hid & Hv & Hget & _). exists wl, s'.
  exact (conj E (conj Hid (conj Hv Hget))).
Defined.

(** ** The monitor and the director together *)

Definition refuses {A} (w : Script) : (goerror + A) * Script := (inl refusal, w).
(** A cluster without pods that takes no other request. *)
#[local] Instance bare_kube : Kube Script := {
  pods_List _ w := (inr [], w);
  pods_Get _ _ := refuses; pods_Create _ _ := refuses; pods_Delete _ _ := refuses;
  nodes_List := refuses; pvc_Create _ _ := refuses; pvc_Get _ _ := refuses;
  pvc_Delete _ _ := refuses; pvc_List _ := refuses; pv_Get _ := refuses;
  sc_Create _ := refuses; sc_Get _ := refuses; sc_Delete _ := refuses;
  ns_Create _ := refuses; msp_Create _ := refuses; msp_Get _ := refuses;
  msp_Update _ := refuses; msp_Delete _ := refuses; msp_List := refuses;
  msn_Get _ := refuses; msn_Delete _ := refuses; msn_List := refuses;
  msv_Get _ := refuses; msv_Update _ := refuses; msv_Delete _ := refuses;
  msv_List := refuses;
}.

(** The test that registered the pod runs, and Xray will take its failure. *)
Definition running_run : TestRun :=
  mkTestRun 0 "exec-1" 0
    (mkTestRunSpec "" TestRunStatusEnumEXECUTING "exec-1" "201" (Some "MQ-7")).
Definition lost_pod : WmState ScriptedDirector :=
  mkWm (AddToWorkloadList demo_workload demo_uuid "pod-1" ∅) false
    (mkDirector ∅ {[ demo_uuid := TestRun_MarshalJSON running_run ]} ∅ start_cfg
       (quiet (concat (replicate 4 (xray_answer "run-7"))))).

Definition poll_lost_pod : outcome unit * WmState ScriptedDirector :=
  run (@monitor_pass _ director_range director_kube director_clock
         (@rest_client _ _ _ _ _) _) lost_pod.

Lemma dropped_workload_reported_witness :
  ∃ s', poll_lost_pod = (Ret tt, s') ∧ flat (wm_map s') !! (demo_uuid, "pod-1") = None ∧
    ∃ s1 reporter t why, why ∈ [" terminated"; " absent"] ∧
      has_event (W := Script) (report_spec t reporter why) (wm_world s1).
Proof.
  destruct (dropped_workload_reported lost_pod eq_refl)
    as (s' & E & _ & Hw). change (poll_lost_pod = (Ret tt, s')) in E.
  assert (flat (wm_map s') !! (demo_uuid, "pod-1") = None) as Hgone.
  { replace s' with poll_lost_pod.2 by (by rewrite E). vm_compute. reflexivity. }
  exists s'. split; [exact E|]. split; [exact Hgone|].
  destruct (Hw (demo_uuid, "pod-1") (mkItem 0 demo_workload demo_uuid))
    as [[n Hn]|(p & s1 & reporter & t & why & _ & _ & _ & Hwhy & Hev)].
  - vm_compute. reflexivity.
  - rewrite Hgone in Hn. discriminate.
  - exists s1, reporter, t, why. exact (conj Hwhy Hev).
Defined.

(** ** The conductor and the director together *)

(** The director takes the status, over a connection that loses all answers: the conductor has
    an error. *)
Definition active_plan : TestPlan :=
  mkTestPlan (mkTestPlanSpec "" "101" "plan" (Some TestPlanStatusEnumRUNNING)
    (Some [Some (mkTest "a test" (Some "201"))])) (Some true) "MQ-1".
Definition ready_run : ScriptedDirector :=
  mkDirector {[ "MQ-1" := TestPlan_MarshalJSON active_plan ]} {[ demo_uuid := TestRun_MarshalJSON demo_run ]} ∅ start_cfg
    (quiet (concat (replicate 4 (xray_answer "run-7")))).
Definition unheard : outcome error * ScriptedDirector :=
  run (S := ScriptedDirector)
    (@sendTestRunStatus _ _ client_alone director_clock (rest_client (H3 := no_answers)) _
       demo_uuid "test started" "MQ-7" TestRunStatusEnumEXECUTING) ready_run.

Lemma reported_status_recorded_witness :
  let spec := status_spec (sent_at ready_run) "test started" "MQ-7" TestRunStatusEnumEXECUTING in
  ∃ e s', unheard = (Ret (Some e), s') ∧ runClient s' ≠ runClient ready_run ∧
    status_taken (runClient ready_run) demo_uuid spec (runClient s').
Proof.
  intros spec. destruct (reported_status_recorded (Transport0 := no_answers)
    (Connection0 := no_answers_ok) demo_uuid "test started" "MQ-7"
    TestRunStatusEnumEXECUTING ready_run eq_refl) as (err & s' & E & Hs).
  change (unheard = (Ret err, s')) in E.
  assert (∃ e, err = Some e) as [e ->].
  { assert (match unheard.1 with Ret (Some _) => True | _ => False end) as Hu
      by (vm_compute; exact I).
    rewrite E in Hu. destruct err; [eauto|destruct Hu]. }
  assert (runClient s' ≠ runClient ready_run) as Hne.
  { replace s' with unheard.2 by (rewrite E; reflexivity). intros Heq.
    apply (f_equal (λ c, (λ r, RunStatus (RunSpec r)) <$> run_of c demo_uuid)) in Heq.
    vm_compute in Heq. discriminate. }
  exists e, s'. split; [exact E|]. split; [exact Hne|].
  destruct Hs as [Hs|[_ Hs]]; [by destruct Hne|exact Hs].
Defined.

Lemma early_failure_unrecorded_witness :
  ∃ s', run (S := ScriptedDirector)
      (@SendTestRunCompletedFail _ _ client_alone director_clock rest_client _
         demo_uuid "failed to parse duration" "MQ-7") one_run = (Ret None, s') ∧
    run_of (runClient s') demo_uuid = Some (norm_run demo_run).
Proof.
  destruct (early_failure_unrecorded demo_uuid "failed to parse duration" "MQ-7"
    demo_run one_run) as (err & s' & E & Hr & Hc); [vm_compute; reflexivity..|].
  assert (err = None) as -> by (apply Hc, direct_carried; reflexivity).
  exists s'. split; [exact E|]. destruct Hr as [Hr|[_ []]]; [exact Hr|reflexivity].
Defined.
