(* ===== verification/CsiSuites.v ===== *)
(** * The CSI tests (src/src/tests/csi)

    driver/: the storage classes of the tests; testsuites/: the objects of a test, what is set
    up for its pods, and the six tests.  The objects are Go pointers that the clean-up functions
    share with the test, so they are kept in a store and a clean-up function is a reference to
    one of them; the functions that a test defers run when it ends, whatever ended it.

    The packages of k8s.io/kubernetes/test/e2e/framework and the API are parameters. *)

From stdpp Require Import base gmap strings list.
From Stdlib Require Import Ascii.
From S2P Require Import Prelude GoLib Json Http Kube.

(** ** Objects of the API, with the members the tests use *)

Record topology := mkTopology { tp_Key : string; tp_Values : list string }.
(** [NodeAffinity.Required.NodeSelectorTerms] with their [MatchExpressions]. *)
Notation node_affinity := (option (option (list (list topology)))).

Record storage_class := mkStorageClass {
  cs_Name : string; cs_GenerateName : string;
  cs_Provisioner : string;
  cs_Parameters : gmap string string;
  cs_MountOptions : list string;
  cs_ReclaimPolicy : option string;
  cs_VolumeBindingMode : option string;
  cs_AllowedTopologies : list (list topology);
  cs_AllowVolumeExpansion : option bool;
}.
Record claim := mkClaim {
  cl_Name : string; cl_GenerateName : string; cl_Namespace : string;
  cl_StorageClassName : option string;
  cl_AccessModes : list string;
  cl_Request : Z;                    (* the value of the quantity *)
  cl_VolumeMode : option string;
  cl_DataSource : option string;
  cl_VolumeName : string;
}.
Record persistent_volume := mkPersistentVolume {
  pv_Name : string; pv_Finalizers : option (list string);
  pv_Capacity : Z;
  pv_AccessModes : list string;
  pv_ClaimRef : option (string * string);      (* name and namespace *)
  pv_ReclaimPolicy : string;
  pv_MountOptions : list string;
  pv_NodeAffinity : node_affinity;
  pv_CSI : bool;
}.
Record csi_mount := mkCsiMount { cm_Name : string; cm_MountPath : string; cm_ReadOnly : bool }.
Record csi_device := mkCsiDevice { cd_Name : string; cd_DevicePath : string }.
(** A pod with its one container. *)
Record tester_pod := mkTesterPod {
  tp_Name : string; tp_GenerateName : string;
  tp_Image : string; tp_Command : list string; tp_Args : list string;
  tp_VolumeMounts : list csi_mount;
  tp_VolumeDevices : list csi_device;
  tp_RestartPolicy : string;
  tp_Volumes : list (string * string);         (* name and claim *)
  tp_NodeSelector : gmap string string;
  tp_NodeName : string;
  tp_Phase : string; tp_Reason : string; tp_Message : string;
}.
Record tester_deployment := mkTesterDeployment {
  td_Name : string; td_GenerateName : string; td_Replicas : Z;
  td_MatchLabels : gmap string string; td_PodLabels : gmap string string;
  td_Pod : tester_pod;
}.
Definition zero_storage_class : storage_class := mkStorageClass "" "" "" ∅ [] None None [] None.
Definition zero_claim : claim := mkClaim "" "" "" None [] 0 None None "".
Definition zero_volume : persistent_volume := mkPersistentVolume "" None 0 [] None "" [] None false.
Definition zero_tester_pod : tester_pod := mkTesterPod "" "" "" [] [] [] [] "" [] ∅ "" "" "" "".
Definition zero_tester_deployment : tester_deployment :=
  mkTesterDeployment "" "" 0 ∅ ∅ zero_tester_pod.

Definition ReclaimDelete : string := "Delete".
Definition ReclaimRetain : string := "Retain".
Definition VolumeReleased : string := "Released".
Definition RestartPolicyAlways : string := "Always".

(** The cluster, and the functions of the test framework. *)
Class CsiApi (W : Type) := {
  csc_Create : storage_class → answer W storage_class;
  csc_Delete : string → answer W unit;
  cpvc_Create : string → claim → answer W claim;
  cpvc_Get : string → string → answer W claim;               (* namespace, name *)
  cpv_Get : string → answer W persistent_volume;
  cpv_Patch : string → string → answer W persistent_volume;
  cpod_Create : string → tester_pod → answer W tester_pod;
  cpod_Delete : string → string → answer W unit;
  cpod_Logs : string → string → answer W string;
  cdep_Create : string → tester_deployment → answer W tester_deployment;
  cdep_Delete : string → string → answer W unit;
  rand_Int : W → Z * W;
  (* e2epv *)
  fw_DeletePVC : string → string → answer W unit;             (* name, namespace *)
  fw_DeletePV : string → answer W unit;
  fw_WaitForPVDeleted : string → Z → Z → answer W unit;
  fw_WaitForClaimPhase : string → string → string → answer W unit;
  fw_WaitForPVPhase : string → string → Z → Z → answer W unit;
  (* e2epod, deployment, framework *)
  fw_WaitForPodCondition : string → string → string → Z → (tester_pod → bool * error) →
    answer W unit;
  fw_WaitForPodSuccess : string → string → answer W unit;
  fw_WaitForPodRunning : string → tester_pod → answer W unit;
  fw_WaitForPodNoLongerRunning : string → string → answer W unit;
  fw_DeletePodOrFail : string → string → answer W unit;
  fw_WaitForDeploymentComplete : tester_deployment → answer W unit;
  fw_GetPodsForDeployment : tester_deployment → answer W (list tester_pod);
  fw_LookForStringInPodExec : string → string → list string → string → Z → answer W unit;
}.

(** [resource.MustParse] and the merge patch that turns one volume into another. *)
Class CsiTexts := {
  parse_quantity : string → option Z;
  merge_patch : persistent_volume → persistent_volume → goerror + string;
  busybox : string;
  duration_text : Z → string;
}.

(** ** The driver (driver/*.go) *)

Definition getStorageClass (generateName provisioner : string) (parameters : gmap string string)
    (mountOptions : list string) (reclaimPolicy bindingMode : option string)
    (allowedTopologies : list (list topology)) : storage_class :=
  mkStorageClass "" generateName provisioner parameters mountOptions
    (Some (default ReclaimDelete reclaimPolicy))
    (Some (default VolumeBindingImmediate bindingMode))
    allowedTopologies (Some false).

Definition MayastorDriverNameVar : string := "MAYASTOR_CSI_DRIVER".
Definition InitMayastorDriver `{Getenv} : string :=
  let driverName := getenv MayastorDriverNameVar in
  if decide (driverName = "") then "io.openebs.csi-mayastor" else driverName.

Definition slash : ascii := "/"%char.
Definition normalizeProvisioner (provisioner : string) : string :=
  ReplaceAll provisioner slash "-".

(** The topologies that are asked for are not passed on. *)
Definition GetDynamicProvisionStorageClass (driverName : string)
    (parameters : gmap string string) (mountOptions : list string)
    (reclaimPolicy bindingMode : option string) (allowedTopologyValues : list string)
    (namespace : string) : storage_class :=
  getStorageClass
    (namespace +:+ "-" +:+ normalizeProvisioner driverName +:+ "-dynamic-sc-") driverName
    parameters mountOptions reclaimPolicy bindingMode [].

(** ** What a test describes (testsuites/specs.go) *)

Inductive VolumeModeKind : Type := FileSystem | Block.
Record VolumeMountDetails := mkMountDetails {
  vm_NameGenerate : string; vm_MountPathGenerate : string; vm_ReadOnly : bool }.
Record VolumeDeviceDetails := mkDeviceDetails {
  vd_NameGenerate : string; vd_DevicePath : string }.
Record VolumeDetails := mkVolumeDetails {
  v_MountOptions : list string;
  v_ClaimSize : string;
  v_ReclaimPolicy : option string;
  v_VolumeBindingMode : option string;
  v_AllowedTopologyValues : list string;
  v_VolumeMode : VolumeModeKind;
  v_VolumeMount : VolumeMountDetails;
  v_VolumeDevice : VolumeDeviceDetails;
  v_DataSource : option string;
}.
Record PodDetails := mkPodDetails { pd_Cmd : string; pd_Volumes : list VolumeDetails }.
Record PodExecCheck := mkPodExecCheck { ec_Cmd : list string; ec_ExpectedString : string }.

(** ** The objects of a test (testsuites/testsuites.go) *)

Record TestStorageClass := mkTestSC {
  tsc_storageClass : storage_class; tsc_namespace : string }.
Record TestPersistentVolumeClaim := mkTestPVC {
  tpvc_claimSize : string;
  tpvc_volumeMode : string;
  tpvc_storageClass : option storage_class;
  tpvc_namespace : string;
  tpvc_persistentVolume : option persistent_volume;
  tpvc_claim : option claim;
  tpvc_requested : option claim;
  tpvc_dataSource : option string;
}.
Record TestPod := mkTestPod { tpo_pod : tester_pod; tpo_namespace : string }.
Record TestDeployment := mkTestDeployment {
  tde_deployment : tester_deployment; tde_namespace : string; tde_podName : string }.

(** A function to be deferred: the method [Cleanup] of an object. *)
Inductive cleanup : Type :=
| CleanupSC (i : nat)
| CleanupPVC (i : nat)
| CleanupPod (i : nat)
| CleanupDeployment (i : nat).

Record Csi (W : Type) := mkCsi {
  ci_scs : list TestStorageClass;
  ci_pvcs : list TestPersistentVolumeClaim;
  ci_pods : list TestPod;
  ci_deps : list TestDeployment;
  ci_defers : list cleanup;             (* the last one deferred comes first *)
  ci_world : W;
}.
Arguments mkCsi {W}.
Arguments ci_scs {W}.
Arguments ci_pvcs {W}.
Arguments ci_pods {W}.
Arguments ci_deps {W}.
Arguments ci_defers {W}.
Arguments ci_world {W}.

#[export] Program Instance csi_world W : HasWorld (Csi W) W := {
  world := ci_world;
  set_world w s := mkCsi (ci_scs s) (ci_pvcs s) (ci_pods s) (ci_deps s) (ci_defers s) w;
}.
Solve All Obligations with by intros; repeat match goal with s : Csi _ |- _ => destruct s end.

Definition slowPodStartTimeout : Z := 15 * Minute.
Definition execTimeout : Z := 10 * Second.
Definition failedConditionDescription : string := "Error status code".

(** Done when the pod has failed, and an error when it has succeeded. *)
Definition podFailedCondition (pod : tester_pod) : bool * error :=
  if decide (tp_Phase pod = PodFailed) then (true, None)
  else if decide (tp_Phase pod = PodSucceeded)
  then (true, errorf ("pod " +:+ tp_Name pod +:+ " successed with reason: " +:+ tp_Reason pod
                      +:+ ", message: " +:+ tp_Message pod))
  else (false, None).

(** [Run] is left through a panic or at its end. *)
Fixpoint attempt {S A} (p : prog S A) : prog S (string + A) :=
  match p with
  | Done a => Done (inr a)
  | Panic why => Done (inl why)
  | NoFuel => NoFuel
  | Act f k => Act f (λ x, attempt (k x))
  end.

Section Objects.
Context {W : Type} `{CsiApi W} `{Clock W} `{!CsiTexts}.
Notation M := (prog (Csi W)).
(** The rounds that the wait for a claim may take. *)
Variable fuel : nat.

Definition ExpectNoError (err : error) : M unit :=
  match err with None => mret tt | Some e => Panic ("Unexpected error: " +:+ err_text e) end.
Definition Equal (b : bool) (what : string) : M unit :=
  if b then mret tt else Panic ("assertion failed: " +:+ what).

(** *** The store *)
Definition the_sc (i : nat) : M TestStorageClass := x ← reads (λ s, ci_scs s !! i); deref x.
Definition the_pvc (i : nat) : M TestPersistentVolumeClaim :=
  x ← reads (λ s, ci_pvcs s !! i); deref x.
Definition the_pod (i : nat) : M TestPod := x ← reads (λ s, ci_pods s !! i); deref x.
Definition the_dep (i : nat) : M TestDeployment := x ← reads (λ s, ci_deps s !! i); deref x.
Definition set_scs (f : list TestStorageClass → list TestStorageClass) (s : Csi W) : Csi W :=
  mkCsi (f (ci_scs s)) (ci_pvcs s) (ci_pods s) (ci_deps s) (ci_defers s) (ci_world s).
Definition set_pvcs (f : list TestPersistentVolumeClaim → list TestPersistentVolumeClaim)
    (s : Csi W) : Csi W :=
  mkCsi (ci_scs s) (f (ci_pvcs s)) (ci_pods s) (ci_deps s) (ci_defers s) (ci_world s).
Definition set_pods (f : list TestPod → list TestPod) (s : Csi W) : Csi W :=
  mkCsi (ci_scs s) (ci_pvcs s) (f (ci_pods s)) (ci_deps s) (ci_defers s) (ci_world s).
Definition set_deps (f : list TestDeployment → list TestDeployment) (s : Csi W) : Csi W :=
  mkCsi (ci_scs s) (ci_pvcs s) (ci_pods s) (f (ci_deps s)) (ci_defers s) (ci_world s).
Definition set_defers (f : list cleanup → list cleanup) (s : Csi W) : Csi W :=
  mkCsi (ci_scs s) (ci_pvcs s) (ci_pods s) (ci_deps s) (f (ci_defers s)) (ci_world s).
Definition new_pvc (t : TestPersistentVolumeClaim) : M nat :=
  i ← reads (λ s, length (ci_pvcs s)); updates (set_pvcs (λ l, (l ++ [t])%list)) ;; mret i.

(** *** Storage classes *)
Definition NewTestStorageClass (ns : string) (sc : storage_class) : M nat :=
  i ← reads (λ s, length (ci_scs s));
  updates (set_scs (λ l, (l ++ [mkTestSC sc ns])%list)) ;;
  mret i.
Definition sc_Create_ (i : nat) : M storage_class :=
  t ← the_sc i;
  '(sc, err) ← kube_call zero_storage_class (csc_Create (tsc_storageClass t));
  updates (set_scs (<[i := mkTestSC sc (tsc_namespace t)]>)) ;;
  ExpectNoError err ;;
  mret sc.
Definition sc_Cleanup (i : nat) : M unit :=
  t ← the_sc i;
  err ← kube_do (csc_Delete (cs_Name (tsc_storageClass t)));
  ExpectNoError err.

(** *** Claims *)
Definition mode_of (volumeMode : VolumeModeKind) : string :=
  match volumeMode with
  | Block => PersistentVolumeBlock | FileSystem => PersistentVolumeFilesystem end.
Definition NewTestPersistentVolumeClaimWithDataSource (ns claimSize : string)
    (volumeMode : VolumeModeKind) (sc : storage_class) (dataSource : string) : M nat :=
  new_pvc (mkTestPVC claimSize (mode_of volumeMode) (Some sc) ns None None None (Some dataSource)).
Definition NewTestPersistentVolumeClaim (ns claimSize : string) (volumeMode : VolumeModeKind)
    (sc : storage_class) : M nat :=
  new_pvc (mkTestPVC claimSize (mode_of volumeMode) (Some sc) ns None None None None).

(** A size that is not a quantity is a panic. *)
Definition generatePVC (namespace storageClassName claimSize volumeMode : string)
    (dataSource : option string) : M claim :=
  match parse_quantity claimSize with
  | Some z =>
      mret (mkClaim "" "pvc-" namespace (Some storageClassName) [ReadWriteOnce] z
              (Some volumeMode) dataSource "")
  | None => Panic ("cannot parse '" +:+ claimSize +:+ "'")
  end.

Definition set_claims (i : nat) (t : TestPersistentVolumeClaim) (requested c : option claim)
    : M unit :=
  updates (set_pvcs (<[i := mkTestPVC (tpvc_claimSize t) (tpvc_volumeMode t)
    (tpvc_storageClass t) (tpvc_namespace t) (tpvc_persistentVolume t) c requested
    (tpvc_dataSource t)]>)).
Definition set_volume (i : nat) (t : TestPersistentVolumeClaim) (v : persistent_volume) : M unit :=
  updates (set_pvcs (<[i := mkTestPVC (tpvc_claimSize t) (tpvc_volumeMode t)
    (tpvc_storageClass t) (tpvc_namespace t) (Some v) (tpvc_claim t) (tpvc_requested t)
    (tpvc_dataSource t)]>)).

Definition pvc_Create_ (i : nat) : M unit :=
  t ← the_pvc i;
  let storageClassName :=
    match tpvc_storageClass t with Some sc => cs_Name sc | None => "" end in
  requested ← generatePVC (tpvc_namespace t) storageClassName (tpvc_claimSize t)
                (tpvc_volumeMode t) (tpvc_dataSource t);
  '(c, err) ← kube_call zero_claim (cpvc_Create (tpvc_namespace t) requested);
  set_claims i t (Some requested) (Some c) ;;
  ExpectNoError err.

(** The volume may be gone at any time. *)
Definition removeFinalizers (i : nat) : M unit :=
  t ← the_pvc i;
  v ← deref (tpvc_persistentVolume t);
  '(pv, err) ← kube_call zero_volume (cpv_Get (pv_Name v));
  match err with
  | Some e =>
      if Contains (err_text e) "not found" then mret tt else ExpectNoError err
  | None =>
      let pvClone := mkPersistentVolume (pv_Name pv) None (pv_Capacity pv) (pv_AccessModes pv)
        (pv_ClaimRef pv) (pv_ReclaimPolicy pv) (pv_MountOptions pv) (pv_NodeAffinity pv)
        (pv_CSI pv) in
      match merge_patch pv pvClone with
      | inl e => ExpectNoError (Some e)
      | inr patchBytes =>
          '(_, err) ← kube_call zero_volume (cpv_Patch (pv_Name pvClone) patchBytes);
          match err with
          | Some e =>
              if Contains (err_text e) "not found" then mret tt else ExpectNoError err
          | None => mret tt
          end
      end
  end.

(** The claim is asked for until the API says that it is not there. *)
Definition waitForPersistentVolumeClaimDeleted (ns pvcName : string) (poll timeout : Z)
    : M error :=
  start ← time_Now;
  r ← for_fuel fuel 0 tt (λ _ _,
        now ← time_Now;
        if decide (now - start < timeout)%Z then
          '(_, err) ← kube_call zero_claim (cpvc_Get ns pvcName);
          match err with
          | Some e => if decide (err_is e = NotFound) then mret (Return (None : error))
                      else time_Sleep poll ;; mret (Next tt)
          | None => time_Sleep poll ;; mret (Next tt)
          end
        else mret (Break tt));
  match r with
  | inr err => mret err
  | inl _ => mret (errorf ("PersistentVolumeClaim " +:+ pvcName
                           +:+ " is not removed from the system within " +:+
                           duration_text timeout))
  end.

(** The name of the claim is passed for the namespace, and the namespace for the name. *)
Definition pvc_Cleanup (i : nat) : M unit :=
  t ← the_pvc i;
  c ← deref (tpvc_claim t);
  err ← kube_do (fw_DeletePVC (cl_Name c) (tpvc_namespace t));
  ExpectNoError err ;;
  v ← deref (tpvc_persistentVolume t);
  (if decide (pv_ReclaimPolicy v = ReclaimDelete) then
     (if pv_CSI v then removeFinalizers i else mret tt) ;;
     err ← kube_do (fw_WaitForPVDeleted (pv_Name v) (5 * Second) (10 * Minute));
     ExpectNoError err
   else mret tt) ;;
  err ← waitForPersistentVolumeClaimDeleted (cl_Name c) (tpvc_namespace t) (5 * Second)
          (5 * Minute);
  ExpectNoError err.

Definition pvc_WaitForBound (i : nat) : M unit :=
  t ← the_pvc i;
  c ← deref (tpvc_claim t);
  err ← kube_do (fw_WaitForClaimPhase ClaimBound (tpvc_namespace t) (cl_Name c));
  ExpectNoError err ;;
  '(c, err) ← kube_call zero_claim (cpvc_Get (tpvc_namespace t) (cl_Name c));
  set_claims i t (tpvc_requested t) (Some c) ;;
  ExpectNoError err.

(** [NodeAffinity.Required.NodeSelectorTerms[0].MatchExpressions[0]]. *)
Definition first_term (a : node_affinity) : M topology :=
  required ← deref a;
  terms ← deref required;
  term ← index terms 0;
  index term 0.

Definition ValidateProvisionedPersistentVolume (i : nat) : M unit :=
  t ← the_pvc i;
  c ← deref (tpvc_claim t);
  '(pv, err) ← kube_call zero_volume (cpv_Get (cl_VolumeName c));
  set_volume i t pv ;;
  ExpectNoError err ;;
  requested ← deref (tpvc_requested t);
  Equal (bool_decide (cl_Request c = cl_Request requested))
    "claimCapacity is not equal to requestedCapacity" ;;
  Equal (bool_decide (pv_Capacity pv = cl_Request requested))
    "pvCapacity is not equal to requestedCapacity" ;;
  Equal (bool_decide (pv_AccessModes pv = cl_AccessModes requested)) "access modes" ;;
  ref ← deref (pv_ClaimRef pv);
  Equal (bool_decide (ref.1 = cl_Name c)) "name of the claim" ;;
  Equal (bool_decide (ref.2 = cl_Namespace c)) "namespace of the claim" ;;
  match tpvc_storageClass t with
  | None => mret tt
  | Some sc =>
      policy ← deref (cs_ReclaimPolicy sc);
      Equal (bool_decide (pv_ReclaimPolicy pv = policy)) "reclaim policy" ;;
      Equal (bool_decide (pv_MountOptions pv = cs_MountOptions sc)) "mount options" ;;
      mode ← deref (cs_VolumeBindingMode sc);
      (if decide (mode = VolumeBindingWaitForFirstConsumer) then
         term ← first_term (pv_NodeAffinity pv);
         Equal (bool_decide (length (tp_Values term) = 1)) "one node"
       else mret tt) ;;
      if decide (0 < length (cs_AllowedTopologies sc)) then
        term ← first_term (pv_NodeAffinity pv);
        allowed ← index (cs_AllowedTopologies sc) 0;
        allowed ← index allowed 0;
        Equal (bool_decide (tp_Key term = tp_Key allowed)) "topology key" ;;
        r ← for_range (tp_Values term) tt (λ v _,
              Equal (bool_decide (v ∈ tp_Values allowed)) "topology value" ;; mret (Next tt));
        no_return r
      else mret tt
  end.

Definition pvc_ReclaimPolicy (i : nat) : M string :=
  t ← the_pvc i; v ← deref (tpvc_persistentVolume t); mret (pv_ReclaimPolicy v).
Definition pvc_WaitForPersistentVolumePhase (i : nat) (phase : string) : M unit :=
  t ← the_pvc i;
  v ← deref (tpvc_persistentVolume t);
  err ← kube_do (fw_WaitForPVPhase phase (pv_Name v) (5 * Second) (10 * Minute));
  ExpectNoError err.
Definition DeleteBoundPersistentVolume (i : nat) : M unit :=
  t ← the_pvc i;
  v ← deref (tpvc_persistentVolume t);
  err ← kube_do (fw_DeletePV (pv_Name v));
  ExpectNoError err ;;
  err ← kube_do (fw_WaitForPVDeleted (pv_Name v) (5 * Second) (10 * Minute));
  ExpectNoError err.

(** *** Pods *)
Definition tester_of (command restartPolicy : string) (mounts : list csi_mount)
    (volumes : list (string * string)) : tester_pod :=
  mkTesterPod "" "" busybox ["/bin/sh"] ["-c"; command] mounts [] restartPolicy volumes ∅ ""
    "" "" "".
Definition with_generate_name (g : string) (p : tester_pod) : tester_pod :=
  mkTesterPod (tp_Name p) g (tp_Image p) (tp_Command p) (tp_Args p) (tp_VolumeMounts p)
    (tp_VolumeDevices p) (tp_RestartPolicy p) (tp_Volumes p) (tp_NodeSelector p)
    (tp_NodeName p) (tp_Phase p) (tp_Reason p) (tp_Message p).
Definition NewTestPod (ns command : string) : M nat :=
  i ← reads (λ s, length (ci_pods s));
  updates (set_pods (λ l, (l ++ [mkTestPod (with_generate_name "mayastor-volume-tester-"
    (tester_of command RestartPolicyNever [] [])) ns])%list)) ;;
  mret i.
Definition set_pod (i : nat) (f : tester_pod → tester_pod) : M unit :=
  t ← the_pod i; updates (set_pods (<[i := mkTestPod (f (tpo_pod t)) (tpo_namespace t)]>)).

Definition SetNodeSelector (i : nat) (nodeSelector : gmap string string) : M unit :=
  set_pod i (λ p, mkTesterPod (tp_Name p) (tp_GenerateName p) (tp_Image p) (tp_Command p)
    (tp_Args p) (tp_VolumeMounts p) (tp_VolumeDevices p) (tp_RestartPolicy p) (tp_Volumes p)
    nodeSelector (tp_NodeName p) (tp_Phase p) (tp_Reason p) (tp_Message p)).
Definition SetupRawBlockVolume (i : nat) (pvc : option claim) (name devicePath : string)
    : M unit :=
  c ← deref pvc;
  set_pod i (λ p, mkTesterPod (tp_Name p) (tp_GenerateName p) (tp_Image p) (tp_Command p)
    (tp_Args p) (tp_VolumeMounts p)
    (tp_VolumeDevices p ++ [mkCsiDevice name devicePath])%list (tp_RestartPolicy p)
    (tp_Volumes p ++ [(name, cl_Name c)])%list (tp_NodeSelector p) (tp_NodeName p)
    (tp_Phase p) (tp_Reason p) (tp_Message p)).
Definition SetupVolume (i : nat) (pvc : option claim) (name mountPath : string)
    (readOnly : bool) : M unit :=
  c ← deref pvc;
  set_pod i (λ p, mkTesterPod (tp_Name p) (tp_GenerateName p) (tp_Image p) (tp_Command p)
    (tp_Args p) (tp_VolumeMounts p ++ [mkCsiMount name mountPath readOnly])%list
    (tp_VolumeDevices p) (tp_RestartPolicy p)
    (tp_Volumes p ++ [(name, cl_Name c)])%list (tp_NodeSelector p) (tp_NodeName p)
    (tp_Phase p) (tp_Reason p) (tp_Message p)).

Definition pod_Create_ (i : nat) : M unit :=
  t ← the_pod i;
  '(p, err) ← kube_call zero_tester_pod (cpod_Create (tpo_namespace t) (tpo_pod t));
  updates (set_pods (<[i := mkTestPod p (tpo_namespace t)]>)) ;;
  ExpectNoError err.
Definition pod_WaitForSuccess (i : nat) : M unit :=
  t ← the_pod i;
  err ← kube_do (fw_WaitForPodSuccess (tp_Name (tpo_pod t)) (tpo_namespace t));
  ExpectNoError err.
(** The pod that is waited for is the one that was created: its node is not set by it. *)
Definition pod_WaitForRunning (i : nat) : M unit :=
  t ← the_pod i;
  err ← kube_do (fw_WaitForPodRunning (tpo_namespace t) (tpo_pod t));
  ExpectNoError err.
Definition pod_WaitForFailure (i : nat) : M unit :=
  t ← the_pod i;
  err ← kube_do (fw_WaitForPodCondition (tpo_namespace t) (tp_Name (tpo_pod t))
                   failedConditionDescription slowPodStartTimeout podFailedCondition);
  ExpectNoError err.
Definition podLogs (name namespace : string) : M (string * error) :=
  kube_call "" (cpod_Logs namespace name).
Definition pod_Logs (i : nat) : M (string * error) :=
  t ← the_pod i; podLogs (tp_Name (tpo_pod t)) (tpo_namespace t).
(** The logs are only printed. *)
Definition cleanupPodOrFail (name namespace : string) : M unit :=
  podLogs name namespace ;;
  err ← kube_do (fw_DeletePodOrFail namespace name);
  ExpectNoError err.
Definition pod_Cleanup (i : nat) : M unit :=
  t ← the_pod i; cleanupPodOrFail (tp_Name (tpo_pod t)) (tpo_namespace t).

(** *** Deployments *)
Definition NewTestDeployment (ns command : string) (pvc : option claim)
    (volumeName mountPath : string) (readOnly : bool) : M nat :=
  let generateName := "mayastor-volume-tester-" in
  n ← outside rand_Int;
  let selectorValue := generateName +:+ Itoa n in
  c ← deref pvc;
  i ← reads (λ s, length (ci_deps s));
  updates (set_deps (λ l, (l ++ [mkTestDeployment
    (mkTesterDeployment "" generateName 1 {["app" := selectorValue]} {["app" := selectorValue]}
       (tester_of command RestartPolicyAlways [mkCsiMount volumeName mountPath readOnly]
          [(volumeName, cl_Name c)])) ns ""])%list)) ;;
  mret i.
Definition set_dep (i : nat) (d : tester_deployment) (podName : string) (ns : string) : M unit :=
  updates (set_deps (<[i := mkTestDeployment d ns podName]>)).

(** The pods of the deployment: the name of the first one is kept. *)
Definition dep_Create_ (i : nat) : M unit :=
  t ← the_dep i;
  '(d, err) ← kube_call zero_tester_deployment (cdep_Create (tde_namespace t) (tde_deployment t));
  set_dep i d (tde_podName t) (tde_namespace t) ;;
  ExpectNoError err ;;
  err ← kube_do (fw_WaitForDeploymentComplete d);
  ExpectNoError err ;;
  '(pods, err) ← kube_call [] (fw_GetPodsForDeployment d);
  ExpectNoError err ;;
  p ← index pods 0;
  set_dep i d (tp_Name p) (tde_namespace t).
Definition dep_WaitForPodReady (i : nat) : M unit :=
  t ← the_dep i;
  '(pods, err) ← kube_call [] (fw_GetPodsForDeployment (tde_deployment t));
  ExpectNoError err ;;
  p ← index pods 0;
  set_dep i (tde_deployment t) (tp_Name p) (tde_namespace t) ;;
  err ← kube_do (fw_WaitForPodRunning (tde_namespace t) p);
  ExpectNoError err.
Definition dep_Exec (i : nat) (command : list string) (expectedString : string) : M unit :=
  t ← the_dep i;
  err ← kube_do (fw_LookForStringInPodExec (tde_namespace t) (tde_podName t) command
                   expectedString execTimeout);
  ExpectNoError err.
(** A pod that is not there any more is deleted. *)
Definition dep_DeletePodAndWait (i : nat) : M unit :=
  t ← the_dep i;
  err ← kube_do (cpod_Delete (tde_namespace t) (tde_podName t));
  match err with
  | Some e =>
      if decide (err_is e = NotFound) then mret tt
      else ExpectNoError (errorf ("pod " +:+ tde_podName t +:+ " Delete API error: "
                                  +:+ err_text e))
  | None =>
      err ← kube_do (fw_WaitForPodNoLongerRunning (tde_podName t) (tde_namespace t));
      match err with
      | Some e =>
          if decide (err_is e = NotFound) then mret tt
          else ExpectNoError (errorf ("pod " +:+ tde_podName t +:+
                                      " error waiting for delete: " +:+ err_text e))
      | None => mret tt
      end
  end.
Definition dep_Logs (i : nat) : M (string * error) :=
  t ← the_dep i; podLogs (tde_podName t) (tde_namespace t).
Definition dep_Cleanup (i : nat) : M unit :=
  t ← the_dep i;
  dep_Logs i ;;
  err ← kube_do (cdep_Delete (tde_namespace t) (td_Name (tde_deployment t)));
  ExpectNoError err.

Definition run_cleanup (c : cleanup) : M unit :=
  match c with
  | CleanupSC i => sc_Cleanup i
  | CleanupPVC i => pvc_Cleanup i
  | CleanupPod i => pod_Cleanup i
  | CleanupDeployment i => dep_Cleanup i
  end.

(** *** Setting up (testsuites/specs.go) *)

(** The driver's name and the parameters of the storage classes, and the namespace. *)
Variable driverName : string.
Variable parameters : gmap string string.
Variable ns : string.

Definition volume_class (volume : VolumeDetails) : storage_class :=
  GetDynamicProvisionStorageClass driverName parameters (v_MountOptions volume)
    (v_ReclaimPolicy volume) (v_VolumeBindingMode volume) (v_AllowedTopologyValues volume) ns.

(** A claim whose volume is bound later is not looked at. *)
Definition SetupDynamicPersistentVolumeClaim (volume : VolumeDetails)
    : M (nat * list cleanup) :=
  tsc ← NewTestStorageClass ns (volume_class volume);
  created ← sc_Create_ tsc;
  tpvc ← match v_DataSource volume with
         | Some dataSource =>
             NewTestPersistentVolumeClaimWithDataSource ns (v_ClaimSize volume)
               (v_VolumeMode volume) created dataSource
         | None =>
             NewTestPersistentVolumeClaim ns (v_ClaimSize volume) (v_VolumeMode volume) created
         end;
  pvc_Create_ tpvc ;;
  (if decide (default VolumeBindingImmediate (v_VolumeBindingMode volume)
              = VolumeBindingImmediate)
   then pvc_WaitForBound tpvc ;; ValidateProvisionedPersistentVolume tpvc
   else mret tt) ;;
  mret (tpvc, [CleanupSC tsc; CleanupPVC tpvc]).

Definition numbered (prefix : string) (n : nat) : string :=
  prefix +:+ Itoa (Z.of_nat n + 1).
Definition mount_volume (tpod tpvc n : nat) (v : VolumeDetails) : M unit :=
  t ← the_pvc tpvc;
  SetupVolume tpod (tpvc_claim t) (numbered (vm_NameGenerate (v_VolumeMount v)) n)
    (numbered (vm_MountPathGenerate (v_VolumeMount v)) n) (vm_ReadOnly (v_VolumeMount v)).
Definition mount_block (tpod tpvc n : nat) (v : VolumeDetails) : M unit :=
  t ← the_pvc tpvc;
  SetupRawBlockVolume tpod (tpvc_claim t)
    (numbered (vd_NameGenerate (v_VolumeDevice v)) n) (vd_DevicePath (v_VolumeDevice v)).

(** Each volume in turn, with its number. *)
Definition setup_volumes (tpod : nat) (volumes : list VolumeDetails)
    (mount : nat → nat → nat → VolumeDetails → M unit) : M (list cleanup) :=
  r ← for_range (imap pair volumes) [] (λ '(n, v) cleanupFuncs,
        '(tpvc, funcs) ← SetupDynamicPersistentVolumeClaim v;
        mount tpod tpvc n v ;;
        mret (Next (cleanupFuncs ++ funcs)%list));
  no_return r.

Definition SetupWithDynamicVolumes (pod : PodDetails) : M (nat * list cleanup) :=
  tpod ← NewTestPod ns (pd_Cmd pod);
  cleanupFuncs ← setup_volumes tpod (pd_Volumes pod) mount_volume;
  mret (tpod, cleanupFuncs).
Definition SetupWithDynamicMultipleVolumes (pod : PodDetails) : M (nat * list cleanup) :=
  tpod ← NewTestPod ns (pd_Cmd pod);
  cleanupFuncs ← setup_volumes tpod (pd_Volumes pod) (λ tpod tpvc n v,
    match v_VolumeMode v with
    | Block => mount_block tpod tpvc n v
    | FileSystem => mount_volume tpod tpvc n v
    end);
  mret (tpod, cleanupFuncs).

(** The first volume only; the deployment is not made yet when its clean-up is noted. *)
Definition SetupDeployment (pod : PodDetails) : M (nat * list cleanup) :=
  volume ← index (pd_Volumes pod) 0;
  tsc ← NewTestStorageClass ns (volume_class volume);
  created ← sc_Create_ tsc;
  tpvc ← NewTestPersistentVolumeClaim ns (v_ClaimSize volume) (v_VolumeMode volume) created;
  pvc_Create_ tpvc ;;
  pvc_WaitForBound tpvc ;;
  ValidateProvisionedPersistentVolume tpvc ;;
  t ← the_pvc tpvc;
  tDeployment ← NewTestDeployment ns (pd_Cmd pod) (tpvc_claim t)
    (numbered (vm_NameGenerate (v_VolumeMount volume)) 0)
    (numbered (vm_MountPathGenerate (v_VolumeMount volume)) 0)
    (vm_ReadOnly (v_VolumeMount volume));
  mret (tDeployment, [CleanupSC tsc; CleanupPVC tpvc; CleanupDeployment tDeployment]).

(** *** The tests (testsuites/dynamically_provisioned_*.go) *)

Definition defer_ (l : list cleanup) : M unit := updates (set_defers (λ d, (reverse l ++ d)%list)).

(** The deferred functions, the last one first; a panic in one of them replaces the panic there
    was, and the others still run. *)
Fixpoint run_deferred (l : list cleanup) (why : option string) : M unit :=
  match l with
  | [] => match why with Some w => Panic w | None => mret tt end
  | c :: l =>
      r ← attempt (run_cleanup c);
      run_deferred l (match r with inl w => Some w | inr _ => why end)
  end.
Definition with_defers (body : M unit) : M unit :=
  updates (set_defers (λ _, [])) ;;
  r ← attempt body;
  l ← reads ci_defers;
  run_deferred l (match r with inl w => Some w | inr _ => None end).

(** The pods of a test, one after the other. *)
Definition each_pod (pods : list PodDetails) (body : PodDetails → M unit) : M unit :=
  r ← for_range pods tt (λ pod _, body pod ;; mret (Next tt)); no_return r.

Definition DynamicallyProvisionedCmdVolumeTest_Run (pods : list PodDetails) : M unit :=
  with_defers (each_pod pods (λ pod,
    '(tpod, cleanup) ← SetupWithDynamicVolumes pod;
    defer_ cleanup ;;
    pod_Create_ tpod ;;
    defer_ [CleanupPod tpod] ;;
    pod_WaitForSuccess tpod)).

Definition DynamicallyProvisionedCollocatedPodTest_Run (pods : list PodDetails)
    (colocatePods : bool) : M unit :=
  with_defers (
    r ← for_range pods "" (λ pod nodeName,
          '(tpod, cleanup) ← SetupWithDynamicVolumes pod;
          (if decide (colocatePods = true ∧ nodeName ≠ "")
           then SetNodeSelector tpod {["name" := nodeName]} else mret tt) ;;
          defer_ cleanup ;;
          pod_Create_ tpod ;;
          defer_ [CleanupPod tpod] ;;
          pod_WaitForRunning tpod ;;
          t ← the_pod tpod;
          mret (Next (tp_NodeName (tpo_pod t))));
    no_return r ;; mret tt).

Definition DynamicallyProvisionedDeletePodTest_Run (pod : PodDetails)
    (podCheck : option PodExecCheck) : M unit :=
  with_defers (
    '(tDeployment, cleanup) ← SetupDeployment pod;
    defer_ cleanup ;;
    dep_Create_ tDeployment ;;
    dep_WaitForPodReady tDeployment ;;
    (match podCheck with
     | Some c => dep_Exec tDeployment (ec_Cmd c) (ec_ExpectedString c)
     | None => mret tt
     end) ;;
    dep_DeletePodAndWait tDeployment ;;
    dep_WaitForPodReady tDeployment ;;
    match podCheck with
    | Some c => dep_Exec tDeployment (ec_Cmd c) (ec_ExpectedString c +:+ ec_ExpectedString c)
    | None => mret tt
    end).

Definition DynamicallyProvisionedPodWithMultiplePVsTest_Run (pods : list PodDetails) : M unit :=
  with_defers (each_pod pods (λ pod,
    '(tpod, cleanup) ← SetupWithDynamicMultipleVolumes pod;
    defer_ cleanup ;;
    pod_Create_ tpod ;;
    defer_ [CleanupPod tpod] ;;
    pod_WaitForSuccess tpod)).

Definition DynamicallyProvisionedReadOnlyVolumeTest_Run (pods : list PodDetails) : M unit :=
  with_defers (each_pod pods (λ pod,
    '(tpod, cleanup) ← SetupWithDynamicVolumes pod;
    defer_ cleanup ;;
    pod_Create_ tpod ;;
    defer_ [CleanupPod tpod] ;;
    pod_WaitForFailure tpod ;;
    '(body, err) ← pod_Logs tpod;
    ExpectNoError err ;;
    Equal (Contains body "Read-only file system") "the logs of the pod")).

(** The claim is cleaned up by the test, and once more when it ends. *)
Definition DynamicallyProvisionedReclaimPolicyTest_Run (volumes : list VolumeDetails) : M unit :=
  with_defers (
    r ← for_range volumes tt (λ volume _,
          '(tPvc, cleanup) ← SetupDynamicPersistentVolumeClaim volume;
          defer_ cleanup ;;
          pvc_Cleanup tPvc ;;
          policy ← pvc_ReclaimPolicy tPvc;
          (if decide (policy = ReclaimRetain) then
             pvc_WaitForPersistentVolumePhase tPvc VolumeReleased ;;
             DeleteBoundPersistentVolume tPvc
           else mret tt) ;;
          mret (Next tt));
    no_return r).
End Objects.
