(* ===== verification/CsiTheorems.v ===== *)
(** * Theorems about the CSI tests

    What a test that passes has deleted; what a test whose set-up fails leaves behind; the wait
    for a claim that looks elsewhere; pods that are meant to share a node. *)

From stdpp Require Import base gmap strings list.
From S2P Require Import Prelude GoLib Json Http Kube Total CsiSuites.

(** ** Programs that may be left through a panic *)

Lemma run_attempt {S A} (p : prog S A) s :
  run (attempt p) s =
  match run p s with
  | (Ret a, s') => (Ret (inr a), s')
  | (Panicked why, s') => (Ret (inl why), s')
  | (Exhausted, s') => (Exhausted, s')
  | (Blocked, s') => (Blocked, s')
  end.
Proof.
  revert s. induction p as [a|why| |X f k IH]; intros s; simpl; [done..|].
  destruct (f s) as [[x s']|]; [apply IH|done].
Qed.
Lemma keeps_attempt {S A} (I : S → Prop) (p : prog S A) : keeps I p → keeps I (attempt p).
Proof. induction p as [a|why| |X f k IH]; simpl; [done..|]. intros [Hf Hk]. auto. Qed.
#[export] Hint Resolve keeps_attempt : keeps.

Section Tests.
Context {W : Type} `{CsiApi W} `{Clock W} `{!CsiTexts} (fuel : nat)
        (driverName : string) (parameters : gmap string string) (ns : string).
Notation State := (Csi W).
Implicit Types s : State.

(** The six tests. *)
Inductive csi_test : Type :=
| CmdVolumeTest (pods : list PodDetails)
| CollocatedPodTest (pods : list PodDetails) (colocatePods : bool)
| DeletePodTest (pod : PodDetails) (podCheck : option PodExecCheck)
| PodWithMultiplePVsTest (pods : list PodDetails)
| ReadOnlyVolumeTest (pods : list PodDetails)
| ReclaimPolicyTest (volumes : list VolumeDetails).
Definition csi_run (t : csi_test) : prog State unit :=
  match t with
  | CmdVolumeTest pods =>
      DynamicallyProvisionedCmdVolumeTest_Run fuel driverName parameters ns pods
  | CollocatedPodTest pods b =>
      DynamicallyProvisionedCollocatedPodTest_Run fuel driverName parameters ns pods b
  | DeletePodTest pod check =>
      DynamicallyProvisionedDeletePodTest_Run fuel driverName parameters ns pod check
  | PodWithMultiplePVsTest pods =>
      DynamicallyProvisionedPodWithMultiplePVsTest_Run fuel driverName parameters ns pods
  | ReadOnlyVolumeTest pods =>
      DynamicallyProvisionedReadOnlyVolumeTest_Run fuel driverName parameters ns pods
  | ReclaimPolicyTest volumes =>
      DynamicallyProvisionedReclaimPolicyTest_Run fuel driverName parameters ns volumes
  end.

(** ** What is made is noted for the end *)

(** The objects that a test has made since the state [s0]. *)
Definition made s0 s (c : cleanup) : Prop :=
  match c with
  | CleanupSC i => length (ci_scs s0) ≤ i < length (ci_scs s)
  | CleanupPVC i => length (ci_pvcs s0) ≤ i < length (ci_pvcs s)
  | CleanupPod i => length (ci_pods s0) ≤ i < length (ci_pods s)
  | CleanupDeployment i => length (ci_deps s0) ≤ i < length (ci_deps s)
  end.
(** Each of them is noted, or is one of [l]. *)
Definition noted s0 (l : list cleanup) s : Prop :=
  ∀ c, made s0 s c → c ∈ ci_defers s ∨ c ∈ l.

#[local] Instance noted_world s0 l : WorldFree (noted s0 l).
Proof. by intros s w Hs. Qed.
Lemma noted_weaken s0 l l' s : l ⊆ l' → noted s0 l s → noted s0 l' s.
Proof. intros Hl Hs c Hc. destruct (Hs c Hc); [by left|right; by apply Hl]. Qed.

Section Kept.
Variables (s0 : State) (l : list cleanup).
Notation I := (noted s0 l).
Lemma keeps_noted (f : State → State) :
  (∀ s, length (ci_scs (f s)) = length (ci_scs s) ∧
        length (ci_pvcs (f s)) = length (ci_pvcs s) ∧
        length (ci_pods (f s)) = length (ci_pods s) ∧
        length (ci_deps (f s)) = length (ci_deps s) ∧ ci_defers (f s) = ci_defers s) →
  keeps I (updates f).
Proof.
  intros Hf. apply keeps_updates. intros s Hs c Hc.
  destruct (Hf s) as (E1 & E2 & E3 & E4 & ->). apply Hs.
  destruct c; simpl in *; congruence.
Qed.
End Kept.
End Tests.

Ltac keeps_shape := apply keeps_noted; intros; simpl; rewrite ?length_insert; done.
#[export] Hint Extern 1 (keeps (noted _ _) (updates _)) => keeps_shape : keeps.
#[export] Hint Extern 1 (WorldFree (noted _ _)) => apply noted_world : keeps typeclass_instances.

Section Kept.
Context {W : Type} `{CsiApi W} `{Clock W} `{!CsiTexts} (fuel : nat) (s0 : Csi W)
        (l : list cleanup).
Notation I := (noted s0 l).

Lemma keeps_ExpectNoError err : keeps I (ExpectNoError err).
Proof. unfold ExpectNoError. solve_keeps. Qed.
Lemma keeps_Equal b what : keeps I (Equal b what).
Proof. unfold Equal. solve_keeps. Qed.
Lemma keeps_csi_index {A} (x : list A) i : keeps I (index x i).
Proof. unfold index. solve_keeps. Qed.
Lemma keeps_set_claims i t r c : keeps I (set_claims i t r c).
Proof. unfold set_claims. solve_keeps. Qed.
Hint Resolve keeps_ExpectNoError keeps_Equal keeps_csi_index keeps_set_claims : keeps.
Ltac by_unfolding := unfold the_sc, the_pvc, the_pod, the_dep, set_volume, set_pod, set_dep,
  podLogs, no_return; solve_keeps.
Lemma keeps_pvc_Create i : keeps I (pvc_Create_ i).
Proof. unfold pvc_Create_, generatePVC. by_unfolding. Qed.
Lemma keeps_sc_Create i : keeps I (sc_Create_ i).
Proof. unfold sc_Create_. by_unfolding. Qed.
Lemma keeps_WaitForBound i : keeps I (pvc_WaitForBound i).
Proof. unfold pvc_WaitForBound. by_unfolding. Qed.
Lemma keeps_Validate i : keeps I (ValidateProvisionedPersistentVolume i).
Proof. unfold ValidateProvisionedPersistentVolume, first_term. by_unfolding. Qed.
Lemma keeps_removeFinalizers i : keeps I (removeFinalizers i).
Proof. unfold removeFinalizers. by_unfolding. Qed.
Hint Resolve keeps_removeFinalizers : keeps.
Lemma keeps_pvc_Cleanup i : keeps I (pvc_Cleanup fuel i).
Proof. unfold pvc_Cleanup, waitForPersistentVolumeClaimDeleted. by_unfolding. Qed.
Lemma keeps_mount_volume tpod tpvc n v : keeps I (mount_volume tpod tpvc n v).
Proof. unfold mount_volume, SetupVolume. by_unfolding. Qed.
Lemma keeps_mount_block tpod tpvc n v : keeps I (mount_block tpod tpvc n v).
Proof. unfold mount_block, SetupRawBlockVolume. by_unfolding. Qed.
Lemma keeps_SetNodeSelector i m : keeps I (SetNodeSelector i m).
Proof. unfold SetNodeSelector. by_unfolding. Qed.
Lemma keeps_pod_Create i : keeps I (pod_Create_ i).
Proof. unfold pod_Create_. by_unfolding. Qed.
Lemma keeps_WaitForSuccess i : keeps I (pod_WaitForSuccess i).
Proof. unfold pod_WaitForSuccess. by_unfolding. Qed.
Lemma keeps_WaitForRunning i : keeps I (pod_WaitForRunning i).
Proof. unfold pod_WaitForRunning. by_unfolding. Qed.
Lemma keeps_WaitForFailure i : keeps I (pod_WaitForFailure i).
Proof. unfold pod_WaitForFailure. by_unfolding. Qed.
Lemma keeps_pod_Logs i : keeps I (pod_Logs i).
Proof. unfold pod_Logs. by_unfolding. Qed.
Lemma keeps_dep_Create i : keeps I (dep_Create_ i).
Proof. unfold dep_Create_. by_unfolding. Qed.
Lemma keeps_dep_steps i :
  keeps I (dep_WaitForPodReady i) ∧ keeps I (dep_DeletePodAndWait i) ∧
  (∀ c e, keeps I (dep_Exec i c e)).
Proof.
  unfold dep_WaitForPodReady, dep_DeletePodAndWait, dep_Exec. split_and!; by_unfolding.
Qed.
Lemma keeps_reclaim i phase :
  keeps I (pvc_ReclaimPolicy i) ∧ keeps I (pvc_WaitForPersistentVolumePhase i phase) ∧
  keeps I (DeleteBoundPersistentVolume i).
Proof.
  unfold pvc_ReclaimPolicy, pvc_WaitForPersistentVolumePhase, DeleteBoundPersistentVolume.
  split_and!; by_unfolding.
Qed.
End Kept.
#[export] Hint Resolve keeps_ExpectNoError keeps_Equal keeps_pvc_Create keeps_sc_Create
  keeps_WaitForBound keeps_Validate keeps_pvc_Cleanup keeps_SetNodeSelector keeps_pod_Create
  keeps_dep_Create keeps_mount_volume keeps_mount_block keeps_WaitForSuccess
  keeps_WaitForRunning keeps_WaitForFailure keeps_pod_Logs : keeps.

(** ** The set-up *)

Section Noted.
Context {W : Type} `{CsiApi W} `{Clock W} `{!CsiTexts} (fuel : nat)
        (driverName : string) (parameters : gmap string string) (ns : string).
Notation State := (Csi W).
Variable s0 : State.
Notation J := (noted s0).
Notation any := (λ _ : State, True).

(** A step that makes nothing. *)
Lemma noted_bind {A B} l (p : prog State A) (k : A → prog State B) R :
  keeps (J l) p → (∀ a, triple (J l) (k a) R any) → triple (J l) (p ≫= k) R any.
Proof.
  intros Hp Hk. eapply triple_bind; [|exact Hk]. by apply triple_keeps_weaken.
Qed.
Lemma noted_last {A} l (p : prog State A) (R : A → State → Prop) :
  keeps (J l) p → (∀ a s, J l s → R a s) → triple (J l) p R any.
Proof.
  intros Hp HR. eapply triple_weaken; [by apply triple_keeps|done|apply HR|done].
Qed.

(** A new object is one of those to be noted. *)
Lemma noted_new l (f : State → State) (n : State → nat) (C : nat → cleanup) :
  (∀ s c, made s0 (f s) c → made s0 s c ∨ c = C (n s)) →
  (∀ s, ci_defers (f s) = ci_defers s) →
  triple (J l) (i ← reads n; updates f ;; mret i) (λ i, J (C i :: l)) any.
Proof.
  intros Hf Hd s Hs. rewrite run_bind, run_reads. cbn [seq_run].
  rewrite run_bind, run_updates. cbn [seq_run]. rewrite run_done.
  intros c Hc. rewrite Hd. destruct (Hf s c Hc) as [Hm| ->]; [|right; set_solver].
  destruct (Hs c Hm); [by left|right; set_solver].
Qed.
Ltac new_object :=
  apply noted_new; [|done];
  intros ? []; simpl; rewrite ?length_app; simpl; intros;
  try (left; lia);
  match goal with |- ?P ∨ ?c ?i = ?c ?n => destruct (decide (i = n)); [right; congruence|left; lia] end.
Lemma noted_NewTestStorageClass l sc :
  triple (J l) (NewTestStorageClass ns sc) (λ i, J (CleanupSC i :: l)) any.
Proof. new_object. Qed.
Lemma noted_new_pvc l t : triple (J l) (new_pvc t) (λ i, J (CleanupPVC i :: l)) any.
Proof. new_object. Qed.
Lemma noted_NewTestPod l cmd : triple (J l) (NewTestPod ns cmd) (λ i, J (CleanupPod i :: l)) any.
Proof. new_object. Qed.
Lemma noted_NewTestDeployment l cmd pvc v m ro :
  triple (J l) (NewTestDeployment ns cmd pvc v m ro) (λ i, J (CleanupDeployment i :: l)) any.
Proof.
  unfold NewTestDeployment. apply noted_bind; [solve_keeps|]. intros z. cbv zeta.
  apply noted_bind; [solve_keeps|]. intros c. new_object.
Qed.

Lemma noted_SetupClaim l v :
  triple (J l) (SetupDynamicPersistentVolumeClaim driverName parameters ns v)
    (λ r, J (r.2 ++ l)) any.
Proof.
  unfold SetupDynamicPersistentVolumeClaim.
  eapply triple_bind; [apply noted_NewTestStorageClass|]. intros tsc.
  apply noted_bind; [solve_keeps|]. intros created.
  eapply (triple_bind _ _ _ (λ i, J (CleanupPVC i :: CleanupSC tsc :: l))).
  { destruct (v_DataSource v); apply noted_new_pvc. }
  intros tpvc. apply noted_bind; [solve_keeps|]. intros _.
  apply noted_bind; [solve_keeps|]. intros _.
  apply triple_ret. intros s. apply noted_weaken. set_solver.
Qed.
Lemma noted_setup_volumes l tpod volumes mount :
  (∀ l a b c d, keeps (J l) (mount a b c d)) →
  triple (J l) (setup_volumes driverName parameters ns tpod volumes mount)
    (λ r, J (r ++ l)) any.
Proof.
  intros Hm. unfold setup_volumes.
  eapply (triple_bind _ _ _ (λ r s, match r with inl b => J (b ++ l) s | inr _ => True end)).
  - apply (triple_for_range (λ b, J (b ++ l)) (λ b, J (b ++ l)) (λ _ _, True) any
      (imap pair volumes) []).
    + done.
    + intros [n v] b _. eapply triple_bind; [apply noted_SetupClaim|].
      intros [tpvc funcs]. apply noted_bind; [apply Hm|]. intros _.
      apply triple_ret. intros s. apply noted_weaken. set_solver.
  - intros [b|[]]. by apply triple_ret.
Qed.

Lemma noted_defer l l' : triple (J (l ++ l')) (defer_ l) (λ _, J l') any.
Proof.
  intros s Hs. unfold defer_. rewrite run_updates. intros c Hc. simpl.
  destruct (Hs c) as [?|Hin]; [by destruct c|left; set_solver|].
  apply elem_of_app in Hin as [?|?]; [left; rewrite elem_of_app, elem_of_reverse; by left|by right].
Qed.

(** A pod whose volumes are set up, and whatever comes after it was created. *)
Lemma noted_pod_rest {A} l tpod funcs (after : prog State A) :
  (∀ l, keeps (J l) after) →
  triple (J (funcs ++ CleanupPod tpod :: l))
    (defer_ funcs ;; pod_Create_ tpod ;; defer_ [CleanupPod tpod] ;; after) (λ _, J l) any.
Proof.
  intros Ha. eapply triple_bind; [apply noted_defer|]. intros ?.
  apply noted_bind; [solve_keeps|]. intros ?.
  eapply triple_bind; [apply (noted_defer [CleanupPod tpod])|]. intros ?.
  by apply noted_last.
Qed.
Lemma noted_setup_pod l pod :
  triple (J l) (SetupWithDynamicVolumes driverName parameters ns pod)
    (λ r, J (r.2 ++ CleanupPod r.1 :: l)) any ∧
  triple (J l) (SetupWithDynamicMultipleVolumes driverName parameters ns pod)
    (λ r, J (r.2 ++ CleanupPod r.1 :: l)) any.
Proof.
  split; (eapply triple_bind; [apply noted_NewTestPod|]; intros tpod;
    eapply triple_bind; [apply noted_setup_volumes|intros funcs; by apply triple_ret]).
  - intros. apply keeps_mount_volume.
  - intros l' tpod' tpvc n v. destruct (v_VolumeMode v);
      [apply keeps_mount_volume|apply keeps_mount_block].
Qed.

Lemma noted_each_pod pods (body : PodDetails → prog State unit) :
  (∀ pod, triple (J []) (body pod) (λ _, J []) any) →
  triple (J []) (each_pod pods body) (λ _, J []) any.
Proof.
  intros Hb. unfold each_pod.
  eapply (triple_bind _ _ _ (λ r s, match r with inl b => J [] s | inr _ => True end)).
  - apply (triple_for_range (λ _, J []) (λ _, J []) (λ _ _, True) any pods tt); [done|].
    intros pod [] _. eapply triple_bind; [apply Hb|]. intros []. by apply triple_ret.
  - intros [[]|[]]. by apply triple_ret.
Qed.

Lemma noted_SetupDeployment pod :
  triple (J []) (SetupDeployment driverName parameters ns pod) (λ r, J (r.2 ++ [])) any.
Proof.
  unfold SetupDeployment. apply noted_bind; [solve_keeps|]. intros volume.
  eapply triple_bind; [apply noted_NewTestStorageClass|]. intros tsc.
  apply noted_bind; [solve_keeps|]. intros created.
  eapply triple_bind; [apply noted_new_pvc|]. intros tpvc.
  do 3 (apply noted_bind; [solve_keeps|]; intros _).
  apply noted_bind; [unfold the_pvc; solve_keeps|]. intros t.
  eapply triple_bind; [apply noted_NewTestDeployment|]. intros d.
  apply triple_ret. intros s. apply noted_weaken. set_solver.
Qed.
Lemma noted_delete_pod pod podCheck :
  triple (J [])
    ('(tDeployment, cleanup) ← SetupDeployment driverName parameters ns pod;
     defer_ cleanup ;;
     dep_Create_ tDeployment ;;
     dep_WaitForPodReady tDeployment ;;
     (match podCheck with
      | Some c => dep_Exec tDeployment (ec_Cmd c) (ec_ExpectedString c)
      | None => mret tt
      end) ;;
     dep_DeletePodAndWait tDeployment ;;
     dep_WaitForPodReady tDeployment ;;
     match podCheck with
     | Some c => dep_Exec tDeployment (ec_Cmd c) (ec_ExpectedString c +:+ ec_ExpectedString c)
     | None => mret tt
     end) (λ _, J []) any.
Proof.
  eapply triple_bind; [apply noted_SetupDeployment|]. intros [d funcs].
  eapply triple_bind; [apply noted_defer|]. intros ?.
  destruct (keeps_dep_steps s0 [] d) as (Hready & Hdelete & Hexec).
  apply noted_bind; [solve_keeps|]. intros ?.
  apply noted_bind; [done|]. intros ?.
  apply noted_bind; [destruct podCheck; [apply Hexec|solve_keeps]|]. intros ?.
  apply noted_bind; [done|]. intros ?. apply noted_bind; [done|]. intros ?.
  apply noted_last; [destruct podCheck; [apply Hexec|solve_keeps]|done].
Qed.
Lemma noted_reclaim volumes :
  triple (J [])
    (r ← for_range volumes tt (λ volume _,
       '(tPvc, cleanup) ← SetupDynamicPersistentVolumeClaim driverName parameters ns volume;
       defer_ cleanup ;;
       pvc_Cleanup fuel tPvc ;;
       policy ← pvc_ReclaimPolicy tPvc;
       (if decide (policy = ReclaimRetain) then
          pvc_WaitForPersistentVolumePhase tPvc VolumeReleased ;;
          DeleteBoundPersistentVolume tPvc
        else mret tt) ;;
       mret (Next tt));
     no_return r) (λ _, J []) any.
Proof.
  eapply (triple_bind _ _ _ (λ r s, match r with inl b => J [] s | inr _ => True end)).
  - apply (triple_for_range (λ _, J []) (λ _, J []) (λ _ _, True) any volumes tt); [done|].
    intros v [] _. eapply triple_bind; [apply noted_SetupClaim|]. intros [tpvc funcs].
    eapply triple_bind; [apply noted_defer|]. intros ?.
    destruct (keeps_reclaim s0 [] tpvc VolumeReleased) as (Hpolicy & Hphase & Hdelete).
    apply noted_bind; [solve_keeps|]. intros ?.
    apply noted_bind; [done|]. intros policy.
    apply noted_bind; [|intros ?; by apply triple_ret].
    case_decide; [apply keeps_bind; auto|solve_keeps].
  - intros [[]|[]]. by apply triple_ret.
Qed.

Lemma noted_body t :
  ∃ body, csi_run fuel driverName parameters ns t = with_defers fuel body ∧
    triple (J []) body (λ _, J []) any.
Proof.
  destruct t; (eexists; split; [reflexivity|]).
  - apply noted_each_pod. intros pod.
    eapply triple_bind; [apply noted_setup_pod|]. intros [tpod funcs].
    apply noted_pod_rest. intros. solve_keeps.
  - eapply (triple_bind _ _ _ (λ r s, match r with inl b => J [] s | inr _ => True end)).
    + apply (triple_for_range (λ _, J []) (λ _, J []) (λ _ _, True) any pods ""); [done|].
      intros pod nodeName _. eapply triple_bind; [apply noted_setup_pod|].
      intros [tpod funcs]. apply noted_bind; [solve_keeps|]. intros ?.
      eapply triple_weaken; [apply (noted_pod_rest []) | done | | done].
      * intros l. unfold the_pod. solve_keeps.
      * by intros [?|?|?] ? ?.
    + intros [?|[]]. by apply triple_ret.
  - apply noted_delete_pod.
  - apply noted_each_pod. intros pod.
    eapply triple_bind; [apply noted_setup_pod|]. intros [tpod funcs].
    apply noted_pod_rest. intros. solve_keeps.
  - apply noted_each_pod. intros pod.
    eapply triple_bind; [apply noted_setup_pod|]. intros [tpod funcs].
    apply noted_pod_rest. intros l. solve_keeps.
  - apply noted_reclaim.
Qed.
End Noted.

(** ** What is noted is deleted *)

Inductive object : Type :=
| StorageClassObj (name : string)
| ClaimObj (ns name : string)
| PodObj (ns name : string)
| DeploymentObj (ns name : string).

Section Deleted.
Context {W : Type} `{CsiApi W} `{Clock W} `{!CsiTexts} (fuel : nat)
        (driverName : string) (parameters : gmap string string) (ns : string).
Notation State := (Csi W).
Implicit Types s : State.

(** The object of the API that a clean-up function deletes. *)
Definition target s (c : cleanup) : option object :=
  match c with
  | CleanupSC i => t ← ci_scs s !! i; Some (StorageClassObj (cs_Name (tsc_storageClass t)))
  | CleanupPVC i =>
      t ← ci_pvcs s !! i; c ← tpvc_claim t; Some (ClaimObj (tpvc_namespace t) (cl_Name c))
  | CleanupPod i => t ← ci_pods s !! i; Some (PodObj (tpo_namespace t) (tp_Name (tpo_pod t)))
  | CleanupDeployment i =>
      t ← ci_deps s !! i;
      Some (DeploymentObj (tde_namespace t) (td_Name (tde_deployment t)))
  end.

Definition preserves {A} (P : W → Prop) (f : answer W A) : Prop := ∀ w, P w → P (f w).2.

(** A fact about objects that a request to delete them establishes when it is answered
    without an error, and that no request of a clean-up takes away. *)
Record deletion (gone : W → object → Prop) : Prop := {
  del_class n w : (csc_Delete n w).1 = inr tt → gone (csc_Delete n w).2 (StorageClassObj n);
  del_claim n m w :
    (fw_DeletePVC n m w).1 = inr tt → gone (fw_DeletePVC n m w).2 (ClaimObj m n);
  del_pod m n w :
    (fw_DeletePodOrFail m n w).1 = inr tt → gone (fw_DeletePodOrFail m n w).2 (PodObj m n);
  del_deployment m n w :
    (cdep_Delete m n w).1 = inr tt → gone (cdep_Delete m n w).2 (DeploymentObj m n);
  kept_class o n : preserves (λ w, gone w o) (csc_Delete n);
  kept_claim o n m : preserves (λ w, gone w o) (fw_DeletePVC n m);
  kept_pod o m n : preserves (λ w, gone w o) (fw_DeletePodOrFail m n);
  kept_deployment o m n : preserves (λ w, gone w o) (cdep_Delete m n);
  kept_logs o m n : preserves (λ w, gone w o) (cpod_Logs m n);
  kept_get o n : preserves (λ w, gone w o) (cpv_Get n);
  kept_patch o n b : preserves (λ w, gone w o) (cpv_Patch n b);
  kept_wait o n p d : preserves (λ w, gone w o) (fw_WaitForPVDeleted n p d);
  kept_look o m n : preserves (λ w, gone w o) (cpvc_Get m n);
  kept_now o w : gone w o → gone (clock_now w).2 o;
  kept_sleep o d w : gone w o → gone (clock_sleep d w) o;
}.

Variable gone : W → object → Prop.
Hypothesis Hdel : deletion gone.

(** The store as it is, and a fact about an object. *)
Definition store_is s0 s : Prop := same_but_world s0 s.
Definition is_gone (o : object) s : Prop := gone (ci_world s) o.

Lemma keeps_gone_outside {A} o (f : W → A * W) :
  (∀ w, gone w o → gone (f w).2 o) → keeps (is_gone o) (outside f).
Proof. intros Hf. apply keeps_action. intros s Hs. by apply Hf. Qed.
Lemma keeps_gone_call {A} o (zero : A) (f : answer W A) :
  preserves (λ w, gone w o) f → keeps (is_gone o) (kube_call zero f).
Proof.
  intros Hf. apply keeps_bind; [by apply keeps_gone_outside|]. intros [?|?]; apply keeps_mret.
Qed.
Lemma keeps_gone_do o (f : answer W unit) :
  preserves (λ w, gone w o) f → keeps (is_gone o) (kube_do f).
Proof. intros Hf. apply keeps_bind; [by apply keeps_gone_call|]. intros [? ?]; apply keeps_mret. Qed.
Hint Resolve keeps_gone_call keeps_gone_do : keeps.
Hint Resolve kept_class kept_claim kept_pod kept_deployment kept_logs kept_get kept_patch
  kept_wait kept_look : keeps.

Lemma keeps_gone_now o : keeps (is_gone o) (time_Now (S := State)).
Proof. apply keeps_gone_outside. intros w. by apply kept_now. Qed.
Lemma keeps_gone_sleep o d : keeps (is_gone o) (time_Sleep (S := State) d).
Proof. apply keeps_gone_outside. intros w. by apply kept_sleep. Qed.
Hint Resolve keeps_gone_now keeps_gone_sleep : keeps.

Lemma keeps_gone_cleanup o c : keeps (is_gone o) (run_cleanup fuel c).
Proof.
  destruct c; cbn [run_cleanup].
  - unfold sc_Cleanup, the_sc, ExpectNoError. solve_keeps.
  - unfold pvc_Cleanup, removeFinalizers, waitForPersistentVolumeClaimDeleted, the_pvc,
      ExpectNoError. solve_keeps.
  - unfold pod_Cleanup, cleanupPodOrFail, podLogs, the_pod, ExpectNoError. solve_keeps.
  - unfold dep_Cleanup, dep_Logs, podLogs, the_dep, ExpectNoError. solve_keeps.
Qed.
Lemma keeps_store_cleanup s0 c : keeps (store_is s0) (run_cleanup fuel c).
Proof.
  unfold store_is. destruct c; cbn [run_cleanup].
  - unfold sc_Cleanup, the_sc, ExpectNoError. solve_keeps.
  - unfold pvc_Cleanup, removeFinalizers, waitForPersistentVolumeClaimDeleted, the_pvc,
      ExpectNoError. solve_keeps.
  - unfold pod_Cleanup, cleanupPodOrFail, podLogs, the_pod, ExpectNoError. solve_keeps.
  - unfold dep_Cleanup, dep_Logs, podLogs, the_dep, ExpectNoError. solve_keeps.
Qed.

(** A request that deletes, the error of which must be nil. *)
Lemma do_then_gone o (f : answer W unit) (k : error → prog State unit) s s' :
  (∀ w, (f w).1 = inr tt → gone (f w).2 o) →
  (∀ e s1, (run (k (Some e)) s1).1 ≠ Ret tt) → keeps (is_gone o) (k None) →
  run (err ← kube_do f; k err) s = (Ret tt, s') → is_gone o s'.
Proof.
  intros Hf Hk Hkeep E. rewrite run_bind, run_kube_do in E. cbn [seq_run] in E.
  destruct (f (world s)).1 as [e|[]] eqn:Ef.
  - by pose proof (Hk e (set_world (f (world s)).2 s)) as Hn; rewrite E in Hn.
  - pose proof (keeps_run _ _ (set_world (f (world s)).2 s) Hkeep) as Hr.
    rewrite E in Hr. apply Hr. unfold is_gone. simpl. by apply Hf.
Qed.
Lemma expected_no_error {A} e (k : unit → prog State A) s a :
  (run (x ← ExpectNoError (Some e); k x) s).1 ≠ Ret a.
Proof. done. Qed.

(** A clean-up that comes to its end has deleted its object. *)
Lemma cleanup_deletes s c s' o :
  run (run_cleanup fuel c) s = (Ret tt, s') → target s c = Some o → is_gone o s'.
Proof.
  intros E Ht. destruct c as [i|i|i|i]; cbn [run_cleanup target] in *.
  - unfold sc_Cleanup, the_sc in E. rewrite !run_bind, run_reads in E. cbn [seq_run] in E.
    destruct (ci_scs s !! i) as [t|]; [|done]. rewrite run_deref_Some in E.
    cbn [seq_run] in E. injection Ht as <-. eapply do_then_gone; [..|exact E].
    + intros w. by apply del_class.
    + done.
    + unfold ExpectNoError. solve_keeps.
  - unfold pvc_Cleanup, the_pvc in E. rewrite !run_bind, run_reads in E. cbn [seq_run] in E.
    destruct (ci_pvcs s !! i) as [t|] eqn:Ei; [|done]. rewrite run_deref_Some in E.
    cbn [seq_run] in E. cbn [mbind option_bind] in Ht.
    destruct (tpvc_claim t) as [c|] eqn:Ec; [|done]. rewrite run_bind, run_deref_Some in E.
    cbn [seq_run] in E. injection Ht as <-. eapply do_then_gone; [..|exact E].
    + intros w. by apply del_claim.
    + done.
    + unfold removeFinalizers, waitForPersistentVolumeClaimDeleted, the_pvc, ExpectNoError.
      solve_keeps.
  - unfold pod_Cleanup, the_pod, cleanupPodOrFail in E.
    rewrite !run_bind, run_reads in E. cbn [seq_run] in E.
    destruct (ci_pods s !! i) as [t|]; [|done]. rewrite run_deref_Some in E.
    cbn [seq_run] in E. rewrite run_bind in E. injection Ht as <-.
    destruct (run (podLogs _ _) s) as [[x| | |] s1]; [|done..]. cbn [seq_run] in E.
    eapply do_then_gone; [..|exact E].
    + intros w. by apply del_pod.
    + done.
    + unfold ExpectNoError. solve_keeps.
  - unfold dep_Cleanup, the_dep in E. rewrite !run_bind, run_reads in E. cbn [seq_run] in E.
    destruct (ci_deps s !! i) as [t|]; [|done]. rewrite run_deref_Some in E.
    cbn [seq_run] in E. rewrite run_bind in E. injection Ht as <-.
    destruct (run (dep_Logs i) s) as [[x| | |] s1]; [|done..]. cbn [seq_run] in E.
    eapply do_then_gone; [..|exact E].
    + intros w. by apply del_deployment.
    + done.
    + unfold ExpectNoError. solve_keeps.
Qed.

Lemma target_world s0 s c : store_is s0 s → target s c = target s0 c.
Proof. intros [w ->]. by destruct c. Qed.

Lemma run_deferred_panics l w s s' : run (run_deferred fuel l (Some w)) s ≠ (Ret tt, s').
Proof.
  revert w s. induction l as [|c l IH]; intros w s; [done|]. cbn [run_deferred].
  rewrite run_bind, run_attempt.
  destruct (run (run_cleanup fuel c) s) as [[a|why| |] s1]; cbn [seq_run]; [apply IH..|done|done].
Qed.
(** Deferred functions that all come to their end have all deleted their objects. *)
Lemma run_deferred_deletes s0 l s s' :
  store_is s0 s → run (run_deferred fuel l None) s = (Ret tt, s') →
  store_is s0 s' ∧
  (∀ o, is_gone o s → is_gone o s') ∧
  ∀ c o, c ∈ l → target s0 c = Some o → is_gone o s'.
Proof.
  revert s. induction l as [|c l IH]; intros s Hs E.
  { cbn [run_deferred] in E. rewrite run_done in E. injection E as <-.
    split_and!; [done..|]. intros c o Hc. by apply not_elem_of_nil in Hc. }
  cbn [run_deferred] in E. rewrite run_bind, run_attempt in E.
  pose proof (keeps_run _ _ s (keeps_store_cleanup s0 c) Hs) as Hstore.
  destruct (run (run_cleanup fuel c) s) as [[[]|why| |] s1] eqn:Ec; cbn [seq_run] in E;
    [|by apply run_deferred_panics in E|done|done].
  cbn [snd] in Hstore. destruct (IH s1 Hstore E) as (Hs' & Hkeep & Hl).
  split_and!; [done| |].
  - intros o Ho. apply Hkeep.
    pose proof (keeps_run _ _ s (keeps_gone_cleanup o c) Ho) as Hr. by rewrite Ec in Hr.
  - intros c' o [->|Hc']%elem_of_cons Ht; [|by apply (Hl c')]. apply Hkeep.
    apply (cleanup_deletes s c); [done|]. by rewrite (target_world s0).
Qed.

(** (C28) A test of the CSI driver that passes has deleted everything it made: every storage
    class, claim, pod and deployment that the test set up on the way was noted to be cleaned
    up, and the request to delete it was answered without an error (and none of the clean-up
    functions that ran after it has brought the object back), in whatever order the tests'
    pods and volumes came and whatever the cluster answered. *)
Theorem passed_test_deletes_all (t : csi_test) s s' :
  run (csi_run fuel driverName parameters ns t) s = (Ret tt, s') →
  ∀ c o, made s s' c → target s' c = Some o → gone (ci_world s') o.
Proof.
  intros E c o Hmade Ht.
  destruct (noted_body fuel driverName parameters ns s t) as (body & Ebody & Hbody).
  rewrite Ebody in E. unfold with_defers in E.
  rewrite run_bind, run_updates in E. cbn [seq_run] in E.
  set (s1 := set_defers (λ _, []) s) in *.
  assert (noted s [] s1) as Hs1 by (intros []; simpl; lia).
  specialize (Hbody s1 Hs1). rewrite run_bind, run_attempt in E.
  destruct (run body s1) as [[[]|why| |] s2]; cbn [seq_run] in E; [| |done|done].
  - rewrite run_bind, run_reads in E. cbn [seq_run] in E.
    destruct (run_deferred_deletes s2 (ci_defers s2) s2 s') as (Hstore & _ & Hall); [|done|].
    { exists (ci_world s2). by destruct s2. }
    rewrite (target_world s2) in Ht by done. apply (Hall c o); [|done].
    destruct (Hbody c) as [?|Hin]; [|done|by apply not_elem_of_nil in Hin].
    destruct Hstore as [w ->]. by destruct c.
  - rewrite run_bind, run_reads in E. cbn [seq_run] in E. by apply run_deferred_panics in E.
Qed.
End Deleted.

(** ** A set-up that fails *)

Section Failures.
Context {W : Type} `{CsiApi W} `{Clock W} `{!CsiTexts} (fuel : nat)
        (driverName : string) (parameters : gmap string string) (ns : string).
Notation State := (Csi W).
Implicit Types s : State.

(** A fact about objects that creating or reading them establishes when it is answered without
    an error, and that no request of a set-up takes away. *)
Record creation (there : W → object → Prop) : Prop := {
  made_class c w c' :
    (csc_Create c w).1 = inr c' → there (csc_Create c w).2 (StorageClassObj (cs_Name c'));
  made_claim m c w c' :
    (cpvc_Create m c w).1 = inr c' → there (cpvc_Create m c w).2 (ClaimObj m (cl_Name c'));
  read_claim m n w c' :
    (cpvc_Get m n w).1 = inr c' → there (cpvc_Get m n w).2 (ClaimObj m (cl_Name c'));
  stays_class c o : preserves (λ w, there w o) (csc_Create c);
  stays_claim m c o : preserves (λ w, there w o) (cpvc_Create m c);
  stays_read m n o : preserves (λ w, there w o) (cpvc_Get m n);
  stays_volume n o : preserves (λ w, there w o) (cpv_Get n);
  stays_phase p m n o : preserves (λ w, there w o) (fw_WaitForClaimPhase p m n);
  stays_rand o w : there w o → there (rand_Int w).2 o;
}.

Section Left.
Variable there : W → object → Prop.
Hypothesis Hmade : creation there.
Variable s0 : State.

(** The API has given an object its name, and it is there. *)
Definition named_there (w : W) (name : string) (o : object) : Prop := name = "" ∨ there w o.
Definition class_ok (i : nat) (c : storage_class) (w : W) : Prop :=
  (length (ci_scs s0) ≤ i)%nat → named_there w (cs_Name c) (StorageClassObj (cs_Name c)).
Definition claim_ok (i : nat) (m : string) (c : option claim) (w : W) : Prop :=
  (length (ci_pvcs s0) ≤ i)%nat → ∀ c', c = Some c' →
    named_there w (cl_Name c') (ClaimObj m (cl_Name c')).
Definition left_ok s : Prop :=
  (∀ i t, ci_scs s !! i = Some t → class_ok i (tsc_storageClass t) (ci_world s)) ∧
  (∀ i t, ci_pvcs s !! i = Some t →
     claim_ok i (tpvc_namespace t) (tpvc_claim t) (ci_world s)).
Definition more_there (w w' : W) : Prop := ∀ o, there w o → there w' o.
Lemma class_ok_more i c w w' : more_there w w' → class_ok i c w → class_ok i c w'.
Proof. intros Hw Hc Hi. destruct (Hc Hi) as [?|?]; [by left|right; auto]. Qed.
Lemma claim_ok_more i m c w w' : more_there w w' → claim_ok i m c w → claim_ok i m c w'.
Proof. intros Hw Hc Hi c' Hc'. destruct (Hc Hi c' Hc') as [?|?]; [by left|right; auto]. Qed.
Lemma left_ok_more s w : more_there (ci_world s) w → left_ok s → left_ok (set_world w s).
Proof.
  intros Hw [Hc Hp]. split; simpl; intros i t Ht.
  - eapply class_ok_more; eauto.
  - eapply claim_ok_more; eauto.
Qed.

(** A request that takes nothing away, and what is known of its answer. *)
Lemma triple_request {A} (P Q : State → Prop) (R : A → W → Prop) (zero : A) (f : answer W A) :
  (∀ o, preserves (λ w, there w o) f) → (∀ w a, (f w).1 = inr a → R a (f w).2) →
  (∀ w, R zero w) → (∀ s w, more_there (ci_world s) w → P s → Q (set_world w s)) →
  triple P (kube_call zero f) (λ r s, Q s ∧ R r.1 (ci_world s)) Q.
Proof.
  intros Hf HR Hz HP s Hs. rewrite run_kube_call.
  assert (more_there (ci_world s) (f (ci_world s)).2) as Hm by (intros o; apply Hf).
  split; [by apply HP|]. simpl. destruct (f (ci_world s)) as [[e|a] w] eqn:E; simpl; [done|].
  replace w with (f (ci_world s)).2 by (by rewrite E). apply HR. by rewrite E.
Qed.
Lemma stable_request {A} (zero : A) (f : answer W A) :
  (∀ o, preserves (λ w, there w o) f) → stable left_ok (kube_call zero f).
Proof.
  intros Hf. eapply triple_weaken; [apply (triple_request left_ok left_ok (λ _ _, True));
    [done|done|done|intros ? ?; apply left_ok_more]|done|by intros ? ? []|done].
Qed.
Lemma stable_bind {A B} (p : prog State A) (k : A → prog State B) :
  stable left_ok p → (∀ a, stable left_ok (k a)) → stable left_ok (p ≫= k).
Proof. apply triple_bind. Qed.
Lemma stable_frame {A} (p : prog State A) : keeps left_ok p → stable left_ok p.
Proof. apply triple_keeps. Qed.
Lemma keeps_pods f : keeps left_ok (updates (set_pods f)).
Proof. apply keeps_updates. by intros s. Qed.
Lemma keeps_deps f : keeps left_ok (updates (set_deps f)).
Proof. apply keeps_updates. by intros s. Qed.
Hint Resolve keeps_pods keeps_deps : keeps.
Ltac frame := apply stable_frame; unfold the_sc, the_pvc, the_pod, the_dep, ExpectNoError, Equal,
  first_term, index, no_return; solve_keeps.

(** The store after an entry is added or replaced. *)
Lemma left_new_class sc m s :
  cs_Name sc = "" → left_ok s → left_ok (set_scs (λ l, (l ++ [mkTestSC sc m])%list) s).
Proof.
  intros Hn [Hc Hp]. split; [|exact Hp]. simpl. intros i t Ht.
  apply lookup_app_Some in Ht as [Ht|[_ Ht]]; [by apply Hc|].
  apply list_lookup_singleton_Some in Ht as [_ <-]. intros _. by left.
Qed.
Lemma left_set_class i sc m s :
  class_ok i sc (ci_world s) → left_ok s → left_ok (set_scs (<[i := mkTestSC sc m]>) s).
Proof.
  intros Hn [Hc Hp]. split; [|exact Hp]. simpl. intros j t Ht.
  apply list_lookup_insert_Some in Ht as [(<- & <- & _)|[_ Ht]]; [done|by apply Hc].
Qed.
Lemma left_new_claim t s :
  tpvc_claim t = None → left_ok s → left_ok (set_pvcs (λ l, (l ++ [t])%list) s).
Proof.
  intros Hn [Hc Hp]. split; [exact Hc|]. simpl. intros i t' Ht.
  apply lookup_app_Some in Ht as [Ht|[_ Ht]]; [by apply Hp|].
  apply list_lookup_singleton_Some in Ht as [_ <-]. intros _ c. by rewrite Hn.
Qed.
Lemma left_set_claim i t s :
  claim_ok i (tpvc_namespace t) (tpvc_claim t) (ci_world s) →
  left_ok s → left_ok (set_pvcs (<[i := t]>) s).
Proof.
  intros Hn [Hc Hp]. split; [exact Hc|]. simpl. intros j t' Ht.
  apply list_lookup_insert_Some in Ht as [(<- & <- & _)|[_ Ht]]; [done|by apply Hp].
Qed.

(** ** The steps of a set-up *)

Lemma stable_new_class sc m :
  cs_Name sc = "" → stable left_ok (NewTestStorageClass (W := W) m sc).
Proof.
  intros Hn. unfold NewTestStorageClass. apply stable_bind; [frame|]. intros i.
  apply stable_bind; [|intros ?; frame].
  intros s Hs. simpl. by apply left_new_class.
Qed.
Lemma stable_sc_Create i : stable left_ok (sc_Create_ i).
Proof.
  unfold sc_Create_. apply stable_bind; [frame|]. intros t.
  eapply triple_bind.
  { apply (triple_request left_ok left_ok (λ c w, class_ok i c w)).
    - intros o. by apply stays_class.
    - intros w a E _. right. by apply made_class.
    - intros w _. by left.
    - intros s w. apply left_ok_more. }
  intros [sc err]. eapply (triple_bind _ _ _ (λ _, left_ok)); [|intros ?; frame].
  intros s [Hs Hc]. simpl. by apply left_set_class.
Qed.
Lemma stable_new_pvc t : tpvc_claim t = None → stable left_ok (new_pvc (W := W) t).
Proof.
  intros Hn. unfold new_pvc. apply stable_bind; [frame|]. intros i.
  apply stable_bind; [|intros ?; frame]. intros s Hs. simpl. by apply left_new_claim.
Qed.

(** A claim that is read from the store. *)
Definition claim_read (i : nat) (t : TestPersistentVolumeClaim) s : Prop :=
  left_ok s ∧ claim_ok i (tpvc_namespace t) (tpvc_claim t) (ci_world s).
Lemma triple_the_pvc i : triple left_ok (the_pvc i) (claim_read i) left_ok.
Proof.
  intros s Hs. unfold the_pvc. rewrite run_bind, run_reads. cbn [seq_run].
  destruct (ci_pvcs s !! i) as [t|] eqn:Et; [|done]. split; [done|]. by apply Hs.
Qed.
Lemma claim_read_more i t s w :
  more_there (ci_world s) w → claim_read i t s → claim_read i t (set_world w s).
Proof. intros Hw [Hs Hc]. split; [by apply left_ok_more|by eapply claim_ok_more]. Qed.
Lemma triple_forget {A} i t (p : prog State A) :
  stable left_ok p → triple (claim_read i t) p (λ _, left_ok) left_ok.
Proof. intros Hp. eapply triple_weaken; [exact Hp|by intros s []|done|done]. Qed.

Lemma stable_set_claims i t requested c w :
  triple (λ s, left_ok s ∧ claim_ok i (tpvc_namespace t) c (ci_world s))
    (set_claims (W := W) i t requested c) (λ _, left_ok) w.
Proof. intros s [Hs Hc]. simpl. by apply left_set_claim. Qed.

(** The claim that a request answers is there. *)
Lemma triple_claim_request i m (f : answer W claim) :
  (∀ o, preserves (λ w, there w o) f) →
  (∀ w c, (f w).1 = inr c → there (f w).2 (ClaimObj m (cl_Name c))) →
  triple left_ok (kube_call zero_claim f)
    (λ r s, left_ok s ∧ claim_ok i m (Some r.1) (ci_world s)) left_ok.
Proof.
  intros Hf Hc. apply (triple_request left_ok left_ok (λ c w, claim_ok i m (Some c) w)).
  - exact Hf.
  - intros w c E _ c' [= <-]. right. by apply Hc.
  - intros w _ c' [= <-]. by left.
  - intros s w. apply left_ok_more.
Qed.
Lemma stable_pvc_Create i : stable left_ok (pvc_Create_ i).
Proof.
  unfold pvc_Create_. apply stable_bind; [frame|]. intros t.
  apply stable_bind; [unfold generatePVC; frame|]. intros requested.
  eapply triple_bind; [apply (triple_claim_request i (tpvc_namespace t))|].
  - intros o. by apply stays_claim.
  - intros w c. by apply made_claim.
  - intros [c err]. eapply triple_bind; [apply stable_set_claims|]. intros ?. frame.
Qed.
Lemma stable_WaitForBound i : stable left_ok (pvc_WaitForBound i).
Proof.
  unfold pvc_WaitForBound. apply stable_bind; [frame|]. intros t.
  apply stable_bind; [frame|]. intros c.
  apply stable_bind; [unfold kube_do; apply stable_bind|].
  { apply stable_request. intros o. by apply stays_phase. }
  { intros [? ?]. frame. }
  intros err. apply stable_bind; [frame|]. intros ?.
  eapply triple_bind; [apply (triple_claim_request i (tpvc_namespace t))|].
  - intros o. by apply stays_read.
  - intros w c'. by apply read_claim.
  - intros [c' err']. eapply triple_bind; [apply stable_set_claims|]. intros ?. frame.
Qed.
Lemma stable_Validate i : stable left_ok (ValidateProvisionedPersistentVolume (W := W) i).
Proof.
  unfold ValidateProvisionedPersistentVolume.
  eapply triple_bind; [apply triple_the_pvc|]. intros t.
  eapply (triple_bind _ _ _ (λ _, claim_read i t)).
  { intros s Hs. destruct (tpvc_claim t); simpl; [done|apply Hs]. }
  intros c. eapply (triple_bind _ _ _ (λ _, claim_read i t)).
  { eapply triple_weaken; [apply (triple_request (claim_read i t) (claim_read i t) (λ _ _, True));
      [intros o; by apply stays_volume|done|done|intros ? ?; apply claim_read_more]|done| |].
    - by intros ? ? [].
    - by intros ? []. }
  intros [pv err]. eapply (triple_bind _ _ _ (λ _, left_ok)).
  { intros s [Hs Hc]. unfold set_volume. simpl. by apply left_set_claim. }
  intros ?. frame.
Qed.

Lemma stable_SetupClaim v :
  stable left_ok (SetupDynamicPersistentVolumeClaim driverName parameters ns v).
Proof.
  unfold SetupDynamicPersistentVolumeClaim.
  apply stable_bind; [by apply stable_new_class|]. intros tsc.
  apply stable_bind; [apply stable_sc_Create|]. intros created.
  apply stable_bind; [destruct (v_DataSource v); by apply stable_new_pvc|]. intros tpvc.
  apply stable_bind; [apply stable_pvc_Create|]. intros ?.
  apply stable_bind; [|intros ?; frame].
  case_decide; [|frame].
  apply stable_bind; [apply stable_WaitForBound|]. intros ?. apply stable_Validate.
Qed.
Lemma stable_setup_volumes tpod volumes mount :
  (∀ i j n v, stable left_ok (mount i j n v)) →
  stable left_ok (setup_volumes (W := W) driverName parameters ns tpod volumes mount).
Proof.
  intros Hm. unfold setup_volumes. apply stable_bind; [|intros ?; frame].
  eapply triple_weaken; [apply (triple_for_range (λ _, left_ok) (λ _, left_ok)
    (λ _, left_ok) left_ok); [done|]|done|by intros [?|?] ?|done].
  intros [n v] funcs _.
  eapply (triple_weaken left_ok left_ok _ (λ _, left_ok) _ left_ok);
    [|done|by intros [?|?|?] ?|done].
  apply stable_bind; [apply stable_SetupClaim|]. intros [tpvc l].
  apply stable_bind; [apply Hm|]. intros ?. by apply triple_ret.
Qed.
Lemma keeps_set_pod i f : keeps left_ok (set_pod (W := W) i f).
Proof. unfold set_pod, the_pod. solve_keeps. Qed.
Hint Resolve keeps_set_pod : keeps.
Lemma stable_mount_volume i j n v : stable left_ok (mount_volume (W := W) i j n v).
Proof. unfold mount_volume, SetupVolume. frame. Qed.
Lemma stable_mount_block i j n v : stable left_ok (mount_block (W := W) i j n v).
Proof. unfold mount_block, SetupRawBlockVolume. frame. Qed.
Hint Resolve stable_mount_volume stable_mount_block : core.
Lemma stable_SetupPod p :
  stable left_ok (SetupWithDynamicVolumes (W := W) driverName parameters ns p).
Proof.
  unfold SetupWithDynamicVolumes. apply stable_bind; [unfold NewTestPod; frame|]. intros tpod.
  apply stable_bind; [by apply stable_setup_volumes|]. intros ?. frame.
Qed.
Lemma stable_SetupMultiple p :
  stable left_ok (SetupWithDynamicMultipleVolumes (W := W) driverName parameters ns p).
Proof.
  unfold SetupWithDynamicMultipleVolumes. apply stable_bind; [unfold NewTestPod; frame|].
  intros tpod. apply stable_bind; [|intros ?; frame]. apply stable_setup_volumes.
  intros i j n v. by destruct (v_VolumeMode v).
Qed.
Lemma stable_SetupDeployment p :
  stable left_ok (SetupDeployment (W := W) driverName parameters ns p).
Proof.
  unfold SetupDeployment. apply stable_bind; [frame|]. intros volume.
  apply stable_bind; [by apply stable_new_class|]. intros tsc.
  apply stable_bind; [apply stable_sc_Create|]. intros created.
  apply stable_bind; [by apply stable_new_pvc|]. intros tpvc.
  apply stable_bind; [apply stable_pvc_Create|]. intros ?.
  apply stable_bind; [apply stable_WaitForBound|]. intros ?.
  apply stable_bind; [apply stable_Validate|]. intros ?.
  apply stable_bind; [frame|]. intros t. apply stable_bind; [|intros ?; frame].
  unfold NewTestDeployment. apply stable_bind; [|intros ?; frame].
  intros s Hs. rewrite run_outside. apply left_ok_more; [|done]. intros o. by apply stays_rand.
Qed.
End Left.

Definition nothing_noted s : Prop := ci_defers s = [].
#[local] Instance nothing_noted_world : WorldFree nothing_noted.
Proof. by intros s w Hs. Qed.
Lemma keeps_nothing_noted (f : State → State) :
  (∀ s, ci_defers (f s) = ci_defers s) → keeps nothing_noted (updates f).
Proof. intros Hf. apply keeps_updates. intros s Hs. unfold nothing_noted. by rewrite Hf. Qed.
Hint Extern 1 (keeps nothing_noted (updates _)) => apply keeps_nothing_noted; done : keeps.
Lemma nothing_noted_SetupClaim v :
  keeps nothing_noted (SetupDynamicPersistentVolumeClaim driverName parameters ns v).
Proof.
  unfold SetupDynamicPersistentVolumeClaim, NewTestStorageClass, sc_Create_,
    NewTestPersistentVolumeClaim, NewTestPersistentVolumeClaimWithDataSource, new_pvc,
    pvc_Create_, generatePVC, pvc_WaitForBound, set_claims,
    ValidateProvisionedPersistentVolume, set_volume, first_term, Equal, ExpectNoError, the_sc,
    the_pvc, index, no_return.
  solve_keeps.
Qed.

Lemma nothing_noted_setup_volumes tpod volumes mount :
  (∀ i j n v, keeps nothing_noted (mount i j n v)) →
  keeps nothing_noted (setup_volumes (W := W) driverName parameters ns tpod volumes mount).
Proof.
  intros Hm. unfold setup_volumes, no_return. pose proof nothing_noted_SetupClaim. solve_keeps.
Qed.

(** ** The first set-up of a test *)

(** What a test sets up first; the objects are those of the store. *)
Definition first_setup (t : csi_test) : option (prog State unit) :=
  match t with
  | CmdVolumeTest (p :: _) | CollocatedPodTest (p :: _) _ | ReadOnlyVolumeTest (p :: _) =>
      Some (SetupWithDynamicVolumes driverName parameters ns p ;; mret tt)
  | PodWithMultiplePVsTest (p :: _) =>
      Some (SetupWithDynamicMultipleVolumes driverName parameters ns p ;; mret tt)
  | DeletePodTest p _ => Some (SetupDeployment driverName parameters ns p ;; mret tt)
  | ReclaimPolicyTest (v :: _) =>
      Some (SetupDynamicPersistentVolumeClaim driverName parameters ns v ;; mret tt)
  | _ => None
  end.
Lemma setup_panics {A B} (p : prog State A) (k : A → prog State B) s why s' :
  run (p ;; mret tt) s = (Panicked why, s') → run (p ≫= k) s = (Panicked why, s').
Proof. rewrite !run_bind. destruct (run p s) as [[a|w| |] s1]; [done|by intros [= -> ->]|done..]. Qed.
Ltac failed_first E :=
  match type of E with run (?p ;; mret tt) _ = _ => rewrite (setup_panics p _ _ _ _ E) end.
Lemma first_setup_ends t p s why s' :
  first_setup t = Some p → run p s = (Panicked why, s') →
  ∃ body, csi_run fuel driverName parameters ns t = with_defers fuel body ∧
    run body s = (Panicked why, s').
Proof.
  intros Ht E.
  destruct t as [[|q pods]|[|q pods] b|q check|[|q pods]|[|q pods]|[|v volumes]]; try done;
    apply (inj Some) in Ht as <-; (eexists; split; [reflexivity|]).
  - unfold each_pod. rewrite run_bind, run_for_range_cons, run_bind.
    by failed_first E.
  - rewrite run_bind, run_for_range_cons. by failed_first E.
  - by failed_first E.
  - unfold each_pod. rewrite run_bind, run_for_range_cons, run_bind.
    by failed_first E.
  - unfold each_pod. rewrite run_bind, run_for_range_cons, run_bind.
    by failed_first E.
  - rewrite run_bind, run_for_range_cons. by failed_first E.
Qed.
Lemma first_setup_notes_nothing t p : first_setup t = Some p → keeps nothing_noted p.
Proof.
  intros Ht. pose proof nothing_noted_SetupClaim. pose proof nothing_noted_setup_volumes.
  assert (∀ i j n v, keeps nothing_noted (mount_volume (W := W) i j n v)) as Hmv.
  { intros. unfold mount_volume, SetupVolume, set_pod, the_pvc, the_pod. solve_keeps. }
  assert (∀ i j n v, keeps nothing_noted (mount_block (W := W) i j n v)) as Hmb.
  { intros. unfold mount_block, SetupRawBlockVolume, set_pod, the_pvc, the_pod. solve_keeps. }
  assert (∀ q, keeps nothing_noted (SetupWithDynamicVolumes (W := W) driverName parameters ns q))
    as Hp.
  { intros q. unfold SetupWithDynamicVolumes, NewTestPod. solve_keeps. }
  destruct t as [[|q pods]|[|q pods] b|q check|[|q pods]|[|q pods]|[|v volumes]]; try done;
    apply (inj Some) in Ht as <-; apply keeps_bind; auto; try (intros ?; apply keeps_mret).
  - unfold SetupDeployment, NewTestStorageClass, sc_Create_, NewTestPersistentVolumeClaim,
      new_pvc, pvc_Create_, generatePVC, pvc_WaitForBound, set_claims,
      ValidateProvisionedPersistentVolume, set_volume, first_term, Equal, ExpectNoError, the_sc,
      the_pvc, index, no_return, NewTestDeployment. solve_keeps.
  - apply keeps_bind; [unfold NewTestPod; solve_keeps|]. intros i.
    apply keeps_bind; [|intros ?; apply keeps_mret].
    apply nothing_noted_setup_volumes. intros ? ? ? v. by destruct (v_VolumeMode v).
Qed.
Lemma first_setup_left there (Hmade : creation there) t p s0 s :
  first_setup t = Some p → left_ok there s0 s → left_ok there s0 (run p s).2.
Proof.
  intros Ht Hs. apply stable_run; [|done].
  destruct t as [[|q pods]|[|q pods] b|q check|[|q pods]|[|q pods]|[|v volumes]]; try done;
    apply (inj Some) in Ht as <-; (apply stable_bind; [|intros ?; by apply triple_ret]).
  - by apply stable_SetupPod.
  - by apply stable_SetupPod.
  - by apply stable_SetupDeployment.
  - by apply stable_SetupMultiple.
  - by apply stable_SetupPod.
  - by apply stable_SetupClaim.
Qed.

(** A class or a claim to which the API has given a name. *)
Definition api_named (o : object) : Prop :=
  match o with
  | StorageClassObj n | ClaimObj _ n => n ≠ ""
  | PodObj _ _ | DeploymentObj _ _ => False
  end.

(** (C39) A test of any of the six kinds whose first set-up fails cleans nothing up: when the
    set-up of its first pod, deployment or volume ends in a panic, for instance because the
    claim is not bound in time, the test ends in that panic and in the state it was in then,
    and every storage class and every claim that the API had made by then is still there.  The
    functions that delete them are handed out only when all is set up. *)
Theorem failed_setup_leaves_all there t p s why s' :
  creation there → first_setup t = Some p →
  run p (set_defers (λ _, []) s) = (Panicked why, s') →
  run (csi_run fuel driverName parameters ns t) s = (Panicked why, s') ∧
  ∀ c o, made s s' c → target s' c = Some o → api_named o → there (ci_world s') o.
Proof.
  intros Hmade Ht E. split.
  - destruct (first_setup_ends t p _ why s' Ht E) as (body & -> & Eb). unfold with_defers.
    rewrite run_bind, run_updates. cbn [seq_run]. rewrite run_bind, run_attempt, Eb.
    cbn [seq_run]. rewrite run_bind, run_reads. cbn [seq_run].
    pose proof (keeps_run _ _ (set_defers (λ _, []) s) (first_setup_notes_nothing t p Ht) eq_refl)
      as Hd. rewrite E in Hd. cbn [snd] in Hd. by rewrite Hd.
  - assert (left_ok there s (set_defers (λ _, []) s)) as Hs.
    { split; simpl; intros i x Hx Hi; apply lookup_lt_Some in Hx; lia. }
    pose proof (first_setup_left there Hmade t p s _ Ht Hs) as [Hc Hp]. rewrite E in Hc, Hp.
    cbn [snd] in Hc, Hp. intros c o Hm Ho Hn.
    destruct c as [i|i|i|i]; simpl in Hm, Ho.
    + destruct (ci_scs s' !! i) as [x|] eqn:Ex; [|done]. injection Ho as <-.
      by destruct (Hc i x Ex (proj1 Hm)).
    + destruct (ci_pvcs s' !! i) as [x|] eqn:Ex; [|done]. cbn [mbind option_bind] in Ho.
      destruct (tpvc_claim x) as [c|] eqn:Ec; [|done]. injection Ho as <-.
      by destruct (Hp i x Ex (proj1 Hm) c Ec).
    + destruct (ci_pods s' !! i); [injection Ho as <-|]; done.
    + destruct (ci_deps s' !! i); [injection Ho as <-|]; done.
Qed.

(** ** Pods on the same node *)

(** The pod is not on a node yet. *)
Definition unscheduled (i : nat) s : Prop :=
  ∀ t, ci_pods s !! i = Some t → tp_NodeName (tpo_pod t) = "".
#[local] Instance unscheduled_world i : WorldFree (unscheduled i).
Proof. by intros s w Hs. Qed.
Notation any := (λ _ : State, True).

Hypothesis created_unscheduled : ∀ m p w,
  match (cpod_Create m p w).1 with inr q => tp_NodeName q = "" | inl _ => True end.

Lemma triple_pod_Create i : triple any (pod_Create_ i) (λ _, unscheduled i) any.
Proof.
  unfold pod_Create_. eapply triple_bind; [by apply triple_keeps; unfold the_pod; solve_keeps|].
  intros t.
  eapply (triple_bind _ _ _ (λ r _, tp_NodeName r.1 = "")).
  - intros s _. rewrite run_kube_call.
    pose proof (created_unscheduled (tpo_namespace t) (tpo_pod t) (world s)) as Hc.
    by destruct (cpod_Create _ _ _).1.
  - intros [q err] s Hq. rewrite run_bind, run_updates. cbn [seq_run].
    assert (unscheduled i (set_pods <[i:=mkTestPod q (tpo_namespace t)]> s)) as Hu.
    { intros x Hx. apply list_lookup_insert_Some in Hx as [(_ & <- & _)|[? _]]; [exact Hq|done]. }
    unfold ExpectNoError. by destruct err.
Qed.

(** The body of a round of the test, for a pod of which no node is known. *)
Lemma round_unscheduled pod b :
  triple any
    ('(tpod, cleanup) ← SetupWithDynamicVolumes driverName parameters ns pod;
     (if decide (b = true ∧ "" ≠ "")
      then SetNodeSelector tpod {["name" := ""]} else mret tt) ;;
     defer_ cleanup ;;
     pod_Create_ tpod ;;
     defer_ [CleanupPod tpod] ;;
     pod_WaitForRunning tpod ;;
     t ← the_pod tpod;
     mret (Next (B := string) (R := Empty_set) (tp_NodeName (tpo_pod t))))
    (λ c _, c = Next "") any.
Proof.
  assert (∀ A (p : prog State A), triple any p (λ _, any) any) as Hany.
  { intros A p s _. by destruct (run p s) as [[] ?]. }
  eapply triple_bind; [apply Hany|]. intros [tpod funcs].
  do 2 (eapply triple_bind; [apply Hany|]; intros ?).
  eapply triple_bind; [apply triple_pod_Create|]. intros ?.
  eapply (triple_bind _ _ _ (λ _, unscheduled tpod)).
  { apply triple_keeps_weaken; [by apply keeps_updates|done]. }
  intros ?. eapply (triple_bind _ _ _ (λ _, unscheduled tpod)).
  { apply triple_keeps_weaken; [|done].
    unfold pod_WaitForRunning, the_pod, ExpectNoError. solve_keeps. }
  intros ?. eapply (triple_bind _ _ _ (λ t _, tp_NodeName (tpo_pod t) = "")).
  { intros s Hs. unfold the_pod. rewrite run_bind, run_reads. cbn [seq_run].
    destruct (ci_pods s !! tpod) as [t|] eqn:Et; [|done]. by apply Hs. }
  intros t. apply triple_ret. by intros s ->.
Qed.

(** (C29) The test that is to put its pods on the same node does not: the node of a pod is read
    from the answer to its creation, when it has none yet, and so the selector is never set.
    If the cluster schedules pods after it has created them, the test with colocation does
    exactly what it does without. *)
Theorem colocation_has_no_effect pods s :
  run (csi_run fuel driverName parameters ns (CollocatedPodTest pods true)) s =
  run (csi_run fuel driverName parameters ns (CollocatedPodTest pods false)) s.
Proof.
  cbn [csi_run]. unfold DynamicallyProvisionedCollocatedPodTest_Run, with_defers.
  rewrite !run_bind, run_updates. cbn [seq_run]. rewrite !run_bind, !run_attempt, !run_bind.
  match goal with |- seq_run (match seq_run (run (for_range _ _ ?bt) _) _ with _ => _ end) _ =
    seq_run (match seq_run (run (for_range _ _ ?bf) _) _ with _ => _ end) _ =>
    assert (∀ s1, run (for_range pods "" bt) s1 = run (for_range pods "" bf) s1) as -> end;
    [|done].
  induction pods as [|pod pods IH]; intros s1; [done|].
  rewrite !run_for_range_cons.
  match goal with |- seq_run (run ?p _) _ = seq_run (run ?q _) _ =>
    assert (run p s1 = run q s1) as <- end.
  { rewrite !run_bind.
    destruct (run (SetupWithDynamicVolumes _ _ _ _) s1) as [[[tpod funcs]|why| |] s2];
      cbn [seq_run]; [|done..].
    rewrite !decide_False by naive_solver. done. }
  pose proof (round_unscheduled pod true s1 I) as Hr.
  destruct (run _ s1) as [[c|why| |] s2]; cbn [seq_run]; [|done..].
  rewrite Hr. apply IH.
Qed.
End Failures.

(** ** Witnesses *)

(** A cluster that does as it is asked: the last claim, what was made and is there, what was
    deleted, and whether claims are bound. *)
Record CsiWorld := mkCsiWorld {
  cw_claim : claim; cw_there : list object; cw_deleted : list object; cw_binds : bool;
  cw_time : Z }.
#[local] Instance object_dec : EqDecision object.
Proof. solve_decision. Defined.
Definition yes {A} (a : A) (w : CsiWorld) : (goerror + A) * CsiWorld := (inr a, w).
Definition not_found : goerror := GoError "not found" NotFound.
Definition deletes (o : object) (w : CsiWorld) : (goerror + unit) * CsiWorld :=
  (inr tt, mkCsiWorld (cw_claim w) (filter (λ o', o' ≠ o) (cw_there w)) (o :: cw_deleted w)
             (cw_binds w) (cw_time w)).
Definition makes {A} (o : object) (a : A) (w : CsiWorld) : (goerror + A) * CsiWorld :=
  (inr a, mkCsiWorld (cw_claim w) (o :: cw_there w) (cw_deleted w) (cw_binds w) (cw_time w)).
Definition csi_volume (w : CsiWorld) : persistent_volume :=
  mkPersistentVolume "pv-1" None (cl_Request (cw_claim w)) (cl_AccessModes (cw_claim w))
    (Some (cl_Name (cw_claim w), cl_Namespace (cw_claim w))) ReclaimDelete [] None false.
Definition csi_pod (name : string) (p : tester_pod) : tester_pod :=
  mkTesterPod name (tp_GenerateName p) (tp_Image p) (tp_Command p) (tp_Args p)
    (tp_VolumeMounts p) (tp_VolumeDevices p) (tp_RestartPolicy p) (tp_Volumes p)
    (tp_NodeSelector p) "" "Pending" "" "".

#[local] Instance csi_api : CsiApi CsiWorld := {
  csc_Create c := makes (StorageClassObj (cs_GenerateName c +:+ "x")) (mkStorageClass (cs_GenerateName c +:+ "x") (cs_GenerateName c)
    (cs_Provisioner c) (cs_Parameters c) (cs_MountOptions c) (cs_ReclaimPolicy c)
    (cs_VolumeBindingMode c) (cs_AllowedTopologies c) (cs_AllowVolumeExpansion c));
  csc_Delete n := deletes (StorageClassObj n);
  cpvc_Create m c w :=
    let c := mkClaim "pvc-x" (cl_GenerateName c) m (cl_StorageClassName c) (cl_AccessModes c)
      (cl_Request c) (cl_VolumeMode c) (cl_DataSource c) "pv-1" in
    (inr c, mkCsiWorld c (ClaimObj m "pvc-x" :: cw_there w) (cw_deleted w) (cw_binds w)
              (cw_time w));
  cpvc_Get m n w :=
    (if decide (ClaimObj m (cl_Name (cw_claim w)) ∈ cw_there w) then inr (cw_claim w)
     else inl not_found, w);
  cpv_Get _ w := (inr (csi_volume w), w);
  cpv_Patch _ _ w := (inr (csi_volume w), w);
  cpod_Create m p := yes (csi_pod "tester-x" p);
  cpod_Delete _ _ := yes tt;
  cpod_Logs _ _ := yes "";
  cdep_Create m d := yes d;
  cdep_Delete m n := deletes (DeploymentObj m n);
  rand_Int w := (7%Z, w);
  fw_DeletePVC n m := deletes (ClaimObj m n);
  fw_DeletePV _ := yes tt;
  fw_WaitForPVDeleted _ _ _ := yes tt;
  fw_WaitForClaimPhase _ _ _ w := (if cw_binds w then inr tt else inl not_found, w);
  fw_WaitForPVPhase _ _ _ _ := yes tt;
  fw_WaitForPodCondition _ _ _ _ _ := yes tt;
  fw_WaitForPodSuccess _ _ := yes tt;
  fw_WaitForPodRunning _ _ := yes tt;
  fw_WaitForPodNoLongerRunning _ _ := yes tt;
  fw_DeletePodOrFail m n := deletes (PodObj m n);
  fw_WaitForDeploymentComplete _ := yes tt;
  fw_GetPodsForDeployment _ := yes [];
  fw_LookForStringInPodExec _ _ _ _ _ := yes tt;
}.
#[local] Instance csi_clock : Clock CsiWorld := {
  clock_now w := (cw_time w, w);
  clock_sleep d w :=
    mkCsiWorld (cw_claim w) (cw_there w) (cw_deleted w) (cw_binds w) (cw_time w + d);
}.
#[local] Instance csi_texts : CsiTexts := {
  parse_quantity _ := Some 50%Z;
  merge_patch _ _ := inr "{}";
  busybox := "busybox";
  duration_text _ := "5m0s";
}.
Definition in_deleted (w : CsiWorld) (o : object) : Prop := o ∈ cw_deleted w.
Lemma in_deleted_deletion : deletion in_deleted.
Proof. split; unfold in_deleted, preserves; simpl; set_solver. Qed.

Definition in_there (w : CsiWorld) (o : object) : Prop := o ∈ cw_there w.
Lemma in_there_creation : creation in_there.
Proof.
  split; unfold in_there, preserves; simpl; intros; repeat case_decide; simplify_eq/=;
    set_solver.
Qed.

Definition csi_start (binds : bool) : Csi CsiWorld :=
  mkCsi [] [] [] [] [] (mkCsiWorld zero_claim [] [] binds 0).
Definition small_volume : VolumeDetails :=
  mkVolumeDetails [] "50Mi" None None [] FileSystem
    (mkMountDetails "test-volume-" "/mnt/test-" false) (mkDeviceDetails "" "") None.
Definition hello_pod : PodDetails := mkPodDetails "echo hello" [small_volume].

Lemma passed_test_deletes_all_witness :
  ∃ s', run (csi_run 2 "io.openebs.csi-mayastor" ∅ "e2e" (CmdVolumeTest [hello_pod]))
          (csi_start true) = (Ret tt, s') ∧
    StorageClassObj "e2e-io.openebs.csi-mayastor-dynamic-sc-x" ∈ cw_deleted (ci_world s').
Proof.
  assert (∃ s', run (csi_run 2 "io.openebs.csi-mayastor" ∅ "e2e" (CmdVolumeTest [hello_pod]))
          (csi_start true) = (Ret tt, s') ∧ made (csi_start true) s' (CleanupSC 0) ∧
    target s' (CleanupSC 0) =
      Some (StorageClassObj "e2e-io.openebs.csi-mayastor-dynamic-sc-x")) as (s' & E & Hm & Ht).
  { eexists. split; [vm_compute; reflexivity|]. split; [simpl; lia|reflexivity]. }
  exists s'. split; [exact E|].
  exact (passed_test_deletes_all 2 "io.openebs.csi-mayastor" ∅ "e2e" in_deleted
    in_deleted_deletion (CmdVolumeTest [hello_pod]) (csi_start true) s' E (CleanupSC 0) _ Hm Ht).
Defined.

(** The claim is not bound in time: the class and the claim that were made are there. *)
Lemma failed_setup_leaves_all_witness :
  ∃ why s', run (csi_run 2 "io.openebs.csi-mayastor" ∅ "e2e" (DeletePodTest hello_pod None))
          (csi_start false) = (Panicked why, s') ∧
    StorageClassObj "e2e-io.openebs.csi-mayastor-dynamic-sc-x" ∈ cw_there (ci_world s') ∧
    ClaimObj "e2e" "pvc-x" ∈ cw_there (ci_world s').
Proof.
  set (t := DeletePodTest hello_pod None).
  assert (∃ why s', run (SetupDeployment "io.openebs.csi-mayastor" ∅ "e2e" hello_pod ;; mret tt)
      (set_defers (λ _, []) (csi_start false)) = (Panicked why, s') ∧
    (made (csi_start false) s' (CleanupSC 0) ∧ target s' (CleanupSC 0) =
       Some (StorageClassObj "e2e-io.openebs.csi-mayastor-dynamic-sc-x")) ∧
    (made (csi_start false) s' (CleanupPVC 0) ∧
     target s' (CleanupPVC 0) = Some (ClaimObj "e2e" "pvc-x")))
    as (why & s' & E & [Hm1 Ht1] & [Hm2 Ht2]).
  { eexists _, _. split; [vm_compute; reflexivity|].
    split; (split; [simpl; lia|reflexivity]). }
  exists why, s'.
  destruct (failed_setup_leaves_all 2 "io.openebs.csi-mayastor" ∅ "e2e" in_there t _
    (csi_start false) why s' in_there_creation eq_refl E) as [Er Hl].
  split; [exact Er|]. split; [apply (Hl _ _ Hm1 Ht1)|apply (Hl _ _ Hm2 Ht2)]; discriminate.
Defined.

Lemma colocation_has_no_effect_witness :
  run (csi_run 2 "io.openebs.csi-mayastor" ∅ "e2e"
         (CollocatedPodTest [hello_pod; hello_pod] true)) (csi_start true) =
  run (csi_run 2 "io.openebs.csi-mayastor" ∅ "e2e"
         (CollocatedPodTest [hello_pod; hello_pod] false)) (csi_start true).
Proof.
  apply (colocation_has_no_effect 2 "io.openebs.csi-mayastor" ∅ "e2e").
  intros m p w. reflexivity.
Defined.
